(* ===== verification/_CoqProject ===== *)
-Q . S2P
Prelude.v
GoStrings.v
GoSlices.v
Api.v
PathValidation.v
PathLang.v
LuaPattern.v
LuaCapture.v
LuaConvert.v
LuaMatch.v
LuaRead.v
Objects.v
State.v
Examples.v
LuaScript.v
LuaScriptRead.v
LuaDecision.v
Kube.v
Memory.v
MemoryFacts.v
DeepCopy.v
DeepCopyFacts.v
LuaResponse.v
Resolver.v
ResolverFacts.v
LuaResponseFacts.v
Generators.v
GeneratorFacts.v
IstioPolicy.v
Istio.v
IstioExample.v
Enforcement.v
Consistency.v
Reconciliation.v
ReconciliationFacts.v
Resources.v
ResourcesFacts.v
MemoryServer.v
Status.v
StatusFacts.v
StatusStability.v
Metrics.v
Controller.v
ControllerFacts.v
Cluster.v
NoPanic.v
Collector.v
Webhook.v
EventHandlers.v
EventFacts.v
Manager.v
WebhookFacts.v
Startup.v
CrdDownload.v
CrdDownloadFacts.v
Convergence.v
SecondCall.v
Exposure.v
SteadyState.v
Aliasing.v
Setup.v
Permissions.v
Events.v
Isolation.v
