(* ===== verification/Prelude.v ===== *)
(** * Ztoperator: a verification development

    Ztoperator is a Kubernetes operator. A user declares an AuthPolicy for a
    workload; the operator turns it into six objects that make the Istio sidecar
    of the workload authenticate and authorize requests, keeps these objects as
    generated, and reports in the policy's status. This library models the
    operator's Go code under src/, the Lua script it generates, and the tool that
    downloads the definitions it is tested with, and proves what they do.

    ** The program and the files that model it

    - The data. [Prelude] (this file): results of Go computations ([go]: a value,
      an error or a panic), strings, tactics. [GoStrings]: the functions of
      [strings] that are used. [GoSlices]: slices with shared backing arrays and
      [append]. [Api]: api/v1alpha1/authpolicy_types.go, with the admission rules
      of its kubebuilder markers. [Objects]: the Kubernetes and Istio objects.
      [State]: internal/state, internal/names, pkg/labels.
    - Copies. [Memory]: a store of typed variables and arrays, pointers, slices and
      maps as references into it, and the code the copies are made of;
      [MemoryFacts]: what it means that a copy is separate. [DeepCopy]:
      api/v1alpha1/zz_generated.deepcopy.go, with [DeepCopyFacts]. [Aliasing]: the
      policy that [Reconcile] reads and the copy it patches, in that memory.
    - Paths. [PathValidation]: pkg/validation/path_*.go. [PathLang]: the language
      of request paths that a path denotes, the specification of what follows.
    - The Lua script. [LuaConvert]: the converters and the escaping of
      pkg/luascript; [LuaScript]: lua_script_generator.go, the template's text
      and its [envoy_on_request]; [LuaResponse]: its [envoy_on_response].
      [LuaPattern]: matching by Lua patterns; [LuaCapture]: with captures, and
      [string.gmatch]; [LuaRead], [LuaScriptRead]: readers of the generated text;
      [LuaMatch], [LuaDecision], [LuaResponseFacts]: the theorems.
    - Resolution. [Kube]: reads of the cluster; [Resolver]: internal/resolver and
      pkg/rest; [ResolverFacts]: the theorems.
    - Generation. [Generators]: RequestAuthentication, Secret and EnvoyFilter;
      [GeneratorFacts]. [IstioPolicy]: the three AuthorizationPolicies; [Istio]:
      the interface to Istio's evaluation; [Enforcement]: what the policies
      enforce; [Consistency]: the script and the policies agree.
    - Reconciliation. [Reconciliation]: pkg/reconciliation, the engine for one
      object; [Resources]: internal/reconciler, the six objects, and the
      controller's loop over them; [ReconciliationFacts], [ResourcesFacts].
      [Status]: internal/statusmanager; [StatusFacts], [StatusStability].
      [Metrics]: pkg/metrics, the gauge; [Collector]: its collector, as a
      goroutine that interleaves with the controller. [Controller]:
      internal/controller, one call of [Reconcile] as a function of the cluster,
      the recorded calls and the gauge; [ControllerFacts]; [NoPanic]: a call
      returns. [Events]: the events it records. [Convergence]: that the steps of a run
      over all six objects do not undo each other; [SecondCall]: the next call has
      nothing to do; [SteadyState]: nor has any call after it, and the status stays
      too; [Exposure]: what a run establishes, and what requests meet between its
      steps; [Isolation]: calls for different policies do not meet.
    - Around the controller. [EventHandlers]: internal/eventhandler, with
      [EventFacts]; [Manager]: what [SetupWithManager] registers; [Permissions]: the role that
      the markers above [Reconcile] ask for. [Webhook]:
      internal/webhook and pkg/validation/pod_annotation_validation.go, with
      [WebhookFacts]. [Startup]: cmd/main.go; [Setup]: its [init] and
      groupversion_info.go, pkg/config and pkg/log.
    - The tool. [CrdDownload]: hack/url2crd, with [CrdDownloadFacts].
    - Instances. [Examples], [IstioExample], [MemoryServer], [Cluster]: concrete
      inputs and instances of the interfaces, at which theorems with hypotheses
      are instantiated.

    A call of [Controller.Reconcile] reads the policy, adds the standard labels,
    resolves it ([resolveAuthPolicy]), validates its paths ([validateAuthPolicy]),
    builds the six resources ([ControllerResources]), reconciles each of them
    ([doReconcile], [ReconcileControllerResource]) and writes the status
    ([UpdateAuthPolicyStatus], [UpdateStatus]); definitions have the names of the
    Go functions, prefixed by the package where several share one ([GetDesired],
    [EventHandler]).

    ** What is shown

    - What reaches the application. The generated AuthorizationPolicies let
      through exactly what the AuthPolicy admits, up to a memory-sharing defect of
      the ALLOW rules that only rejects more ([policies_enforce],
      [shared_cell_rejects_admitted]); an invalid configuration denies everything
      ([invalid_config_denies_all]); the generators refine specifications without
      a heap ([deny_policy_refines], [require_policy_refines]).
    - What is redirected to a login. A path's Lua pattern is equivalent to the
      path's language ([lua_pattern_equiv]); the generated script, read back, is
      the policy's configuration ([script_roundtrip], [rule_table_roundtrip],
      [EscapeLuaString_roundtrip], [login_params_roundtrip]); its decisions on
      requests and its changes of responses are the intended ones
      ([request_decision], [response_decision]) and agree with the policies ([bypass_is_admitted]); the
      OAuth2 filter reacts to them and finds its secrets
      ([oauth_filter_follows_script], [sds_secrets_exist]).
    - Resolution succeeds exactly on the inputs meant ([audiences_resolve_iff],
      [credentials_resolve_iff], [discovery_resolves_iff],
      [resolved_script_endpoints]).
    - A call of [Reconcile] does not panic for an admitted policy, up to the port of
      the token endpoint and texts that are not UTF-8 ([reconcile_no_panic],
      [token_port_bounds], [lua_pattern_no_panic], [auto_login_objects_total],
      [issuer_not_utf8_panics]); the generated conditions are well-typed slices ([specified_rules_well_formed]).
    - Safety and convergence of reconciliation ([reconcile_ownership_safe],
      [reconcile_touches_owned], [reconcile_converges], [reconcile_reports],
      [up_to_date_content]), for one object and for a whole run
      ([successful_run_establishes], [second_run_idle]), two calls ([second_call_idle])
      and any number of calls ([steady_state]), and for different policies
      ([policies_isolated]). A run closes the workload if the configuration is
      invalid ([invalid_run_closes]), from the first step on
      ([rejected_throughout]); opening is not atomic ([opening_window]).
    - The status ([reconcile_status_truthful], [phase_ready_iff],
      [phase_pending_iff], [status_stable], [status_written_iff],
      [unparsable_uri_hides_status]), the events ([events_tell_outcome]) and the metrics ([metrics_exact],
      [tick_restores], [collector_crashes]).
    - Copies. A generated deep copy has the same content and shares no memory with
      its original ([deep_copy_separate]), so that the controller, which the model
      describes with values, does the same on the variables of the code
      ([reconcile_labels_refine]).
    - Pods and watches ([pod_admitted_iff], [admitted_pod_mounts_generated],
      [change_enqueues_dependents], [relevant_events_enqueue],
      [own_writes_do_not_requeue]), and that the operator's role is enough for all of
      it ([role_suffices]).
    - The start of the process ([manager_starts_iff], [http2_disabled],
      [scheme_complete], [load_git_ref]), the
      admission of references ([key_ref_names]) and the CRD tool
      ([status_subresource_ensured], [written_files]).
    - Defects, as theorems at concrete inputs: [redirect_path_not_escaped],
      [no_paths_bypassed_and_denied],
      [token_port_panics], [invalid_client_id_panics], [changed_action_not_restored],
      [empty_end_session_endpoint], [rewrite_loses_values],
      [stale_series_until_next_tick], [local_guard_passed_by],
      [same_name_overwrites], [warnings_below_debug], [secure_metrics_refused].

    ** Code outside the repository

    Istio's evaluation ([IstioMatch], [IstioAuthz], [IstioPaths]), the API server
    ([Client], [PolicyClient], [Reader], [ClusterReader]; [ApiServer],
    [StatusServer], [ActionServer] and the frames [PolicyFrame], [KeyFrame],
    [TypeFrame], [StatusApart], [ReadsApart], [PatchApart] for what theorems ask of it; [Quiet] that failures
    are errors), owner references ([Ownership], [OwnershipByReferences],
    [OwnershipByUID]),
    [url.Parse] ([UrlParser], [UrlPath]), structpb, kyaml, the YAML of the tool and
    JSON ([StructPb], [Yaml], [YamlCodec], [Json]), [reflect.DeepEqual] on protobuf
    messages ([DeepEqual]), names that are UTF-8 ([Utf8Names]), [retry.RetryOnConflict]
    ([Retry]), controller-runtime's dispatch of events ([Runtime]), the deep copies of
    the API machinery ([MetaCopy], [MetaCopyLaws]), envconfig ([EnvConfig]),
    [runtime.Scheme] and the libraries' registrations ([Scheme], [Libraries]), the capacity of
    allocations ([Growth]) and the order of map iterations ([MapOrder]), in Go and
    in Lua, are classes: definitions take an instance, and the laws a theorem needs are fields
    of the class or of a class of laws. A theorem with such laws holds for every
    instance that has them, and is instantiated at one.

    ** Bounds and fuel

    The readers of Lua text take fuel; [read_entries] and its callers start from the
    length of the text, and the round trips prove that this is enough. The code's
    own loops are structural recursions, and so are the matchers of Lua patterns
    and the scan of [string.gmatch]; the collector's loop is a step function
    that blocks where [finish] says. [Atoi] has the range of a 64-bit [int].
    [attempts] repeats a status update as often as the instance of [Retry] says. The
    loops of the deep copies are recursions over the elements that are copied.

    ** Abstractions

    A nil and an empty slice are the same list (the code tests lengths or passes the
    slice on), except in the deep copies, which keep them apart. [reflect.DeepEqual] on
    the protobuf messages of the Istio objects, which depends on more than their
    content, is an instance of [DeepEqual]: what it takes for equal has the same
    content, and no more is asked of it; so a run may patch an object with itself.
    Labels, statuses and tokens are compared by content. A number in a structpb value is
    a float64, whose rounding above [2 ^ 53] the laws of structpb allow for. A label of
    the metrics that is not UTF-8 is a panic, as in the Prometheus client. A write of
    a file that fails may leave any text behind. Strings are byte sequences. Pointers are options, and a dereference of nil is a panic; where aliasing
    matters they are references ([GoSlices], [Memory]). A generated [DeepCopyInto]
    is a function from the fields of its receiver to those of the copy, and a
    pointer refers to a whole variable. Permissions are those of a cluster role, as
    Kubernetes documents them. A
    call to the API server is a function of the cluster: what other clients do in
    between may be part of that function. A refresh of one policy's series is
    one step of the collector. In the CRD tool the case mapping and the trimming of
    names are those of ASCII. The admission rules are the ones that reach the
    definition under config/crd/bases; the patterns of paths and resources do not.

    ** Not modelled

    The text of log lines, and contexts: neither reaches the cluster or a result.
    The mock client of pkg/helperfunctions, which only tests use. The registration
    of the pod webhook and the construction of the loggers, which are single calls
    of controller-runtime.

    ** Extensions planned

    The parts of the program are modelled; what remains is to strengthen theorems:
    several policies for one workload, whose objects Istio evaluates together. *)

From Stdlib Require Export Ascii Lia.
From stdpp Require Export base strings gmap fin_maps option list.

#[global] Open Scope stdpp_scope.

(** ** Results of Go computations

    A Go function that returns [(T, error)] and may also panic is a value of
    [go T]: [Ok v] is [v, nil], [Err e] is a non-nil error with message [e],
    [Panic m] is a run-time panic (a nil dereference or an explicit [panic]). *)
Inductive go (A : Type) : Type :=
  | Ok (a : A)
  | Err (e : string)
  | Panic (m : string).
Arguments Ok {A} a.
Arguments Err {A} e.
Arguments Panic {A} m.

#[global] Instance go_ret : MRet go := λ A a, Ok a.
#[global] Instance go_bind : MBind go := λ A B f m,
  match m with Ok a => f a | Err e => Err e | Panic p => Panic p end.
#[global] Instance go_fmap : FMap go := λ A B f m,
  match m with Ok a => Ok (f a) | Err e => Err e | Panic p => Panic p end.
#[global] Instance go_eq_dec {A} `{EqDecision A} : EqDecision (go A).
Proof. solve_decision. Defined.

(** [fmt.Errorf("...: %w", err)]: the error is prefixed, a panic is not. *)
Definition wrap_err {A} (prefix : string) (m : go A) : go A :=
  match m with Err e => Err (prefix +:+ e) | _ => m end.

Definition is_ok {A} (m : go A) : bool := match m with Ok _ => true | _ => false end.
Definition is_panic {A} (m : go A) : bool := match m with Panic _ => true | _ => false end.

Lemma bind_no_panic {A B} (f : A → go B) (m : go A) :
  is_panic m = false → (∀ a, m = Ok a → is_panic (f a) = false) → is_panic (m ≫= f) = false.
Proof. destruct m; cbn; auto. Qed.

Lemma wrap_err_no_panic {A} p (m : go A) : is_panic (wrap_err p m) = is_panic m.
Proof. by destruct m. Qed.

(** A computation known to succeed, by a check of its result. *)
Lemma ok_match {A} (P : A → Prop) (m : go A) :
  match m with Ok a => P a | _ => False end → ∃ a, m = Ok a ∧ P a.
Proof. destruct m; [by eexists|done..]. Qed.

(** Dereference of a pointer: Go panics on nil. *)
Definition deref {A} (p : option A) : go A :=
  match p with
  | Some a => Ok a
  | None => Panic "invalid memory address or nil pointer dereference"
  end.

Lemma Ok_inj {A} (a b : A) : Ok a = Ok b → a = b.
Proof. congruence. Qed.

Lemma go_bind_ok {A B} (f : A → go B) (m : go A) b :
  m ≫= f = Ok b ↔ ∃ a, m = Ok a ∧ f a = Ok b.
Proof.
  split; [destruct m; cbn; intros; simplify_eq; eauto|by intros (a & -> & ?)].
Qed.

Lemma wrap_err_ok {A} p (m : go A) a : wrap_err p m = Ok a ↔ m = Ok a.
Proof. destruct m; cbn; naive_solver. Qed.

(** ** Strings *)

#[global] Arguments String.append !_ _ / : simpl nomatch.

(** A double quote cannot be written inside a string literal. *)
Definition dquote : ascii := "034"%char.
Definition dq : string := String dquote EmptyString.

Create HintDb zto.
Create Rewrite HintDb str.

Lemma str_app_nil_r (s : string) : s +:+ "" = s.
Proof. induction s as [|c s IH]; cbn; [done|by rewrite IH]. Qed.

Lemma str_app_assoc (s t u : string) : (s +:+ t) +:+ u = s +:+ t +:+ u.
Proof. induction s as [|c s IH]; cbn; [done|by rewrite IH]. Qed.

Lemma str_app_cons c (s t : string) : String c s +:+ t = String c (s +:+ t).
Proof. done. Qed.

Lemma str_length_app (s t : string) :
  String.length (s +:+ t) = String.length s + String.length t.
Proof. induction s as [|c s IH]; cbn; [done|by rewrite IH]. Qed.

#[export] Hint Rewrite str_app_nil_r str_app_assoc str_app_cons : str.

(** Concatenation of a list of strings (a [strings.Builder]'s content). *)
Fixpoint concat_str (l : list string) : string :=
  match l with [] => "" | s :: l => s +:+ concat_str l end.

Lemma concat_str_app l k : concat_str (l ++ k) = concat_str l +:+ concat_str k.
Proof. induction l as [|s l IH]; cbn; [done|by rewrite IH, str_app_assoc]. Qed.

(** [all_chars P s]: every byte of [s] satisfies [P]. *)
Fixpoint all_chars (P : ascii → bool) (s : string) : bool :=
  match s with "" => true | String c s => P c && all_chars P s end.

Lemma all_chars_app P s t : all_chars P (s +:+ t) = all_chars P s && all_chars P t.
Proof. induction s as [|c s IH]; cbn; [done|by rewrite IH, andb_assoc]. Qed.

Lemma all_chars_impl (P Q : ascii → bool) s :
  (∀ c, P c = true → Q c = true) → all_chars P s = true → all_chars Q s = true.
Proof.
  intros HPQ. induction s as [|c s IH]; cbn; [done|].
  rewrite !andb_true_iff. naive_solver.
Qed.

(** ** Lists *)

Lemma Forall2_cons_l {A B} (P : A → B → Prop) x l k :
  Forall2 P (x :: l) k ↔ ∃ y k', k = y :: k' ∧ P x y ∧ Forall2 P l k'.
Proof.
  split; [intros (y & k' & ? & ? & ->)%Forall2_cons_inv_l; eauto 6|].
  intros (y & k' & -> & ? & ?). by constructor.
Qed.

(** ** Proof automation *)

(** Case analysis on the scrutinee of the next [match] or [if]. *)
Ltac case_step :=
  match goal with
  | |- context [match ?x with _ => _ end] => destruct x eqn:?
  | H : context [match ?x with _ => _ end] |- _ => destruct x eqn:?
  end.

(** Invert a computation in [go] known to have returned. *)
Ltac go_inv :=
  repeat match goal with
  | H : (_ ≫= _) = Ok _ |- _ => apply go_bind_ok in H as (? & ? & ?)
  | H : wrap_err _ _ = Ok _ |- _ => apply wrap_err_ok in H
  | H : Ok _ = Ok _ |- _ => apply Ok_inj in H; subst
  | H : mret _ = Ok _ |- _ => apply Ok_inj in H; subst
  | H : Err _ = Ok _ |- _ => discriminate H
  | H : Panic _ = Ok _ |- _ => discriminate H
  end.

(** Reassociate string concatenations to the right. *)
Ltac str_assoc :=
  repeat match goal with
  | |- context [String.append (String.append ?a ?b) ?c] => rewrite (str_app_assoc a b c)
  end.

(** Boolean connectives as propositions. *)
Ltac bools :=
  repeat match goal with
  | H : _ && _ = true |- _ => apply andb_true_iff in H as [? ?]
  | H : _ && _ = false |- _ => apply andb_false_iff in H
  | H : _ || _ = false |- _ => apply orb_false_iff in H as [? ?]
  | H : _ || _ = true |- _ => apply orb_true_iff in H
  | H : negb _ = true |- _ => apply negb_true_iff in H
  | H : negb _ = false |- _ => apply negb_false_iff in H
  | |- _ && _ = true => apply andb_true_iff; split
  | |- negb _ = true => apply negb_true_iff
  | |- negb _ = false => apply negb_false_iff
  end.
