(* ===== verification/GoStrings.v ===== *)
(** * The part of Go's [strings] package the operator uses

    A Go string is a byte sequence, here a [string]. The functions below are the
    documented behaviour of their namesakes for the arguments the operator passes:
    one-byte cutsets and separators, non-empty search strings. *)

From S2P Require Import Prelude.

(** ** Slicing *)

(** [s[n:]] and [s[:n]]. *)
Fixpoint str_drop (n : nat) (s : string) : string :=
  match n, s with
  | 0, _ => s
  | S n, "" => ""
  | S n, String _ s => str_drop n s
  end.

Fixpoint str_take (n : nat) (s : string) : string :=
  match n, s with
  | 0, _ => ""
  | S n, "" => ""
  | S n, String c s => String c (str_take n s)
  end.

(** ** Prefixes and suffixes *)

Fixpoint HasPrefix (s p : string) {struct p} : bool :=
  match p, s with
  | "", _ => true
  | String a p, String b s => Ascii.eqb a b && HasPrefix s p
  | String _ _, "" => false
  end.

Definition HasSuffix (s suf : string) : bool :=
  Nat.leb (String.length suf) (String.length s) &&
  String.eqb (str_drop (String.length s - String.length suf) s) suf.

Definition TrimSuffix (s suf : string) : string :=
  if HasSuffix s suf then str_take (String.length s - String.length suf) s else s.

Definition TrimPrefix (s p : string) : string :=
  if HasPrefix s p then str_drop (String.length p) s else s.

(** ** Searching *)

(** [strings.ContainsRune]/[ContainsAny] for ASCII characters. *)
Fixpoint ContainsChar (s : string) (c : ascii) : bool :=
  match s with "" => false | String a s => Ascii.eqb a c || ContainsChar s c end.

Fixpoint ContainsAny (s chars : string) : bool :=
  match s with "" => false | String a s => ContainsChar chars a || ContainsAny s chars end.

Fixpoint Contains (s sub : string) : bool :=
  HasPrefix s sub || match s with "" => false | String _ s => Contains s sub end.

(** [strings.Count] of a one-byte substring. *)
Fixpoint CountChar (s : string) (c : ascii) : nat :=
  match s with "" => 0 | String a s => (if Ascii.eqb a c then 1 else 0) + CountChar s c end.

(** ** Replacing *)

(** [strings.ReplaceAll] for a non-empty [old]: non-overlapping occurrences from
    the left. [skip] counts the bytes of an occurrence still to be passed over. *)
Fixpoint replace_go (old new : string) (skip : nat) (s : string) : string :=
  match s with
  | "" => ""
  | String c s' =>
      match skip with
      | S k => replace_go old new k s'
      | 0 => if HasPrefix s old
             then new +:+ replace_go old new (String.length old - 1) s'
             else String c (replace_go old new 0 s')
      end
  end.
Definition ReplaceAll (s old new : string) : string := replace_go old new 0 s.

(** [strings.NewReplacer] whose old strings are all single bytes: each byte is
    mapped independently. *)
Fixpoint byte_replace (f : ascii → string) (s : string) : string :=
  match s with "" => "" | String c s => f c +:+ byte_replace f s end.

(** ** Trimming, splitting and joining *)

Fixpoint TrimLeftChar (s : string) (c : ascii) : string :=
  match s with
  | "" => ""
  | String a s' => if Ascii.eqb a c then TrimLeftChar s' c else s
  end.

Fixpoint TrimRightChar (s : string) (c : ascii) : string :=
  match s with
  | "" => ""
  | String a s' =>
      match TrimRightChar s' c with
      | "" => if Ascii.eqb a c then "" else String a ""
      | t => String a t
      end
  end.

(** [strings.Trim] with a one-byte cutset. *)
Definition TrimChar (s : string) (c : ascii) : string := TrimRightChar (TrimLeftChar s c) c.

(** [strings.Split] with a one-byte separator. *)
Fixpoint SplitChar (s : string) (c : ascii) : list string :=
  match s with
  | "" => [""]
  | String a s' =>
      if Ascii.eqb a c then "" :: SplitChar s' c
      else match SplitChar s' c with
           | [] => [String a ""]
           | seg :: segs => String a seg :: segs
           end
  end.

Fixpoint join_char (c : ascii) (l : list string) : string :=
  match l with
  | [] => ""
  | [s] => s
  | s :: l => s +:+ String c (join_char c l)
  end.

(** [n] copies of a byte. *)
Fixpoint repeat_char (n : nat) (c : ascii) : string :=
  match n with 0 => "" | S n => String c (repeat_char n c) end.

(** ** Lemmas *)

Lemma ascii_eqb_spec (a b : ascii) : Bool.reflect (a = b) (Ascii.eqb a b).
Proof. apply Ascii.eqb_spec. Qed.

Lemma ascii_eqb_false (a b : ascii) : a ≠ b → Ascii.eqb a b = false.
Proof. apply Ascii.eqb_neq. Qed.

Lemma str_drop_app s t : str_drop (String.length s) (s +:+ t) = t.
Proof. induction s; cbn; auto. Qed.

Lemma str_take_app s t : str_take (String.length s) (s +:+ t) = s.
Proof. induction s as [|c s IH]; cbn; [by destruct t|by rewrite IH]. Qed.

Lemma str_take_drop n s : str_take n s +:+ str_drop n s = s.
Proof. revert s. induction n as [|n IH]; intros [|c s]; cbn; try done. by rewrite IH. Qed.

Lemma HasPrefix_head_ne a b s p : a ≠ b → HasPrefix (String b s) (String a p) = false.
Proof. intros H. cbn [HasPrefix]. by rewrite ascii_eqb_false. Qed.

Lemma HasPrefix_app p t : HasPrefix (p +:+ t) p = true.
Proof. induction p as [|c p IH]; cbn; [by destruct t|by rewrite Ascii.eqb_refl, IH]. Qed.

Lemma HasPrefix_true s p : HasPrefix s p = true ↔ ∃ t, s = p +:+ t.
Proof.
  split.
  - revert s. induction p as [|a p IH]; intros [|b s]; cbn; try done; eauto.
    rewrite andb_true_iff. intros [->%Ascii.eqb_eq (t & ->)%IH]. eauto.
  - intros (t & ->). apply HasPrefix_app.
Qed.

Lemma HasSuffix_app s suf : HasSuffix (s +:+ suf) suf = true.
Proof.
  unfold HasSuffix. rewrite str_length_app.
  replace (_ + _ - _) with (String.length s) by lia. rewrite str_drop_app, String.eqb_refl.
  rewrite andb_true_r. apply Nat.leb_le. lia.
Qed.

Lemma HasSuffix_true s suf : HasSuffix s suf = true ↔ ∃ p, s = p +:+ suf.
Proof.
  split.
  - unfold HasSuffix. intros H. bools. apply String.eqb_eq in H0.
    exists (str_take (String.length s - String.length suf) s).
    rewrite <-H0 at 2. by rewrite str_take_drop.
  - intros (p & ->). apply HasSuffix_app.
Qed.

Lemma TrimSuffix_app s suf : TrimSuffix (s +:+ suf) suf = s.
Proof.
  unfold TrimSuffix. rewrite HasSuffix_app, str_length_app.
  replace (_ + _ - _) with (String.length s) by lia. apply str_take_app.
Qed.

(** A suffix test followed by a trim splits the string. *)
Lemma HasSuffix_trim s suf : HasSuffix s suf = true → s = TrimSuffix s suf +:+ suf.
Proof. intros (p & ->)%HasSuffix_true. by rewrite TrimSuffix_app. Qed.

Lemma ContainsChar_all s c : ContainsChar s c = negb (all_chars (λ a, negb (Ascii.eqb a c)) s).
Proof. induction s as [|a s IH]; cbn; [done|]. rewrite IH. by destruct (Ascii.eqb a c). Qed.

Lemma ContainsAny_all s cs : ContainsAny s cs = negb (all_chars (λ a, negb (ContainsChar cs a)) s).
Proof. induction s as [|a s IH]; cbn; [done|]. rewrite IH. by destruct (ContainsChar cs a). Qed.

Lemma ContainsAny_app s t cs : ContainsAny (s +:+ t) cs = ContainsAny s cs || ContainsAny t cs.
Proof. induction s as [|a s IH]; cbn; [done|]. by rewrite IH, orb_assoc. Qed.

Lemma CountChar_app s t c : CountChar (s +:+ t) c = CountChar s c + CountChar t c.
Proof. induction s as [|a s IH]; cbn; [done|]. rewrite IH. lia. Qed.

Lemma CountChar_0 s c : CountChar s c = 0 ↔ all_chars (λ a, negb (Ascii.eqb a c)) s = true.
Proof.
  induction s as [|a s IH]; cbn; [done|]. destruct (Ascii.eqb a c); cbn; [|exact IH].
  split; [lia|done].
Qed.

Lemma Contains_app_r s sub : Contains (s +:+ sub) sub = true.
Proof.
  induction s as [|c s IH]; cbn.
  - destruct sub; cbn; [done|]. pose proof (HasPrefix_app (String a sub) "") as H.
    rewrite str_app_nil_r in H. cbn in H. by rewrite H.
  - by rewrite IH, orb_true_r.
Qed.

(** *** Replacement, chunk by chunk *)

Lemma replace_go_skip old new s t :
  replace_go old new (String.length s) (s +:+ t) = replace_go old new 0 t.
Proof. induction s as [|c s IH]; cbn; [done|exact IH]. Qed.

Lemma ReplaceAll_hit old new t :
  old ≠ "" → ReplaceAll (old +:+ t) old new = new +:+ ReplaceAll t old new.
Proof.
  intros Hne. destruct old as [|c old]; [done|]. unfold ReplaceAll.
  pose proof (HasPrefix_app (String c old) t) as Hp.
  rewrite str_app_cons in *. cbn [replace_go]. rewrite Hp.
  cbn [String.length]. rewrite Nat.sub_succ, Nat.sub_0_r.
  by rewrite (replace_go_skip (String c old) new old t).
Qed.

Lemma ReplaceAll_miss old new c t :
  HasPrefix (String c t) old = false →
  ReplaceAll (String c t) old new = String c (ReplaceAll t old new).
Proof. intros H. unfold ReplaceAll. cbn [replace_go]. by rewrite H. Qed.

(** A byte that does not start the searched string is copied. *)
Lemma ReplaceAll_head_ne a old new c t :
  c ≠ a → ReplaceAll (String c t) (String a old) new = String c (ReplaceAll t (String a old) new).
Proof.
  intros Hne. by apply ReplaceAll_miss, HasPrefix_head_ne.
Qed.

Lemma ReplaceAll_inert a old new s t :
  all_chars (λ c, negb (Ascii.eqb c a)) s = true →
  ReplaceAll (s +:+ t) (String a old) new = s +:+ ReplaceAll t (String a old) new.
Proof.
  induction s as [|c s IH]; [done|]. intros H. cbn in H. bools.
  rewrite str_app_cons, ReplaceAll_head_ne, IH; auto. by apply Ascii.eqb_neq.
Qed.

(** Replacing a one-byte string maps every byte independently. *)
Lemma ReplaceAll_byte c new s :
  ReplaceAll s (String c "") new =
  byte_replace (λ a, if Ascii.eqb a c then new else String a "") s.
Proof.
  induction s as [|a s IH]; [done|]. cbn [byte_replace]. rewrite <-IH.
  destruct (ascii_eqb_spec a c) as [->|Hne].
  - by apply (ReplaceAll_hit (String c "") new s).
  - by rewrite ReplaceAll_head_ne.
Qed.

Lemma byte_replace_app f s t : byte_replace f (s +:+ t) = byte_replace f s +:+ byte_replace f t.
Proof. induction s as [|c s IH]; cbn; [done|]. by rewrite IH, str_app_assoc. Qed.

Lemma byte_replace_id f s :
  all_chars (λ c, String.eqb (f c) (String c "")) s = true → byte_replace f s = s.
Proof.
  induction s as [|c s IH]; cbn; [done|]. intros H. bools. apply String.eqb_eq in H.
  by rewrite H, (IH H0).
Qed.

(** *** Trimming and splitting *)

Lemma TrimLeftChar_spec c s : ∃ n, s = repeat_char n c +:+ TrimLeftChar s c.
Proof.
  induction s as [|a s [n IH]]; cbn; [by exists 0|].
  destruct (ascii_eqb_spec a c) as [->|]; [|by exists 0].
  exists (S n). cbn. by rewrite <-IH.
Qed.

Lemma TrimRightChar_spec c s : ∃ n, s = TrimRightChar s c +:+ repeat_char n c.
Proof.
  induction s as [|a s [n IH]]; cbn; [by exists 0|].
  destruct (TrimRightChar s c) eqn:Ht.
  - destruct (ascii_eqb_spec a c) as [->|].
    + exists (S n). cbn. cbn in IH. by rewrite <-IH.
    + exists n. cbn. cbn in IH. by rewrite <-IH.
  - exists n. cbn in *. by rewrite <-IH.
Qed.

(** Trimming only removes copies of the byte at both ends. *)
Lemma TrimChar_spec c s : ∃ n m, s = repeat_char n c +:+ TrimChar s c +:+ repeat_char m c.
Proof.
  destruct (TrimLeftChar_spec c s) as [n Hn].
  destruct (TrimRightChar_spec c (TrimLeftChar s c)) as [m Hm].
  exists n, m. unfold TrimChar. by rewrite <-Hm, <-Hn.
Qed.

Lemma SplitChar_nonempty c s : SplitChar s c ≠ [].
Proof. destruct s as [|a s]; cbn; [done|]. destruct (Ascii.eqb a c); [done|]. by destruct (SplitChar s c). Qed.

Lemma join_SplitChar c s : join_char c (SplitChar s c) = s.
Proof.
  induction s as [|a s IH]; cbn; [done|].
  pose proof (SplitChar_nonempty c s) as Hne.
  destruct (ascii_eqb_spec a c) as [->|Ha].
  - destruct (SplitChar s c) as [|x l]; [done|]. cbn in *. by rewrite IH.
  - destruct (SplitChar s c) as [|x [|y l]]; cbn in *; [done|by rewrite IH|by rewrite IH].
Qed.

Lemma join_char_cons c s l : l ≠ [] → join_char c (s :: l) = s +:+ String c (join_char c l).
Proof. by destruct l. Qed.

(** ** UTF-8 ([utf8.ValidString]) *)

Definition between (a b n : nat) : bool := Nat.leb a n && Nat.leb n b.

(** What follows a first byte: how many continuation bytes, and the range of the
    next one. *)
Definition utf8_first (n : nat) : option (nat * (nat * nat)) :=
  if Nat.leb n 127 then Some (0, (128, 191))
  else if between 194 223 n then Some (1, (128, 191))
  else if Nat.eqb n 224 then Some (2, (160, 191))
  else if Nat.eqb n 237 then Some (2, (128, 159))
  else if between 225 239 n then Some (2, (128, 191))
  else if Nat.eqb n 240 then Some (3, (144, 191))
  else if between 241 243 n then Some (3, (128, 191))
  else if Nat.eqb n 244 then Some (3, (128, 143))
  else None.

Fixpoint utf8_go (pending : nat) (range : nat * nat) (s : string) : bool :=
  match s with
  | "" => Nat.eqb pending 0
  | String c s =>
      let n := nat_of_ascii c in
      match pending with
      | 0 => match utf8_first n with Some (k, r) => utf8_go k r s | None => false end
      | S k => between range.1 range.2 n && utf8_go k (128, 191) s
      end
  end.
Definition utf8_valid (s : string) : bool := utf8_go 0 (128, 191) s.

Lemma utf8_go_app k r s t : utf8_go k r s = true → utf8_go k r (s +:+ t) = utf8_go 0 (128, 191) t.
Proof.
  revert k r. induction s as [|c s IH]; intros k r.
  - cbn [utf8_go String.append]. intros ->%Nat.eqb_eq. destruct t; [done|]. cbn. done.
  - cbn [utf8_go String.append]. destruct k as [|k].
    + destruct (utf8_first _) as [[k' r']|]; [apply IH|done].
    + rewrite andb_true_iff. intros [-> Hs]. by apply IH.
Qed.

Lemma utf8_valid_app s t : utf8_valid s = true → utf8_valid t = true → utf8_valid (s +:+ t) = true.
Proof. unfold utf8_valid. intros Hs Ht. by rewrite utf8_go_app. Qed.
