(* ===== verification/GoSlices.v ===== *)
(** * Go slices with shared backing arrays

    [append] writes into the backing array of its argument when there is spare
    capacity and allocates a larger array otherwise, so two slices grown from the
    same one may share cells. The heap is a list of backing arrays; a cell holding
    [None] is the zero value (a nil pointer). How much capacity an allocation gets
    is not fixed by the language: it is an instance of [Growth]. *)

From S2P Require Import Prelude.

(** Capacity of a slice made by [slices.Concat] from [n] elements, and of the
    array allocated when an element is appended to a full slice of capacity [c]. *)
Class Growth := {
  concat_cap : nat → nat;
  append_cap : nat → nat;
  concat_cap_ge n : n ≤ concat_cap n;
  append_cap_gt c : c < append_cap c;
}.

(** The gc runtime's size classes up to 512 bytes, for 8-byte pointers, in
    elements. [slices.Concat] rounds up to the size class, and so does [append]
    after doubling. Larger allocations are taken as they are requested. *)
Definition size_classes : list nat :=
  [0; 1; 2; 3; 4; 6; 8; 10; 12; 14; 16; 18; 20; 22; 24; 26; 28; 30; 32; 36; 40; 44; 48; 52; 56; 60; 64].

Definition round_up (n : nat) : nat :=
  default n (head (filter (λ c, n ≤ c) size_classes)).

Lemma round_up_ge n : n ≤ round_up n.
Proof.
  unfold round_up. destruct (filter _ _) as [|c l] eqn:Hf; cbn; [done|].
  assert (c ∈ filter (λ c, n ≤ c) size_classes) as Hc by (rewrite Hf; left).
  by apply list_elem_of_filter in Hc as [? _].
Qed.

#[global] Program Instance go_growth : Growth := {|
  concat_cap := round_up;
  append_cap c := round_up (if decide (c = 0) then 1 else 2 * c);
|}.
Next Obligation. apply round_up_ge. Qed.
Next Obligation.
  intros c. cbn. eapply Nat.lt_le_trans; [|apply round_up_ge]. case_decide; lia.
Qed.

(** An allocator that never leaves spare capacity after [slices.Concat]. *)
Program Definition exact_growth : Growth := {| concat_cap n := n; append_cap c := S c |}.
Next Obligation. done. Qed.
Next Obligation. intros; cbn; lia. Qed.

Section slices.
Context {A : Type}.

(** A heap of backing arrays. *)
#[local] Abbreviation heap := (list (list (option A))).

Record slice := Slice { sl_arr : nat; sl_len : nat; sl_cap : nat }.

Definition array (h : heap) (i : nat) : list (option A) := default [] (h !! i).

(** The elements of a slice; below its length every cell is written. *)
Definition read (h : heap) (s : slice) : list A :=
  omap id (take (sl_len s) (array h (sl_arr s))).

Definition alloc (h : heap) (a : list (option A)) : heap * nat := (h ++ [a], length h).

Definition pad (c : nat) (l : list (option A)) : list (option A) :=
  l ++ replicate (c - length l) None.

(** [slices.Concat(..)], given the concatenated elements. *)
Definition slices_concat `{Growth} (h : heap) (l : list A) : heap * slice :=
  let c := concat_cap (length l) in
  let '(h', i) := alloc h (pad c (Some <$> l)) in
  (h', Slice i (length l) c).

(** [append(s, x)]. *)
Definition append `{Growth} (h : heap) (s : slice) (x : A) : heap * slice :=
  if decide (sl_len s < sl_cap s) then
    (<[sl_arr s := <[sl_len s := Some x]> (array h (sl_arr s))]> h,
     Slice (sl_arr s) (S (sl_len s)) (sl_cap s))
  else
    let c := append_cap (sl_cap s) in
    let '(h', i) := alloc h (pad c (take (sl_len s) (array h (sl_arr s)) ++ [Some x])) in
    (h', Slice i (S (sl_len s)) c).

(** The loop [for _, x := range xs { s = append(s, x) }]. *)
Fixpoint append_all `{Growth} (h : heap) (s : slice) (xs : list A) : heap * slice :=
  match xs with
  | [] => (h, s)
  | x :: xs => let '(h', s') := append h s x in append_all h' s' xs
  end.

Lemma take_take_le (l : list (option A)) n m : n ≤ m → take n (take m l) = take n l.
Proof. intros. rewrite take_take. f_equal. lia. Qed.

(** *** Well-formed slices *)

Definition wf (h : heap) (s : slice) : Prop :=
  ∃ a, h !! sl_arr s = Some a ∧ length a = sl_cap s ∧ sl_len s ≤ sl_cap s ∧
       Forall is_Some (take (sl_len s) a).

(** [h] becomes [h'] by allocating new arrays and by writing the cells of array
    [b] from index [n] on. *)
Definition evolves (b n : nat) (h h' : heap) : Prop :=
  ∀ i a, h !! i = Some a → ∃ a',
    h' !! i = Some a' ∧ length a' = length a ∧ (i ≠ b → a' = a) ∧
    take n a' = take n a ∧
    (∀ k, is_Some (a !! k ≫= id) → is_Some (a' !! k ≫= id)).

Lemma evolves_refl b n h : evolves b n h h.
Proof. intros i a Ha. by exists a. Qed.

Lemma evolves_trans b n h1 h2 h3 : evolves b n h1 h2 → evolves b n h2 h3 → evolves b n h1 h3.
Proof.
  intros H12 H23 i a Ha. destruct (H12 i a Ha) as (a2 & Ha2 & Hl2 & Hne2 & Ht2 & Hs2).
  destruct (H23 i a2 Ha2) as (a3 & Ha3 & Hl3 & Hne3 & Ht3 & Hs3).
  exists a3. split_and!; auto; try congruence.
  intros Hne. rewrite Hne3 by done. auto.
Qed.

Lemma Forall_is_Some_take (a : list (option A)) n :
  Forall is_Some (take n a) ↔ ∀ k, k < n → k < length a → is_Some (a !! k ≫= id).
Proof.
  rewrite Forall_lookup. split.
  - intros H k Hk Hl. destruct (lookup_lt_is_Some_2 a k Hl) as [o Ho].
    rewrite Ho. apply (H k). by rewrite lookup_take_lt.
  - intros H k o Ho. apply lookup_take_Some in Ho as [Ho Hk].
    specialize (H k Hk (lookup_lt_Some _ _ _ Ho)). by rewrite Ho in H.
Qed.

Lemma evolves_wf b n h h' s : evolves b n h h' → wf h s → wf h' s.
Proof.
  intros He (a & Ha & Hl & Hlen & Hf). destruct (He _ _ Ha) as (a' & Ha' & Hl' & _ & _ & Hs).
  exists a'. split_and!; auto; [congruence|].
  rewrite Forall_is_Some_take in *. rewrite Hl'. auto.
Qed.

(** Arrays other than [b] are unchanged, so are the slices on them. *)
Lemma evolves_read_ne b n h h' s :
  evolves b n h h' → wf h s → sl_arr s ≠ b → read h' s = read h s.
Proof.
  intros He (a & Ha & _) Hne. destruct (He _ _ Ha) as (a' & Ha' & _ & Heq & _).
  unfold read, array. by rewrite Ha, Ha', (Heq Hne).
Qed.

(** A slice no longer than [n] is unchanged as well. *)
Lemma evolves_read_le b n h h' s :
  evolves b n h h' → wf h s → sl_len s ≤ n → read h' s = read h s.
Proof.
  intros He (a & Ha & _) Hn. destruct (He _ _ Ha) as (a' & Ha' & _ & _ & Ht & _).
  unfold read, array. rewrite Ha, Ha'. cbn.
  by rewrite <-(take_take_le a (sl_len s) n), <-(take_take_le a' (sl_len s) n), Ht by done.
Qed.

Lemma omap_id_Some (l : list A) : omap id (Some <$> l) = l.
Proof. induction l as [|x l IH]; cbn; [done|by rewrite IH]. Qed.

Lemma length_omap_Some (l : list (option A)) : Forall is_Some l → length (omap id l) = length l.
Proof. induction 1 as [|o l [x ->] _ IH]; cbn; [done|by rewrite IH]. Qed.

Lemma length_read h s : wf h s → length (read h s) = sl_len s.
Proof.
  intros (a & Ha & Hl & Hlen & Hf). unfold read, array. rewrite Ha. cbn.
  rewrite length_omap_Some by done. rewrite length_take. lia.
Qed.

Lemma take_omap_Some n (l : list (option A)) :
  Forall is_Some l → take n (omap id l) = omap id (take n l).
Proof.
  intros H. revert n. induction H as [|o l [x ->] _ IH]; intros [|n]; cbn; try done. by rewrite IH.
Qed.

(** The first [n] elements of any slice are unchanged. *)
Lemma evolves_read_take b n h h' s :
  evolves b n h h' → wf h s → take n (read h' s) = take n (read h s).
Proof.
  intros He Hwf. destruct (evolves_wf _ _ _ _ _ He Hwf) as (a' & Ha' & Hl' & Hlen' & Hf').
  destruct Hwf as (a & Ha & Hl & Hlen & Hf). destruct (He _ _ Ha) as (a2 & Ha2 & _ & _ & Ht & _).
  simplify_eq. unfold read, array. rewrite Ha, Ha'. cbn.
  rewrite !take_omap_Some, !take_take by done.
  by rewrite !(Nat.min_comm n), <-!take_take, Ht.
Qed.

Section growth.
Context `{Growth}.

Lemma slices_concat_spec h l h' s :
  slices_concat h l = (h', s) →
  wf h' s ∧ read h' s = l ∧ sl_len s = length l ∧ sl_cap s = concat_cap (length l) ∧
  sl_arr s = length h.
Proof.
  unfold slices_concat, alloc, pad. intros [= <- <-]. cbn.
  pose proof (concat_cap_ge (length l)) as Hc.
  assert (take (length l) ((Some <$> l) ++ replicate (concat_cap (length l) - length (Some <$> l)) None)
          = Some <$> l) as Ht.
  { apply take_app_length'. by rewrite length_fmap. }
  split_and!; try done.
  - eexists. cbn. rewrite lookup_app_r, Nat.sub_diag by done. split_and!; try done.
    + rewrite length_app, length_replicate, length_fmap. lia.
    + rewrite Ht. apply Forall_fmap, Forall_true. eauto.
  - unfold read, array. cbn. rewrite lookup_app_r, Nat.sub_diag by done. cbn.
    by rewrite Ht, omap_id_Some.
Qed.

(** One [append]: what is read back, and which cells may have changed. *)
Lemma append_spec h s x h' s' :
  wf h s → append h s x = (h', s') →
  wf h' s' ∧ read h' s' = read h s ++ [x] ∧ sl_len s' = S (sl_len s) ∧
  evolves (sl_arr s) (sl_len s) h h' ∧
  (sl_arr s' = sl_arr s ∧ sl_len s < sl_cap s ∨
   sl_arr s' = length h ∧ sl_len s = sl_cap s).
Proof.
  intros (a & Ha & Hl & Hlen & Hf). unfold append, array. rewrite Ha. cbn [default from_option].
  assert (sl_arr s < length h) as Hlt by (by eapply lookup_lt_Some).
  case_decide as Hcap; unfold alloc; intros [= <- <-]; cbn.
  - assert (take (S (sl_len s)) (<[sl_len s:=Some x]> a) = take (sl_len s) a ++ [Some x]) as Ht.
    { rewrite take_S_r with (x := Some x) by (apply list_lookup_insert_eq; lia).
      by rewrite take_insert_ge by done. }
    split_and!; [| |done| |by left].
    + eexists. cbn. rewrite list_lookup_insert_eq by done. split_and!; try done.
      * by rewrite length_insert.
      * rewrite Ht. apply Forall_app; eauto.
    + unfold read, array. cbn. rewrite list_lookup_insert_eq, Ha by done. cbn.
      by rewrite Ht, omap_app.
    + intros i a0 Hi. destruct (decide (i = sl_arr s)) as [->|Hne].
      * simplify_eq. eexists. rewrite list_lookup_insert_eq by done. split_and!; try done.
        -- by rewrite length_insert.
        -- by rewrite take_insert_ge.
        -- intros k Hk. destruct (decide (k = sl_len s)) as [->|]; [|by rewrite list_lookup_insert_ne].
           rewrite list_lookup_insert_eq by lia. eauto.
      * exists a0. by rewrite list_lookup_insert_ne.
  - set (cells := take (sl_len s) a ++ [Some x]).
    assert (length cells = S (sl_len s)) as Hcl.
    { unfold cells. rewrite length_app, length_take. cbn. lia. }
    pose proof (append_cap_gt (sl_cap s)) as Hg.
    assert (evolves (sl_arr s) (sl_len s) h (h ++ [pad (append_cap (sl_cap s)) cells])) as Hev.
    { intros i a0 Hi. exists a0. split_and!; try done. by apply lookup_app_l_Some. }
    assert (take (S (sl_len s)) (pad (append_cap (sl_cap s)) cells) = cells) as Ht.
    { unfold pad. by apply take_app_length'. }
    split_and!; [| |done|apply Hev|right; split; [done|lia]].
    + eexists. cbn. rewrite lookup_app_r, Nat.sub_diag by done. split_and!; try done; try lia.
      * unfold pad. rewrite length_app, length_replicate. lia.
      * rewrite Ht. apply Forall_app; eauto.
    + unfold read, array. cbn. rewrite lookup_app_r, Nat.sub_diag, Ha by done. cbn.
      rewrite Ht. unfold cells. by rewrite omap_app.
Qed.

(** Growing a slice that lies on array [b] from index [n] on, or on an array
    that did not exist in [h0]. *)
Lemma append_all_spec b n h0 xs : ∀ h s h' s',
  evolves b n h0 h → length h0 ≤ length h → wf h s →
  (sl_arr s = b ∧ n ≤ sl_len s ∨ length h0 ≤ sl_arr s) →
  append_all h s xs = (h', s') →
  wf h' s' ∧ read h' s' = read h s ++ xs ∧ sl_len s' = sl_len s + length xs ∧
  evolves b n h0 h' ∧ length h0 ≤ length h' ∧
  (sl_arr s' = sl_arr s ∨ length h0 ≤ sl_arr s').
Proof.
  induction xs as [|x xs IH]; cbn; intros h s h' s' Hev Hlen Hwf Hs Happ.
  { simplify_eq. rewrite app_nil_r. split_and!; auto. }
  destruct (append h s x) as [h1 s1] eqn:H1.
  destruct (append_spec _ _ _ _ _ Hwf H1) as (Hwf1 & Hr1 & Hl1 & He1 & Hcase).
  assert (length h ≤ length h1) as Hh1.
  { revert H1. unfold append, alloc. case_decide; intros [= <- _]; rewrite ?length_insert, ?length_app; lia. }
  assert (evolves b n h0 h1) as Hev1.
  { intros i a Hi. destruct (Hev i a Hi) as (a1 & Hi1 & ? & Hne & ? & Hsm).
    destruct (He1 i a1 Hi1) as (a2 & Hi2 & ? & Hne2 & Ht2 & Hsm2).
    assert (i < length h0) as Hilt by (by eapply lookup_lt_Some).
    exists a2. split_and!; [done|congruence| | |auto].
    - intros Hib. rewrite Hne2; [by apply Hne|]. destruct Hs as [[-> _]|]; [done|lia].
    - destruct Hs as [[Hb Hn]|Hs]; [|by rewrite Hne2 by lia].
      rewrite <-(take_take_le a2 n (sl_len s)), Ht2, take_take_le by done. done. }
  apply IH in Happ as (? & Hr & Hl & ? & ? & Harr); try done; [|lia|].
  - split_and!; try done.
    + by rewrite Hr, Hr1, <-app_assoc.
    + lia.
    + destruct Harr as [->|]; [|by right]. destruct Hcase as [[-> _]|[-> _]]; [by left|right; lia].
  - destruct Hcase as [[-> _]|(-> & _)]; [|right; lia].
    destruct Hs as [[-> ?]|?]; [left; split; [done|lia]|by right].
Qed.

(** A full slice is never written through: growing it leaves every existing
    array as it was. *)
Lemma append_all_full h s xs h' s' :
  wf h s → sl_len s = sl_cap s → append_all h s xs = (h', s') →
  ∀ i a, h !! i = Some a → h' !! i = Some a.
Proof.
  intros Hwf Hfull Happ i a Hi.
  destruct (append_all_spec (sl_arr s) (sl_len s) h xs h s h' s') as (_ & _ & _ & Hev & _);
    auto using evolves_refl.
  destruct (Hev i a Hi) as (a' & -> & Hl & Hne & Ht & _). f_equal.
  destruct (decide (i = sl_arr s)) as [->|Hi']; [|by apply Hne].
  destruct Hwf as (a0 & Ha0 & Hl0 & _). simplify_eq.
  rewrite !take_ge in Ht by lia. done.
Qed.
End growth.
End slices.

Abbreviation heap A := (list (list (option A))).
