(* ===== verification/Api.v ===== *)
(** * The AuthPolicy API (api/v1alpha1/authpolicy_types.go)

    The custom resource's types, its accessors, and the admission rules the
    kubebuilder markers attach to the types. Pointers are options, [map]s are
    [gmap]s, a pointer to a slice is an [option] of a [list]. The Kubernetes
    metadata types hold the fields the operator reads or writes. *)

From S2P Require Import Prelude GoStrings.

(** ** Kubernetes metadata *)

Record OwnerReference := {
  ref_APIVersion : string;
  ref_Kind : string;
  ref_Name : string;
  ref_UID : string;
  ref_Controller : option bool;
}.

Record ObjectMeta := {
  Name : string;
  Namespace : string;
  UID : string;
  Generation : Z;
  Labels : option (gmap string string);
  Annotations : option (gmap string string);
  OwnerReferences : list OwnerReference;
  DeletionTimestamp : option Z;
}.

Record NamespacedName := { nn_Namespace : string; nn_Name : string }.

Inductive ConditionStatus := ConditionTrue | ConditionFalse | ConditionUnknown.

(** [metav1.Condition]; a time is a number of seconds. *)
Record MetaCondition := {
  cond_Type : string;
  cond_Status : ConditionStatus;
  cond_LastTransitionTime : Z;
  cond_Reason : string;
  cond_Message : string;
}.

#[global] Instance OwnerReference_eq_dec : EqDecision OwnerReference.
Proof. solve_decision. Defined.
#[global] Instance ObjectMeta_eq_dec : EqDecision ObjectMeta.
Proof. solve_decision. Defined.
#[global] Instance ConditionStatus_eq_dec : EqDecision ConditionStatus.
Proof. solve_decision. Defined.
#[global] Instance MetaCondition_eq_dec : EqDecision MetaCondition.
Proof. solve_decision. Defined.

(** Reading a nil Go map reads an empty one. *)
Definition map_or_empty (m : option (gmap string string)) : gmap string string := default ∅ m.

(** ** The AuthPolicy types *)

Record KeyRef := { kr_Name : string; kr_Key : string }.

Record ValueFrom := {
  ConfigMapKeyRef : option KeyRef;
  SecretKeyRef : option KeyRef;
}.

Record AllowedAudience := {
  aud_Value : option string;
  aud_ValueFrom : option ValueFrom;
}.

Record AutoLogin := {
  al_Enabled : bool;
  al_LoginPath : option string;
  al_RedirectPath : option string;
  al_LogoutPath : option string;
  al_PostLogoutRedirectURI : option string;
  al_Scopes : list string;
  al_LoginParams : gmap string string;
}.

Record OAuthCredentialsRef := {
  SecretRef : string;
  ClientSecretKey : string;
  ClientIDKey : string;
}.

Record WorkloadSelector := { MatchLabels : gmap string string }.

Record ClaimToHeader := { cth_Header : string; cth_Claim : string }.

Record Condition := { Claim : string; Values : list string }.

Record BaselineAuth := { Claims : list Condition }.

Record RequestMatcher := { Paths : list string; Methods : list string }.

Record RequestAuthRule := {
  rule_RequestMatcher : RequestMatcher;
  When : option (list Condition);
  DenyRedirect : option bool;
}.

Record AuthPolicySpec := {
  Enabled : bool;
  spec_AutoLogin : option AutoLogin;
  spec_OAuthCredentials : option OAuthCredentialsRef;
  WellKnownURI : string;
  AllowedAudiences : list AllowedAudience;
  ForwardJwt : option bool;
  OutputClaimToHeaders : option (list ClaimToHeader);
  AcceptedResources : option (list string);
  spec_BaselineAuth : option BaselineAuth;
  AuthRules : option (list RequestAuthRule);
  IgnoreAuthRules : option (list RequestMatcher);
  Selector : WorkloadSelector;
}.

(** [Phase] is a string type with four constants; [PhaseUnset] is its zero value. *)
Inductive Phase := PhaseUnset | PhasePending | PhaseReady | PhaseFailed | PhaseInvalid.

Record AuthPolicyStatus := {
  ObservedGeneration : Z;
  Conditions : option (list MetaCondition);
  status_Phase : Phase;
  status_Message : string;
  Ready : bool;
}.

Record AuthPolicy := {
  ap_Kind : string;
  ap_Meta : ObjectMeta;
  Spec : AuthPolicySpec;
  Status : AuthPolicyStatus;
}.

#[global] Instance Phase_eq_dec : EqDecision Phase.
Proof. solve_decision. Defined.
#[global] Instance AuthPolicyStatus_eq_dec : EqDecision AuthPolicyStatus.
Proof. solve_decision. Defined.

Definition with_status (ap : AuthPolicy) (st : AuthPolicyStatus) : AuthPolicy :=
  {| ap_Kind := ap_Kind ap; ap_Meta := ap_Meta ap; Spec := Spec ap; Status := st |}.

(** ** Accessors *)

Definition GetAcceptedHTTPMethods : list string :=
  ["GET"; "POST"; "PUT"; "PATCH"; "DELETE"; "HEAD"; "OPTIONS"; "TRACE"; "CONNECT"].

Definition InitializeStatus (ap : AuthPolicy) : AuthPolicy :=
  let st := Status ap in
  with_status ap {|
    ObservedGeneration := Generation (ap_Meta ap);
    Conditions := match Conditions st with None => Some [] | cs => cs end;
    status_Phase := PhasePending;
    status_Message := status_Message st;
    Ready := false;
  |}.

Definition GetRequestMatchers (rules : option (list RequestAuthRule)) : list RequestMatcher :=
  match rules with
  | Some rules => rule_RequestMatcher <$> rules
  | None => []
  end.

Definition GetRequireAuthRequestMatchers (ap : AuthPolicy) : list RequestMatcher :=
  match AuthRules (Spec ap) with
  | Some rules => GetRequestMatchers (Some rules)
  | None => []
  end.

Definition GetIgnoreAuthRequestMatchers (ap : AuthPolicy) : list RequestMatcher :=
  match IgnoreAuthRules (Spec ap) with
  | Some rules => rules
  | None => []
  end.

Definition GetAuthorizedPaths (ap : AuthPolicy) : list string :=
  GetRequireAuthRequestMatchers ap ≫= Paths.

Definition GetPaths (ap : AuthPolicy) : list string :=
  (match AuthRules (Spec ap) with
   | Some rules => rules ≫= (λ r, Paths (rule_RequestMatcher r))
   | None => []
   end) ++
  (match IgnoreAuthRules (Spec ap) with
   | Some rules => rules ≫= Paths
   | None => []
   end).

(** [Spec.AutoLogin != nil && Spec.AutoLogin.Enabled], the test the operator
    repeats in the resolvers and the generators. *)
Definition auto_login_enabled (ap : AuthPolicy) : bool :=
  match spec_AutoLogin (Spec ap) with
  | Some al => al_Enabled al
  | None => false
  end.

(** ** Admission rules of the custom resource definition *)

Definition idporten_uris : list string :=
  ["https://test.idporten.no/.well-known/openid-configuration";
   "https://idporten.no/.well-known/openid-configuration";
   "https://test.ansattporten.no/.well-known/openid-configuration";
   "https://ansattporten.no/.well-known/openid-configuration"].

Definition nonempty_opt {A} (o : option (list A)) : bool :=
  match o with Some (_ :: _) => true | _ => false end.

Definition has {A} (o : option A) : bool := match o with Some _ => true | None => false end.

(** The classes [[a-z0-9]] and [[A-Za-z0-9]]. *)
Definition in_class (lo hi : ascii) (c : ascii) : bool :=
  Nat.leb (nat_of_ascii lo) (nat_of_ascii c) && Nat.leb (nat_of_ascii c) (nat_of_ascii hi).
Definition digit (c : ascii) : bool := in_class "0" "9" c.
Definition lower_alnum (c : ascii) : bool := in_class "a" "z" c || digit c.
Definition alnum (c : ascii) : bool := in_class "A" "Z" c || lower_alnum c.

Fixpoint last_char (s : string) : option ascii :=
  match s with
  | "" => None
  | String c s => match last_char s with Some e => Some e | None => Some c end
  end.

(** [^e([inner]*e)?$]: one character of [ends], or two with characters of [inner] between. *)
Definition delimited (ends inner : ascii → bool) (s : string) : bool :=
  match s with
  | "" => false
  | String c _ => ends c && from_option ends false (last_char s) && all_chars inner s
  end.

Definition dns_label (s : string) : bool := delimited lower_alnum (λ c, lower_alnum c || Ascii.eqb c "-") s.

(** The pattern of a referenced name, [label(\\.label)*] as it is written: between
    two labels a backslash and any character but a line feed. [label] is what has
    been read of the current one. *)
Fixpoint key_name_go (label s : string) : bool :=
  match s with
  | "" => dns_label label
  | String c s =>
      if Ascii.eqb c "092" then
        match s with
        | "" => false
        | String any s => negb (Ascii.eqb any "010") && dns_label label && key_name_go "" s
        end
      else key_name_go (label +:+ String c "") s
  end.

Definition KeyRef_admissible (k : KeyRef) : bool :=
  key_name_go "" (kr_Name k) &&
  delimited alnum (λ c, alnum c || ContainsChar "-_." c) (kr_Key k).

Definition opt_admissible {A} (admissible : A → bool) (o : option A) : bool := from_option admissible true o.

Definition ValueFrom_admissible (v : ValueFrom) : bool :=
  (has (ConfigMapKeyRef v) || has (SecretKeyRef v)) &&
  negb (has (ConfigMapKeyRef v) && has (SecretKeyRef v)) &&
  opt_admissible KeyRef_admissible (ConfigMapKeyRef v) && opt_admissible KeyRef_admissible (SecretKeyRef v).

Definition AllowedAudience_admissible (a : AllowedAudience) : bool :=
  (has (aud_Value a) || has (aud_ValueFrom a)) &&
  negb (has (aud_Value a) && has (aud_ValueFrom a)) &&
  match aud_Value a with Some v => negb (String.eqb v "") | None => true end &&
  match aud_ValueFrom a with Some v => ValueFrom_admissible v | None => true end.

Definition Condition_admissible (c : Condition) : bool := bool_decide (NoDup (Values c)).

Definition BaselineAuth_admissible (b : BaselineAuth) : bool :=
  match Claims b with [] => false | _ => true end && forallb Condition_admissible (Claims b).

(** Pattern [^/.*$]: a slash, then no line feed. *)
Definition slash_path (p : string) : bool :=
  HasPrefix p "/" && negb (ContainsChar p "010"%char).

(** The marker of [Paths] has no effect on the generated definition (it is spelled
    [Items:Pattern]), so paths are any strings; [Methods] has at most 9 elements. *)
Definition RequestMatcher_admissible (m : RequestMatcher) : bool :=
  bool_decide (NoDup (Paths m)) &&
  (forallb (λ m, bool_decide (m ∈ GetAcceptedHTTPMethods)) (Methods m) && bool_decide (NoDup (Methods m)) &&
   Nat.leb (length (Methods m)) 9).

(** Pattern [^[a-zA-Z_][a-zA-Z0-9_]*$]. *)
Definition letter (c : ascii) : bool :=
  let n := nat_of_ascii c in (Nat.leb 65 n && Nat.leb n 90) || (Nat.leb 97 n && Nat.leb n 122) || Nat.eqb n 95.
Definition identifier (k : string) : bool :=
  match k with
  | "" => false
  | String c k => letter c && all_chars (λ c, letter c || (Nat.leb 48 (nat_of_ascii c) && Nat.leb (nat_of_ascii c) 57)) k
  end.

(** At most 32 login parameters, the keys of which are identifiers. *)
Definition LoginParams_admissible (m : gmap string string) : bool :=
  forallb (λ kv, identifier kv.1) (map_to_list m) && Nat.leb (size m) 32.

(** Patterns [^[a-zA-Z0-9-]+$] and [^[a-zA-Z0-9-._]+$]. *)
Definition ClaimToHeader_admissible (c : ClaimToHeader) : bool :=
  let short n s := Nat.leb 1 (String.length s) && Nat.leb (String.length s) n in
  short 64 (cth_Header c) && all_chars (λ c, alnum c || Ascii.eqb c "-") (cth_Header c) &&
  short 128 (cth_Claim c) && all_chars (λ c, alnum c || ContainsChar "-._" c) (cth_Claim c).

Definition Selector_admissible (sel : WorkloadSelector) : bool :=
  forallb (λ kv, negb (ContainsChar kv.1 "*") && negb (String.eqb kv.1 "")) (map_to_list (MatchLabels sel)) &&
  Nat.leb (size (MatchLabels sel)) (Z.to_nat 4096).

(** The three rules on the spec and the rules on its parts. *)
Definition Spec_admissible (s : AuthPolicySpec) : bool :=
  (negb (bool_decide (WellKnownURI s ∈ idporten_uris)) || nonempty_opt (AcceptedResources s)) &&
  (match spec_AutoLogin s with
   | Some al => negb (al_Enabled al) || has (spec_OAuthCredentials s)
   | None => true
   end) &&
  (negb (has (spec_OAuthCredentials s)) || has (spec_AutoLogin s)) &&
  forallb AllowedAudience_admissible (AllowedAudiences s) &&
  match spec_BaselineAuth s with Some b => BaselineAuth_admissible b | None => true end &&
  forallb (λ r, RequestMatcher_admissible (rule_RequestMatcher r) && forallb Condition_admissible (default [] (When r)))
    (default [] (AuthRules s)) &&
  forallb RequestMatcher_admissible (default [] (IgnoreAuthRules s)) &&
  match spec_AutoLogin s with
  | Some al =>
      match al_LoginPath al with Some p => slash_path p | None => true end && LoginParams_admissible (al_LoginParams al)
  | None => true
  end &&
  (opt_admissible (λ rs, bool_decide (NoDup rs)) (AcceptedResources s) &&
   forallb ClaimToHeader_admissible (default [] (OutputClaimToHeaders s)) && Selector_admissible (Selector s)).

(** ** Lemmas *)

Lemma Spec_admissible_credentials ap :
  Spec_admissible (Spec ap) = true → auto_login_enabled ap = true →
  is_Some (spec_OAuthCredentials (Spec ap)).
Proof.
  unfold Spec_admissible, auto_login_enabled. intros H Hal. bools.
  destruct (spec_AutoLogin _) as [al|]; [|done]. rewrite Hal in *. cbn in *.
  destruct (spec_OAuthCredentials _); [eauto|done].
Qed.

Lemma Spec_admissible_matchers s :
  Spec_admissible s = true →
  (∀ r, r ∈ default [] (AuthRules s) → RequestMatcher_admissible (rule_RequestMatcher r) = true) ∧
  (∀ rm, rm ∈ default [] (IgnoreAuthRules s) → RequestMatcher_admissible rm = true).
Proof.
  unfold Spec_admissible. rewrite !andb_true_iff, !forallb_forall.
  intros [[[[_ Hr] Hi] _] _]. split; intros x Hx%list_elem_of_In; [|auto].
  by apply Hr, andb_true_iff in Hx as [? _].
Qed.

Lemma admissible_methods rm m :
  RequestMatcher_admissible rm = true → m ∈ Methods rm → m ∈ GetAcceptedHTTPMethods.
Proof.
  unfold RequestMatcher_admissible. rewrite !andb_true_iff, !forallb_forall.
  intros [_ [[H _] _]] Hm%list_elem_of_In. by apply H, bool_decide_eq_true in Hm.
Qed.

Lemma GetPaths_require ap m p :
  m ∈ GetRequireAuthRequestMatchers ap → p ∈ Paths m → p ∈ GetPaths ap.
Proof.
  unfold GetRequireAuthRequestMatchers, GetRequestMatchers, GetPaths. intros Hm Hp.
  apply elem_of_app; left. destruct (AuthRules (Spec ap)) as [rs|]; [|set_solver].
  apply list_elem_of_fmap in Hm as (r & -> & Hr). apply list_elem_of_bind. eauto.
Qed.

Lemma GetPaths_ignore ap m p :
  m ∈ GetIgnoreAuthRequestMatchers ap → p ∈ Paths m → p ∈ GetPaths ap.
Proof.
  unfold GetIgnoreAuthRequestMatchers, GetPaths. intros Hm Hp.
  apply elem_of_app; right. destruct (IgnoreAuthRules (Spec ap)) as [rs|]; [|set_solver].
  apply list_elem_of_bind. eauto.
Qed.

(** ** Names of referenced ConfigMaps and Secrets *)

Lemma key_name_label label s :
  ContainsChar s "092" = false → key_name_go label s = dns_label (label +:+ s).
Proof.
  revert label. induction s as [|c s IH]; intros label; [by rewrite str_app_nil_r|].
  cbn [ContainsChar key_name_go]. intros [Hc Hs]%orb_false_iff.
  rewrite Hc, IH by done. by rewrite str_app_assoc.
Qed.

Lemma dns_label_no_dot s : dns_label s = true → ContainsChar s "." = false.
Proof.
  unfold dns_label, delimited. destruct s as [|c s]; [done|]. intros [_ Hall]%andb_true_iff.
  rewrite ContainsChar_all, negb_false_iff. revert Hall. generalize (String c s). clear c s.
  induction s as [|c s IH]; [done|]. cbn [all_chars]. rewrite !andb_true_iff. intros [Hc Hs]. split; [|auto].
  destruct (Ascii.eqb_spec c "."); [|done]. by subst c.
Qed.

(** The rule for the name of a referenced ConfigMap or Secret is not the
    one its comment states (a DNS-1123 subdomain, labels separated by dots): as the
    dot of the pattern is escaped twice, a name with a dot is refused, one without
    a dot is admitted exactly if it is a single label, and a name with a backslash
    between two labels is admitted. *)
Theorem key_ref_names key :
  (∀ name, ContainsChar name "." = true → ContainsChar name "092" = false →
     KeyRef_admissible {| kr_Name := name; kr_Key := key |} = false) ∧
  (∀ name, ContainsChar name "092" = false →
     KeyRef_admissible {| kr_Name := name; kr_Key := key |} =
       dns_label name && delimited alnum (λ c, alnum c || ContainsChar "-_." c) key) ∧
  (KeyRef_admissible {| kr_Name := "a" +:+ String "092" "xb"; kr_Key := "key" |} = true).
Proof.
  unfold KeyRef_admissible. cbn [kr_Name kr_Key]. split_and!.
  - intros name Hdot Hname. rewrite key_name_label by done. destruct (dns_label ("" +:+ name)) eqn:Hl; [|done].
    apply dns_label_no_dot in Hl. cbn in Hl. congruence.
  - intros name Hname. by rewrite key_name_label.
  - vm_compute. reflexivity.
Qed.

Lemma key_ref_names_witness :
  KeyRef_admissible {| kr_Name := "my.secret"; kr_Key := "id" |} = false ∧
  KeyRef_admissible {| kr_Name := "my-secret"; kr_Key := "id" |} = true.
Proof.
  destruct (key_ref_names "id") as (Hdot & Hlabel & _). split.
  - apply Hdot; vm_compute; reflexivity.
  - rewrite Hlabel; vm_compute; reflexivity.
Defined.
