(* ===== verification/PathValidation.v ===== *)
(** * Path validation (pkg/validation: path_classifier.go, path_validation.go,
    path_transformation.go)

    An error is the message the code formats. Iterating over the runes of a
    string and testing for an ASCII character is iterating over its bytes: the
    bytes of a multi-byte rune are all above 0x7F. *)

From S2P Require Import Prelude GoStrings.

Definition matchOneTemplate : string := "{*}".
Definition matchAnyTemplate : string := "{**}".

Definition errBracketsBeyondTemplate (path : string) : string :=
  "invalid or unsupported path " +:+ path +:+
  ". Contains '{' or '}' beyond a supported path template".
Definition errMatchAnyNotLast (path : string) : string :=
  "invalid or unsupported path " +:+ path +:+ ". {**} is not the last operator".
Definition errInvalidLiteral (path seg : string) : string :=
  "invalid or unsupported path " +:+ path +:+ ". Contains segment " +:+ seg +:+
  " with invalid string literal".

(** ** Classification *)

Inductive pathKind := pathKindPlain | pathKindTemplate | pathKindLegacyStar.

Fixpoint raw_asterisk_go (inInsideBracket : bool) (path : string) : bool :=
  match path with
  | "" => false
  | String r path =>
      if Ascii.eqb r "{" then raw_asterisk_go true path
      else if Ascii.eqb r "}" then raw_asterisk_go false path
      else if Ascii.eqb r "*" then
        if negb inInsideBracket then true else raw_asterisk_go inInsideBracket path
      else raw_asterisk_go inInsideBracket path
  end.

Definition hasRawAsteriskOutsideCurlyBrackets (path : string) : bool :=
  raw_asterisk_go false path.

Definition classifyPath (path : string) : go pathKind :=
  let hasCurlyBrackets := ContainsAny path "{}" in
  let hasRawAsterisk := hasRawAsteriskOutsideCurlyBrackets path in
  if hasRawAsterisk then
    if hasCurlyBrackets then Err (errBracketsBeyondTemplate path)
    else if Nat.ltb 1 (CountChar path "*") ||
            (negb (String.eqb path "*") && negb (HasSuffix path "*"))
    then Err ("invalid path: " +:+ path +:+ "; '*' must appear only once, be at the end, or be '*'")
    else Ok pathKindLegacyStar
  else if hasCurlyBrackets then Ok pathKindTemplate
  else Ok pathKindPlain.

(** ** Literals and segments *)

Definition in_range (lo hi c : ascii) : bool :=
  Nat.leb (nat_of_ascii lo) (nat_of_ascii c) && Nat.leb (nat_of_ascii c) (nat_of_ascii hi).

Definition literal_char (c : ascii) : bool :=
  in_range "a" "z" c || in_range "A" "Z" c || in_range "0" "9" c ||
  ContainsChar "-._~%!$&'()+,;:@=" c.

(** The regular expression [validLiteral]: one or more characters of the class. *)
Definition validLiteral (s : string) : bool :=
  match s with "" => false | _ => all_chars literal_char s end.

Definition toPathSegments (path : string) : list string :=
  let trimmed := TrimChar path "/" in
  if String.eqb trimmed "" then [] else SplitChar trimmed "/".

Fixpoint plain_literals_go (path : string) (segs : list string) : go () :=
  match segs with
  | [] => Ok ()
  | seg :: segs =>
      if String.eqb seg "" then plain_literals_go path segs
      else if negb (validLiteral seg) then Err (errInvalidLiteral path seg)
      else plain_literals_go path segs
  end.

Definition validatePlainPathLiterals (path : string) : go () :=
  plain_literals_go path (toPathSegments path).

(** ** Template paths *)

Record templateState := { seenMatchOne : bool; seenMatchMulti : bool }.

Definition validateTemplatePathSegment
    (path segment : string) (isLastSegment : bool) (state : templateState) : go templateState :=
  if String.eqb segment matchOneTemplate then
    if seenMatchMulti state then Err (errMatchAnyNotLast path)
    else Ok {| seenMatchOne := true; seenMatchMulti := seenMatchMulti state |}
  else if String.eqb segment matchAnyTemplate then
    if seenMatchMulti state then Err (errMatchAnyNotLast path)
    else Ok {| seenMatchOne := seenMatchOne state; seenMatchMulti := true |}
  else if HasSuffix segment matchAnyTemplate then
    let prefix := TrimSuffix segment matchAnyTemplate in
    if ContainsAny prefix "{}" then Err (errBracketsBeyondTemplate path)
    else if negb (validLiteral prefix) then Err (errInvalidLiteral path segment)
    else if negb isLastSegment then Err (errMatchAnyNotLast path)
    else if seenMatchMulti state || seenMatchOne state then Err (errMatchAnyNotLast path)
    else Ok {| seenMatchOne := seenMatchOne state; seenMatchMulti := true |}
  else if ContainsAny segment "{}" then Err (errBracketsBeyondTemplate path)
  else if negb (validLiteral segment) then Err (errInvalidLiteral path segment)
  else Ok state.

Fixpoint template_go (path : string) (segments : list string) (state : templateState) : go () :=
  match segments with
  | [] => Ok ()
  | segment :: segments =>
      let isLastSeg := match segments with [] => true | _ => false end in
      state ← validateTemplatePathSegment path segment isLastSeg state;
      template_go path segments state
  end.

Definition validateTemplatePath (path : string) : go () :=
  template_go path (toPathSegments path) {| seenMatchOne := false; seenMatchMulti := false |}.

Definition validatePath (path : string) : go () :=
  if negb (HasPrefix path "/") then Err ("invalid path: " +:+ path +:+ "; must start with '/'")
  else
    kind ← classifyPath path;
    match kind with
    | pathKindLegacyStar => validatePlainPathLiterals (TrimSuffix path "*")
    | pathKindTemplate => validateTemplatePath path
    | pathKindPlain => validatePlainPathLiterals path
    end.

Fixpoint ValidatePaths (paths : list string) : go () :=
  match paths with
  | [] => Ok ()
  | path :: paths =>
      match validatePath path with
      | Ok _ => ValidatePaths paths
      | e => e
      end
  end.

(** ** Transformation for Istio *)

Definition transformPathForIstio (validatedPath : string) : string :=
  if negb (HasSuffix validatedPath matchAnyTemplate) then validatedPath
  else
    let trimmedPath := TrimSuffix validatedPath matchAnyTemplate in
    if HasSuffix trimmedPath "/" then validatedPath
    else if Contains trimmedPath matchOneTemplate || Contains trimmedPath matchAnyTemplate
    then validatedPath
    else trimmedPath +:+ "*".

Definition TransformPathsForIstio (validatedPaths : list string) : list string :=
  transformPathForIstio <$> validatedPaths.

(** ** Lemmas *)

Lemma ValidatePaths_ok paths :
  ValidatePaths paths = Ok () ↔ Forall (λ p, validatePath p = Ok ()) paths.
Proof.
  induction paths as [|p ps IH]; cbn; [by split|]. rewrite Forall_cons_iff, <-IH.
  destruct (validatePath p) as [[]| |]; naive_solver.
Qed.

(** Validation reports the first invalid path. *)
Lemma ValidatePaths_err paths e :
  ValidatePaths paths = Err e →
  ∃ pre p post, paths = pre ++ p :: post ∧ ValidatePaths pre = Ok () ∧ validatePath p = Err e.
Proof.
  induction paths as [|p ps IH]; cbn; [done|].
  destruct (validatePath p) as [[]|e'|] eqn:Hp; intros H; simplify_eq.
  - destruct (IH H) as (pre & q & post & -> & Hpre & Hq).
    exists (p :: pre), q, post. cbn. by rewrite Hp.
  - by exists [], p, ps.
Qed.

Lemma plain_literals_ok path segs :
  plain_literals_go path segs = Ok () ↔ Forall (λ s, s = "" ∨ validLiteral s = true) segs.
Proof.
  induction segs as [|s segs IH]; cbn; [by split|]. rewrite Forall_cons_iff, <-IH.
  destruct (String.eqb_spec s ""); [naive_solver|]. destruct (validLiteral s); cbn; naive_solver.
Qed.

Lemma plain_literals_no_panic path segs m : plain_literals_go path segs ≠ Panic m.
Proof. induction segs; cbn; repeat case_match; naive_solver. Qed.

Lemma validLiteral_chars s : validLiteral s = true → all_chars literal_char s = true.
Proof. by destruct s. Qed.

(** The path alphabet: literal characters and the separator. *)
Definition path_char (c : ascii) : bool := literal_char c || Ascii.eqb c "/".

Lemma all_chars_repeat P n c : P c = true → all_chars P (repeat_char n c) = true.
Proof. intros H. induction n; cbn; [done|]. by rewrite H. Qed.

Lemma all_chars_join P c l :
  P c = true → Forall (λ s, all_chars P s = true) l → all_chars P (join_char c l) = true.
Proof.
  intros Hc. induction 1 as [|s l Hs Hl IH]; [done|]. destruct l as [|t l]; [done|].
  rewrite join_char_cons, all_chars_app by done. cbn [all_chars]. by rewrite Hs, Hc, IH.
Qed.

(** A path is its segments joined by slashes, between runs of slashes. *)
Lemma toPathSegments_spec path :
  ∃ n m, path = repeat_char n "/" +:+ join_char "/" (toPathSegments path) +:+ repeat_char m "/".
Proof.
  destruct (TrimChar_spec "/" path) as (n & m & H). exists n, m. unfold toPathSegments.
  destruct (String.eqb_spec (TrimChar path "/") "") as [E|E].
  - by rewrite E in H.
  - by rewrite join_SplitChar.
Qed.

(** A path whose segments are empty or literal holds only path characters. *)
Lemma plain_path_chars path :
  validatePlainPathLiterals path = Ok () → all_chars path_char path = true.
Proof.
  unfold validatePlainPathLiterals. rewrite plain_literals_ok. intros H.
  destruct (toPathSegments_spec path) as (n & m & ->).
  rewrite !all_chars_app, !all_chars_repeat, all_chars_join; [done|done| |done|done].
  eapply Forall_impl; [exact H|]. intros s [->|Hs]; [done|].
  eapply all_chars_impl; [|by apply validLiteral_chars]. intros c Hc. unfold path_char. by rewrite Hc.
Qed.
