(* ===== verification/PathLang.v ===== *)
(** * The language of a request path

    The specification the generators are checked against: a path denotes a list
    of tokens (a literal byte, [{*}], or [{**}] and its legacy spelling [*]), and
    the tokens denote a set of request paths. A validated path is shown to be the
    concatenation of its tokens, with no two wildcards side by side. *)

From S2P Require Import Prelude GoStrings PathValidation.

Inductive tok := TLit (c : ascii) | TOne | TAny.

#[global] Instance tok_eq_dec : EqDecision tok.
Proof. solve_decision. Defined.

Definition no_slash (s : string) : bool := all_chars (λ c, negb (Ascii.eqb c "/")) s.

(** [{*}] stands for one or more bytes other than a slash, [{**}] for any bytes. *)
Inductive tok_match : list tok → string → Prop :=
  | tm_nil : tok_match [] ""
  | tm_lit c ts s : tok_match ts s → tok_match (TLit c :: ts) (String c s)
  | tm_one w ts s :
      w ≠ "" → no_slash w = true → tok_match ts s → tok_match (TOne :: ts) (w +:+ s)
  | tm_any w ts s : tok_match ts s → tok_match (TAny :: ts) (w +:+ s).

(** Reading a path as tokens; [skip] counts the bytes of a wildcard still to pass. *)
Fixpoint tokenize_go (skip : nat) (s : string) : list tok :=
  match s with
  | "" => []
  | String c s' =>
      match skip with
      | S k => tokenize_go k s'
      | 0 =>
          if HasPrefix s matchAnyTemplate then TAny :: tokenize_go 3 s'
          else if HasPrefix s matchOneTemplate then TOne :: tokenize_go 2 s'
          else if Ascii.eqb c "*" then TAny :: tokenize_go 0 s'
          else TLit c :: tokenize_go 0 s'
      end
  end.
Definition tokenize (s : string) : list tok := tokenize_go 0 s.

(** The request paths a configured path stands for. *)
Definition path_matches (path p : string) : Prop := tok_match (tokenize path) p.

(** ** Printing tokens *)

Definition show_tok (t : tok) : string :=
  match t with TLit c => String c "" | TOne => matchOneTemplate | TAny => matchAnyTemplate end.

Definition render {A} (f : A → string) (ts : list A) : string := concat_str (f <$> ts).

Definition is_wild (t : tok) : bool := match t with TLit _ => false | _ => true end.

Fixpoint isolated (ts : list tok) : bool :=
  match ts with
  | [] => true
  | t :: ts =>
      match ts with [] => true | u :: _ => negb (is_wild t && is_wild u) end && isolated ts
  end.

Definition lit_ok (t : tok) : bool := match t with TLit c => path_char c | _ => true end.

(** Literals are path characters and wildcards are separated by literals. *)
Definition good_toks (ts : list tok) : Prop := Forall (λ t, lit_ok t = true) ts ∧ isolated ts = true.

Definition lits (s : string) : list tok := TLit <$> String.list_ascii_of_string s.

(** ** Lemmas *)

(** A function that consumes a rendering chunk by chunk. *)
Lemma render_chunks {A} (F : string → string) (f g : A → string) (ts : list A) :
  F "" = "" →
  Forall (λ t, ∀ rest, F (f t +:+ rest) = g t +:+ F rest) ts →
  F (render f ts) = render g ts.
Proof.
  intros H0. unfold render. induction 1 as [|t ts Ht _ IH]; cbn; [done|]. by rewrite Ht, IH.
Qed.

Lemma render_app {A} (f : A → string) ts us : render f (ts ++ us) = render f ts +:+ render f us.
Proof. unfold render. by rewrite fmap_app, concat_str_app. Qed.

Lemma render_cons {A} (f : A → string) t ts : render f (t :: ts) = f t +:+ render f ts.
Proof. done. Qed.

Lemma lits_cons c s : lits (String c s) = TLit c :: lits s.
Proof. done. Qed.

Lemma render_lits f s :
  (∀ c, f (TLit c) = String c "") → render f (lits s) = s.
Proof. intros Hf. induction s as [|c s IH]; [done|]. by rewrite lits_cons, render_cons, Hf, IH. Qed.

Lemma lits_app s t : lits (s +:+ t) = lits s ++ lits t.
Proof. induction s as [|c s IH]; [done|]. by rewrite str_app_cons, !lits_cons, IH. Qed.

Lemma path_char_inv c : path_char c = true → c ≠ "{"%char ∧ c ≠ "}"%char ∧ c ≠ "*"%char ∧ c ≠ "<"%char.
Proof. intros H. split_and!; intros ->; vm_compute in H; discriminate H. Qed.

Lemma lits_ok s : all_chars path_char s = true → Forall (λ t, lit_ok t = true) (lits s).
Proof.
  induction s as [|c s IH]; [constructor|]. intros H. cbn in H. bools. rewrite lits_cons.
  constructor; [done|by apply IH].
Qed.

Lemma isolated_lit c ts : isolated (TLit c :: ts) = isolated ts.
Proof. by destruct ts. Qed.

Lemma isolated_app_lit ts c us : isolated (ts ++ TLit c :: us) = isolated ts && isolated us.
Proof.
  induction ts as [|t ts IH]; [apply isolated_lit|]. cbn [app].
  destruct ts as [|u ts].
  - cbn [app]. change (isolated (t :: TLit c :: us)) with (negb (is_wild t && false) && isolated (TLit c :: us)).
    rewrite isolated_lit, andb_false_r. done.
  - cbn [app] in *. change (isolated (t :: u :: ?x)) with (negb (is_wild t && is_wild u) && isolated (u :: x)).
    rewrite IH. by rewrite andb_assoc.
Qed.

Lemma isolated_lits s : isolated (lits s) = true.
Proof. induction s as [|c s IH]; [done|]. by rewrite lits_cons, isolated_lit. Qed.

Lemma good_toks_app_lit ts c us :
  path_char c = true → good_toks ts → good_toks us → good_toks (ts ++ TLit c :: us).
Proof.
  intros Hc [Ht1 Ht2] [Hu1 Hu2]. split.
  - apply Forall_app. eauto.
  - by rewrite isolated_app_lit, Ht2, Hu2.
Qed.

Lemma good_toks_lits s : all_chars path_char s = true → good_toks (lits s).
Proof. intros H. split; [by apply lits_ok|apply isolated_lits]. Qed.

Lemma good_toks_lits_any s : all_chars path_char s = true → good_toks (lits s ++ [TAny]).
Proof.
  intros H. split; [apply Forall_app; split; [by apply lits_ok|by constructor]|].
  induction s as [|c s IH]; [done|]. cbn in H. bools.
  rewrite lits_cons, <-app_comm_cons, isolated_lit. by apply IH.
Qed.

(** Reading back what was printed. *)
Lemma tokenize_show t rest :
  lit_ok t = true → tokenize (show_tok t +:+ rest) = t :: tokenize rest.
Proof.
  destruct t as [c| |]; [|done|done]. intros (H1 & _ & H3 & _)%path_char_inv.
  unfold tokenize, show_tok. rewrite str_app_cons. cbn [tokenize_go String.append].
  unfold matchAnyTemplate, matchOneTemplate.
  by rewrite !HasPrefix_head_ne, (ascii_eqb_false c "*") by done.
Qed.

Lemma tokenize_render ts rest :
  Forall (λ t, lit_ok t = true) ts → tokenize (render show_tok ts +:+ rest) = ts ++ tokenize rest.
Proof.
  induction 1 as [|t ts Ht _ IH]; [done|].
  by rewrite render_cons, str_app_assoc, tokenize_show, IH.
Qed.

Lemma tokenize_lits s rest :
  all_chars path_char s = true → tokenize (s +:+ rest) = lits s ++ tokenize rest.
Proof.
  intros H. rewrite <-(render_lits show_tok s) at 1 by done. apply tokenize_render. by apply lits_ok.
Qed.

(** ** The shape of a validated path *)

Inductive path_shape (path : string) : Prop :=
  | shape_plain :
      ContainsAny path "{}" = false → all_chars path_char path = true → path_shape path
  | shape_legacy l :
      path = l +:+ "*" → ContainsAny path "{}" = false → all_chars path_char l = true →
      path_shape path
  | shape_template ts :
      path = render show_tok ts → ContainsAny path "{}" = true → good_toks ts →
      path_shape path.

Definition seg_toks (seg : string) : Prop := ∃ ts, seg = render show_tok ts ∧ good_toks ts.

Lemma seg_toks_literal s : validLiteral s = true → seg_toks s.
Proof.
  intros H%validLiteral_chars. exists (lits s). split; [by rewrite render_lits|].
  apply good_toks_lits. eapply all_chars_impl; [|exact H]. intros c Hc. unfold path_char. by rewrite Hc.
Qed.

Lemma validateTemplatePathSegment_toks path seg last st st' :
  validateTemplatePathSegment path seg last st = Ok st' → seg_toks seg.
Proof.
  unfold validateTemplatePathSegment.
  destruct (String.eqb_spec seg matchOneTemplate) as [->|].
  { intros _. exists [TOne]. repeat split; repeat constructor. }
  destruct (String.eqb_spec seg matchAnyTemplate) as [->|].
  { intros _. exists [TAny]. repeat split; repeat constructor. }
  destruct (HasSuffix seg matchAnyTemplate) eqn:Hs.
  - destruct (ContainsAny _ _); [done|]. destruct (validLiteral _) eqn:Hv; cbn; [|done].
    intros _. apply HasSuffix_trim in Hs. apply validLiteral_chars in Hv.
    exists (lits (TrimSuffix seg matchAnyTemplate) ++ [TAny]). split.
    + by rewrite render_app, render_lits.
    + apply good_toks_lits_any. eapply all_chars_impl; [|exact Hv].
      intros c Hc. unfold path_char. by rewrite Hc.
  - destruct (ContainsAny _ _); [done|]. destruct (validLiteral _) eqn:Hv; cbn; [|done].
    intros _. by apply seg_toks_literal.
Qed.

Lemma template_go_toks path segs : ∀ st, template_go path segs st = Ok () → Forall seg_toks segs.
Proof.
  induction segs as [|seg segs IH]; intros st; cbn; [constructor|].
  intros (st' & Hseg & Hgo)%go_bind_ok. constructor; [|by eapply IH].
  by eapply validateTemplatePathSegment_toks.
Qed.

Lemma join_seg_toks segs : Forall seg_toks segs → seg_toks (join_char "/" segs).
Proof.
  induction 1 as [|seg segs (ts & -> & Hts) Hsegs (us & IH & Hus)]; [by exists []|].
  destruct segs as [|t segs]; [by exists ts|].
  exists (ts ++ TLit "/" :: us). split; [|by apply good_toks_app_lit].
  by rewrite join_char_cons, IH, render_app.
Qed.

Lemma seg_toks_slashes n s m :
  seg_toks s → seg_toks (repeat_char n "/" +:+ s +:+ repeat_char m "/").
Proof.
  assert (∀ k t, seg_toks t → seg_toks (repeat_char k "/" +:+ t)) as Hl.
  { intros k t Ht. induction k as [|k (us & Hus & Hg)]; [done|].
    exists (TLit "/" :: us). split; [by rewrite render_cons, <-Hus|].
    by apply (good_toks_app_lit []). }
  intros (ts & -> & Hts). apply Hl. revert ts Hts. induction m as [|m IH]; intros ts Hts.
  - exists ts. by rewrite str_app_nil_r.
  - destruct (IH (ts ++ [TLit "/"])) as (us & Hus & Hg); [by apply good_toks_app_lit|].
    exists us. rewrite <-Hus, render_app, str_app_assoc. done.
Qed.

Theorem validatePath_shape path : validatePath path = Ok () → path_shape path.
Proof.
  unfold validatePath, classifyPath.
  destruct (HasPrefix path "/") eqn:Hp; cbn [negb]; [|done].
  destruct (hasRawAsteriskOutsideCurlyBrackets path), (ContainsAny path "{}") eqn:Hc; cbn -[Nat.ltb]; try done.
  - destruct (Nat.ltb 1 _) eqn:Hn; cbn; [done|].
    destruct (String.eqb_spec path "*") as [->|Hne]; [done|]. cbn.
    destruct (HasSuffix path "*") eqn:Hs; cbn; [|done].
    intros H%plain_path_chars. apply HasSuffix_trim in Hs as Hs'.
    by eapply shape_legacy.
  - intros H. apply template_go_toks, join_seg_toks in H.
    destruct (toPathSegments_spec path) as (n & m & Hpath).
    eapply seg_toks_slashes in H as (ts & Hts & Hg). rewrite <-Hpath in Hts.
    by eapply shape_template.
  - intros H. apply shape_plain; [done|by apply plain_path_chars].
Qed.

(** The tokens of a path of each shape. *)
Lemma tokenize_plain path : all_chars path_char path = true → tokenize path = lits path.
Proof. intros H. rewrite <-(str_app_nil_r path) at 1. by rewrite tokenize_lits, app_nil_r. Qed.

Lemma tokenize_legacy l : all_chars path_char l = true → tokenize (l +:+ "*") = lits l ++ [TAny].
Proof. intros H. by rewrite tokenize_lits. Qed.

Lemma tokenize_template ts : good_toks ts → tokenize (render show_tok ts) = ts.
Proof.
  intros [H _]. rewrite <-(str_app_nil_r (render _ _)), tokenize_render by done. apply app_nil_r.
Qed.

(** ** The transformation for Istio keeps the language *)

(** The path, transformed or not, is one Istio can read: [{**}] that is no segment
    of its own next to another operator is left as it is, which Istio rejects. *)
Definition istio_syntax (path : string) : bool :=
  negb (HasSuffix path matchAnyTemplate) ||
  (let t := TrimSuffix path matchAnyTemplate in
   HasSuffix t "/" || negb (Contains t matchOneTemplate || Contains t matchAnyTemplate)).

Lemma str_app_inj_2 a b s t :
  String.length s = String.length t → a +:+ s = b +:+ t → a = b ∧ s = t.
Proof.
  intros Hl. revert b. induction a as [|x a IH]; intros [|y b] H; cbn [String.append] in H; try done.
  - subst s. cbn [String.length] in Hl. rewrite str_length_app in Hl. lia.
  - subst t. cbn [String.length] in Hl. rewrite str_length_app in Hl. lia.
  - injection H as -> H. destruct (IH b H) as [-> ->]. done.
Qed.

Lemma render_app_any ts t :
  Forall (λ t, lit_ok t = true) ts → render show_tok ts = t +:+ matchAnyTemplate →
  ∃ us, ts = us ++ [TAny] ∧ render show_tok us = t.
Proof.
  intros Hts Hr. destruct ts as [|u us _] using rev_ind; [destruct t; discriminate Hr|].
  apply Forall_app in Hts as [_ Hu]. apply Forall_cons_iff in Hu as [Hu _].
  rewrite render_app in Hr. destruct u as [c| |].
  - assert (t +:+ matchAnyTemplate = (t +:+ "{**") +:+ "}") as Ht by (by rewrite str_app_assoc).
    rewrite Ht in Hr. apply str_app_inj_2 in Hr as [_ Hr]; [|done]. injection Hr as ->. vm_compute in Hu. discriminate Hu.
  - assert (t +:+ matchAnyTemplate = (t +:+ "{") +:+ "**}") as Ht by (by rewrite str_app_assoc).
    rewrite Ht in Hr. apply str_app_inj_2 in Hr as [_ Hr]; [discriminate Hr|done].
  - apply str_app_inj_2 in Hr as [Hr _]; [|done]. by exists us.
Qed.

Lemma render_no_wild ts :
  Contains (render show_tok ts) matchOneTemplate = false → Contains (render show_tok ts) matchAnyTemplate = false →
  ∃ s, ts = lits s.
Proof.
  induction ts as [|t ts IH]; [by exists ""|]. rewrite render_cons. intros H1 H2.
  destruct t as [c| |]; cbn [show_tok] in *.
  - cbn [String.append Contains] in H1, H2. bools. destruct IH as [s ->]; [done..|]. by exists (String c s).
  - exfalso. unfold matchOneTemplate in H1. done.
  - exfalso. unfold matchAnyTemplate in H2. done.
Qed.

Lemma tokenize_transform path :
  validatePath path = Ok () → istio_syntax path = true → tokenize (transformPathForIstio path) = tokenize path.
Proof.
  unfold transformPathForIstio, istio_syntax. intros Hv%validatePath_shape.
  destruct (HasSuffix path matchAnyTemplate) eqn:Hs; [|done]. cbn [negb orb].
  destruct (HasSuffix (TrimSuffix path _) "/"); [done|]. cbn [orb]. rewrite negb_true_iff. intros Hc.
  rewrite Hc. apply orb_false_iff in Hc as [Hc1 Hc2]. apply HasSuffix_trim in Hs.
  set (t := TrimSuffix path matchAnyTemplate) in *.
  assert (ContainsAny path "{}" = true) as Hbr.
  { rewrite Hs, ContainsAny_app. apply orb_true_r. }
  destruct Hv as [|l|ts Hts _ Hg]; [congruence..|].
  rewrite Hts in Hs. destruct (render_app_any _ _ (proj1 Hg) Hs) as (us & -> & Ht).
  rewrite <-Ht in Hc1, Hc2. destruct (render_no_wild us Hc1 Hc2) as [s ->].
  rewrite render_lits in Ht by done. subst s. rewrite Hts, tokenize_template by done.
  apply tokenize_legacy. destruct Hg as [Hg _]. apply Forall_app in Hg as [Hg _].
  clear -Hg. induction t as [|c t IH]; [done|]. rewrite lits_cons in Hg.
  apply Forall_cons_iff in Hg as [Hc Hg]. cbn [all_chars]. cbn in Hc. by rewrite Hc, IH.
Qed.
