(* ===== verification/LuaPattern.v ===== *)
(** * Lua patterns

    The Lua standard library's pattern matching, for the patterns the generated
    script uses: single characters, [.], [%]-escaped punctuation and sets of plain
    characters, each with an optional repetition, and the two anchors. Captures are
    added by [LuaCapture]; character classes such as [%a], ranges and back
    references are outside the subset and [parse_pattern] answers [None] for them. *)

From S2P Require Import Prelude GoStrings.

Inductive lclass := CChar (c : ascii) | CAny | CSet (neg : bool) (cs : list ascii).
Inductive lrep := ROne | ROpt | RStar | RPlus | RLazy.
Definition item : Type := lclass * lrep.

Definition class_match (cl : lclass) (c : ascii) : bool :=
  match cl with
  | CChar a => Ascii.eqb a c
  | CAny => true
  | CSet neg cs => xorb neg (bool_decide (c ∈ cs))
  end.

(** ** Parsing a pattern into items *)

Inductive pmode := PNormal (pending : option lclass) | PEscape | PSetStart | PSet (neg : bool) (cs : list ascii).

Definition repetition (c : ascii) : option lrep :=
  if Ascii.eqb c "*" then Some RStar else if Ascii.eqb c "+" then Some RPlus
  else if Ascii.eqb c "?" then Some ROpt else if Ascii.eqb c "-" then Some RLazy else None.

Definition alnum (c : ascii) : bool :=
  let n := nat_of_ascii c in
  (Nat.leb 48 n && Nat.leb n 57) || (Nat.leb 65 n && Nat.leb n 90) || (Nat.leb 97 n && Nat.leb n 122).

Definition parsed : Type := list item * bool.

Definition add_item (it : item) (r : option parsed) : option parsed :=
  match r with Some (its, e) => Some (it :: its, e) | None => None end.

Definition flush (pending : option lclass) (r : option parsed) : option parsed :=
  match pending with Some cl => add_item (cl, ROne) r | None => r end.

(** The boolean of the result says whether the pattern ends with the anchor [$]. *)
Fixpoint parse_go (m : pmode) (p : string) : option parsed :=
  match m, p with
  | PNormal pending, "" => flush pending (Some ([], false))
  | PNormal pending, String c p' =>
      match pending, repetition c with
      | Some cl, Some q => add_item (cl, q) (parse_go (PNormal None) p')
      | _, _ =>
          flush pending
            (if Ascii.eqb c "$" && String.eqb p' "" then Some ([], true)
             else if Ascii.eqb c "%" then parse_go PEscape p'
             else if Ascii.eqb c "[" then parse_go PSetStart p'
             else if Ascii.eqb c "(" || Ascii.eqb c ")" then None
             else if Ascii.eqb c "." then parse_go (PNormal (Some CAny)) p'
             else parse_go (PNormal (Some (CChar c))) p')
      end
  | PEscape, String c p' =>
      if alnum c then None else parse_go (PNormal (Some (CChar c))) p'
  | PSetStart, String c p' =>
      if Ascii.eqb c "^" then parse_go (PSet true []) p'
      else if ContainsChar "]%-" c then None
      else parse_go (PSet false [c]) p'
  | PSet neg cs, String c p' =>
      if Ascii.eqb c "]" then
        match cs with [] => None | _ => parse_go (PNormal (Some (CSet neg cs))) p' end
      else if ContainsChar "%-" c then None
      else parse_go (PSet neg (cs ++ [c])) p'
  | _, "" => None
  end.

Definition parse_pattern (p : string) : option parsed := parse_go (PNormal None) p.

(** ** Matching *)

(** Greedy expansion with backtracking, the longest candidate first. *)
Fixpoint max_expand {A} (cl : lclass) (k : string → option A) (s : string) : option A :=
  match s with
  | "" => k ""
  | String c s' =>
      if class_match cl c then
        match max_expand cl k s' with Some r => Some r | None => k s end
      else k s
  end.

(** Lazy expansion, the shortest candidate first. *)
Fixpoint min_expand {A} (cl : lclass) (k : string → option A) (s : string) : option A :=
  match k s with
  | Some r => Some r
  | None =>
      match s with
      | String c s' => if class_match cl c then min_expand cl k s' else None
      | "" => None
      end
  end.

(** What is left of the subject after a match at its beginning. *)
Fixpoint do_match (its : list item) (anchored : bool) (s : string) : option string :=
  match its with
  | [] => if anchored then (if String.eqb s "" then Some "" else None) else Some s
  | (cl, q) :: its =>
      match q with
      | ROne =>
          match s with
          | String c s' => if class_match cl c then do_match its anchored s' else None
          | "" => None
          end
      | ROpt =>
          match s with
          | String c s' =>
              if class_match cl c then
                match do_match its anchored s' with Some r => Some r | None => do_match its anchored s end
              else do_match its anchored s
          | "" => do_match its anchored s
          end
      | RStar => max_expand cl (do_match its anchored) s
      | RPlus =>
          match s with
          | String c s' => if class_match cl c then max_expand cl (do_match its anchored) s' else None
          | "" => None
          end
      | RLazy => min_expand cl (do_match its anchored) s
      end
  end.

(** Without the anchor [^] every starting position is tried. *)
Fixpoint search_match (its : list item) (anchored : bool) (s : string) : bool :=
  match do_match its anchored s with
  | Some _ => true
  | None => match s with "" => false | String _ s' => search_match its anchored s' end
  end.

(** The truth value of [string.match(s, p)]; [None] for a pattern that is
    malformed or outside the subset. *)
Definition lua_test (s p : string) : option bool :=
  match p with
  | String c p' =>
      if Ascii.eqb c "^" then
        '(its, e) ← parse_pattern p';
        Some (match do_match its e s with Some _ => true | None => false end)
      else '(its, e) ← parse_pattern p; Some (search_match its e s)
  | "" => Some true
  end.

(** The string [string.match(s, p)] returns (or nil) for a capture-free [p] that
    starts with the anchor [^]. *)
Definition lua_prefix_match (s p : string) : option (option string) :=
  if negb (HasPrefix p "^") then None
  else
    '(its, e) ← parse_pattern (str_drop 1 p);
    Some (r ← do_match its e s; Some (str_take (String.length s - String.length r) s)).

(** ** Lemmas *)

Lemma max_expand_spec {A} cl (k : string → option A) s :
  is_Some (max_expand cl k s) ↔
  ∃ w r, s = w +:+ r ∧ all_chars (class_match cl) w = true ∧ is_Some (k r).
Proof.
  induction s as [|c s IH]; cbn.
  - split; [intros ?; by exists "", ""|]. by intros ([] & r & [= <-] & _ & ?).
  - assert (is_Some (k (String c s)) → ∃ w r, String c s = w +:+ r ∧
      all_chars (class_match cl) w = true ∧ is_Some (k r)) as H0 by (intros; by exists "", (String c s)).
    destruct (class_match cl c) eqn:Hc.
    + destruct (max_expand cl k s) as [r0|] eqn:Hm.
      * split; [intros _|by eauto]. destruct IH as [(w & r & -> & Hw & Hr) _]; [by eauto|].
        exists (String c w), r. cbn. by rewrite Hc, Hw.
      * split; [exact H0|]. intros (w & r & Heq & Hw & Hr). destruct w as [|a w]; cbn in *.
        { by rewrite Heq. }
        injection Heq as -> ->. bools. destruct IH as [_ IH].
        destruct IH as [? [=]]. by exists w, r.
    + split; [exact H0|]. intros (w & r & Heq & Hw & Hr). destruct w as [|a w]; cbn in *.
      { by rewrite Heq. }
      injection Heq as -> ->. bools. congruence.
Qed.

(** A class that is pending when no repetition follows stands for itself. *)
Lemma parse_flush pending c p :
  repetition c = None →
  parse_go (PNormal pending) (String c p) = flush pending (parse_go (PNormal None) (String c p)).
Proof. intros H. cbn [parse_go]. rewrite H. by destruct pending. Qed.

(** The path of a request without its query: [string.match(raw_p, "^[^?]*")]. *)
Fixpoint strip_query (s : string) : string :=
  match s with
  | "" => ""
  | String c s' => if Ascii.eqb c "?" then "" else String c (strip_query s')
  end.

Definition not_question : lclass := CSet true ["?"%char].

Lemma max_expand_not_question s :
  ∃ r, max_expand not_question Some s = Some r ∧ s = strip_query s +:+ r.
Proof.
  induction s as [|c s (r & Hr & Hs)]; [by exists ""|]. cbn [max_expand strip_query].
  destruct (ascii_eqb_spec c "?") as [->|Hc]; [by eexists|].
  assert (class_match not_question c = true) as ->.
  { cbn. rewrite bool_decide_false by set_solver. done. }
  rewrite Hr. exists r. split; [done|]. cbn. by rewrite <-Hs.
Qed.

Lemma lua_strip_query s : lua_prefix_match s "^[^?]*" = Some (Some (strip_query s)).
Proof.
  destruct (max_expand_not_question s) as (r & Hr & Hs).
  unfold lua_prefix_match. cbn [HasPrefix negb Ascii.eqb andb str_drop Bool.eqb].
  change (parse_pattern "[^?]*") with (Some ([(not_question, RStar)], false)).
  cbn. change (max_expand not_question (λ s, Some s) s) with (max_expand not_question Some s).
  rewrite Hr. cbn. do 2 f_equal. rewrite Hs at 1 2. rewrite str_length_app.
  replace (_ + _ - _) with (String.length (strip_query s)) by lia. apply str_take_app.
Qed.
