(* ===== verification/LuaCapture.v ===== *)
(** * Captures and iteration in Lua patterns

    [string.match] with captures and [string.gmatch], for patterns whose parts
    between the parentheses are patterns of [LuaPattern]. *)

From S2P Require Import Prelude GoStrings LuaPattern.

(** ** Patterns with captures *)

Inductive elem := EItem (it : item) | EOpen | EClose.

(** The pattern is cut at the parentheses that are neither escaped nor in a set;
    [seg] is the part read since the last one. *)
Fixpoint parse_elems (seg : string) (escaped in_set : bool) (p : string) : option (list elem * bool) :=
  match p with
  | "" => '(its, e) ← parse_pattern seg; Some (map EItem its, e)
  | String c p =>
      if escaped then parse_elems (seg +:+ String c "") false in_set p
      else if Ascii.eqb c "%" then parse_elems (seg +:+ String c "") true in_set p
      else if in_set then parse_elems (seg +:+ String c "") false (negb (Ascii.eqb c "]")) p
      else if Ascii.eqb c "[" then parse_elems (seg +:+ String c "") false true p
      else if Ascii.eqb c "(" || Ascii.eqb c ")" then
        '(its, e) ← parse_pattern seg;
        if e : bool then None
        else
          '(es, e) ← parse_elems "" false false p;
          Some (map EItem its ++ (if Ascii.eqb c "(" then EOpen else EClose) :: es, e)
      else parse_elems (seg +:+ String c "") false false p
  end.

(** ** Matching *)

(** A capture is where it starts and, once closed, where it ends: the suffixes of
    the subject at these points. The latest capture comes first. *)
Definition capture : Type := string * option string.

Fixpoint close_capture (s : string) (caps : list capture) : option (list capture) :=
  match caps with
  | [] => None
  | (b, None) :: caps => Some ((b, Some s) :: caps)
  | cp :: caps => cs ← close_capture s caps; Some (cp :: cs)
  end.

Fixpoint cap_match (es : list elem) (anchored : bool) (caps : list capture) (s : string)
    : option (string * list capture) :=
  match es with
  | [] => if anchored && negb (String.eqb s "") then None else Some (s, caps)
  | EOpen :: es => cap_match es anchored ((s, None) :: caps) s
  | EClose :: es => caps ← close_capture s caps; cap_match es anchored caps s
  | EItem (cl, q) :: es =>
      let k := cap_match es anchored caps in
      match q, s with
      | ROne, String c s' | RPlus, String c s' =>
          if class_match cl c
          then match q with RPlus => max_expand cl k s' | _ => k s' end
          else None
      | ROne, "" | RPlus, "" => None
      | ROpt, String c s' =>
          if class_match cl c then match k s' with Some r => Some r | None => k s end else k s
      | ROpt, "" => k ""
      | RStar, _ => max_expand cl k s
      | RLazy, _ => min_expand cl k s
      end
  end.

Definition captured (cp : capture) : option string :=
  e ← cp.2; Some (str_take (String.length cp.1 - String.length e) cp.1).

(** The captures in the order in which they were opened. *)
Definition captures (caps : list capture) : option (list string) := mapM captured (rev caps).

(** [string.match(s, p)] for a [p] with the anchor [^] and with captures: outer
    [None] for a pattern outside the subset, inner [None] for [nil]. *)
Definition lua_match_captures (s p : string) : option (option (list string)) :=
  if negb (HasPrefix p "^") then None
  else
    '(es, e) ← parse_elems "" false false (str_drop 1 p);
    match cap_match es e [] s with
    | Some (_, caps) => cs ← captures caps; Some (Some cs)
    | None => Some None
    end.

(** [string.gmatch]: a match at every position, the search going on after it;
    [skip] counts the bytes of a match still to be passed over. *)
Fixpoint gmatch_go (es : list elem) (anchored : bool) (skip : nat) (s : string) : option (list (list string)) :=
  match skip, s with
  | S skip, "" => Some []
  | S skip, String _ s => gmatch_go es anchored skip s
  | 0, _ =>
      match cap_match es anchored [] s, s with
      | Some (r, caps), String _ s' =>
          cs ← captures caps;
          rest ← gmatch_go es anchored (String.length s' - String.length r) s';
          Some (cs :: rest)
      | Some (_, caps), "" => cs ← captures caps; Some [cs]
      | None, String _ s' => gmatch_go es anchored 0 s'
      | None, "" => Some []
      end
  end.

Definition lua_gmatch (s p : string) : option (list (list string)) :=
  '(es, e) ← parse_elems "" false false p; gmatch_go es e 0 s.

(** ** Lemmas *)

(** [stops cl s]: no byte of class [cl] at the beginning of [s]. *)
Definition stops (cl : lclass) (s : string) : bool :=
  match s with "" => true | String c _ => negb (class_match cl c) end.

(** If the rest of the pattern matches after the longest run, that run is taken. *)
Lemma max_expand_greedy {A} cl (k : string → option A) w s r :
  all_chars (class_match cl) w = true → stops cl s = true → k s = Some r → max_expand cl k (w +:+ s) = Some r.
Proof.
  intros Hw Hs Hk. induction w as [|c w IH]; cbn [String.append].
  - destruct s as [|c s]; cbn in *; [done|]. by destruct (class_match cl c).
  - cbn in Hw. bools. cbn [max_expand]. by rewrite H, IH.
Qed.

Lemma plus_greedy cl es anchored caps w s r :
  w ≠ "" → all_chars (class_match cl) w = true → stops cl s = true → cap_match es anchored caps s = Some r →
  cap_match (EItem (cl, RPlus) :: es) anchored caps (w +:+ s) = Some r.
Proof.
  intros Hne Hw Hs Hk. destruct w as [|c w]; [done|]. cbn in Hw. bools.
  cbn [cap_match String.append]. rewrite H. by apply max_expand_greedy.
Qed.

Lemma star_greedy cl es anchored caps w s r :
  all_chars (class_match cl) w = true → stops cl s = true → cap_match es anchored caps s = Some r →
  cap_match (EItem (cl, RStar) :: es) anchored caps (w +:+ s) = Some r.
Proof. intros Hw Hs Hk. cbn [cap_match]. by apply max_expand_greedy. Qed.

Lemma plus_stops cl es anchored caps s :
  stops cl s = true → cap_match (EItem (cl, RPlus) :: es) anchored caps s = None.
Proof. destruct s as [|c s]; cbn; [done|]. by destruct (class_match cl c). Qed.

Lemma captured_app w s : captured (w +:+ s, Some s) = Some w.
Proof.
  unfold captured. cbn. rewrite str_length_app.
  replace (_ + _ - _) with (String.length w) by lia. by rewrite str_take_app.
Qed.

Lemma gmatch_skip es anchored w s :
  gmatch_go es anchored (String.length w) (w +:+ s) = gmatch_go es anchored 0 s.
Proof. by induction w. Qed.

(** ** Which captures a match leaves *)

Lemma max_expand_Some {A} cl (k : string → option A) s x :
  max_expand cl k s = Some x → ∃ s', k s' = Some x.
Proof.
  induction s as [|c s IH]; cbn; [eauto|]. destruct (class_match cl c); [|eauto].
  destruct (max_expand cl k s) as [y|]; [|eauto]. intros [= <-]. by apply IH.
Qed.

Lemma min_expand_Some {A} cl (k : string → option A) s x :
  min_expand cl k s = Some x → ∃ s', k s' = Some x.
Proof.
  induction s as [|c s IH]; cbn; destruct (k _) as [y|] eqn:Hk; intros Hx; simplify_eq; eauto.
  destruct (class_match cl c); [by apply IH|done].
Qed.

(** Whether the captures are closed depends on the pattern only. *)
Definition flags (caps : list capture) : list bool := (λ cp : capture, bool_decide (is_Some cp.2)) <$> caps.

Fixpoint close_flag (fl : list bool) : option (list bool) :=
  match fl with
  | [] => None
  | false :: fl => Some (true :: fl)
  | true :: fl => f ← close_flag fl; Some (true :: f)
  end.

Fixpoint run_flags (es : list elem) (fl : list bool) : option (list bool) :=
  match es with
  | [] => Some fl
  | EOpen :: es => run_flags es (false :: fl)
  | EClose :: es => fl ← close_flag fl; run_flags es fl
  | EItem _ :: es => run_flags es fl
  end.

Lemma close_capture_flags s caps caps' :
  close_capture s caps = Some caps' → close_flag (flags caps) = Some (flags caps').
Proof.
  revert caps'. induction caps as [|[b [e|]] caps IH]; intros caps'; [done| |].
  - cbn [close_capture]. destruct (close_capture s caps) as [cs|]; [|intros [=]]. intros [= <-].
    change (flags ((b, Some e) :: ?l)) with (true :: flags l). cbn [close_flag]. by rewrite (IH cs).
  - by intros [= <-].
Qed.

Lemma cap_match_flags es anchored caps s r caps' :
  cap_match es anchored caps s = Some (r, caps') → run_flags es (flags caps) = Some (flags caps').
Proof.
  revert caps s. induction es as [|[[cl q]| |] es IH]; intros caps s; cbn [cap_match run_flags].
  - destruct (anchored && negb (String.eqb s "")); [done|by intros [= _ <-]].
  - intros Hm. assert (∃ s', cap_match es anchored caps s' = Some (r, caps')) as [s' Hs]; [|by eapply IH].
    destruct q, s as [|c s]; try case_match; try done; eauto using max_expand_Some, min_expand_Some.
    destruct (cap_match es anchored caps s) as [x|] eqn:Hx; [|eauto].
    exists s. congruence.
  - apply IH.
  - destruct (close_capture s caps) as [cs|] eqn:Hc; [|intros [=]]. cbn [mbind option_bind].
    intros Hm. rewrite (close_capture_flags _ _ _ Hc). cbn [mbind option_bind]. by eapply IH.
Qed.

Lemma captures_closed caps : forallb id (flags caps) = true → ∃ cs, captures caps = Some cs ∧ length cs = length caps.
Proof.
  intros H. unfold captures. assert (is_Some (mapM captured (rev caps))) as [cs Hcs].
  { apply mapM_is_Some, Forall_rev, Forall_forall. intros cp Hcp. rewrite forallb_forall in H.
    unfold compose, captured. destruct (cp.2) as [e|] eqn:He; [cbn; eauto|]. exfalso.
    specialize (H false). enough (id false = true) by done. apply H, list_elem_of_In, list_elem_of_fmap.
    exists cp. unfold flags. cbn. rewrite He, bool_decide_false by (by intros [? ?]). done. }
  exists cs. split; [done|]. apply length_mapM in Hcs. by rewrite <-Hcs, length_rev.
Qed.

(** Iterating a pattern all of whose captures are closed does not fail, and every
    match has as many captures. *)
Lemma gmatch_total es anchored fl skip s :
  run_flags es [] = Some fl → forallb id fl = true →
  ∃ ms, gmatch_go es anchored skip s = Some ms ∧ Forall (λ cs, length cs = length fl) ms.
Proof.
  intros Hfl Hall.
  assert (∀ s r caps, cap_match es anchored [] s = Some (r, caps) →
    ∃ cs, captures caps = Some cs ∧ length cs = length fl) as Hcap.
  { intros s0 r caps Hm%cap_match_flags. cbn in Hm. rewrite Hfl in Hm. injection Hm as ->.
    destruct (captures_closed caps Hall) as (cs & Hcs & Hlen). exists cs. split; [done|].
    rewrite Hlen. unfold flags. by rewrite length_fmap. }
  revert skip. induction s as [|c s IH]; intros [|skip]; cbn [gmatch_go]; [| by eexists| |apply IH].
  - destruct (cap_match es anchored [] "") as [[r caps]|] eqn:Hm; [|by eexists].
    destruct (Hcap _ _ _ Hm) as (cs & -> & Hlen). eexists. split; [done|]. by constructor.
  - destruct (cap_match es anchored [] (String c s)) as [[r caps]|] eqn:Hm; [|apply IH].
    destruct (Hcap _ _ _ Hm) as (cs & -> & Hlen). cbn [mbind option_bind].
    destruct (IH (String.length s - String.length r)) as (ms & -> & Hms).
    eexists. split; [done|]. by constructor.
Qed.
