(* ===== verification/LuaConvert.v ===== *)
(** * From matchers to Lua source text (pkg/luascript)

    lua_string_escape.go, matcher_path_converter.go, request_matcher_converter.go
    and login_param_converter.go: the text they emit. [LuaRead] reads it back. *)

From S2P Require Import Prelude GoStrings Api PathValidation PathLang LuaPattern.

(** ** EscapeLuaString *)

Definition nul : ascii := "000"%char.
Definition backslash : ascii := "\"%char.

(** The replacer's table; every old string is one byte. *)
Definition escape_lua_char (c : ascii) : string :=
  if Ascii.eqb c backslash then "\\"
  else if Ascii.eqb c dquote then String backslash dq
  else if Ascii.eqb c "010" then "\n"
  else if Ascii.eqb c "013" then "\r"
  else if Ascii.eqb c "009" then "\t"
  else if Ascii.eqb c "011" then "\v"
  else if Ascii.eqb c "012" then "\f"
  else if Ascii.eqb c nul then ""
  else String c "".

Definition EscapeLuaString (s : string) : string := byte_replace escape_lua_char s.

(** ** ConvertRequestMatcherPathToLuaPattern *)

Definition singleStarPlaceholder : string := "<<SINGLESTAR>>".
Definition doubleStarPlaceholder : string := "<<DOUBLESTAR>>".

Definition escape_pattern_char (c : ascii) : string :=
  if ContainsChar "%^$.+-?[]()" c then String "%" (String c "") else String c "".

Definition escapeLuaPatternChars (s : string) : go string :=
  if ContainsAny s "*{}"
  then Panic ("escapeLuaPatternChars should be called after wildcard processing: " +:+ s)
  else Ok (byte_replace escape_pattern_char s).

Definition toLuaPattern (path : string) : go string :=
  let path :=
    if ContainsAny path "{}" then ReplaceAll (ReplaceAll path "{" "") "}" ""
    else ReplaceAll path "*" "**" in
  let path := ReplaceAll path "**" doubleStarPlaceholder in
  let path := ReplaceAll path "*" singleStarPlaceholder in
  path ← escapeLuaPatternChars path;
  let path := ReplaceAll path singleStarPlaceholder "[^/]+" in
  let path := ReplaceAll path doubleStarPlaceholder ".*" in
  Ok path.

Definition ConvertRequestMatcherPathToLuaPattern (path : string) : go string :=
  p ← toLuaPattern path; Ok ("^" +:+ p +:+ "$").

(** ** ConvertRequestMatchersToLuaTableString *)

Definition convert_methods (methods : list string) : string :=
  (fix go (first : bool) (ms : list string) : string :=
     match ms with
     | [] => ""
     | m :: ms =>
         (if first then "" else ",") +:+ "[" +:+ dq +:+ EscapeLuaString m +:+ dq +:+ "]=true" +:+ go false ms
     end) true methods.

Definition convert_entry (path : string) (methods : list string) : go string :=
  pat ← ConvertRequestMatcherPathToLuaPattern path;
  Ok ("{regex=" +:+ dq +:+ pat +:+ dq +:+ ",methods={" +:+ convert_methods methods +:+ "}}").

(** The (path, methods) pairs of the two nested loops, in order. *)
Definition entries (ms : list RequestMatcher) : list (string * list string) :=
  ms ≫= λ m, (λ p, (p, Methods m)) <$> Paths m.

Fixpoint convert_entries (first : bool) (es : list (string * list string)) : go string :=
  match es with
  | [] => Ok ""
  | (path, methods) :: es =>
      e ← convert_entry path methods;
      rest ← convert_entries false es;
      Ok ((if first then "" else ",") +:+ e +:+ rest)
  end.

Definition ConvertRequestMatchersToLuaTableString (ms : list RequestMatcher) : go string :=
  body ← convert_entries true (entries ms); Ok ("{" +:+ body +:+ "}").

(** ** ConvertLoginParamsToLuaParams *)

Definition hex_digit (n : nat) : ascii :=
  ascii_of_nat (if Nat.ltb n 10 then 48 + n else 55 + n).

(** [url.QueryEscape]: unreserved bytes are kept, a space becomes [+]. *)
Definition query_escape_char (c : ascii) : string :=
  if alnum c || ContainsChar "-_.~" c then String c ""
  else if Ascii.eqb c " " then "+"
  else String "%" (String (hex_digit (Nat.div (nat_of_ascii c) 16))
                     (String (hex_digit (Nat.modulo (nat_of_ascii c) 16)) "")).

Definition QueryEscape (s : string) : string := byte_replace query_escape_char s.

Definition encodeLoginParams (raw : gmap string string) : gmap string string := QueryEscape <$> raw.

(** [sort.Strings] on the keys, by insertion. *)
Fixpoint insert_key (k : string * string) (l : list (string * string)) : list (string * string) :=
  match l with
  | [] => [k]
  | x :: l => if String.leb k.1 x.1 then k :: x :: l else x :: insert_key k l
  end.

Definition sorted_params (m : gmap string string) : list (string * string) :=
  foldr insert_key [] (map_to_list m).

Fixpoint convert_params (first : bool) (kvs : list (string * string)) : string :=
  match kvs with
  | [] => ""
  | (k, v) :: kvs =>
      (if first then "" else ",") +:+ "[" +:+ dq +:+ EscapeLuaString k +:+ dq +:+ "]=" +:+
      dq +:+ EscapeLuaString v +:+ dq +:+ convert_params false kvs
  end.

Definition ConvertLoginParamsToLuaParams (rawLoginParams : gmap string string) : string :=
  let params := encodeLoginParams rawLoginParams in
  if decide (params = ∅) then "{}" else "{" +:+ convert_params true (sorted_params params) +:+ "}".

(** ** The pattern of a path *)

(** What each token becomes. *)
Definition lua_tok (t : tok) : string :=
  match t with TLit c => escape_pattern_char c | TOne => "[^/]+" | TAny => ".*" end.

Definition lua_item (t : tok) : item :=
  match t with
  | TLit c => (CChar c, ROne)
  | TOne => (CSet true ["/"%char], RPlus)
  | TAny => (CAny, RStar)
  end.

(** The stages of the conversion of a token. *)
Definition stage_star (t : tok) : string :=
  match t with TLit c => String c "" | TOne => "*" | TAny => "**" end.
Definition stage_double (t : tok) : string :=
  match t with TLit c => String c "" | TOne => "*" | TAny => doubleStarPlaceholder end.
Definition stage_single (t : tok) : string :=
  match t with TLit c => String c "" | TOne => singleStarPlaceholder | TAny => doubleStarPlaceholder end.
Definition stage_escaped (t : tok) : string :=
  match t with
  | TLit c => escape_pattern_char c
  | TOne => singleStarPlaceholder
  | TAny => doubleStarPlaceholder
  end.
Definition stage_one (t : tok) : string :=
  match t with TLit c => escape_pattern_char c | TOne => "[^/]+" | TAny => doubleStarPlaceholder end.

Lemma Forall_lit_impl (Q : tok → Prop) ts :
  (∀ c, path_char c = true → Q (TLit c)) → Q TOne → Q TAny →
  Forall (λ t, lit_ok t = true) ts → Forall Q ts.
Proof. intros Hl H1 H2 H. eapply Forall_impl; [exact H|]. intros [c| |]; auto. Qed.

Lemma strip_braces ts :
  Forall (λ t, lit_ok t = true) ts →
  ReplaceAll (ReplaceAll (render show_tok ts) "{" "") "}" "" = render stage_star ts.
Proof.
  intros H. rewrite !ReplaceAll_byte.
  apply (render_chunks (λ s, byte_replace _ (byte_replace _ s))); [done|].
  apply (Forall_lit_impl _ ts); [|done|done|done].
  intros c (H1 & H2 & _)%path_char_inv rest. cbn.
  rewrite (ascii_eqb_false c "{") by done. cbn. by rewrite (ascii_eqb_false c "}") by done.
Qed.

Lemma HasPrefix_double_star ts :
  isolated (TOne :: ts) = true → Forall (λ t, lit_ok t = true) ts →
  HasPrefix ("*" +:+ render stage_star ts) "**" = false.
Proof.
  destruct ts as [|[c| |] ts]; [done| |done|done]. intros _ H. apply Forall_cons_iff in H as [Hc _].
  apply path_char_inv in Hc as (_ & _ & Hc & _).
  rewrite render_cons. cbn [stage_star String.append HasPrefix]. by rewrite (ascii_eqb_false "*" c) by done.
Qed.

Lemma replace_double ts :
  good_toks ts → ReplaceAll (render stage_star ts) "**" doubleStarPlaceholder = render stage_double ts.
Proof.
  intros [H Hi]. induction ts as [|t ts IH]; [done|].
  apply Forall_cons_iff in H as [Ht H].
  assert (isolated ts = true) as Hi' by (cbn in Hi; destruct ts; bools; done).
  rewrite !render_cons, <-(IH H Hi'). destruct t as [c| |]; cbn [stage_star stage_double].
  - apply path_char_inv in Ht as (_ & _ & ? & _). rewrite !str_app_cons. by apply ReplaceAll_head_ne.
  - rewrite !str_app_cons. apply ReplaceAll_miss. by apply HasPrefix_double_star.
  - by apply ReplaceAll_hit.
Qed.

Lemma replace_single ts :
  Forall (λ t, lit_ok t = true) ts →
  ReplaceAll (render stage_double ts) "*" singleStarPlaceholder = render stage_single ts.
Proof.
  intros H. rewrite ReplaceAll_byte. apply render_chunks; [done|].
  apply (Forall_lit_impl _ ts); [|done|done|done].
  intros c (_ & _ & ? & _)%path_char_inv rest. cbn. by rewrite (ascii_eqb_false c "*") by done.
Qed.

Lemma stage_single_clean ts :
  Forall (λ t, lit_ok t = true) ts → ContainsAny (render stage_single ts) "*{}" = false.
Proof.
  induction 1 as [|t ts Ht _ IH]; [done|]. rewrite render_cons, ContainsAny_app, IH, orb_false_r.
  destruct t as [c| |]; [|done|done]. apply path_char_inv in Ht as (? & ? & ? & _).
  cbn [stage_single ContainsAny ContainsChar]. by rewrite !(ascii_eqb_false _ c) by congruence.
Qed.

Lemma escape_stage ts :
  byte_replace escape_pattern_char (render stage_single ts) = render stage_escaped ts.
Proof.
  apply render_chunks; [done|]. apply Forall_true. intros [c| |] rest; cbn [stage_single stage_escaped].
  - done.
  - by rewrite byte_replace_app.
  - by rewrite byte_replace_app.
Qed.

Lemma escape_no_angle c :
  c ≠ "<"%char → all_chars (λ a, negb (Ascii.eqb a "<")) (escape_pattern_char c) = true.
Proof. intros H. unfold escape_pattern_char. by destruct (ContainsChar _ c); cbn; rewrite ascii_eqb_false. Qed.

Lemma placeholder_stage ts :
  Forall (λ t, lit_ok t = true) ts →
  ReplaceAll (ReplaceAll (render stage_escaped ts) singleStarPlaceholder "[^/]+")
    doubleStarPlaceholder ".*" = render lua_tok ts.
Proof.
  intros H.
  assert (∀ s new, ReplaceAll (doubleStarPlaceholder +:+ s) singleStarPlaceholder new =
    doubleStarPlaceholder +:+ ReplaceAll s singleStarPlaceholder new) as Hd by done.
  rewrite (render_chunks (λ s, ReplaceAll s _ _) stage_escaped stage_one);
    [|done|]; [rewrite (render_chunks (λ s, ReplaceAll s _ _) stage_one lua_tok)|]; try done.
  - apply (Forall_lit_impl _ ts); [| | |done].
    + intros c (_ & _ & _ & ?)%path_char_inv rest. by apply ReplaceAll_inert, escape_no_angle.
    + intros rest. by apply ReplaceAll_inert.
    + intros rest. by apply ReplaceAll_hit.
  - apply (Forall_lit_impl _ ts); [| | |done].
    + intros c (_ & _ & _ & ?)%path_char_inv rest. by apply ReplaceAll_inert, escape_no_angle.
    + intros rest. by apply ReplaceAll_hit.
    + intros rest. apply Hd.
Qed.
