(* ===== verification/LuaMatch.v ===== *)
(** * A path's Lua pattern matches the path's language

    The pattern generated for a validated path is well formed and tests exactly
    the request paths the path denotes; the conversion never panics. *)

From S2P Require Import Prelude GoStrings PathValidation PathLang LuaPattern.
From S2P Require Import LuaConvert.

(** ** The pattern text *)

Lemma toLuaPattern_template path ts :
  path = render show_tok ts → ContainsAny path "{}" = true → good_toks ts →
  toLuaPattern path = Ok (render lua_tok ts).
Proof.
  intros -> Hc Hg. destruct Hg as [Hl Hi] eqn:HG. unfold toLuaPattern. rewrite Hc.
  rewrite strip_braces, (replace_double _ Hg), replace_single by done.
  unfold escapeLuaPatternChars. rewrite stage_single_clean by done. cbn.
  by rewrite escape_stage, placeholder_stage.
Qed.

(** Doubling the star of a legacy path gives the text of its tokens. *)
Lemma double_star_lits s rest :
  all_chars path_char s = true →
  ReplaceAll (s +:+ rest) "*" "**" = render stage_star (lits s) +:+ ReplaceAll rest "*" "**".
Proof.
  intros H. rewrite render_lits by done. apply ReplaceAll_inert.
  eapply all_chars_impl; [|exact H]. intros c (_ & _ & ? & _)%path_char_inv. by rewrite ascii_eqb_false.
Qed.

Lemma toLuaPattern_stars path ts :
  ContainsAny path "{}" = false → ReplaceAll path "*" "**" = render stage_star ts → good_toks ts →
  toLuaPattern path = Ok (render lua_tok ts).
Proof.
  intros Hc Hr Hg. destruct Hg as [Hl Hi] eqn:HG. unfold toLuaPattern. rewrite Hc, Hr.
  rewrite (replace_double _ Hg), replace_single by done.
  unfold escapeLuaPatternChars. rewrite stage_single_clean by done. cbn.
  by rewrite escape_stage, placeholder_stage.
Qed.

Lemma toLuaPattern_valid path :
  validatePath path = Ok () →
  good_toks (tokenize path) ∧ toLuaPattern path = Ok (render lua_tok (tokenize path)).
Proof.
  intros [Hc Hp|l -> Hc Hl|ts Hts Hc Hg]%validatePath_shape.
  - rewrite tokenize_plain by done. split; [by apply good_toks_lits|].
    apply toLuaPattern_stars; [done| |by apply good_toks_lits].
    rewrite <-(str_app_nil_r path) at 1. rewrite double_star_lits by done. apply str_app_nil_r.
  - rewrite tokenize_legacy by done. split; [by apply good_toks_lits_any|].
    apply toLuaPattern_stars; [done| |by apply good_toks_lits_any].
    by rewrite double_star_lits, render_app.
  - rewrite Hts, tokenize_template, <-Hts by done. split; [done|]. by apply toLuaPattern_template.
Qed.

(** ** Parsing the pattern *)

Lemma repetition_lua_tok t rest :
  lit_ok t = true → ∃ c p, lua_tok t +:+ rest = String c p ∧ repetition c = None.
Proof.
  destruct t as [c| |]; [|by repeat eexists|by repeat eexists]. cbn. intros Hc.
  unfold escape_pattern_char. destruct (ContainsChar _ c) eqn:Hs; cbn; [by repeat eexists|].
  do 2 eexists; split; [done|].
  pose proof (path_char_inv c Hc) as (_ & _ & Hstar & _).
  unfold repetition. rewrite (ascii_eqb_false c "*") by done.
  destruct (ascii_eqb_spec c "+") as [->|]; [done|].
  destruct (ascii_eqb_spec c "?") as [->|]; [done|].
  by destruct (ascii_eqb_spec c "-") as [->|].
Qed.

(** A token's text is parsed as its item, to be flushed by what follows. *)
Lemma parse_escaped c rest :
  path_char c = true →
  parse_go (PNormal None) (escape_pattern_char c +:+ rest) = parse_go (PNormal (Some (CChar c))) rest.
Proof.
  intros Hc. unfold escape_pattern_char. destruct (ContainsChar _ c) eqn:Hs; cbn [String.append].
  - cbn [parse_go]. change (repetition "%") with (@None lrep). cbn [flush Ascii.eqb Bool.eqb andb].
    destruct (alnum c) eqn:Ha; [|done]. exfalso. cbn [ContainsChar] in Hs. bools.
    repeat (destruct Hs as [->%Ascii.eqb_eq%symmetry|Hs]; [by vm_compute in Ha|bools]). done.
  - cbn [parse_go]. cbn [ContainsChar] in Hs. bools.
    repeat match goal with H : Ascii.eqb ?a c = false |- _ =>
      rewrite Ascii.eqb_sym in H; rewrite ?H; clear H end.
    destruct (repetition c); done.
Qed.

Lemma parse_tokens pending ts :
  Forall (λ t, lit_ok t = true) ts →
  parse_go (PNormal pending) (render lua_tok ts +:+ "$") =
  flush pending (Some (lua_item <$> ts, true)).
Proof.
  intros H. revert pending. induction H as [|t ts Ht _ IH]; intros pending; [by destruct pending|].
  rewrite render_cons, str_app_assoc.
  destruct (repetition_lua_tok t (render lua_tok ts +:+ "$") Ht) as (c & p & Heq & Hrep).
  rewrite Heq, parse_flush, <-Heq by done. f_equal. destruct t as [a| |]; cbn [lua_tok fmap list_fmap].
  - rewrite parse_escaped by done. by rewrite IH.
  - change (parse_go (PNormal None) ("[^/]+" +:+ ?r)) with
      (add_item (lua_item TOne) (parse_go (PNormal None) r)). by rewrite IH.
  - change (parse_go (PNormal None) (".*" +:+ ?r)) with
      (add_item (lua_item TAny) (parse_go (PNormal None) r)). by rewrite IH.
Qed.

(** ** Matching the items *)

Lemma class_not_slash s : all_chars (class_match (CSet true ["/"%char])) s = no_slash s.
Proof.
  unfold no_slash. induction s as [|c s IH]; [done|]. cbn [all_chars]. rewrite IH. f_equal. cbn.
  destruct (ascii_eqb_spec c "/") as [->|]; [done|]. by rewrite bool_decide_false by set_solver.
Qed.

Lemma all_chars_true s : all_chars (λ _, true) s = true.
Proof. by induction s. Qed.

(** The matcher on the items of [ts] decides the language of [ts]. *)
Lemma do_match_tokens ts s : is_Some (do_match (lua_item <$> ts) true s) ↔ tok_match ts s.
Proof.
  revert s. induction ts as [|[c| |] ts IH]; intros s; cbn [fmap list_fmap lua_item do_match].
  - destruct (String.eqb_spec s "") as [->|]; [split; eauto using tok_match|].
    split; [by intros []|inversion 1; done].
  - destruct s as [|a s]; [split; [by intros []|inversion 1]|]. cbn [class_match].
    destruct (ascii_eqb_spec c a) as [->|Hne].
    + rewrite IH. split; [by constructor|by inversion 1].
    + split; [by intros []|by inversion 1].
  - split.
    + destruct s as [|a s]; [by intros []|]. destruct (class_match _ a) eqn:Ha; [|by intros []].
      intros (w & r & -> & Hw & Hr%IH)%max_expand_spec.
      apply (tm_one (String a w)); [done| |done]. rewrite <-class_not_slash. cbn [all_chars]. by rewrite Ha.
    + inversion 1 as [| |w ts' r Hw Hns Hr|]; subst. destruct w as [|a w]; [done|].
      rewrite <-class_not_slash in Hns. cbn [all_chars String.append] in *. bools. rewrite H0.
      apply max_expand_spec. exists w, r. by rewrite IH.
  - rewrite max_expand_spec. split.
    + intros (w & r & -> & _ & Hr%IH). by constructor.
    + inversion 1 as [| | |w ts' r Hr]; subst. exists w, r. rewrite IH. split_and!; try done.
      apply all_chars_true.
Qed.

Lemma lua_test_tokens ts s :
  Forall (λ t, lit_ok t = true) ts →
  ∃ b, lua_test s ("^" +:+ render lua_tok ts +:+ "$") = Some b ∧ (b = true ↔ tok_match ts s).
Proof.
  intros H. cbn [String.append lua_test Ascii.eqb Bool.eqb andb]. unfold parse_pattern.
  rewrite parse_tokens by done. cbn [flush mbind option_bind].
  pose proof (do_match_tokens ts s) as Hiff.
  destruct (do_match _ _ s); eexists; (split; [done|]); rewrite <-Hiff; split; eauto; [done|by intros []].
Qed.

(** ** Properties *)

(** Claim C7. For every path the validator accepts, the conversion yields a well
    formed Lua pattern, and [string.match] with that pattern succeeds on exactly
    the request paths the configured path denotes: [{*}] one or more characters
    within a segment, [{**}] and a trailing [*] any characters, everything else
    itself. *)
Theorem lua_pattern_equiv (path s : string) :
  validatePath path = Ok () →
  ∃ pat b, ConvertRequestMatcherPathToLuaPattern path = Ok pat ∧
           lua_test s pat = Some b ∧ (b = true ↔ path_matches path s).
Proof.
  intros [[Hg _] Hp]%toLuaPattern_valid. unfold ConvertRequestMatcherPathToLuaPattern. rewrite Hp.
  destruct (lua_test_tokens (tokenize path) s Hg) as (b & Hb & Hiff). by eexists _, b.
Qed.

Lemma lua_pattern_equiv_witness :
  validatePath "/api.v1/{*}/items{**}" = Err "invalid or unsupported path /api.v1/{*}/items{**}. {**} is not the last operator" ∧
  ∃ pat b, ConvertRequestMatcherPathToLuaPattern "/api.v1/{*}/it-ems/{**}" = Ok pat ∧
           lua_test "/api.v1/x/it-ems/y/z" pat = Some b ∧
           (b = true ↔ path_matches "/api.v1/{*}/it-ems/{**}" "/api.v1/x/it-ems/y/z").
Proof. split; [reflexivity|]. apply lua_pattern_equiv. reflexivity. Defined.

Lemma ReplaceAll_chars P s old new :
  all_chars P s = true → all_chars P new = true → all_chars P (ReplaceAll s old new) = true.
Proof.
  unfold ReplaceAll. intros Hs Hn. generalize 0. induction s as [|c s IH]; [done|]. cbn in Hs. bools.
  intros [|k]; cbn [replace_go]; [|by apply IH].
  destruct (HasPrefix _ _); [by rewrite all_chars_app, Hn, IH|]. cbn. by rewrite H, IH.
Qed.

Lemma byte_replace_chars (P Q : ascii → bool) f s :
  (∀ c, P c = true → all_chars Q (f c) = true) → all_chars P s = true →
  all_chars Q (byte_replace f s) = true.
Proof.
  intros Hf. induction s as [|c s IH]; cbn; [done|]. intros H. bools.
  by rewrite all_chars_app, Hf, IH.
Qed.

Lemma convert_path_total (path : string) :
  ∃ pat, ConvertRequestMatcherPathToLuaPattern path = Ok pat.
Proof.
  unfold ConvertRequestMatcherPathToLuaPattern, toLuaPattern, escapeLuaPatternChars.
  match goal with |- context [ContainsAny (ReplaceAll (ReplaceAll ?s _ _) _ _) _] => set (p := s) end.
  assert (all_chars (λ c, negb (ContainsChar "{}" c)) p = true) as Hp.
  { unfold p. destruct (ContainsAny path "{}") eqn:Hc.
    - rewrite !ReplaceAll_byte.
      apply (byte_replace_chars (λ c, negb (Ascii.eqb c "{"))).
      + intros c Hc1. bools. destruct (ascii_eqb_spec c "}") as [->|Hne]; [done|].
        apply Ascii.eqb_neq in Hc1. cbn [all_chars ContainsChar]. by rewrite !ascii_eqb_false by congruence.
      + apply (byte_replace_chars (λ _, true)); [|apply all_chars_true].
        intros c _. destruct (ascii_eqb_spec c "{"); [done|].
        cbn [all_chars]. by rewrite ascii_eqb_false.
    - apply ReplaceAll_chars; [|done]. rewrite ContainsAny_all in Hc. by bools. }
  assert (ContainsAny (ReplaceAll (ReplaceAll p "**" doubleStarPlaceholder) "*" singleStarPlaceholder) "*{}" = false) as ->.
  { rewrite ContainsAny_all. bools. rewrite ReplaceAll_byte.
    apply (byte_replace_chars (λ c, negb (ContainsChar "{}" c))); [|by apply ReplaceAll_chars].
    intros c Hc. destruct (ascii_eqb_spec c "*") as [->|Hne]; [done|]. cbn [ContainsChar all_chars] in *.
    rewrite (ascii_eqb_false "*" c) by congruence. cbn [orb]. by rewrite Hc. }
  cbn. eauto.
Qed.

(** The conversion of a path never reaches the panic of
    [escapeLuaPatternChars], whether or not the path is valid: the pattern is
    generated before the paths are validated. *)
Theorem lua_pattern_no_panic (path : string) :
  ∃ pat, ConvertRequestMatcherPathToLuaPattern path = Ok pat.
Proof. apply convert_path_total. Qed.
