(* ===== verification/LuaRead.v ===== *)
(** * Reading the generated Lua text back

    A reader for the fragment of Lua's syntax the generators emit: double-quoted
    strings with their escapes, the tables of request rules and the table of login
    parameters. What the reader gets out of the generated text is what Lua does. *)

From S2P Require Import Prelude GoStrings Api PathValidation PathLang LuaPattern.
From S2P Require Import LuaConvert LuaMatch.

(** ** Double-quoted strings *)

Definition lua_unescape (e : ascii) : option ascii :=
  if Ascii.eqb e backslash then Some backslash
  else if Ascii.eqb e dquote then Some dquote
  else if Ascii.eqb e "n" then Some "010"%char
  else if Ascii.eqb e "r" then Some "013"%char
  else if Ascii.eqb e "t" then Some "009"%char
  else if Ascii.eqb e "v" then Some "011"%char
  else if Ascii.eqb e "f" then Some "012"%char
  else None.

Definition cons_char (c : ascii) (r : option (string * string)) : option (string * string) :=
  match r with Some (s, rest) => Some (String c s, rest) | None => None end.

(** From after the opening quote: the string and the text after the closing one.
    A raw line break or the end of the text leaves the literal unfinished. *)
Fixpoint read_string (s : string) : option (string * string) :=
  match s with
  | "" => None
  | String c s' =>
      if Ascii.eqb c dquote then Some ("", s')
      else if Ascii.eqb c backslash then
        match s' with
        | String e s'' =>
            match lua_unescape e with Some d => cons_char d (read_string s'') | None => None end
        | "" => None
        end
      else if Ascii.eqb c "010" || Ascii.eqb c "013" then None
      else cons_char c (read_string s')
  end.

Definition remove_nul (s : string) : string :=
  byte_replace (λ c, if Ascii.eqb c nul then "" else String c "") s.

(** Bytes a Lua string literal may hold unescaped. *)
Definition lua_plain (c : ascii) : bool :=
  negb (Ascii.eqb c dquote || Ascii.eqb c backslash || Ascii.eqb c "010" || Ascii.eqb c "013").

Lemma read_string_plain s rest :
  all_chars lua_plain s = true → read_string (s +:+ dq +:+ rest) = Some (s, rest).
Proof.
  induction s as [|c s IH]; [done|]. intros H. cbn [all_chars] in H. apply andb_true_iff in H as [Hc H].
  rewrite str_app_cons. cbn [read_string]. unfold lua_plain in Hc. bools. rewrite H0, H1, H2, H3. cbn [orb].
  by rewrite IH.
Qed.

(** One escaped byte is read back as that byte, NUL as nothing. *)
Lemma read_escaped_char c t :
  read_string (escape_lua_char c +:+ t) =
  if Ascii.eqb c nul then read_string t else cons_char c (read_string t).
Proof.
  unfold escape_lua_char.
  destruct (ascii_eqb_spec c backslash) as [->|H1]; [done|].
  destruct (ascii_eqb_spec c dquote) as [->|H2]; [done|].
  destruct (ascii_eqb_spec c "010") as [->|H3]; [done|].
  destruct (ascii_eqb_spec c "013") as [->|H4]; [done|].
  destruct (ascii_eqb_spec c "009") as [->|H5]; [done|].
  destruct (ascii_eqb_spec c "011") as [->|H6]; [done|].
  destruct (ascii_eqb_spec c "012") as [->|H7]; [done|].
  destruct (ascii_eqb_spec c nul) as [->|H8]; [done|].
  cbn [String.append read_string]. by rewrite !ascii_eqb_false.
Qed.

Lemma read_EscapeLuaString s rest :
  read_string (EscapeLuaString s +:+ dq +:+ rest) = Some (remove_nul s, rest).
Proof.
  unfold EscapeLuaString, remove_nul. induction s as [|c s IH]; [done|]. cbn [byte_replace].
  rewrite str_app_assoc, read_escaped_char, IH. by destruct (Ascii.eqb c nul).
Qed.

(** Escaping is injection safe: whatever bytes a value holds, its
    escaped form between double quotes is one Lua string literal, read back as the
    value without its NUL bytes, and nothing of it leaks into the code after the
    closing quote. *)
Theorem EscapeLuaString_roundtrip (s rest : string) :
  read_string (EscapeLuaString s +:+ dq +:+ rest) = Some (remove_nul s, rest).
Proof. apply read_EscapeLuaString. Qed.

(** ** Tables *)

Definition expect (lit s : string) : option string :=
  if HasPrefix s lit then Some (str_drop (String.length lit) s) else None.

Lemma expect_app lit s : expect lit (lit +:+ s) = Some s.
Proof. unfold expect. by rewrite HasPrefix_app, str_drop_app. Qed.

Lemma expect_app2 a b s : expect (a +:+ b) (a +:+ b +:+ s) = Some s.
Proof. by rewrite <-str_app_assoc, expect_app. Qed.

(** An entry of a rule table: [regex] and the keys of [methods]. *)
Record lua_rule := { regex : string; methods : list string }.

Fixpoint read_methods (fuel : nat) (first : bool) (s : string) : option (list string * string) :=
  match fuel with
  | 0 => None
  | S fuel =>
      if HasPrefix s "}" then Some ([], str_drop 1 s)
      else
        s ← (if first then Some s else expect "," s);
        s ← expect ("[" +:+ dq) s;
        '(m, s) ← read_string s;
        s ← expect "]=true" s;
        '(ms, s) ← read_methods fuel false s;
        Some (m :: ms, s)
  end.

Definition read_entry (fuel : nat) (s : string) : option (lua_rule * string) :=
  s ← expect ("{regex=" +:+ dq) s;
  '(r, s) ← read_string s;
  s ← expect ",methods={" s;
  '(ms, s) ← read_methods fuel true s;
  s ← expect "}" s;
  Some ({| regex := r; methods := ms |}, s).

Fixpoint read_entries (mfuel fuel : nat) (first : bool) (s : string) : option (list lua_rule * string) :=
  match fuel with
  | 0 => None
  | S fuel =>
      if HasPrefix s "}" then Some ([], str_drop 1 s)
      else
        s ← (if first then Some s else expect "," s);
        '(e, s) ← read_entry mfuel s;
        '(es, s) ← read_entries mfuel fuel false s;
        Some (e :: es, s)
  end.

(** An entry and a method take at least one byte each: the length of the text is
    fuel enough. *)
Definition read_rules (s : string) : option (list lua_rule * string) :=
  s' ← expect "{" s; read_entries (String.length s) (String.length s) true s'.

(** ** The rules a list of matchers stands for *)

Definition entry_rule (e : string * list string) : go lua_rule :=
  pat ← ConvertRequestMatcherPathToLuaPattern e.1;
  Ok {| regex := pat; methods := remove_nul <$> e.2 |}.

Fixpoint rules_of (es : list (string * list string)) : go (list lua_rule) :=
  match es with
  | [] => Ok []
  | e :: es => r ← entry_rule e; rs ← rules_of es; Ok (r :: rs)
  end.

Definition methods_text (first : bool) (ms : list string) : string :=
  (fix go (first : bool) (ms : list string) : string :=
     match ms with
     | [] => ""
     | m :: ms =>
         (if first then "" else ",") +:+ "[" +:+ dq +:+ EscapeLuaString m +:+ dq +:+ "]=true" +:+ go false ms
     end) first ms.

Lemma read_methods_text ms fuel first rest :
  length ms < fuel →
  read_methods fuel first (methods_text first ms +:+ "}" +:+ rest) = Some (remove_nul <$> ms, rest).
Proof.
  revert fuel first. induction ms as [|m ms IH]; intros [|fuel] first Hf; cbn [length] in Hf; try lia; [done|].
  change (methods_text first (m :: ms)) with
    ((if first then "" else ",") +:+ "[" +:+ dq +:+ EscapeLuaString m +:+ dq +:+ "]=true" +:+ methods_text false ms).
  cbn [read_methods fmap list_fmap].
  assert (∀ t, HasPrefix (((if first then "" else ",") +:+ "[" +:+ t) +:+ "}" +:+ rest) "}" = false) as ->
    by (by destruct first).
  assert (∀ t, (if first then Some (((if first then "" else ",") +:+ t) +:+ "}" +:+ rest)
    else expect "," (((if first then "" else ",") +:+ t) +:+ "}" +:+ rest)) = Some (t +:+ "}" +:+ rest)) as ->
    by (by destruct first).
  cbn [mbind option_bind]. str_assoc. rewrite (expect_app2 "[" dq). cbn [mbind option_bind].
  rewrite read_EscapeLuaString. cbn [mbind option_bind].
  rewrite expect_app. cbn [mbind option_bind]. by rewrite IH by lia.
Qed.

Lemma convert_methods_text ms : convert_methods ms = methods_text true ms.
Proof. done. Qed.

(** A pattern the conversion emits may be embedded without escaping when it has
    no quote, backslash or line break. *)
Lemma read_entry_text path ms pat txt fuel rest :
  ConvertRequestMatcherPathToLuaPattern path = Ok pat → all_chars lua_plain pat = true →
  convert_entry path ms = Ok txt → length ms < fuel →
  read_entry fuel (txt +:+ rest) = Some ({| regex := pat; methods := remove_nul <$> ms |}, rest).
Proof.
  intros Hpat Hplain Htxt Hf. unfold convert_entry in Htxt. rewrite Hpat in Htxt. cbn [mbind go_bind] in Htxt.
  apply Ok_inj in Htxt as <-. unfold read_entry. str_assoc. rewrite (expect_app2 "{regex=" dq).
  cbn [mbind option_bind]. rewrite read_string_plain by done. cbn [mbind option_bind].
  rewrite expect_app. cbn [mbind option_bind]. change ("}}" +:+ rest) with ("}" +:+ "}" +:+ rest).
  rewrite convert_methods_text, read_methods_text by done. cbn [mbind option_bind].
  by rewrite expect_app.
Qed.

(** *** Fuel *)

Lemma methods_text_length first ms : length ms ≤ String.length (methods_text first ms).
Proof.
  revert first. induction ms as [|m ms IH]; intros first; [done|].
  change (methods_text first (m :: ms)) with
    ((if first then "" else ",") +:+ "[" +:+ dq +:+ EscapeLuaString m +:+ dq +:+ "]=true" +:+ methods_text false ms).
  rewrite !str_length_app. cbn. specialize (IH false). lia.
Qed.

Lemma convert_entry_length path ms txt :
  convert_entry path ms = Ok txt → length ms < String.length txt.
Proof.
  unfold convert_entry. intros (pat & _ & Htxt%Ok_inj)%go_bind_ok. subst txt.
  rewrite !str_length_app, convert_methods_text. pose proof (methods_text_length true ms). cbn. lia.
Qed.

Lemma convert_entries_cons first path ms es txt :
  convert_entries first ((path, ms) :: es) = Ok txt →
  ∃ e body, convert_entry path ms = Ok e ∧ convert_entries false es = Ok body ∧
            txt = (if first then "" else ",") +:+ e +:+ body.
Proof. cbn [convert_entries]. intros. go_inv. eauto. Qed.

Lemma convert_entries_length first es txt :
  convert_entries first es = Ok txt →
  length es ≤ String.length txt ∧ Forall (λ e, length e.2 < String.length txt) es.
Proof.
  revert first txt. induction es as [|[path ms] es IH]; intros first txt H; [split; [cbn; lia|constructor]|].
  apply convert_entries_cons in H as (e & body & He & Hb & ->).
  apply convert_entry_length in He. apply IH in Hb as [Hl Hf].
  rewrite !str_length_app. cbn [length]. split; [lia|]. constructor; [cbn; lia|].
  eapply Forall_impl; [exact Hf|]. cbn. lia.
Qed.

(** *** Round trip *)

Lemma lua_plain_path_char c : path_char c = true → all_chars lua_plain (escape_pattern_char c) = true.
Proof.
  intros H. assert (lua_plain c = true) as Hc.
  { unfold lua_plain. bools. rewrite !ascii_eqb_false; [done|..]; intros ->; vm_compute in H; discriminate H. }
  unfold escape_pattern_char. destruct (ContainsChar _ c); cbn [all_chars]; by rewrite Hc.
Qed.

(** The pattern of a valid path needs no escaping. *)
Lemma valid_pattern_plain path pat :
  validatePath path = Ok () → ConvertRequestMatcherPathToLuaPattern path = Ok pat →
  all_chars lua_plain pat = true.
Proof.
  intros [[Hg _] Hp]%toLuaPattern_valid. unfold ConvertRequestMatcherPathToLuaPattern. rewrite Hp.
  intros H%Ok_inj. subst pat. rewrite !all_chars_app. bools; [done| |done].
  clear Hp. induction Hg as [|t ts Ht _ IH]; [done|]. rewrite render_cons, all_chars_app, IH, andb_true_r.
  destruct t as [c| |]; [by apply lua_plain_path_char|done|done].
Qed.

Lemma entry_sep_not_close (first : bool) e t :
  (∃ u, e = String "{" u) → HasPrefix (((if first then "" else ",") +:+ e) +:+ t) "}" = false.
Proof. intros [u ->]. by destruct first. Qed.

Lemma convert_entry_open path ms e : convert_entry path ms = Ok e → ∃ u, e = String "{" u.
Proof. unfold convert_entry. intros (pat & _ & He%Ok_inj)%go_bind_ok. subst e. by eexists. Qed.

Lemma read_entries_text es mfuel fuel first txt rest :
  Forall (λ e, ∀ pat, ConvertRequestMatcherPathToLuaPattern e.1 = Ok pat → all_chars lua_plain pat = true) es →
  Forall (λ e, length e.2 < mfuel) es → length es < fuel →
  convert_entries first es = Ok txt →
  ∃ rs, rules_of es = Ok rs ∧ read_entries mfuel fuel first (txt +:+ "}" +:+ rest) = Some (rs, rest).
Proof.
  intros Hp. revert fuel first txt. induction Hp as [|[path ms] es Hp _ IH];
    intros [|fuel] first txt Hm Hf Htxt; cbn [length] in Hf; try lia.
  { apply Ok_inj in Htxt. subst txt. by exists []. }
  apply Forall_cons_iff in Hm as [Hm Hms]. cbn in Hm.
  apply convert_entries_cons in Htxt as (e & body & He & Hb & ->).
  destruct (IH fuel false body) as (rs & Hrs & Hread); [done|lia|done|].
  pose proof (convert_entry_open _ _ _ He) as Hopen.
  assert (∃ pat, ConvertRequestMatcherPathToLuaPattern path = Ok pat) as [pat Hpat].
  { unfold convert_entry in He. apply go_bind_ok in He as (pat & ? & _). eauto. }
  exists ({| regex := pat; methods := remove_nul <$> ms |} :: rs). split.
  - cbn [rules_of]. unfold entry_rule. cbn [fst snd]. by rewrite Hpat, Hrs.
  - cbn [read_entries].
    rewrite <-(str_app_assoc _ e body), str_app_assoc, entry_sep_not_close by done.
    rewrite str_app_assoc.
    assert ((if first then Some ((if first then "" else ",") +:+ e +:+ body +:+ "}" +:+ rest)
      else expect "," ((if first then "" else ",") +:+ e +:+ body +:+ "}" +:+ rest)) =
      Some (e +:+ body +:+ "}" +:+ rest)) as -> by (by destruct first).
    cbn [mbind option_bind]. rewrite (read_entry_text path ms pat) by eauto.
    cbn [mbind option_bind]. by rewrite Hread.
Qed.

Lemma read_rules_text ms txt rest :
  Forall (λ e, ∀ pat, ConvertRequestMatcherPathToLuaPattern e.1 = Ok pat → all_chars lua_plain pat = true) (entries ms) →
  ConvertRequestMatchersToLuaTableString ms = Ok txt →
  ∃ rs, rules_of (entries ms) = Ok rs ∧ read_rules (txt +:+ rest) = Some (rs, rest).
Proof.
  intros Hp (body & Hb & Htxt%Ok_inj)%go_bind_ok. subst txt.
  destruct (convert_entries_length _ _ _ Hb) as [Hl Hf].
  set (n := String.length (("{" +:+ body +:+ "}") +:+ rest)).
  assert (String.length body < n) as Hn by (unfold n; rewrite !str_length_app; cbn; lia).
  destruct (read_entries_text (entries ms) n n true body rest) as (rs & Hrs & Hread); [done| |lia|done|].
  { eapply Forall_impl; [exact Hf|]. intros e He. cbn beta in *. lia. }
  exists rs. split; [done|]. unfold read_rules. fold n. str_assoc. rewrite (expect_app "{"). exact Hread.
Qed.

Lemma convert_entries_total first es : ∃ txt, convert_entries first es = Ok txt.
Proof.
  revert first. induction es as [|[path ms] es IH]; intros first; [by eexists|].
  cbn [convert_entries]. unfold convert_entry.
  destruct (convert_path_total path) as [pat ->], (IH false) as [body ->]. by eexists.
Qed.

Lemma convert_matchers_total ms : ∃ txt, ConvertRequestMatchersToLuaTableString ms = Ok txt.
Proof.
  unfold ConvertRequestMatchersToLuaTableString.
  destruct (convert_entries_total true (entries ms)) as [txt ->]. by eexists.
Qed.

Lemma entries_elem ms e : e ∈ entries ms ↔ ∃ m, m ∈ ms ∧ e.1 ∈ Paths m ∧ e.2 = Methods m.
Proof.
  unfold entries. rewrite list_elem_of_bind. destruct e as [p me]. cbn. split.
  - intros (m & (q & [= -> ->] & Hq)%list_elem_of_fmap & Hm). eauto.
  - intros (m & Hm & Hp & ->). exists m. split; [|done]. apply list_elem_of_fmap. eauto.
Qed.

(** The rule table generated for matchers with valid paths, whatever
    their methods hold, is a Lua table read back as exactly one rule per (path,
    methods) pair, in order: the path's pattern and the methods without NULs. *)
Theorem rule_table_roundtrip (ms : list RequestMatcher) (rest : string) :
  (∀ m p, m ∈ ms → p ∈ Paths m → validatePath p = Ok ()) →
  ∃ txt rs, ConvertRequestMatchersToLuaTableString ms = Ok txt ∧
            rules_of (entries ms) = Ok rs ∧ read_rules (txt +:+ rest) = Some (rs, rest).
Proof.
  intros Hv.
  assert (∃ txt, ConvertRequestMatchersToLuaTableString ms = Ok txt) as [txt Htxt].
  { apply convert_matchers_total. }
  exists txt. destruct (read_rules_text ms txt rest) as (rs & ? & ?); eauto.
  apply Forall_forall. intros e (m & Hm & Hp & _)%entries_elem pat.
  apply valid_pattern_plain. eauto.
Qed.

Lemma rule_table_roundtrip_witness :
  ∃ txt rs, ConvertRequestMatchersToLuaTableString [{| Paths := ["/a/{*}"; "/b*"]; Methods := ["GET"] |}] = Ok txt ∧
            rules_of (entries [{| Paths := ["/a/{*}"; "/b*"]; Methods := ["GET"] |}]) = Ok rs ∧
            read_rules (txt +:+ ";") = Some (rs, ";").
Proof.
  apply rule_table_roundtrip. intros m p ->%list_elem_of_singleton Hp. cbn in Hp.
  repeat (apply elem_of_cons in Hp as [->|Hp]; [vm_compute; reflexivity|]).
  by apply not_elem_of_nil in Hp.
Defined.
