(* ===== verification/Objects.v ===== *)
(** * The objects the operator writes

    The fields of the Kubernetes and Istio types (Secret, EnvoyFilter,
    RequestAuthentication, AuthorizationPolicy) that the generators fill in and
    the reconciler compares. *)

From S2P Require Import Prelude Api.

(** ** Protobuf structs: the value of an Envoy configuration patch

    The fields of a struct are listed in the order of their keys, so that equality
    of values is equality of maps; [VMap] puts the fields of a Go map literal in
    that order. *)
Inductive Value :=
  | VStr (s : string)
  | VNum (z : Z)
  | VBool (b : bool)
  | VStruct (fields : list (string * Value))
  | VList (vs : list Value).

Fixpoint insert_field (k : string) (v : Value) (l : list (string * Value)) : list (string * Value) :=
  match l with
  | [] => [(k, v)]
  | (k', v') :: l =>
      if String.eqb k k' then (k, v) :: l
      else if String.leb k k' then (k, v) :: (k', v') :: l
      else (k', v') :: insert_field k v l
  end.

Definition VMap (fields : list (string * Value)) : Value :=
  VStruct (foldl (λ l kv, insert_field kv.1 kv.2 l) [] fields).

(** [m["k"] = v] on a struct value. *)
Definition set_field (k : string) (v : Value) (s : Value) : Value :=
  match s with VStruct l => VStruct (insert_field k v l) | _ => s end.

Fixpoint value_eqb (v w : Value) : bool :=
  match v, w with
  | VStr s, VStr t => bool_decide (s = t)
  | VNum a, VNum b => bool_decide (a = b)
  | VBool a, VBool b => bool_decide (a = b)
  | VStruct fs, VStruct gs =>
      (fix go (fs gs : list (string * Value)) : bool :=
         match fs, gs with
         | [], [] => true
         | (k, v) :: fs, (l, w) :: gs => bool_decide (k = l) && value_eqb v w && go fs gs
         | _, _ => false
         end) fs gs
  | VList vs, VList ws =>
      (fix go (vs ws : list Value) : bool :=
         match vs, ws with
         | [], [] => true
         | v :: vs, w :: ws => value_eqb v w && go vs ws
         | _, _ => false
         end) vs ws
  | _, _ => false
  end.

Section value_ind.
Variable P : Value → Prop.
Hypothesis Hstr : ∀ s, P (VStr s).
Hypothesis Hnum : ∀ z, P (VNum z).
Hypothesis Hbool : ∀ b, P (VBool b).
Hypothesis Hstruct : ∀ fs, Forall (λ kv, P kv.2) fs → P (VStruct fs).
Hypothesis Hlist : ∀ vs, Forall P vs → P (VList vs).

Fixpoint Value_nested_ind (v : Value) : P v :=
  match v with
  | VStr s => Hstr s
  | VNum z => Hnum z
  | VBool b => Hbool b
  | VStruct fs =>
      Hstruct fs ((fix go fs : Forall (λ kv, P kv.2) fs :=
        match fs with
        | [] => List.Forall_nil (A := string * Value) _
        | kv :: fs => List.Forall_cons _ kv fs (Value_nested_ind kv.2) (go fs)
        end) fs)
  | VList vs =>
      Hlist vs ((fix go vs : Forall P vs :=
        match vs with
        | [] => List.Forall_nil (A := Value) _
        | v :: vs => List.Forall_cons _ v vs (Value_nested_ind v) (go vs)
        end) vs)
  end.
End value_ind.

Lemma value_eqb_eq v w : value_eqb v w = true ↔ v = w.
Proof.
  revert w. induction v as [s|z|b|fs IH|vs IH] using Value_nested_ind; intros [t|y|c|gs|ws]; cbn;
    try (split; congruence); rewrite ?bool_decide_eq_true; try (split; congruence).
  - revert gs. induction IH as [|[k v] fs Hv _ IH]; intros [|[l w] gs]; try (split; congruence).
    cbn in Hv. rewrite !andb_true_iff, bool_decide_eq_true, Hv, IH. split; [|naive_solver].
    intros [[-> ->] [= ->]]. done.
  - revert ws. induction IH as [|v vs Hv _ IH]; intros [|w ws]; try (split; congruence).
    rewrite !andb_true_iff, Hv, IH. split; [|naive_solver]. intros [-> [= ->]]. done.
Qed.

#[global] Instance Value_eq_dec : EqDecision Value.
Proof. intros v w. destruct (value_eqb v w) eqn:E; [left|right]; rewrite <-value_eqb_eq; congruence. Defined.

(** ** Secret *)

Record Secret := {
  secret_Meta : ObjectMeta;
  secret_Type : string;
  secret_Data : gmap string string;
}.

(** ** EnvoyFilter *)

Inductive EnvoyApplyTo := HTTP_FILTER | CLUSTER.

(** The two kinds of match the operator builds. *)
Inductive EnvoyMatch :=
  | MatchListener (inbound : bool) (filter : string) (subFilter : option string)
  | MatchCluster (service : string).

Inductive EnvoyOperation := INSERT_BEFORE | ADD.

Record EnvoyConfigPatch := {
  patch_ApplyTo : EnvoyApplyTo;
  patch_Match : EnvoyMatch;
  patch_Operation : EnvoyOperation;
  patch_Value : Value;
}.

Record EnvoyFilter := {
  ef_Meta : ObjectMeta;
  ef_ConfigPatches : list EnvoyConfigPatch;
  ef_WorkloadSelector : gmap string string;
}.

(** ** RequestAuthentication *)

Record JWTRule := {
  jwt_Issuer : string;
  jwt_Audiences : list string;
  jwt_JwksUri : string;
  jwt_ForwardOriginalToken : bool;
  jwt_OutputClaimToHeaders : list (string * string);
}.

Record RequestAuthentication := {
  ra_Meta : ObjectMeta;
  ra_Selector : gmap string string;
  ra_JwtRules : list JWTRule;
}.

(** ** AuthorizationPolicy *)

Record IstioCondition := {
  ic_Key : string;
  ic_Values : list string;
  ic_NotValues : list string;
}.

Record Operation := {
  op_Paths : list string;
  op_NotPaths : list string;
  op_Methods : list string;
  op_NotMethods : list string;
}.

Record Rule := {
  rule_To : list Operation;
  rule_When : list IstioCondition;
}.

Inductive Action := ALLOW | DENY.

Record AuthorizationPolicy := {
  azp_Meta : ObjectMeta;
  azp_Action : Action;
  azp_Selector : gmap string string;
  azp_Rules : list Rule;
}.

#[global] Instance Secret_eq_dec : EqDecision Secret.
Proof. solve_decision. Defined.
#[global] Instance EnvoyApplyTo_eq_dec : EqDecision EnvoyApplyTo.
Proof. solve_decision. Defined.
#[global] Instance EnvoyMatch_eq_dec : EqDecision EnvoyMatch.
Proof. solve_decision. Defined.
#[global] Instance EnvoyOperation_eq_dec : EqDecision EnvoyOperation.
Proof. solve_decision. Defined.
#[global] Instance EnvoyConfigPatch_eq_dec : EqDecision EnvoyConfigPatch.
Proof. solve_decision. Defined.
#[global] Instance EnvoyFilter_eq_dec : EqDecision EnvoyFilter.
Proof. solve_decision. Defined.
#[global] Instance JWTRule_eq_dec : EqDecision JWTRule.
Proof. solve_decision. Defined.
#[global] Instance RequestAuthentication_eq_dec : EqDecision RequestAuthentication.
Proof. solve_decision. Defined.
#[global] Instance IstioCondition_eq_dec : EqDecision IstioCondition.
Proof. solve_decision. Defined.
#[global] Instance Operation_eq_dec : EqDecision Operation.
Proof. solve_decision. Defined.
#[global] Instance Rule_eq_dec : EqDecision Rule.
Proof. solve_decision. Defined.
#[global] Instance Action_eq_dec : EqDecision Action.
Proof. solve_decision. Defined.
#[global] Instance AuthorizationPolicy_eq_dec : EqDecision AuthorizationPolicy.
Proof. solve_decision. Defined.

(** ** Any of them: Go's [client.Object] *)

Inductive Object :=
  | OSecret (o : Secret)
  | OEnvoyFilter (o : EnvoyFilter)
  | ORequestAuthentication (o : RequestAuthentication)
  | OAuthorizationPolicy (o : AuthorizationPolicy).

#[global] Instance Object_eq_dec : EqDecision Object.
Proof. solve_decision. Defined.
