(* ===== verification/State.v ===== *)
(** * The reconciliation scope (internal/state/scope.go, internal/names, pkg/labels)

    What one run of the reconciler knows: the policy, what was resolved for it, and
    the record of what happened to each object it owns ("descendants"). *)

From S2P Require Import Prelude Api Objects.

(** ** Names and labels of the owned objects *)

Definition EnvoyFilter_name (base : string) : string := base +:+ "-login".
Definition EnvoySecret_name (base : string) : string := base +:+ "-envoy-secret".
Definition DenyPolicy_name (base : string) : string := base +:+ "-deny-auth-rules".
Definition IgnorePolicy_name (base : string) : string := base +:+ "-ignore-auth".
Definition RequirePolicy_name (base : string) : string := base +:+ "-require-auth".

Definition ManagedByLabelKey : string := "app.kubernetes.io/managed-by".
Definition ControllerLabelKey : string := "ztoperator.kartverket.no/controller".
Definition TypeLabelKey : string := "type".
Definition ManagedByLabelValue : string := "ztoperator".
Definition AuthPolicyControllerLabelValue : string := "authpolicy".
Definition TypeLabelValue : string := "ztoperator.kartverket.no".

Definition AuthPolicyStandardLabels : gmap string string :=
  {[ ManagedByLabelKey := ManagedByLabelValue; ControllerLabelKey := AuthPolicyControllerLabelValue;
     TypeLabelKey := TypeLabelValue ]}.

(** ** The scope *)

Record IdentityProviderUris := {
  IssuerURI : string;
  JwksURI : string;
  TokenURI : string;
  AuthorizationURI : string;
  EndSessionURI : option string;
}.

Record AutoLoginConfig := {
  alc_Enabled : bool;
  alc_LoginPath : option string;
  alc_RedirectPath : string;
  alc_LogoutPath : string;
  alc_PostLogoutRedirectURI : option string;
  alc_Scopes : list string;
  alc_LoginParams : gmap string string;
  alc_LuaScript : string;
  alc_EnvoySecretName : string;
}.

Record OAuthCredentials := { ClientID : option string; ClientSecret : option string }.

Record Descendant := {
  desc_ID : string;
  desc_Object : Object;
  desc_ErrorMessage : option string;
  desc_SuccessMessage : option string;
}.

Record Scope := {
  sc_AuthPolicy : AuthPolicy;
  sc_Audiences : list string;
  sc_AutoLoginConfig : AutoLoginConfig;
  sc_OAuthCredentials : OAuthCredentials;
  sc_IdentityProviderUris : IdentityProviderUris;
  sc_Descendants : list Descendant;
  sc_InvalidConfig : bool;
  sc_ValidationErrorMessage : option string;
}.

Definition with_descendants (s : Scope) (ds : list Descendant) : Scope :=
  {| sc_AuthPolicy := sc_AuthPolicy s; sc_Audiences := sc_Audiences s;
     sc_AutoLoginConfig := sc_AutoLoginConfig s; sc_OAuthCredentials := sc_OAuthCredentials s;
     sc_IdentityProviderUris := sc_IdentityProviderUris s; sc_Descendants := ds;
     sc_InvalidConfig := sc_InvalidConfig s;
     sc_ValidationErrorMessage := sc_ValidationErrorMessage s |}.

Definition GetErrors (s : Scope) : list string := omap desc_ErrorMessage (sc_Descendants s).

Definition GetID (resourceKind resourceName : string) : string :=
  resourceKind +:+ "-" +:+ resourceName.

(** The first descendant with the expected ID is overwritten, else one is added. *)
Fixpoint replace_descendant (d : Descendant) (ds : list Descendant) : list Descendant :=
  match ds with
  | [] => [d]
  | e :: ds => if String.eqb (desc_ID e) (desc_ID d) then d :: ds else e :: replace_descendant d ds
  end.

Definition ReplaceDescendant (s : Scope) (obj : Object) (errorMessage successMessage : option string)
    (resourceKind resourceName : string) : Scope :=
  with_descendants s
    (replace_descendant
       {| desc_ID := GetID resourceKind resourceName; desc_Object := obj;
          desc_ErrorMessage := errorMessage; desc_SuccessMessage := successMessage |}
       (sc_Descendants s)).

(** [SetSaneDefaults] sets the redirect and logout paths. *)
Definition path_or_default (p : option string) (dflt : string) : string :=
  match p with
  | None => dflt
  | Some p => if String.eqb p "" then dflt else p
  end.

Definition SetSaneDefaults (a : AutoLoginConfig) (autoLogin : AutoLogin) : AutoLoginConfig :=
  {| alc_Enabled := alc_Enabled a; alc_LoginPath := alc_LoginPath a;
     alc_RedirectPath := path_or_default (al_RedirectPath autoLogin) "/oauth2/callback";
     alc_LogoutPath := path_or_default (al_LogoutPath autoLogin) "/logout";
     alc_PostLogoutRedirectURI := alc_PostLogoutRedirectURI a; alc_Scopes := alc_Scopes a;
     alc_LoginParams := alc_LoginParams a; alc_LuaScript := alc_LuaScript a;
     alc_EnvoySecretName := alc_EnvoySecretName a |}.

(** ** Lemmas *)

Definition desc_ids (s : Scope) : list string := desc_ID <$> sc_Descendants s.

Lemma replace_descendant_ids d ds :
  desc_ID <$> replace_descendant d ds =
  if decide (desc_ID d ∈ desc_ID <$> ds) then desc_ID <$> ds else (desc_ID <$> ds) ++ [desc_ID d].
Proof.
  induction ds as [|e ds IH]; [done|]. cbn [replace_descendant].
  destruct (String.eqb_spec (desc_ID e) (desc_ID d)) as [He|He]; rewrite !fmap_cons.
  - rewrite decide_True by (rewrite He; left). by rewrite He.
  - rewrite IH. repeat case_decide; try done; set_solver.
Qed.

(** Descendant IDs stay distinct: replacing never duplicates an ID. *)
Lemma replace_descendant_NoDup d ds :
  NoDup (desc_ID <$> ds) → NoDup (desc_ID <$> replace_descendant d ds).
Proof.
  intros H. rewrite replace_descendant_ids. case_decide; [done|].
  apply NoDup_app. split_and!; [done|set_solver|apply NoDup_singleton].
Qed.

Lemma replace_descendant_fresh d ds :
  desc_ID d ∉ desc_ID <$> ds → replace_descendant d ds = ds ++ [d].
Proof.
  induction ds as [|e ds IH]; [done|]. cbn. rewrite not_elem_of_cons. intros [Hne Hnin].
  destruct (String.eqb_spec (desc_ID e) (desc_ID d)); [congruence|]. by rewrite IH.
Qed.

Lemma replace_descendant_lookup d ds e :
  NoDup (desc_ID <$> ds) →
  e ∈ replace_descendant d ds ↔ e = d ∨ (e ∈ ds ∧ desc_ID e ≠ desc_ID d).
Proof.
  induction ds as [|f ds IH]; cbn; [set_solver|]. rewrite NoDup_cons. intros [Hf Hnd].
  destruct (String.eqb_spec (desc_ID f) (desc_ID d)) as [Heq|Heq]; rewrite !elem_of_cons.
  - split; [|naive_solver]. intros [->|He]; [by left|right]. split; [by right|].
    intros Hed. apply Hf. rewrite Heq, <-Hed. apply list_elem_of_fmap. eauto.
  - rewrite IH by done. naive_solver.
Qed.
