(* ===== verification/Examples.v ===== *)
(** * Concrete policies and scopes

    The inputs at which the theorems of the other files are instantiated. *)

From S2P Require Import Prelude Api Objects State.

Definition plain_meta (ns name : string) : ObjectMeta :=
  {| Name := name; Namespace := ns; UID := "uid-1"; Generation := 1; Labels := None;
     Annotations := None; OwnerReferences := []; DeletionTimestamp := None |}.

Definition example_login (redirect : option string) : AutoLogin :=
  {| al_Enabled := true; al_LoginPath := Some "/login"; al_RedirectPath := redirect; al_LogoutPath := None;
     al_PostLogoutRedirectURI := None; al_Scopes := ["openid"]; al_LoginParams := {[ "ui_locales" := "nb" ]} |}.

Definition example_creds : OAuthCredentialsRef :=
  {| SecretRef := "oauth"; ClientSecretKey := "secret"; ClientIDKey := "id" |}.

(** A policy with [n] baseline claims (none if [n] is 0) and the given rules. *)
Definition example_policy (al : option AutoLogin) (n : nat) (auth : list RequestAuthRule)
    (ignore : list RequestMatcher) : AuthPolicy :=
  {| ap_Kind := "AuthPolicy"; ap_Meta := plain_meta "team" "app";
     Spec := {| Enabled := true; spec_AutoLogin := al;
                spec_OAuthCredentials := (λ _, example_creds) <$> al;
                WellKnownURI := "https://idp.example/.well-known/openid-configuration";
                AllowedAudiences := []; ForwardJwt := None; OutputClaimToHeaders := None;
                AcceptedResources := None;
                spec_BaselineAuth :=
                  match n with
                  | 0 => None
                  | _ => Some {| Claims := (λ i, {| Claim := String (ascii_of_nat (97 + i)) "";
                                                    Values := ["x"] |}) <$> seq 0 n |}
                  end;
                AuthRules := Some auth; IgnoreAuthRules := Some ignore;
                Selector := {| MatchLabels := {[ "app" := "app" ]} |} |};
     Status := {| ObservedGeneration := 0; Conditions := None; status_Phase := PhaseUnset;
                  status_Message := ""; Ready := false |} |}.

Definition example_uris : IdentityProviderUris :=
  {| IssuerURI := "https://idp.example"; JwksURI := "https://idp.example/jwks";
     TokenURI := "https://idp.example/token"; AuthorizationURI := "https://idp.example/authorize";
     EndSessionURI := Some "https://idp.example/endsession" |}.

Definition no_login_config : AutoLoginConfig :=
  {| alc_Enabled := false; alc_LoginPath := None; alc_RedirectPath := ""; alc_LogoutPath := "";
     alc_PostLogoutRedirectURI := None; alc_Scopes := []; alc_LoginParams := ∅; alc_LuaScript := "";
     alc_EnvoySecretName := "" |}.

Definition example_scope (ap : AuthPolicy) (audiences : list string) : Scope :=
  {| sc_AuthPolicy := ap; sc_Audiences := audiences; sc_AutoLoginConfig := no_login_config;
     sc_OAuthCredentials := {| ClientID := None; ClientSecret := None |};
     sc_IdentityProviderUris := example_uris; sc_Descendants := [];
     sc_InvalidConfig := false; sc_ValidationErrorMessage := None |}.

Definition role_rule (path role : string) : RequestAuthRule :=
  {| rule_RequestMatcher := {| Paths := [path]; Methods := [] |};
     When := Some [{| Claim := "role"; Values := [role] |}]; DenyRedirect := None |}.
