(* ===== verification/LuaScript.v ===== *)
(** * The generated Lua script (pkg/luascript/lua_script_generator.go, ztoperator.lua)

    The template's text, the generator that fills it in, the functions of the
    script that decide about a request, and a reader of the script's first seven
    statements, through which the generator's output is related to the policy. *)

From S2P Require Import Prelude GoStrings Api State PathValidation PathLang.
From S2P Require Import LuaPattern LuaConvert LuaMatch LuaRead.

(** ** The template *)

(** A text in which a backquote stands for a double quote. *)
Definition unquote (s : string) : string :=
  byte_replace (λ c, if Ascii.eqb c "`" then dq else String c "") s.

(** The statements that bind the configuration: lines 1 to 7 of ztoperator.lua. *)
Definition lua_template_header : string := unquote
"local ignore_rules = %s
local require_rules = %s
local deny_redirect_rules = %s
local authorize_endpoint = `%s`
local login_params = %s
local end_session_endpoint = `%s`
local post_logout_redirect_uri = `%s`
".

(** The functions: lines 8 to 114. *)
Definition lua_template_body : string := unquote
"
-- returns true when {p,m} matches any rule in the supplied table
local function match(rules, p, m)
    for _, rule in ipairs(rules) do
        if string.match(p, rule.regex) then
        -- empty `methods` table == all methods
            if next(rule.methods) == nil or rule.methods[m] then
                return true
            end
        end
    end
    return false
end

-- returns true if {p,m} is in ignore_rules *and* NOT in require_rules
local function should_bypass(p, m)
    local bypass = false
    if p ~= `` and m ~= `` then
        -- bypass only when it is in ignore_rules *and* NOT in require_rules
        if match(ignore_rules, p, m) and not match(require_rules, p, m) then
            bypass = true
        end
    end
    return bypass
end

-- returns true if {p,m} is in deny_redirect_rules
local function should_deny_redirect(p, m)
    local deny_redirect = false
    if p ~= `` and m ~= `` then
        -- deny redirect only when it is in deny_redirect_rules
        if match(deny_redirect_rules, p, m) then
            deny_redirect = true
        end
    end
    return deny_redirect
end

local function is_empty_table(t)
    return type(t) ~= `table` or next(t) == nil
end

function envoy_on_request(request_handle)
    local raw_p = request_handle:headers():get(`:path`) or ``
    local m = request_handle:headers():get(`:method`) or ``
    local p = string.match(raw_p, `^[^?]*`)

    local bypass = should_bypass(p, m)
    request_handle:logCritical(`Login bypassed?: ` .. tostring(bypass))
    request_handle:headers():add(`%s`, tostring(bypass))

    local deny_redirect = should_deny_redirect(p, m)
    request_handle:logCritical(`Deny redirect?: ` .. tostring(deny_redirect))
    request_handle:headers():add(`%s`, tostring(deny_redirect))
end

function envoy_on_response(response_handle)
    local status = response_handle:headers():get(`:status`) or ``
    if status == `302` then
        local loc = response_handle:headers():get(`location`) or ``
        if loc ~= `` then
            if string.sub(loc, 1, #authorize_endpoint) == authorize_endpoint and not is_empty_table(login_params) then
                local base, qs = loc:match(`^([^?]+)%%??(.*)$`)
                local filtered = {}
                if qs ~= `` then
                    local params = {}
                    for key, val in string.gmatch(qs, `([^&=?]+)=([^&=?]+)`) do
                        params[key] = val
                    end
                    for k, v in pairs(login_params) do
                        params[k] = v
                    end
                    for k, v in pairs(params) do
                        table.insert(filtered, k .. `=` .. v)
                    end
                end

                local new_qs = table.concat(filtered, `&`)
                local new_url = base .. (new_qs ~= `` and (`?` .. new_qs) or ``)
                response_handle:headers():replace(`location`, new_url)
            end

            if string.sub(loc, 1, #end_session_endpoint) == end_session_endpoint then
                local base, qs = loc:match(`^([^?]+)%%??(.*)$`)
                local filtered = {}
                if qs ~= `` then
                    local params = {}
                    for key, val in string.gmatch(qs, `([^&=?]+)=([^&=?]+)`) do
                        params[key] = val
                    end
                    if post_logout_redirect_uri == `` then
                        params[`post_logout_redirect_uri`] = nil
                    else
                        params[`post_logout_redirect_uri`] = post_logout_redirect_uri
                    end
                    for k, v in pairs(params) do
                        table.insert(filtered, k .. `=` .. v)
                    end
                end

                local new_qs = table.concat(filtered, `&`)
                local new_url = base .. (new_qs ~= `` and (`?` .. new_qs) or ``)
                response_handle:headers():replace(`location`, new_url)
            end
        end
    end
end".

Definition luaScriptTemplate : string := lua_template_header +:+ lua_template_body.

(** [fmt.Sprintf] with string operands, for the verbs [%s] and [%%]. *)
Fixpoint sprintf (format : string) (args : list string) : string :=
  match format with
  | "" => if decide (args = []) then "" else "%!(EXTRA)"
  | String c format =>
      if Ascii.eqb c "%" then
        match format with
        | String v format =>
            if Ascii.eqb v "s" then
              match args with
              | a :: args => a +:+ sprintf format args
              | [] => "%!s(MISSING)" +:+ sprintf format []
              end
            else if Ascii.eqb v "%" then String "%" (sprintf format args)
            else String "%" (String v (sprintf format args))
        | "" => "%!(NOVERB)"
        end
      else String c (sprintf format args)
  end.

(** ** The generator *)

Definition BypassOauthLoginHeaderName : string := "x-bypass-login".
Definition DenyRedirectHeaderName : string := "x-deny-redirect".

Definition IgnoreAuthMatchers (ignoreAuthRules : option (list RequestMatcher)) : list RequestMatcher :=
  match ignoreAuthRules with Some ms => ms | None => [] end.

Definition DenyRedirectMatchers (authRules : option (list RequestAuthRule)) : list RequestMatcher :=
  match authRules with
  | Some rules =>
      rule_RequestMatcher <$> filter (λ r, DenyRedirect r = Some true) rules
  | None => []
  end.

Definition RequireAuthMatchers (authRules : option (list RequestAuthRule)) (cfg : AutoLoginConfig)
    : list RequestMatcher :=
  let matchers := GetRequestMatchers authRules in
  let autoLoginPaths :=
    [alc_RedirectPath cfg; alc_LogoutPath cfg] ++
    match alc_LoginPath cfg with Some p => [p] | None => [] end in
  matchers ++ [{| Paths := autoLoginPaths; Methods := [] |}].

Definition GenerateLuaScript (ap : AuthPolicy) (cfg : AutoLoginConfig) (uris : IdentityProviderUris) : go string :=
  ignoreRulesLua ← ConvertRequestMatchersToLuaTableString (IgnoreAuthMatchers (IgnoreAuthRules (Spec ap)));
  requireRulesLua ← ConvertRequestMatchersToLuaTableString (RequireAuthMatchers (AuthRules (Spec ap)) cfg);
  denyRedirectRulesLua ← ConvertRequestMatchersToLuaTableString (DenyRedirectMatchers (AuthRules (Spec ap)));
  let loginParamsAsLua := ConvertLoginParamsToLuaParams (alc_LoginParams cfg) in
  let queryEscapedPostLogoutRedirectURI :=
    match alc_PostLogoutRedirectURI cfg with Some u => QueryEscape u | None => "" end in
  let endSessionURI := match EndSessionURI uris with Some u => u | None => "" end in
  Ok (sprintf luaScriptTemplate
        [ignoreRulesLua; requireRulesLua; denyRedirectRulesLua;
         EscapeLuaString (AuthorizationURI uris); loginParamsAsLua;
         EscapeLuaString endSessionURI; EscapeLuaString queryEscapedPostLogoutRedirectURI;
         BypassOauthLoginHeaderName; DenyRedirectHeaderName]).

(** ** The script at run time *)

Record LuaConfig := {
  ignore_rules : list lua_rule;
  require_rules : list lua_rule;
  deny_redirect_rules : list lua_rule;
  authorize_endpoint : string;
  login_params : list (string * string);
  end_session_endpoint : string;
  post_logout_redirect_uri : string;
}.

(** [match(rules, p, m)]; [None] is a Lua error (a malformed pattern). *)
Fixpoint lua_match (rules : list lua_rule) (p m : string) : option bool :=
  match rules with
  | [] => Some false
  | rule :: rules =>
      hit ← lua_test p (regex rule);
      if hit && (bool_decide (methods rule = []) || bool_decide (m ∈ methods rule))
      then Some true else lua_match rules p m
  end.

Definition should_bypass (cfg : LuaConfig) (p m : string) : option bool :=
  if negb (String.eqb p "") && negb (String.eqb m "") then
    i ← lua_match (ignore_rules cfg) p m;
    if i : bool then r ← lua_match (require_rules cfg) p m; Some (negb r) else Some false
  else Some false.

Definition should_deny_redirect (cfg : LuaConfig) (p m : string) : option bool :=
  if negb (String.eqb p "") && negb (String.eqb m "")
  then lua_match (deny_redirect_rules cfg) p m else Some false.

Definition tostring (b : bool) : string := if b then "true" else "false".

(** [envoy_on_request]: the headers added, given [:path] and [:method]. *)
Definition envoy_on_request (cfg : LuaConfig) (path method : option string) : option (list (string * string)) :=
  let raw_p := default "" path in
  let m := default "" method in
  r ← lua_prefix_match raw_p "^[^?]*";
  p ← r;
  bypass ← should_bypass cfg p m;
  deny_redirect ← should_deny_redirect cfg p m;
  Some [(BypassOauthLoginHeaderName, tostring bypass); (DenyRedirectHeaderName, tostring deny_redirect)].
