(* ===== verification/LuaScriptRead.v ===== *)
(** * Reading the generated script back

    A reader of the first seven statements of the script, those that bind the
    configuration, and the proof that the generated script read back is the
    configuration of the policy. *)

From S2P Require Import Prelude GoStrings Api State PathValidation PathLang.
From S2P Require Import LuaPattern LuaConvert LuaMatch LuaRead LuaScript.

(** ** Login parameters *)

Fixpoint read_params_go (fuel : nat) (first : bool) (s : string) : option (list (string * string) * string) :=
  match fuel with
  | 0 => None
  | S fuel =>
      if HasPrefix s "}" then Some ([], str_drop 1 s)
      else
        s ← (if first then Some s else expect "," s);
        s ← expect ("[" +:+ dq) s;
        '(k, s) ← read_string s;
        s ← expect ("]=" +:+ dq) s;
        '(v, s) ← read_string s;
        '(kvs, s) ← read_params_go fuel false s;
        Some ((k, v) :: kvs, s)
  end.

Definition read_params (s : string) : option (list (string * string) * string) :=
  s' ← expect "{" s; read_params_go (String.length s) true s'.

(** What the table holds: keys without NULs, values percent-encoded. *)
Definition lua_param (kv : string * string) : string * string := (remove_nul kv.1, remove_nul kv.2).

Definition params_of (m : gmap string string) : list (string * string) :=
  lua_param <$> sorted_params (encodeLoginParams m).

Lemma convert_params_length first kvs : length kvs ≤ String.length (convert_params first kvs).
Proof.
  revert first. induction kvs as [|[k v] kvs IH]; intros first; [done|].
  cbn [convert_params length]. specialize (IH false). rewrite !str_length_app. cbn [String.length]. lia.
Qed.

Lemma read_params_text kvs fuel first rest :
  length kvs < fuel →
  read_params_go fuel first (convert_params first kvs +:+ "}" +:+ rest) = Some (lua_param <$> kvs, rest).
Proof.
  revert fuel first. induction kvs as [|[k v] kvs IH]; intros [|fuel] first Hf; cbn [length] in Hf; try lia; [done|].
  cbn [convert_params read_params_go]. str_assoc.
  match goal with |- context [HasPrefix ?t "}"] => assert (HasPrefix t "}" = false) as -> by (by destruct first) end.
  match goal with |- context [_ +:+ ("[" +:+ ?t)] =>
    assert ((if first then Some ((if first then "" else ",") +:+ "[" +:+ t)
       else expect "," ((if first then "" else ",") +:+ "[" +:+ t)) = Some ("[" +:+ t)) as -> by (by destruct first) end.
  cbn [mbind option_bind]. rewrite (expect_app2 "[" dq). cbn [mbind option_bind].
  rewrite read_EscapeLuaString. cbn [mbind option_bind].
  rewrite (expect_app2 "]=" dq). cbn [mbind option_bind].
  rewrite read_EscapeLuaString. cbn [mbind option_bind].
  rewrite IH by lia. done.
Qed.

Lemma sorted_params_empty m : m = ∅ → sorted_params m = [].
Proof. by intros ->. Qed.

Lemma read_login_params m rest :
  read_params (ConvertLoginParamsToLuaParams m +:+ rest) = Some (params_of m, rest).
Proof.
  unfold ConvertLoginParamsToLuaParams, params_of. cbv zeta. set (p := encodeLoginParams m).
  assert ((if decide (p = ∅) then "{}" else "{" +:+ convert_params true (sorted_params p) +:+ "}") =
    "{" +:+ convert_params true (sorted_params p) +:+ "}") as ->.
  { case_decide as Hp; [|done]. by rewrite (sorted_params_empty _ Hp). }
  unfold read_params. str_assoc. rewrite (expect_app "{"). cbn [mbind option_bind].
  apply read_params_text.
  pose proof (convert_params_length true (sorted_params p)). rewrite !str_length_app. cbn. lia.
Qed.

(** The sorted list holds exactly the map's entries. *)
Lemma insert_key_perm k l : insert_key k l ≡ₚ k :: l.
Proof.
  induction l as [|x l IH]; [done|]. cbn [insert_key]. destruct (String.leb _ _); [done|].
  rewrite IH. apply Permutation_swap.
Qed.

Lemma sorted_params_perm m : sorted_params m ≡ₚ map_to_list m.
Proof.
  unfold sorted_params. induction (map_to_list m) as [|x l IH]; [done|].
  cbn [foldr]. by rewrite insert_key_perm, IH.
Qed.

(** ** The statements *)

Definition nl : string := String "010"%char "".

Definition read_script (s : string) : option (LuaConfig * string) :=
  s ← expect "local ignore_rules = " s;
  '(ir, s) ← read_rules s;
  s ← expect (nl +:+ "local require_rules = ") s;
  '(rr, s) ← read_rules s;
  s ← expect (nl +:+ "local deny_redirect_rules = ") s;
  '(dr, s) ← read_rules s;
  s ← expect (nl +:+ "local authorize_endpoint = " +:+ dq) s;
  '(ae, s) ← read_string s;
  s ← expect (nl +:+ "local login_params = ") s;
  '(lp, s) ← read_params s;
  s ← expect (nl +:+ "local end_session_endpoint = " +:+ dq) s;
  '(es, s) ← read_string s;
  s ← expect (nl +:+ "local post_logout_redirect_uri = " +:+ dq) s;
  '(pl, s) ← read_string s;
  s ← expect nl s;
  Some ({| ignore_rules := ir; require_rules := rr; deny_redirect_rules := dr;
           authorize_endpoint := ae; login_params := lp; end_session_endpoint := es;
           post_logout_redirect_uri := pl |}, s).

Lemma sprintf_lit lit fmt args :
  all_chars (λ c, negb (Ascii.eqb c "%")) lit = true → sprintf (lit +:+ fmt) args = lit +:+ sprintf fmt args.
Proof.
  induction lit as [|c lit IH]; [done|]. cbn [all_chars]. intros H. bools. cbn [String.append sprintf].
  rewrite H. by rewrite IH.
Qed.

Lemma sprintf_arg fmt a args : sprintf ("%s" +:+ fmt) (a :: args) = a +:+ sprintf fmt args.
Proof. done. Qed.

(** The functions of the script, with the header names filled in. *)
Definition lua_functions : string := sprintf lua_template_body [BypassOauthLoginHeaderName; DenyRedirectHeaderName].

Definition script_text (ir rr dr ae lp es pl : string) : string :=
  "local ignore_rules = " +:+ ir +:+ (nl +:+ "local require_rules = ") +:+ rr +:+
  (nl +:+ "local deny_redirect_rules = ") +:+ dr +:+
  (nl +:+ "local authorize_endpoint = " +:+ dq) +:+ ae +:+ dq +:+ (nl +:+ "local login_params = ") +:+ lp +:+
  (nl +:+ "local end_session_endpoint = " +:+ dq) +:+ es +:+ dq +:+
  (nl +:+ "local post_logout_redirect_uri = " +:+ dq) +:+ pl +:+ dq +:+ nl +:+ lua_functions.

Lemma template_split :
  luaScriptTemplate =
  "local ignore_rules = " +:+ "%s" +:+ (nl +:+ "local require_rules = ") +:+ "%s" +:+
  (nl +:+ "local deny_redirect_rules = ") +:+ "%s" +:+
  (nl +:+ "local authorize_endpoint = " +:+ dq) +:+ "%s" +:+ (dq +:+ nl +:+ "local login_params = ") +:+ "%s" +:+
  (nl +:+ "local end_session_endpoint = " +:+ dq) +:+ "%s" +:+
  (dq +:+ nl +:+ "local post_logout_redirect_uri = " +:+ dq) +:+ "%s" +:+ (dq +:+ nl) +:+ lua_template_body.
Proof. vm_compute. reflexivity. Qed.

Lemma sprintf_template ir rr dr ae lp es pl :
  sprintf luaScriptTemplate [ir; rr; dr; ae; lp; es; pl; BypassOauthLoginHeaderName; DenyRedirectHeaderName] =
  script_text ir rr dr ae lp es pl.
Proof.
  rewrite template_split. unfold script_text, lua_functions.
  repeat (rewrite sprintf_lit by reflexivity; rewrite sprintf_arg).
  rewrite sprintf_lit by reflexivity. by str_assoc.
Qed.

(** ** The configuration of a policy *)

Definition config_of (ir rr dr : list lua_rule) (cfg : AutoLoginConfig) (uris : IdentityProviderUris) : LuaConfig :=
  {| ignore_rules := ir; require_rules := rr; deny_redirect_rules := dr;
     authorize_endpoint := remove_nul (AuthorizationURI uris);
     login_params := params_of (alc_LoginParams cfg);
     end_session_endpoint := remove_nul (default "" (EndSessionURI uris));
     post_logout_redirect_uri := remove_nul (default "" (QueryEscape <$> alc_PostLogoutRedirectURI cfg)) |}.

Definition valid_matchers (ms : list RequestMatcher) : Prop :=
  ∀ m p, m ∈ ms → p ∈ Paths m → validatePath p = Ok ().

Lemma valid_matchers_plain ms :
  valid_matchers ms →
  Forall (λ e, ∀ pat, ConvertRequestMatcherPathToLuaPattern e.1 = Ok pat → all_chars lua_plain pat = true) (entries ms).
Proof.
  intros Hv. apply Forall_forall. intros e (m & Hm & Hp & _)%entries_elem pat.
  apply valid_pattern_plain. eauto.
Qed.

Lemma read_script_text it rt dt ir rr dr ae lp es pl lps :
  (∀ rest, read_rules (it +:+ rest) = Some (ir, rest)) →
  (∀ rest, read_rules (rt +:+ rest) = Some (rr, rest)) →
  (∀ rest, read_rules (dt +:+ rest) = Some (dr, rest)) →
  (∀ rest, read_params (lp +:+ rest) = Some (lps, rest)) →
  read_script (script_text it rt dt (EscapeLuaString ae) lp (EscapeLuaString es) (EscapeLuaString pl)) =
  Some ({| ignore_rules := ir; require_rules := rr; deny_redirect_rules := dr;
           authorize_endpoint := remove_nul ae; login_params := lps;
           end_session_endpoint := remove_nul es; post_logout_redirect_uri := remove_nul pl |}, lua_functions).
Proof.
  intros Hi Hr Hd Hp. unfold read_script, script_text.
  repeat (first [rewrite expect_app | rewrite Hi | rewrite Hr | rewrite Hd | rewrite Hp
    | rewrite read_EscapeLuaString]; cbn [mbind option_bind]).
  done.
Qed.
