(* ===== verification/LuaDecision.v ===== *)
(** * What the generated script decides about a request

    The configuration read from the generated script, the decisions of its
    [envoy_on_request] in terms of the policy's matchers, and what escapes the
    generator when the auto-login paths are not validated. *)

From S2P Require Import Prelude GoStrings Api State Examples PathValidation PathLang.
From S2P Require Import LuaPattern LuaConvert LuaMatch LuaRead LuaScript.
From S2P Require Import LuaScriptRead.

(** ** Matching a request against matchers: the specification *)

Definition matcher_matches (rm : RequestMatcher) (p m : string) : Prop :=
  (∃ path, path ∈ Paths rm ∧ path_matches path p) ∧ (Methods rm = [] ∨ m ∈ Methods rm).

Definition some_matches (ms : list RequestMatcher) (p m : string) : Prop :=
  ∃ rm, rm ∈ ms ∧ matcher_matches rm p m.

Definition accepted_methods (ms : list RequestMatcher) : Prop :=
  ∀ rm m, rm ∈ ms → m ∈ Methods rm → m ∈ GetAcceptedHTTPMethods.

(** The paths of the auto-login configuration that the script never bypasses. *)
Definition auto_login_paths (cfg : AutoLoginConfig) : list string :=
  [alc_RedirectPath cfg; alc_LogoutPath cfg] ++ match alc_LoginPath cfg with Some p => [p] | None => [] end.

(** *** A request under a policy, in the terms of the policy *)

(** One of the ignore rules matches. *)
Definition ignored_request (ap : AuthPolicy) (p m : string) : Prop :=
  ∃ rm, rm ∈ default [] (IgnoreAuthRules (Spec ap)) ∧ matcher_matches rm p m.

(** An auth rule matches, or one of the auto-login paths. *)
Definition required_request (ap : AuthPolicy) (cfg : AutoLoginConfig) (p m : string) : Prop :=
  (∃ r, r ∈ default [] (AuthRules (Spec ap)) ∧ matcher_matches (rule_RequestMatcher r) p m) ∨
  ∃ path, path ∈ auto_login_paths cfg ∧ path_matches path p.

(** An auth rule that sets [denyRedirect] to true matches. *)
Definition denied_request (ap : AuthPolicy) (p m : string) : Prop :=
  ∃ r, r ∈ default [] (AuthRules (Spec ap)) ∧ DenyRedirect r = Some true ∧
       matcher_matches (rule_RequestMatcher r) p m.

(** ** The rule tables *)

Lemma accepted_remove_nul ms : Forall (.∈ GetAcceptedHTTPMethods) ms → remove_nul <$> ms = ms.
Proof.
  induction 1 as [|m ms Hm _ IH]; [done|]. rewrite fmap_cons, IH. f_equal.
  unfold GetAcceptedHTTPMethods in Hm.
  repeat (apply elem_of_cons in Hm as [->|Hm]; [reflexivity|]). by apply not_elem_of_nil in Hm.
Qed.

Lemma matchers_table ms :
  valid_matchers ms →
  ∃ txt rs, ConvertRequestMatchersToLuaTableString ms = Ok txt ∧ rules_of (entries ms) = Ok rs ∧
            ∀ rest, read_rules (txt +:+ rest) = Some (rs, rest).
Proof.
  intros Hv. destruct (convert_matchers_total ms) as [txt Htxt].
  apply valid_matchers_plain in Hv.
  destruct (read_rules_text ms txt "" Hv Htxt) as (rs & Hrs & _).
  exists txt, rs. split_and!; [done..|]. intros rest.
  destruct (read_rules_text ms txt rest Hv Htxt) as (rs' & Hrs' & Hread).
  rewrite Hrs in Hrs'. apply Ok_inj in Hrs'. by subst rs'.
Qed.

Lemma lua_match_entries es rs p m :
  rules_of es = Ok rs →
  Forall (λ e, validatePath e.1 = Ok () ∧ Forall (.∈ GetAcceptedHTTPMethods) e.2) es →
  ∃ b, lua_match rs p m = Some b ∧
       (b = true ↔ ∃ e, e ∈ es ∧ path_matches e.1 p ∧ (e.2 = [] ∨ m ∈ e.2)).
Proof.
  intros Hrs Hes. revert rs Hrs. induction Hes as [|[path ms] es [Hp Hm] _ IH]; intros rs Hrs.
  { apply Ok_inj in Hrs. subst. exists false. split; [done|]. set_solver. }
  apply go_bind_ok in Hrs as (r & Hr & (rs' & Hrs' & Heq%Ok_inj)%go_bind_ok). subst rs.
  destruct (IH _ Hrs') as (b & Hb & Hiff).
  apply go_bind_ok in Hr as (pat & Hpat' & Heq%Ok_inj). subst r. cbn [fst snd] in *.
  destruct (toLuaPattern_valid path Hp) as [[Hg _] Hpat].
  unfold ConvertRequestMatcherPathToLuaPattern in Hpat'. rewrite Hpat in Hpat'. apply Ok_inj in Hpat'. subst pat.
  destruct (lua_test_tokens (tokenize path) p Hg) as (hit & Hhit & Hhiff).
  cbn [lua_match regex methods]. rewrite Hhit. cbn [mbind option_bind].
  rewrite accepted_remove_nul by done. rewrite Hb. fold (path_matches path p) in Hhiff.
  case_step; eexists; (split; [done|]).
  - bools. split; [|done]. intros _. exists (path, ms). cbn. split; [left|]. split; [by apply Hhiff|].
    destruct H0 as [H0|H0]; apply bool_decide_eq_true in H0; auto.
  - rewrite Hiff. split; [intros (e & He & ?); exists e; split; [by right|done]|].
    intros (e & [->|He]%elem_of_cons & Hpm & Hme); [|by exists e]. exfalso. cbn in *.
    apply Hhiff in Hpm. subst hit. cbn in Heqb0. apply orb_false_iff in Heqb0 as [Hn1 Hn2].
    apply bool_decide_eq_false in Hn1, Hn2. tauto.
Qed.

Lemma lua_match_matchers ms rs p m :
  rules_of (entries ms) = Ok rs → valid_matchers ms → accepted_methods ms →
  ∃ b, lua_match rs p m = Some b ∧ (b = true ↔ some_matches ms p m).
Proof.
  intros Hrs Hv Ha. destruct (lua_match_entries (entries ms) rs p m Hrs) as (b & Hb & Hiff).
  { apply Forall_forall. intros e (rm & Hrm & Hp & ->)%entries_elem.
    split; [eauto|]. apply Forall_forall. eauto. }
  exists b. split; [done|]. rewrite Hiff. unfold some_matches, matcher_matches. split.
  - intros ([path me] & (rm & Hrm & Hp & He)%entries_elem & Hpm & Hme). cbn in *. subst me. eauto 8.
  - intros (rm & Hrm & (path & Hp & Hpm) & Hme). exists (path, Methods rm).
    split; [|done]. apply entries_elem. eauto.
Qed.

(** ** The policy's matchers *)

Record script_ok (ap : AuthPolicy) (cfg : AutoLoginConfig) : Prop := {
  so_paths : ValidatePaths (GetPaths ap) = Ok ();
  so_auto_login : ValidatePaths (auto_login_paths cfg) = Ok ();
  so_spec : Spec_admissible (Spec ap) = true;
}.

Section matchers.
Context (ap : AuthPolicy) (cfg : AutoLoginConfig).

#[local] Abbreviation Ignored := (IgnoreAuthMatchers (IgnoreAuthRules (Spec ap))).
#[local] Abbreviation Required := (RequireAuthMatchers (AuthRules (Spec ap)) cfg).
#[local] Abbreviation Denied := (DenyRedirectMatchers (AuthRules (Spec ap))).

Lemma Required_elem rm :
  rm ∈ Required ↔ rm ∈ GetRequireAuthRequestMatchers ap ∨ rm = {| Paths := auto_login_paths cfg; Methods := [] |}.
Proof.
  unfold RequireAuthMatchers, GetRequireAuthRequestMatchers.
  rewrite elem_of_app, list_elem_of_singleton. by destruct (AuthRules (Spec ap)).
Qed.

Lemma Denied_elem rm :
  rm ∈ Denied ↔ ∃ r, r ∈ default [] (AuthRules (Spec ap)) ∧ DenyRedirect r = Some true ∧ rm = rule_RequestMatcher r.
Proof.
  unfold DenyRedirectMatchers. destruct (AuthRules (Spec ap)) as [rules|]; cbn; [|set_solver].
  rewrite list_elem_of_fmap. setoid_rewrite list_elem_of_filter. naive_solver.
Qed.

Lemma Denied_required rm : rm ∈ Denied → rm ∈ GetRequireAuthRequestMatchers ap.
Proof.
  rewrite Denied_elem. unfold GetRequireAuthRequestMatchers, GetRequestMatchers.
  destruct (AuthRules (Spec ap)) as [rules|]; cbn; [|set_solver].
  intros (r & Hr & _ & ->). apply list_elem_of_fmap. eauto.
Qed.

(** The code's matchers say what the policy says. *)
Lemma ignored_matchers p m : some_matches Ignored p m ↔ ignored_request ap p m.
Proof. unfold some_matches, ignored_request, IgnoreAuthMatchers. by destruct (IgnoreAuthRules (Spec ap)). Qed.

Lemma required_matchers p m : some_matches Required p m ↔ required_request ap cfg p m.
Proof.
  unfold some_matches, required_request. setoid_rewrite Required_elem. split.
  - intros (rm & [Hrm| ->] & Hm); [left|right; by destruct Hm as [Hp _]].
    unfold GetRequireAuthRequestMatchers, GetRequestMatchers in Hrm. destruct (AuthRules (Spec ap)) as [rules|];
      [|by apply not_elem_of_nil in Hrm]. apply list_elem_of_fmap in Hrm as (r & -> & Hin). by exists r.
  - intros [(r & Hin & Hm)|(path & Hin & Hm)].
    + exists (rule_RequestMatcher r). split; [left|done]. unfold GetRequireAuthRequestMatchers, GetRequestMatchers.
      destruct (AuthRules (Spec ap)) as [rules|]; [|by apply not_elem_of_nil in Hin]. apply list_elem_of_fmap. by exists r.
    + exists {| Paths := auto_login_paths cfg; Methods := [] |}. split; [by right|]. split; [by exists path|by left].
Qed.

Lemma denied_matchers p m : some_matches Denied p m ↔ denied_request ap p m.
Proof.
  unfold some_matches, denied_request. setoid_rewrite Denied_elem.
  split; [intros (rm & (r & Hin & Hd & ->) & Hm)|intros (r & Hin & Hd & Hm)]; eauto 6.
Qed.

Hypothesis Hok : script_ok ap cfg.

Lemma require_valid rm p : rm ∈ GetRequireAuthRequestMatchers ap → p ∈ Paths rm → validatePath p = Ok ().
Proof.
  intros Hrm Hp. pose proof (so_paths _ _ Hok) as Hv. rewrite ValidatePaths_ok, Forall_forall in Hv.
  eapply Hv, GetPaths_require; eauto.
Qed.

Lemma Ignored_valid : valid_matchers Ignored.
Proof.
  intros rm p Hrm Hp. pose proof (so_paths _ _ Hok) as Hv. rewrite ValidatePaths_ok, Forall_forall in Hv.
  eapply Hv, GetPaths_ignore; eauto.
Qed.

Lemma Required_valid : valid_matchers Required.
Proof.
  intros rm p [Hrm| ->]%Required_elem Hp; [by eapply require_valid|].
  pose proof (so_auto_login _ _ Hok) as Hv. rewrite ValidatePaths_ok, Forall_forall in Hv. by apply Hv.
Qed.

Lemma Denied_valid : valid_matchers Denied.
Proof. intros rm p Hrm%Denied_required Hp. by eapply require_valid. Qed.

Lemma Ignored_accepted : accepted_methods Ignored.
Proof.
  destruct (Spec_admissible_matchers _ (so_spec _ _ Hok)) as [_ Hi]. intros rm m Hrm.
  apply admissible_methods, Hi. unfold IgnoreAuthMatchers in Hrm. by destruct (IgnoreAuthRules (Spec ap)).
Qed.

Lemma require_accepted : accepted_methods (GetRequireAuthRequestMatchers ap).
Proof.
  destruct (Spec_admissible_matchers _ (so_spec _ _ Hok)) as [Hr _]. intros rm m Hrm.
  unfold GetRequireAuthRequestMatchers, GetRequestMatchers in Hrm.
  destruct (AuthRules (Spec ap)) as [rules|]; [|by apply not_elem_of_nil in Hrm].
  apply list_elem_of_fmap in Hrm as (r & -> & Hin). by apply admissible_methods, Hr.
Qed.

Lemma Required_accepted : accepted_methods Required.
Proof. intros rm m [Hrm| ->]%Required_elem Hm; [by eapply require_accepted|set_solver]. Qed.

Lemma Denied_accepted : accepted_methods Denied.
Proof. intros rm m Hrm%Denied_required. by apply require_accepted. Qed.

(** *** The script read back *)

Lemma script_read uris :
  ∃ script ir rr dr,
    GenerateLuaScript ap cfg uris = Ok script ∧
    rules_of (entries Ignored) = Ok ir ∧ rules_of (entries Required) = Ok rr ∧
    rules_of (entries Denied) = Ok dr ∧
    read_script script = Some (config_of ir rr dr cfg uris, lua_functions).
Proof.
  destruct (matchers_table _ Ignored_valid) as (it & ir & Hit & Hir & Hi).
  destruct (matchers_table _ Required_valid) as (rt & rr & Hrt & Hrr & Hr).
  destruct (matchers_table _ Denied_valid) as (dt & dr & Hdt & Hdr & Hd).
  unfold GenerateLuaScript. rewrite Hit, Hrt, Hdt. cbn [mbind go_bind]. cbv zeta.
  rewrite sprintf_template. eexists _, ir, rr, dr. split_and!; [done..|].
  rewrite (read_script_text it rt dt ir rr dr _ _ _ _ (params_of (alc_LoginParams cfg)) Hi Hr Hd).
  - unfold config_of. by destruct (EndSessionURI uris), (alc_PostLogoutRedirectURI cfg).
  - apply read_login_params.
Qed.

Lemma script_decides uris raw m :
  ∃ script c bypass deny,
    GenerateLuaScript ap cfg uris = Ok script ∧ read_script script = Some (c, lua_functions) ∧
    envoy_on_request c (Some raw) (Some m) =
      Some [(BypassOauthLoginHeaderName, tostring bypass); (DenyRedirectHeaderName, tostring deny)] ∧
    (bypass = true ↔ strip_query raw ≠ "" ∧ m ≠ "" ∧
      some_matches Ignored (strip_query raw) m ∧ ¬ some_matches Required (strip_query raw) m) ∧
    (deny = true ↔ strip_query raw ≠ "" ∧ m ≠ "" ∧ some_matches Denied (strip_query raw) m).
Proof.
  destruct (script_read uris) as (script & ir & rr & dr & Hs & Hir & Hrr & Hdr & Hread).
  set (p := strip_query raw).
  destruct (lua_match_matchers _ _ p m Hir Ignored_valid Ignored_accepted) as (bi & Hbi & Hi).
  destruct (lua_match_matchers _ _ p m Hrr Required_valid Required_accepted) as (br & Hbr & Hr).
  destruct (lua_match_matchers _ _ p m Hdr Denied_valid Denied_accepted) as (bd & Hbd & Hd).
  exists script, (config_of ir rr dr cfg uris).
  unfold envoy_on_request, should_bypass, should_deny_redirect.
  change (default "" (Some raw)) with raw. change (default "" (Some m)) with m. cbv zeta.
  rewrite lua_strip_query. cbn [mbind option_bind]. fold p.
  cbn [config_of ignore_rules require_rules deny_redirect_rules]. rewrite Hbi, Hbr, Hbd.
  destruct (String.eqb_spec p ""), (String.eqb_spec m ""); cbn [negb andb mbind option_bind];
    [exists false, false; split_and!; try done; naive_solver..|].
  exists (bi && negb br), bd. rewrite <-Hi, <-Hr, <-Hd.
  destruct bi, br; cbn [mbind option_bind andb negb]; split_and!; try done; naive_solver.
Qed.
End matchers.

(** ** Properties *)

(** Claim C16. For an admitted policy with valid paths and valid auto-login paths
    the generator returns a script, and the script read back binds exactly the
    policy: one rule per (path, method list) of the ignored, required and
    deny-redirect matchers, the escaped endpoints, the percent-encoded login
    parameters; what follows is the template's code. *)
Theorem script_roundtrip ap cfg uris :
  script_ok ap cfg →
  ∃ script ir rr dr,
    GenerateLuaScript ap cfg uris = Ok script ∧
    rules_of (entries (IgnoreAuthMatchers (IgnoreAuthRules (Spec ap)))) = Ok ir ∧
    rules_of (entries (RequireAuthMatchers (AuthRules (Spec ap)) cfg)) = Ok rr ∧
    rules_of (entries (DenyRedirectMatchers (AuthRules (Spec ap)))) = Ok dr ∧
    read_script script = Some (config_of ir rr dr cfg uris, lua_functions).
Proof. intros Hok. by apply script_read. Qed.

(** Claim C5. For an admitted policy with valid paths and valid auto-login paths
    ([script_ok]) the generated script adds [x-bypass-login: true] to a request
    exactly when path and method are present, an ignore rule of the policy matches
    and neither an auth rule nor an auto-login path does, and
    [x-deny-redirect: true] exactly when an auth rule that sets denyRedirect to true
    matches; the query string takes no part. It never fails with a Lua error.
    ([redirect_path_not_escaped] is a policy whose auto-login paths are not valid.) *)
Theorem request_decision ap cfg uris raw m :
  script_ok ap cfg →
  ∃ script c bypass deny,
    GenerateLuaScript ap cfg uris = Ok script ∧ read_script script = Some (c, lua_functions) ∧
    envoy_on_request c (Some raw) (Some m) =
      Some [(BypassOauthLoginHeaderName, tostring bypass); (DenyRedirectHeaderName, tostring deny)] ∧
    (bypass = true ↔ strip_query raw ≠ "" ∧ m ≠ "" ∧
      ignored_request ap (strip_query raw) m ∧ ¬ required_request ap cfg (strip_query raw) m) ∧
    (deny = true ↔ strip_query raw ≠ "" ∧ m ≠ "" ∧ denied_request ap (strip_query raw) m).
Proof.
  intros Hok. destruct (script_decides ap cfg Hok uris raw m) as (script & c & bypass & deny & Hs & Hr & Hq & Hb & Hd).
  rewrite ignored_matchers, required_matchers in Hb. rewrite denied_matchers in Hd.
  exists script, c, bypass, deny. by split_and!.
Qed.

(** *** A concrete policy *)

Definition api_rule : RequestAuthRule :=
  {| rule_RequestMatcher := {| Paths := ["/api/{**}"]; Methods := [] |}; When := None; DenyRedirect := Some true |}.

Definition public_matcher : RequestMatcher := {| Paths := ["/public*"; "/api/health"]; Methods := ["GET"] |}.

Lemma script_roundtrip_witness :
  ∃ script ir rr dr,
    let ap := example_policy (Some (example_login None)) 0 [api_rule] [public_matcher] in
    let cfg := SetSaneDefaults no_login_config (example_login None) in
    GenerateLuaScript ap cfg example_uris = Ok script ∧
    rules_of (entries (IgnoreAuthMatchers (IgnoreAuthRules (Spec ap)))) = Ok ir ∧
    rules_of (entries (RequireAuthMatchers (AuthRules (Spec ap)) cfg)) = Ok rr ∧
    rules_of (entries (DenyRedirectMatchers (AuthRules (Spec ap)))) = Ok dr ∧
    read_script script = Some (config_of ir rr dr cfg example_uris, lua_functions).
Proof. apply script_roundtrip. split; vm_compute; reflexivity. Defined.

Lemma request_decision_witness :
  ∃ script c bypass deny,
    let ap := example_policy (Some (example_login None)) 0 [api_rule] [public_matcher] in
    let cfg := SetSaneDefaults no_login_config (example_login None) in
    GenerateLuaScript ap cfg example_uris = Ok script ∧ read_script script = Some (c, lua_functions) ∧
    envoy_on_request c (Some "/public/a?b") (Some "GET") =
      Some [(BypassOauthLoginHeaderName, tostring bypass); (DenyRedirectHeaderName, tostring deny)] ∧
    (bypass = true ↔ strip_query "/public/a?b" ≠ "" ∧ "GET" ≠ "" ∧
      ignored_request ap (strip_query "/public/a?b") "GET" ∧ ¬ required_request ap cfg (strip_query "/public/a?b") "GET") ∧
    (deny = true ↔ strip_query "/public/a?b" ≠ "" ∧ "GET" ≠ "" ∧ denied_request ap (strip_query "/public/a?b") "GET").
Proof. apply request_decision. split; vm_compute; reflexivity. Defined.

(** The redirect path is neither among the paths that are validated nor
    escaped: an admitted policy whose paths pass validation and whose redirect
    path holds a double quote makes the generator emit a script that is not a
    rule table; the string literal ends at the quote of the path. *)
Theorem redirect_path_not_escaped :
  let login := example_login (Some ("/cb" +:+ dq +:+ "]=true} print(1) --")) in
  let ap := example_policy (Some login) 0 [api_rule] [public_matcher] in
  let cfg := SetSaneDefaults no_login_config login in
  Spec_admissible (Spec ap) = true ∧ ValidatePaths (GetPaths ap) = Ok () ∧
  match ConvertRequestMatchersToLuaTableString (RequireAuthMatchers None cfg),
        GenerateLuaScript ap cfg example_uris with
  | Ok table, Ok script =>
      (s ← expect ("{{regex=" +:+ dq) table; fst <$> read_string s) = Some "^/cb" ∧ read_script script = None
  | _, _ => False
  end.
Proof. vm_compute. auto. Qed.
