(* ===== verification/Kube.v ===== *)
(** * Reads from the cluster and the network

    What the resolvers ask of code outside the repository: the Kubernetes API for
    Secrets and ConfigMaps, an HTTP GET, and Go's URL parser. *)

From S2P Require Import Prelude GoStrings Api Objects State Examples.

(** The two reads of [helperfunctions.GetSecret] and [GetConfigMap]. *)
Class Reader := {
  get_secret : NamespacedName → go Secret;
  get_configmap : NamespacedName → go (gmap string string);
}.

Definition GetSecret `{Reader} (nn : NamespacedName) : go Secret := get_secret nn.

Definition GetConfigMap `{Reader} (nn : NamespacedName) : go (gmap string string) := get_configmap nn.

(** [m[k]] on a map of strings: the zero value for an absent key. *)
Definition map_get (m : gmap string string) (k : string) : string := default "" (m !! k).

(** The scheme of a parsed URL, and its host with the port if it has one. *)
Record URL := { url_Scheme : string; url_Host : string }.

(** [url.Parse]. *)
Class UrlParser := { url_parse : string → go URL }.

Definition GetParsedURL `{UrlParser} (uri : string) : go URL := url_parse uri.

(** The order in which [range] visits a map is not fixed: any order of its entries. *)
Class MapOrder := {
  map_order : gmap string string → list (string * string);
  map_order_perm m : map_order m ≡ₚ map_to_list m;
}.

#[export] Program Instance sorted_order : MapOrder := {| map_order m := map_to_list m |}.
Next Obligation. done. Qed.

(** ** A concrete cluster, for the theorems' instances *)

Definition example_reader : Reader := {|
  get_secret nn := Ok {| secret_Meta := plain_meta (nn_Namespace nn) (nn_Name nn); secret_Type := "Opaque";
                         secret_Data := {[ "id" := "client"; "secret" := "hunter2" ]} |};
  get_configmap nn := Err "not found";
|}.

(** A parser that takes what follows [https://], up to the next slash, as the host. *)
Definition example_parser : UrlParser := {|
  url_parse uri :=
    if HasPrefix uri "https://"
    then Ok {| url_Scheme := "https"; url_Host := default "" (head (SplitChar (str_drop 8 uri) "/")) |}
    else Err ("parse " +:+ uri);
|}.
