(* ===== verification/Memory.v ===== *)
(** * Variables, pointers and deep copies

    Memory as Go code that copies data sees it: a variable, the array behind a
    slice and a map are allocations, a list of values each; a pointer, a slice and
    a map refer to one. [Deep] says what a value stands for once the references
    in it are followed, and which allocations that reads; [Copies] what a function
    promises that copies a value together with everything it refers to. *)

From S2P Require Import Prelude Api Kube.

(** ** References *)

(** A pointer to a variable. *)
Record ptr (T : Type) := Ptr { p_loc : nat }.
Arguments Ptr {T} p_loc. Arguments p_loc {T}.

(** A slice: a window of an array. *)
Record slice (T : Type) := Slice { s_array : nat; s_offset : nat; s_len : nat }.
Arguments Slice {T} s_array s_offset s_len.
Arguments s_array {T}. Arguments s_offset {T}. Arguments s_len {T}.

(** A map is a reference to its entries. *)
Abbreviation gomap := (ptr (gmap string string)).

(** The value of a variable that is declared and not set. *)
Class Zero (T : Type) := zero : T.
Arguments zero {T _}.

(** The values of type [T] among the contents [C] of allocations. *)
Class Cell (C T : Type) := {
  to_cell : list T → C;
  of_cell : C → option (list T);
  of_to_cell l : of_cell (to_cell l) = Some l;
}.

(** ** Computations on memory

    A computation returns a value and the memory it leaves, or panics. *)
Definition mem (C A : Type) : Type := list C → go (A * list C).

#[global] Instance mem_ret C : MRet (mem C) := λ A a h, Ok (a, h).
#[global] Instance mem_bind C : MBind (mem C) := λ A B f m h,
  match m h with Ok (a, h) => f a h | Err e => Err e | Panic p => Panic p end.

Definition nil_dereference {C A} : mem C A := λ h, Panic "invalid memory address or nil pointer dereference".
Definition out_of_range {C A} : mem C A := λ h, Panic "index out of range".

Section operations.
Context {C : Type}.

Definition new_array {T} `{!Cell C T} (l : list T) : mem C nat := λ h, Ok (length h, h ++ [to_cell l]).

Definition load_array {T} `{!Cell C T} (l : nat) : mem C (list T) := λ h,
  match h !! l ≫= of_cell with Some a => Ok (a, h) | None => nil_dereference h end.

Definition store_array {T} `{!Cell C T} (l : nat) (a : list T) : mem C () := λ h,
  if decide (l < length h) then Ok ((), <[l := to_cell a]> h) else nil_dereference h.

(** [new(T)], [*p] and [*p = v]. *)
Definition new {T} `{!Cell C T} (v : T) : mem C (ptr T) := l ← new_array [v]; mret (Ptr l).

Definition load {T} `{!Cell C T} (p : ptr T) : mem C T :=
  a ← load_array (p_loc p);
  match a !! 0 with Some v => mret v | None => nil_dereference end.

Definition store {T} `{!Cell C T} (p : ptr T) (v : T) : mem C () :=
  a ← load_array (T := T) (p_loc p);
  match a with [] => nil_dereference | _ :: a => store_array (p_loc p) (v :: a) end.

(** [make([]T, n)], [s[i]] and [s[i] = v]. *)
Definition make {T} `{!Cell C T, !Zero T} (n : nat) : mem C (slice T) :=
  l ← new_array (replicate n zero); mret (Slice l 0 n).

Definition index {T} `{!Cell C T} (s : slice T) (i : nat) : mem C T :=
  a ← load_array (s_array s);
  match (if decide (i < s_len s) then a !! (s_offset s + i) else None) with
  | Some v => mret v
  | None => out_of_range
  end.

Definition set_index {T} `{!Cell C T} (s : slice T) (i : nat) (v : T) : mem C () :=
  a ← load_array (s_array s);
  if decide (i < s_len s) then store_array (s_array s) (<[s_offset s + i := v]> a) else out_of_range.

(** ** The statements of a generated deep copy

    [in] and [out] are the two variables between which a statement copies. [out]
    starts as the zero value or as a copy of [in] and no other variable refers to
    it: a statement is the value it leaves in [out]. *)

(** [if in.F != nil { *out = new(T); ( *in).DeepCopyInto( *out) }]; with [mret] for
    the copy, the statement [**out = **in]. *)
Definition copy_ptr {T} `{!Cell C T, !Zero T} (DeepCopyInto : T → mem C T) (in_ : option (ptr T))
    : mem C (option (ptr T)) :=
  match in_ with
  | None => mret None
  | Some in_ =>
      out ← new zero;
      v ← load in_;
      v ← DeepCopyInto v;
      store out v;;
      mret (Some out)
  end.

(** [for i := range *in { ( *in)[i].DeepCopyInto(&( *out)[i]) }]. *)
Fixpoint copy_elements {T} `{!Cell C T} (DeepCopyInto : T → mem C T) (in_ out : slice T) (indices : list nat)
    : mem C () :=
  match indices with
  | [] => mret ()
  | i :: indices =>
      v ← index in_ i;
      v ← DeepCopyInto v;
      set_index out i v;;
      copy_elements DeepCopyInto in_ out indices
  end.

(** [if in.F != nil { *out = make([]T, len( *in)); for .. }]; with [mret] for the
    copy of an element, the loop is [copy] from the one slice to the other. *)
Definition copy_slice {T} `{!Cell C T, !Zero T} (DeepCopyInto : T → mem C T) (in_ : option (slice T))
    : mem C (option (slice T)) :=
  match in_ with
  | None => mret None
  | Some in_ =>
      out ← make (s_len in_);
      copy_elements DeepCopyInto in_ out (seq 0 (s_len in_));;
      mret (Some out)
  end.

(** [m[k] = v]. *)
Definition set_key `{!Cell C (gmap string string)} (m : gomap) (k v : string) : mem C () :=
  entries ← load m; store m (<[k := v]> entries).

(** [for key, val := range .. { out[key] = val }]. *)
Fixpoint set_keys `{!Cell C (gmap string string)} (out : gomap) (entries : list (string * string)) : mem C () :=
  match entries with
  | [] => mret ()
  | (key, val) :: entries => set_key out key val;; set_keys out entries
  end.

(** [if in.F != nil { *out = make(map[string]string, len( *in)); for .. }]. *)
Definition copy_map `{!Cell C (gmap string string), MapOrder} (in_ : option gomap) : mem C (option gomap) :=
  match in_ with
  | None => mret None
  | Some in_ =>
      out ← new ∅;
      entries ← load in_;
      set_keys out (map_order entries);;
      mret (Some out)
  end.
End operations.

(** ** What a value stands for

    [denote h v] is [v] with its references followed in the memory [h], if none
    dangles; [reach h v] are the allocations that this reads. *)
Class Deep (C T D : Type) := {
  denote : list C → T → option D;
  reach : list C → T → list nat;
  denote_local h h' v :
    (∀ l, l ∈ reach h v → h' !! l = h !! l) → denote h' v = denote h v ∧ reach h' v = reach h v;
  reach_allocated h v d l : denote h v = Some d → l ∈ reach h v → l < length h;
}.
#[global] Hint Mode Deep ! + - : typeclass_instances.

Section deep.
Context {C : Type}.
Implicit Types h : list C.
#[local] Obligation Tactic := idtac.
#[local] Unset Program Cases.

(** A value without references. *)
Program Definition flat_deep {T} : Deep C T T := {| denote h v := Some v; reach h v := [] |}.
Next Obligation. done. Qed.
Next Obligation. intros T h v d l _ Hl. by apply elem_of_nil in Hl. Qed.

#[global] Instance deep_string : Deep C string string := flat_deep.
#[global] Instance deep_bool : Deep C bool bool := flat_deep.
#[global] Instance deep_int : Deep C Z Z := flat_deep.
#[global] Instance deep_map : Deep C (gmap string string) (gmap string string) := flat_deep.

(** A value with the parts of another: a struct is the tuple of its fields. *)
Program Definition deep_via {T T' D D'} `{!Deep C T' D'} (to : T → T') (from : D' → D) : Deep C T D :=
  {| denote h v := from <$> denote h (to v); reach h v := reach h (to v) |}.
Next Obligation. intros T T' D D' ? to from h h' v Hl. by destruct (denote_local h h' (to v) Hl) as [-> ->]. Qed.
Next Obligation. intros T T' D D' ? to from h v d l (d' & Hd & _)%fmap_Some. by eapply reach_allocated. Qed.

#[global] Program Instance deep_pair {A B DA DB} `{!Deep C A DA, !Deep C B DB} : Deep C (A * B) (DA * DB) := {|
  denote h v := a ← denote h v.1; b ← denote h v.2; Some (a, b);
  reach h v := reach h v.1 ++ reach h v.2 |}.
Next Obligation.
  intros A B DA DB ?? h h' [a b] Hl. cbn in *.
  destruct (denote_local h h' a) as [-> ->]; [intros l Hi; apply Hl, elem_of_app; by left|].
  destruct (denote_local h h' b) as [-> ->]; [intros l Hi; apply Hl, elem_of_app; by right|]. done.
Qed.
Next Obligation.
  intros A B DA DB ?? h [a b] d l Hd Hl. cbn in *.
  apply bind_Some in Hd as (da & Ha & Hd). apply bind_Some in Hd as (db & Hb & _).
  apply elem_of_app in Hl as [Hl|Hl]; [exact (reach_allocated _ _ _ _ Ha Hl)|exact (reach_allocated _ _ _ _ Hb Hl)].
Qed.

(** The elements of an array: each stands for something. *)
Definition denote_all {T D} `{!Deep C T D} h (vs : list T) : option (list D) := mapM (denote h) vs.
Definition reach_all {T D} `{!Deep C T D} h (vs : list T) : list nat := vs ≫= reach h.
#[local] Arguments denote_all : simpl never.
#[local] Arguments reach_all : simpl never.

Lemma denote_all_local {T D} `{!Deep C T D} h h' (vs : list T) :
  (∀ l, l ∈ reach_all h vs → h' !! l = h !! l) →
  denote_all h' vs = denote_all h vs ∧ reach_all h' vs = reach_all h vs.
Proof.
  unfold denote_all, reach_all. induction vs as [|v vs IH]; cbn; [done|]. intros Hl.
  destruct (denote_local h h' v) as [-> ->]; [intros l Hi; apply Hl, elem_of_app; by left|].
  destruct IH as [IH1 IH2]; [intros l Hi; apply Hl, elem_of_app; by right|]. by rewrite IH1, IH2.
Qed.

Lemma reach_all_allocated {T D} `{!Deep C T D} h (vs : list T) ds l :
  denote_all h vs = Some ds → l ∈ reach_all h vs → l < length h.
Proof.
  unfold denote_all, reach_all. intros Hd (v & Hl & Hv)%list_elem_of_bind.
  apply mapM_Some in Hd. apply list_elem_of_lookup in Hv as [i Hi].
  destruct (Forall2_lookup_l _ _ _ _ _ Hd Hi) as (d & _ & Hvd). by eapply reach_allocated.
Qed.

(** The part of the array at [l] from [o] on, [n] elements, if it is there. *)
Definition window {T} `{!Cell C T} h (l o n : nat) : option (list T) :=
  a ← h !! l ≫= of_cell; if decide (o + n ≤ length a) then Some (take n (drop o a)) else None.

Definition denote_window {T D} `{!Cell C T, !Deep C T D} h (l o n : nat) : option (list D) :=
  (window h l o n : option (list T)) ≫= denote_all h.
Definition reach_window {T D} `{!Cell C T, !Deep C T D} h (l o n : nat) : list nat :=
  l :: reach_all h (default [] (window h l o n : option (list T))).
#[local] Arguments denote_window : simpl never.
#[local] Arguments reach_window : simpl never.

Lemma denote_window_local {T D} `{!Cell C T, !Deep C T D} h h' l o n :
  (∀ k, k ∈ reach_window (T := T) h l o n → h' !! k = h !! k) →
  denote_window (T := T) h' l o n = denote_window (T := T) h l o n ∧
  reach_window (T := T) h' l o n = reach_window (T := T) h l o n.
Proof.
  unfold denote_window, reach_window. intros Hl.
  assert (window (T := T) h' l o n = window h l o n) as ->
    by (unfold window; rewrite (Hl l) by left; done).
  destruct (window h l o n) as [vs|]; cbn in *; [|done].
  destruct (denote_all_local h h' vs) as [-> ->]; [|done]. intros k Hk. apply Hl. by right.
Qed.

Lemma reach_window_allocated {T D} `{!Cell C T, !Deep C T D} h l o n ds k :
  denote_window (T := T) h l o n = Some ds → k ∈ reach_window (T := T) h l o n → k < length h.
Proof.
  unfold denote_window, reach_window. intros (vs & Hw & Hd)%bind_Some Hk. rewrite Hw in Hk. cbn in Hk.
  apply elem_of_cons in Hk as [->|Hk]; [|by eapply reach_all_allocated].
  unfold window in Hw. destruct (h !! l) eqn:Hl; [by eapply lookup_lt_Some|done].
Qed.

#[global] Program Instance deep_ptr {T D} `{!Cell C T, !Deep C T D} : Deep C (option (ptr T)) (option D) := {|
  denote h p := match p with
                | None => Some None
                | Some p => ds ← denote_window (T := T) h (p_loc p) 0 1; Some <$> head ds
                end;
  reach h p := match p with None => [] | Some p => reach_window (T := T) h (p_loc p) 0 1 end |}.
Next Obligation.
  intros T D ?? h h' [p|] Hl; [|done]. cbn in *. by destruct (denote_window_local (T := T) h h' (p_loc p) 0 1 Hl) as [-> ->].
Qed.
Next Obligation.
  intros T D ?? h [p|] d l Hd Hl; [|by apply elem_of_nil in Hl].
  apply bind_Some in Hd as (ds & Hd & _). by eapply reach_window_allocated.
Qed.

#[global] Program Instance deep_slice {T D} `{!Cell C T, !Deep C T D} : Deep C (option (slice T)) (option (list D)) := {|
  denote h s := match s with
                | None => Some None
                | Some s => Some <$> denote_window (T := T) h (s_array s) (s_offset s) (s_len s)
                end;
  reach h s := match s with
               | None => []
               | Some s => reach_window (T := T) h (s_array s) (s_offset s) (s_len s)
               end |}.
Next Obligation.
  intros T D ?? h h' [s|] Hl; [|done]. cbn in *.
  by destruct (denote_window_local (T := T) h h' (s_array s) (s_offset s) (s_len s) Hl) as [-> ->].
Qed.
Next Obligation.
  intros T D ?? h [s|] d l Hd Hl; [|by apply elem_of_nil in Hl].
  apply fmap_Some in Hd as (ds & Hd & _). by eapply reach_window_allocated.
Qed.
End deep.
