(* ===== verification/MemoryFacts.v ===== *)
(** * Deep copies on memory: the laws

    A copy only allocates, so that the memory before it is a prefix of the memory
    after it; the result stands for the same value, and everything it refers to is
    newly allocated and referred to once. *)

From S2P Require Import Prelude Api Kube Memory.

(** [locs] are distinct allocations between [lo] and [hi]. *)
Definition owned (lo hi : nat) (locs : list nat) : Prop := NoDup locs ∧ Forall (λ l, lo ≤ l < hi) locs.

Lemma owned_nil lo hi : owned lo hi [].
Proof. split; constructor. Qed.

Lemma owned_app lo mid hi ls ks : lo ≤ mid ≤ hi → owned lo mid ls → owned mid hi ks → owned lo hi (ls ++ ks).
Proof.
  intros Hb [Hn1 Hf1] [Hn2 Hf2]. rewrite Forall_forall in Hf1, Hf2. split.
  - apply NoDup_app. split_and!; [done| |done]. intros l H1%Hf1 H2%Hf2. lia.
  - apply Forall_app. split; apply Forall_forall; intros l Hl; [apply Hf1 in Hl|apply Hf2 in Hl]; lia.
Qed.

Lemma owned_cons n hi ls : n < hi → owned (S n) hi ls → owned n hi (n :: ls).
Proof.
  intros Hn Ho. apply (owned_app n (S n) hi [n] ls); [lia| |done].
  split; [apply NoDup_singleton|by repeat constructor].
Qed.

Lemma owned_weaken lo hi lo' hi' ls : lo' ≤ lo → hi ≤ hi' → owned lo hi ls → owned lo' hi' ls.
Proof. intros H1 H2 [Hn Hf]. split; [done|]. eapply Forall_impl; [exact Hf|]. cbn. lia. Qed.

Section laws.
Context {C : Type}.
Implicit Types h : list C.

(** What is allocated stays as it is when memory grows. *)
Lemma denote_prefix {T D} `{!Deep C T D} h h' (v : T) d :
  h `prefix_of` h' → denote h v = Some d → denote h' v = Some d ∧ reach h' v = reach h v.
Proof.
  intros [k ->] Hd. rewrite <- Hd. apply denote_local. intros l Hl.
  apply lookup_app_l. by eapply reach_allocated.
Qed.

(** A change of an allocation that a value does not refer to. *)
Lemma denote_insert {T D} `{!Deep C T D} h (v : T) n c :
  n ∉ reach h v → denote (<[n := c]> h) v = denote h v ∧ reach (<[n := c]> h) v = reach h v.
Proof. intros Hn. apply denote_local. intros l Hl. apply list_lookup_insert_ne. congruence. Qed.

Lemma denote_all_insert {T D} `{!Deep C T D} h (vs : list T) n c :
  n ∉ reach_all h vs →
  denote_all (<[n := c]> h) vs = denote_all h vs ∧ reach_all (<[n := c]> h) vs = reach_all h vs.
Proof. intros Hn. apply denote_all_local. intros l Hl. apply list_lookup_insert_ne. congruence. Qed.

Lemma denote_all_prefix {T D} `{!Deep C T D} h h' (vs : list T) ds :
  h `prefix_of` h' → denote_all h vs = Some ds → denote_all h' vs = Some ds ∧ reach_all h' vs = reach_all h vs.
Proof.
  intros [k ->] Hd. rewrite <- Hd. apply denote_all_local. intros l Hl.
  apply lookup_app_l. by eapply reach_all_allocated.
Qed.

Lemma denote_all_length {T D} `{!Deep C T D} h (vs : list T) ds : denote_all h vs = Some ds → length vs = length ds.
Proof. intros Hd. by eapply Forall2_length, mapM_Some. Qed.

Lemma denote_all_snoc {T D} `{!Deep C T D} h (vs : list T) v ds d :
  denote_all h vs = Some ds → denote h v = Some d → denote_all h (vs ++ [v]) = Some (ds ++ [d]).
Proof.
  unfold denote_all. rewrite !mapM_Some. intros Hvs Hv. apply Forall2_app; [done|]. by constructor.
Qed.

Lemma reach_all_snoc {T D} `{!Deep C T D} h (vs : list T) v :
  reach_all h (vs ++ [v]) = reach_all h vs ++ reach h v.
Proof. unfold reach_all. rewrite bind_app. cbn. by rewrite app_nil_r. Qed.

(** ** Functions that copy *)

Definition copied {T D} `{!Deep C T D} h (d : D) (r : go (T * list C)) : Prop :=
  match r with
  | Ok (v, h') => h `prefix_of` h' ∧ denote h' v = Some d ∧ owned (length h) (length h') (reach h' v)
  | _ => False
  end.

Class Copies {T D} `{!Deep C T D} (f : T → mem C T) : Prop :=
  copies h v d : denote h v = Some d → copied h d (f v h).

(** Assignment copies a value without references. *)
Lemma copies_flat {T} : Copies (Deep0 := flat_deep) (D := T) (T := T) mret.
Proof. intros h v d Hd. split_and!; [done|done|apply owned_nil]. Qed.

#[global] Instance copies_string : Copies (T := string) mret := copies_flat.
#[global] Instance copies_bool : Copies (T := bool) mret := copies_flat.
#[global] Instance copies_int : Copies (T := Z) mret := copies_flat.

(** A struct is copied field by field. *)
Definition copy_pair {A B} (f : A → mem C A) (g : B → mem C B) (v : A * B) : mem C (A * B) :=
  a ← f v.1; b ← g v.2; mret (a, b).

Lemma copies_pair {A B DA DB} `{!Deep C A DA, !Deep C B DB} (f : A → mem C A) (g : B → mem C B) :
  Copies f → Copies g → Copies (copy_pair f g).
Proof.
  intros Hf Hg h [a b] d (da & Ha & (db & Hb & [= <-])%bind_Some)%bind_Some. cbn in Ha, Hb.
  unfold copy_pair, mbind, mem_bind, mret, mem_ret. cbn [fst snd].
  specialize (Hf h a da Ha). destruct (f a h) as [[a' h1]|e|p]; [|done..]. destruct Hf as (Hp1 & Ha' & Ho1).
  pose proof (prefix_length _ _ Hp1).
  destruct (denote_prefix _ _ _ _ Hp1 Hb) as [Hb1 _].
  specialize (Hg h1 b db Hb1). destruct (g b h1) as [[b' h2]|e|p]; [|done..]. destruct Hg as (Hp2 & Hb' & Ho2).
  pose proof (prefix_length _ _ Hp2). destruct (denote_prefix _ _ _ _ Hp2 Ha') as [Ha2 Hr].
  split_and!; cbn.
  - by etrans.
  - by rewrite Ha2, Hb'.
  - rewrite Hr. by apply (owned_app _ (length h1)); [lia|..].
Qed.

Lemma copies_via {T T' D D'} `{!Deep C T' D'} (to : T → T') (from : D' → D) (back : T' → T)
    (f : T → mem C T) (g : T' → mem C T') :
  Copies g → (∀ t, to (back t) = t) → (∀ v h, f v h = (t ← g (to v); mret (back t)) h) →
  Copies (Deep0 := deep_via to from) f.
Proof.
  intros Hg Hback Hf h v d (d' & Hd & ->)%fmap_Some. rewrite Hf. unfold mbind, mem_bind.
  specialize (Hg h (to v) d' Hd). destruct (g (to v) h) as [[t h']|e|p]; [|done..].
  destruct Hg as (Hp & Ht & Ho). cbn. rewrite Hback, Ht. done.
Qed.

(** ** Pointers, slices and maps *)

Lemma window_prefix {T} `{!Cell C T} h h' l o n (vs : list T) :
  h `prefix_of` h' → window h l o n = Some vs → window h' l o n = Some vs.
Proof.
  unfold window. intros Hp (a & (c & Hc & Ha)%bind_Some & Hw)%bind_Some.
  rewrite (prefix_lookup_Some _ _ _ _ Hc Hp). cbn. by rewrite Ha.
Qed.

Lemma window_load {T} `{!Cell C T} h l o n (vs : list T) :
  window h l o n = Some vs → ∃ a, load_array l h = Ok (a, h) ∧ length vs = n ∧ ∀ i, i < n → a !! (o + i) = vs !! i.
Proof.
  unfold window, load_array. intros (a & -> & Hw)%bind_Some. exists a. case_decide; [|done]. simplify_eq.
  split_and!; [done| |].
  - rewrite length_take, length_drop. lia.
  - intros i Hi. by rewrite lookup_take_lt, lookup_drop.
Qed.

Lemma window_whole {T} `{!Cell C T} h l (vs : list T) :
  h !! l = Some (to_cell vs) → window h l 0 (length vs) = Some vs.
Proof.
  intros Hl. unfold window. rewrite Hl. cbn. rewrite of_to_cell. cbn.
  rewrite decide_True by done. by rewrite take_ge.
Qed.

(** The variable that a pointer refers to. *)
Lemma window_head {T} `{!Cell C T} h l (v : T) rest :
  h !! l ≫= of_cell = Some (v :: rest) → window h l 0 1 = Some [v].
Proof. intros Hl. unfold window. rewrite Hl. cbn. rewrite decide_True by lia. done. Qed.

Lemma window_variable {T} `{!Cell C T} h l (vs : list T) :
  window h l 0 1 = Some vs → ∃ v rest, vs = [v] ∧ h !! l ≫= of_cell = Some (v :: rest).
Proof.
  unfold window. intros (a & -> & Hw)%bind_Some. destruct a as [|v a]; [done|].
  rewrite decide_True in Hw by (cbn; lia). injection Hw as <-. by exists v, a.
Qed.

Lemma load_variable {T} `{!Cell C T} h (p : ptr T) v rest :
  h !! p_loc p ≫= of_cell = Some (v :: rest) → load p h = Ok (v, h).
Proof. intros Hp. unfold load, load_array, mbind, mem_bind. unfold mbind in Hp. by rewrite Hp. Qed.

Lemma store_variable {T} `{!Cell C T} h (p : ptr T) (v v0 : T) rest :
  h !! p_loc p ≫= of_cell = Some (v0 :: rest) →
  store p v h = Ok ((), <[p_loc p := to_cell (v :: rest)]> h).
Proof.
  intros Hp. unfold store, load_array, mbind, mem_bind. unfold mbind in Hp. rewrite Hp.
  unfold store_array. rewrite decide_True; [done|].
  apply lookup_lt_is_Some. destruct (h !! p_loc p); [by eexists|done].
Qed.

Lemma lookup_new {T} `{!Cell C T} h n (a : list T) c :
  h !! n = Some c → (<[n := to_cell a]> h) !! n ≫= of_cell = Some a.
Proof.
  intros Hn%lookup_lt_Some. rewrite list_lookup_insert_eq by done. cbn. apply of_to_cell.
Qed.

Lemma prefix_lookup h h' : length h ≤ length h' → (∀ l, l < length h → h' !! l = h !! l) → h `prefix_of` h'.
Proof.
  intros Hlen Hl. exists (drop (length h) h'). rewrite <- (take_drop (length h) h') at 1. f_equal.
  apply list_eq. intros l. destruct (decide (l < length h)).
  - rewrite lookup_take_lt by done. auto.
  - rewrite !lookup_ge_None_2; [done|lia|]. rewrite length_take. lia.
Qed.

(** Changes beyond [h] leave [h] a prefix. *)
Lemma prefix_insert h h' n c : h `prefix_of` h' → length h ≤ n → h `prefix_of` <[n := c]> h'.
Proof. intros [k ->] Hn. rewrite insert_app_r_alt by done. by eexists. Qed.

(** A pointer stands for what its variable holds. *)
Lemma denote_pointer {T D} `{!Cell C T, !Deep C T D} h (p : ptr T) (d : D) :
  denote h (Some p) = Some (Some d) →
  ∃ v rest, h !! p_loc p ≫= of_cell = Some (v :: rest) ∧ denote h v = Some d ∧
            reach h (Some p) = p_loc p :: reach h v.
Proof.
  intros (ds & (vs & Hw & Hvs)%bind_Some & (d' & Hd' & [= <-])%fmap_Some)%bind_Some.
  destruct (window_variable _ _ _ Hw) as (v & rest & -> & Hp). exists v, rest.
  apply mapM_Some in Hvs. inversion Hvs as [|? d0 ? ? Hv Hnil]; subst.
  inversion Hnil; subst. injection Hd' as ->. split_and!; [done|done|].
  cbn. unfold reach_window. rewrite Hw. cbn. unfold reach_all. cbn. by rewrite app_nil_r.
Qed.

Lemma pointer_denotes {T D} `{!Cell C T, !Deep C T D} h (p : ptr T) v rest (d : D) :
  h !! p_loc p ≫= of_cell = Some (v :: rest) → denote h v = Some d →
  denote h (Some p) = Some (Some d) ∧ reach h (Some p) = p_loc p :: reach h v.
Proof.
  intros Hp Hd. pose proof (window_head _ _ _ _ Hp) as Hw. cbn.
  unfold denote_window, reach_window. rewrite Hw. cbn. unfold denote_all, reach_all. cbn.
  by rewrite Hd, app_nil_r.
Qed.

(** Reading and writing the variable. *)
Lemma load_ok {T D} `{!Cell C T, !Deep C T D} h (p : ptr T) (d : D) :
  denote h (Some p) = Some (Some d) →
  ∃ v, load p h = Ok (v, h) ∧ denote h v = Some d ∧ reach h (Some p) = p_loc p :: reach h v.
Proof.
  intros Hd. destruct (denote_pointer _ _ _ Hd) as (v & rest & Hp & Hv & Hr). exists v.
  split_and!; [by eapply load_variable|done|done].
Qed.

Lemma store_ok {T D} `{!Cell C T, !Deep C T D} h (p : ptr T) v0 rest v (d : D) :
  h !! p_loc p ≫= of_cell = Some (v0 :: rest) → denote h v = Some d → p_loc p ∉ reach h v →
  let h' := <[p_loc p := to_cell (v :: rest)]> h in
  store p v h = Ok ((), h') ∧ denote h' (Some p) = Some (Some d) ∧ reach h' (Some p) = p_loc p :: reach h v.
Proof.
  intros Hp Hd Hn h'.
  destruct (denote_insert h v (p_loc p) (to_cell (v :: rest)) Hn) as [Hd' Hr].
  destruct (pointer_denotes h' p v rest d) as [Hv Hrv].
  - destruct (h !! p_loc p) as [c|] eqn:Hc; [|done]. by eapply lookup_new.
  - by rewrite <- Hd.
  - split_and!; [by eapply store_variable|done|by rewrite Hrv, <- Hr].
Qed.

Lemma owned_not_elem n hi ls : owned (S n) hi ls → n ∉ ls.
Proof. intros [_ Hall] Hin. rewrite Forall_forall in Hall. apply Hall in Hin. lia. Qed.

#[global] Instance copies_ptr {T D} `{!Cell C T, !Zero T, !Deep C T D} (f : T → mem C T) :
  Copies f → Copies (copy_ptr f).
Proof.
  intros Hf h [p|] d Hd; [|by injection Hd as <-; split_and!; [| |apply owned_nil]].
  destruct d as [d|]; [|by apply bind_Some in Hd as (? & _ & (? & _ & [=])%fmap_Some)].
  destruct (load_ok _ _ _ Hd) as (v & _ & Hv & _).
  set (h1 := h ++ [to_cell [zero : T]]). assert (h `prefix_of` h1) as Hp1 by (by eexists).
  destruct (denote_prefix _ _ _ _ Hp1 Hd) as [Hd1 _]. destruct (load_ok _ _ _ Hd1) as (v1 & Hload & Hv1 & _).
  unfold copy_ptr, new, new_array, mbind, mem_bind, mret, mem_ret. fold h1. rewrite Hload.
  specialize (Hf h1 v1 d Hv1).
  assert (length h1 = S (length h)) as Hl1 by (unfold h1; rewrite length_app; cbn; lia).
  destruct (f v1 h1) as [[v' h2]|e|q]; [|done..]. destruct Hf as (Hp2 & Hv' & Ho). rewrite Hl1 in Ho.
  pose proof (prefix_length _ _ Hp2).
  assert (h2 !! length h ≫= of_cell = Some [zero : T]) as Hn.
  { rewrite (prefix_lookup_Some h1 h2 _ (to_cell [zero : T])); [apply of_to_cell|by apply list_lookup_middle|done]. }
  destruct (store_ok h2 (Ptr (length h)) _ _ v' d Hn Hv') as (-> & Hq & Hr); [by eapply owned_not_elem|].
  split_and!.
  - apply prefix_insert; [by etrans|done].
  - exact Hq.
  - rewrite Hr, length_insert. apply owned_cons; [cbn; lia|done].
Qed.

(** The loop over the elements of a slice: [outs] have been written to the new array. *)
Definition copying {T D} `{!Cell C T, !Zero T, !Deep C T D} h (ds : list D) h' (outs : list T) : Prop :=
  h `prefix_of` h' ∧
  h' !! length h = Some (to_cell (outs ++ replicate (length ds - length outs) zero)) ∧
  denote_all h' outs = Some (take (length outs) ds) ∧
  owned (S (length h)) (length h') (reach_all h' outs).

Lemma insert_next {T} `{!Zero T} (outs : list T) (v : T) n :
  length outs < n →
  <[length outs := v]> (outs ++ replicate (n - length outs) zero) =
  (outs ++ [v]) ++ replicate (n - length (outs ++ [v])) zero.
Proof.
  intros Hn. rewrite insert_app_r_alt, Nat.sub_diag, <- app_assoc, length_app by done.
  replace (n - length outs) with (S (n - (length outs + 1))) by lia. done.
Qed.

Lemma set_index_ok {T D} `{!Cell C T, !Zero T, !Deep C T D} h (ds : list D) hk h2 (outs : list T) v d :
  copying h ds hk outs → ds !! length outs = Some d →
  hk `prefix_of` h2 → denote h2 v = Some d → owned (length hk) (length h2) (reach h2 v) →
  ∃ h3, set_index (Slice (length h) 0 (length ds)) (length outs) v h2 = Ok ((), h3) ∧
        copying h ds h3 (outs ++ [v]).
Proof.
  intros (Hp & Harr & Hden & Ho) Hd Hp2 Hv Hov. pose proof (lookup_lt_Some _ _ _ Hd) as Hlt.
  pose proof (prefix_length _ _ Hp2). pose proof (lookup_lt_Some _ _ _ Harr).
  pose proof (prefix_lookup_Some _ _ _ _ Harr Hp2) as Harr2.
  destruct (denote_all_prefix _ _ _ _ Hp2 Hden) as [Hden2 Hr2].
  assert (owned (S (length h)) (length h2) (reach_all h2 outs ++ reach h2 v)) as Ho2.
  { rewrite Hr2. apply (owned_app _ (length hk)); [lia|done|done]. }
  assert (∀ ls, ls ⊆ reach_all h2 outs ++ reach h2 v → length h ∉ ls) as Hni.
  { intros ls Hls Hin%Hls. destruct Ho2 as [_ Hall]. rewrite Forall_forall in Hall. apply Hall in Hin. lia. }
  set (c := to_cell ((outs ++ [v]) ++ replicate (length ds - length (outs ++ [v])) zero)).
  exists (<[length h := c]> h2).
  destruct (denote_all_insert h2 outs (length h) c) as [Hd3 Hr3]; [apply Hni; set_solver|].
  destruct (denote_insert h2 v (length h) c) as [Hv3 Hrv3]; [apply Hni; set_solver|].
  split; [|split_and!].
  - unfold set_index, store_array, load_array, mbind, mem_bind. cbn [s_array s_len s_offset].
    rewrite Harr2. cbn [mbind option_bind]. rewrite of_to_cell, !decide_True by lia.
    cbn [Nat.add]. by rewrite insert_next.
  - apply prefix_insert; [by etrans|done].
  - apply list_lookup_insert_eq. lia.
  - rewrite length_app. replace (length outs + length [v]) with (S (length outs)) by (cbn; lia).
    rewrite (take_S_r _ _ _ Hd). apply denote_all_snoc; congruence.
  - rewrite length_insert, reach_all_snoc, Hr3, Hrv3. done.
Qed.

Lemma copy_elements_ok {T D} `{!Cell C T, !Zero T, !Deep C T D} (f : T → mem C T) h s vs ds :
  Copies f → window h (s_array s) (s_offset s) (s_len s) = Some vs → denote_all h vs = Some ds →
  ∀ n hk outs, copying h ds hk outs → length outs + n = length ds →
  ∃ h', copy_elements f s (Slice (length h) 0 (length ds)) (seq (length outs) n) hk = Ok ((), h') ∧
        ∃ outs', copying h ds h' outs' ∧ length outs' = length ds.
Proof.
  intros Hf Hw Hds n. assert (length vs = length ds) as Hlen by (by eapply denote_all_length).
  induction n as [|n IH]; intros hk outs Hk Hn; [by eexists; split; [|exists outs; split; [|lia]]|].
  destruct (window_load h _ _ _ _ Hw) as (_ & _ & Hlv & _).
  destruct Hk as (Hp & Hk). destruct (window_load hk _ _ _ _ (window_prefix _ _ _ _ _ _ Hp Hw)) as (a & Hload & _ & Ha).
  destruct (lookup_lt_is_Some_2 vs (length outs) ltac:(lia)) as [v Hv].
  pose proof (proj1 (mapM_Some _ _ _) Hds) as Hall.
  destruct (Forall2_lookup_l _ _ _ _ _ Hall Hv) as (d & Hd & Hvd).
  destruct (denote_prefix _ _ _ _ Hp Hvd) as [Hvk _]. specialize (Hf hk v d Hvk).
  cbn [seq copy_elements]. unfold index, mbind, mem_bind, mret, mem_ret.
  rewrite Hload, decide_True, Ha, Hv by lia.
  destruct (f v hk) as [[v' h2]|e|p]; [|done..]. destruct Hf as (Hp2 & Hv' & Ho').
  destruct (set_index_ok h ds hk h2 outs v' d (conj Hp Hk) Hd Hp2 Hv' Ho') as (h3 & -> & Hk3).
  destruct (IH h3 (outs ++ [v']) Hk3) as (h' & Hc & Hk'); [rewrite length_app; cbn; lia|].
  exists h'. split; [|done]. rewrite <- Hc. f_equal. rewrite length_app. cbn. by rewrite Nat.add_1_r.
Qed.

Lemma slice_denotes {T D} `{!Cell C T, !Deep C T D} h (s : slice T) vs (ds : list D) :
  window h (s_array s) (s_offset s) (s_len s) = Some vs → denote_all h vs = Some ds →
  denote h (Some s) = Some (Some ds) ∧ reach h (Some s) = s_array s :: reach_all h vs.
Proof.
  intros Hw Hds. cbn. unfold denote_window, reach_window. rewrite Hw. cbn. by rewrite Hds.
Qed.

#[global] Instance copies_slice {T D} `{!Cell C T, !Zero T, !Deep C T D} (f : T → mem C T) :
  Copies f → Copies (copy_slice f).
Proof.
  intros Hf h [s|] d Hd; [|by injection Hd as <-; split_and!; [| |apply owned_nil]].
  apply fmap_Some in Hd as (ds & (vs & Hw & Hds)%bind_Some & ->).
  destruct (window_load h _ _ _ _ Hw) as (_ & _ & Hlv & _).
  assert (s_len s = length ds) as Hlen by (rewrite <- Hlv; by eapply denote_all_length).
  set (h1 := h ++ [to_cell (replicate (length ds) (zero : T))]).
  destruct (copy_elements_ok f h s vs ds Hf Hw Hds (length ds) h1 []) as (h' & Hc & outs & Hk & Hlo); [|done|].
  { split_and!; [by eexists| |done|apply owned_nil]. cbn. rewrite Nat.sub_0_r. apply list_lookup_middle. done. }
  unfold copy_slice, make, new_array, mbind, mem_bind, mret, mem_ret. rewrite Hlen. fold h1. cbn in Hc. rewrite Hc.
  destruct Hk as (Hp & Harr & Hden & Ho). rewrite Hlo, Nat.sub_diag in Harr. cbn in Harr. rewrite app_nil_r in Harr.
  pose proof (window_whole _ _ _ Harr) as Hw'. rewrite Hlo in Hw'. pose proof (lookup_lt_Some _ _ _ Harr).
  destruct (slice_denotes h' (Slice (length h) 0 (length ds)) outs ds) as [Hds' Hr]; [done| |].
  { rewrite Hden. by rewrite take_ge by lia. }
  split_and!; [done|exact Hds'|]. rewrite Hr. by apply owned_cons.
Qed.

(** The entries of a map, written one by one in the order of the iteration. *)
Definition written (m : gmap string string) (entries : list (string * string)) : gmap string string :=
  foldl (λ m kv, <[kv.1 := kv.2]> m) m entries.

Lemma set_keys_ok `{!Cell C (gmap string string)} (p : gomap) entries h m rest :
  h !! p_loc p ≫= of_cell = Some (m :: rest) →
  ∃ h', set_keys p entries h = Ok ((), h') ∧ h' !! p_loc p ≫= of_cell = Some (written m entries :: rest) ∧
        length h' = length h ∧ ∀ l, l ≠ p_loc p → h' !! l = h !! l.
Proof.
  revert h m. induction entries as [|[k v] entries IH]; intros h m Hl; cbn [set_keys]; [by exists h|].
  unfold set_key, mbind, mem_bind. rewrite (load_variable _ _ _ _ Hl), (store_variable _ _ _ _ _ Hl).
  destruct (IH (<[p_loc p := to_cell (<[k := v]> m :: rest)]> h) (<[k := v]> m)) as (h' & Hs & Hm & Hlen & Ho).
  { destruct (h !! p_loc p) as [c|] eqn:Hc; [|done]. by eapply lookup_new. }
  exists h'. split_and!; [done|done|by rewrite Hlen, length_insert|].
  intros l Hne. rewrite Ho by done. by apply list_lookup_insert_ne.
Qed.

Lemma foldl_insert_map (m0 : gmap string string) entries :
  NoDup entries.*1 → written m0 entries = list_to_map entries ∪ m0.
Proof.
  unfold written. revert m0. induction entries as [|[k v] entries IH]; intros m0 Hn; cbn; [by rewrite map_empty_union|].
  apply NoDup_cons in Hn as [Hk Hn]. rewrite IH by done.
  rewrite <- insert_union_l. rewrite <- insert_union_r; [done|]. by apply not_elem_of_list_to_map_1.
Qed.

(** Ranging over [m] and writing each entry to [m0] puts [m] over [m0]. *)
Lemma range_entries `{MapOrder} (m0 m : gmap string string) : written m0 (map_order m) = m ∪ m0.
Proof.
  assert (NoDup (map_order m).*1) by (rewrite map_order_perm; apply NoDup_fst_map_to_list).
  rewrite foldl_insert_map by done. f_equal.
  rewrite (list_to_map_proper _ (map_to_list m)); [apply list_to_map_to_list|done|apply map_order_perm].
Qed.

#[global] Instance copies_map `{!Cell C (gmap string string), MapOrder} : Copies copy_map.
Proof.
  intros h [p|] d Hd; [|by injection Hd as <-; split_and!; [| |apply owned_nil]].
  destruct d as [d|]; [|by apply bind_Some in Hd as (? & _ & (? & _ & [=])%fmap_Some)].
  set (h1 := h ++ [to_cell [∅ : gmap string string]]). assert (h `prefix_of` h1) as Hp1 by (by eexists).
  destruct (denote_prefix _ _ _ _ Hp1 Hd) as [Hd1 _].
  destruct (load_ok _ _ _ Hd1) as (v1 & Hload & Hv1 & _). injection Hv1 as ->.
  unfold copy_map, new, new_array, mbind, mem_bind, mret, mem_ret. fold h1. rewrite Hload.
  assert (h1 !! length h ≫= of_cell = Some [∅ : gmap string string]) as Hn.
  { unfold h1. rewrite list_lookup_middle by done. apply of_to_cell. }
  destruct (set_keys_ok (Ptr (length h)) (map_order d) h1 _ _ Hn) as (h2 & -> & Hm & Hlen & Ho).
  rewrite range_entries, map_union_empty in Hm. cbn in Hm, Ho.
  destruct (pointer_denotes h2 (Ptr (length h)) d [] d Hm) as [Hq Hr]; [done|].
  assert (length h2 = S (length h)) by (rewrite Hlen; unfold h1; rewrite length_app; cbn; lia).
  split_and!.
  - apply prefix_lookup; [lia|]. intros l Hl. rewrite Ho by lia. unfold h1. by apply lookup_app_l.
  - exact Hq.
  - rewrite Hr. cbn. apply owned_cons; [lia|]. apply owned_nil.
Qed.

(** ** Separation

    What [copied] means for those who use the two values. *)
Lemma copied_separate {T D} `{!Deep C T D} h (v : T) d (v' : T) h' :
  denote h v = Some d → copied h d (Ok (v', h')) →
  denote h' v = Some d ∧ (∀ l, l ∈ reach h' v → l ∉ reach h' v') ∧ NoDup (reach h' v') ∧
  (∀ h'', (∀ l, l ∉ reach h' v' → h'' !! l = h' !! l) → denote h'' v = Some d) ∧
  (∀ h'', (∀ l, l ∉ reach h' v → h'' !! l = h' !! l) → denote h'' v' = Some d).
Proof.
  intros Hd (Hp & Hd' & Hn & Ho). destruct (denote_prefix _ _ _ _ Hp Hd) as [Hd2 Hr].
  rewrite Forall_forall in Ho.
  assert (∀ l, l ∈ reach h' v → l ∉ reach h' v') as Hsep.
  { intros l Hl Hl'%Ho. rewrite Hr in Hl. pose proof (reach_allocated _ _ _ _ Hd Hl). lia. }
  split_and!; [done|done|done| |]; intros h'' Heq.
  - rewrite <- Hd2. apply denote_local. intros l Hl. by apply Heq, Hsep.
  - rewrite <- Hd'. apply denote_local. intros l Hl. apply Heq. intros Hl'. by apply (Hsep l).
Qed.
End laws.
