(* ===== verification/DeepCopy.v ===== *)
(** * The generated deep copies (api/v1alpha1/zz_generated.deepcopy.go)

    The types of the AuthPolicy API as Go lays them out: a field that is a pointer,
    a slice or a map is a reference. The types are written once, with the kind of
    the references as a parameter: in memory they refer to allocations
    ([in_memory]); followed to the end they are trees ([tree]).

    [DeepCopyInto] starts with an assignment of all fields and goes on to replace
    those that are references; here it is a function from the receiver's fields to
    the fields that the other variable holds in the end. *)

From S2P Require Import Prelude Api Kube Memory.

Record kinds := {
  kptr : Type → Type;
  kslice : Type → Type;
  kmap : Type;
}.

Definition in_memory : kinds := {| kptr := ptr; kslice := slice; kmap := gomap |}.
Definition tree : kinds := {| kptr T := T; kslice := list; kmap := gmap string string |}.

(** ** Kubernetes metadata

    The metadata types and their deep copies are those of apimachinery; they have
    the fields of [Api]. *)

Record TypeMeta := { tm_Kind : string; tm_APIVersion : string }.

#[local] Set Implicit Arguments.
Section types.
Variable K : kinds.

Record OwnerReferenceOf := {
  or_APIVersion : string;
  or_Kind : string;
  or_Name : string;
  or_UID : string;
  or_Controller : option (kptr K bool);
}.

Record ObjectMetaOf := {
  om_Name : string;
  om_Namespace : string;
  om_UID : string;
  om_Generation : Z;
  om_Labels : option (kmap K);
  om_Annotations : option (kmap K);
  om_OwnerReferences : option (kslice K OwnerReferenceOf);
  om_DeletionTimestamp : option (kptr K Z);
}.

Record ListMetaOf := {
  lm_ResourceVersion : string;
  lm_Continue : string;
  lm_RemainingItemCount : option (kptr K Z);
}.

(** ** The types of authpolicy_types.go *)

Record ValueFromOf := {
  vf_ConfigMapKeyRef : option (kptr K KeyRef);
  vf_SecretKeyRef : option (kptr K KeyRef);
}.

Record AllowedAudienceOf := {
  aa_Value : option (kptr K string);
  aa_ValueFrom : option (kptr K ValueFromOf);
}.

Record AutoLoginOf := {
  lo_Enabled : bool;
  lo_LoginPath : option (kptr K string);
  lo_RedirectPath : option (kptr K string);
  lo_LogoutPath : option (kptr K string);
  lo_PostLogoutRedirectURI : option (kptr K string);
  lo_Scopes : option (kslice K string);
  lo_LoginParams : option (kmap K);
}.

Record WorkloadSelectorOf := { ws_MatchLabels : option (kmap K) }.

Record ConditionOf := { co_Claim : string; co_Values : option (kslice K string) }.

Record BaselineAuthOf := { ba_Claims : option (kslice K ConditionOf) }.

Record RequestMatcherOf := {
  rm_Paths : option (kslice K string);
  rm_Methods : option (kslice K string);
}.

(** [When] is a pointer to a slice. *)
Record RequestAuthRuleOf := {
  rr_RequestMatcher : RequestMatcherOf;
  rr_When : option (kptr K (option (kslice K ConditionOf)));
  rr_DenyRedirect : option (kptr K bool);
}.

Record AuthPolicySpecOf := {
  sp_Enabled : bool;
  sp_AutoLogin : option (kptr K AutoLoginOf);
  sp_OAuthCredentials : option (kptr K OAuthCredentialsRef);
  sp_WellKnownURI : string;
  sp_AllowedAudiences : option (kslice K AllowedAudienceOf);
  sp_ForwardJwt : option (kptr K bool);
  sp_OutputClaimToHeaders : option (kptr K (option (kslice K ClaimToHeader)));
  sp_AcceptedResources : option (kptr K (option (kslice K string)));
  sp_BaselineAuth : option (kptr K BaselineAuthOf);
  sp_AuthRules : option (kptr K (option (kslice K RequestAuthRuleOf)));
  sp_IgnoreAuthRules : option (kptr K (option (kslice K RequestMatcherOf)));
  sp_Selector : WorkloadSelectorOf;
}.

Record AuthPolicyStatusOf := {
  st_ObservedGeneration : Z;
  st_Conditions : option (kslice K MetaCondition);
  st_Phase : Phase;
  st_Message : string;
  st_Ready : bool;
}.

Record AuthPolicyOf := {
  po_TypeMeta : TypeMeta;
  po_ObjectMeta : ObjectMetaOf;
  po_Spec : AuthPolicySpecOf;
  po_Status : AuthPolicyStatusOf;
}.

Record AuthPolicyListOf := {
  pl_TypeMeta : TypeMeta;
  pl_ListMeta : ListMetaOf;
  pl_Items : option (kslice K AuthPolicyOf);
}.
End types.
#[local] Unset Implicit Arguments.

(** ** Memory: what an allocation can hold

    The arrays of each type of which the API's types have a pointer or a slice; the
    last ones hold slices, to which a field is a pointer. *)

Inductive cell :=
  | Strings (a : list string)
  | Bools (a : list bool)
  | Ints (a : list Z)
  | Maps (a : list (gmap string string))
  | KeyRefs (a : list KeyRef)
  | Credentials (a : list OAuthCredentialsRef)
  | ClaimHeaders (a : list ClaimToHeader)
  | MetaConditions (a : list MetaCondition)
  | OwnerRefs (a : list (OwnerReferenceOf in_memory))
  | ValueFroms (a : list (ValueFromOf in_memory))
  | Audiences (a : list (AllowedAudienceOf in_memory))
  | AutoLogins (a : list (AutoLoginOf in_memory))
  | Selectors (a : list (WorkloadSelectorOf in_memory))
  | ClaimConditions (a : list (ConditionOf in_memory))
  | Baselines (a : list (BaselineAuthOf in_memory))
  | Matchers (a : list (RequestMatcherOf in_memory))
  | Rules (a : list (RequestAuthRuleOf in_memory))
  | Specs (a : list (AuthPolicySpecOf in_memory))
  | Statuses (a : list (AuthPolicyStatusOf in_memory))
  | Policies (a : list (AuthPolicyOf in_memory))
  | PolicyLists (a : list (AuthPolicyListOf in_memory))
  | StringSlices (a : list (option (slice string)))
  | HeaderSlices (a : list (option (slice ClaimToHeader)))
  | ConditionSlices (a : list (option (slice (ConditionOf in_memory))))
  | RuleSlices (a : list (option (slice (RequestAuthRuleOf in_memory))))
  | MatcherSlices (a : list (option (slice (RequestMatcherOf in_memory)))).

#[global] Instance cell_Strings : Cell cell string :=
  {| to_cell := Strings; of_cell c := match c with Strings a => Some a | _ => None end; of_to_cell l := eq_refl |}.
#[global] Instance cell_Bools : Cell cell bool :=
  {| to_cell := Bools; of_cell c := match c with Bools a => Some a | _ => None end; of_to_cell l := eq_refl |}.
#[global] Instance cell_Ints : Cell cell Z :=
  {| to_cell := Ints; of_cell c := match c with Ints a => Some a | _ => None end; of_to_cell l := eq_refl |}.
#[global] Instance cell_Maps : Cell cell (gmap string string) :=
  {| to_cell := Maps; of_cell c := match c with Maps a => Some a | _ => None end; of_to_cell l := eq_refl |}.
#[global] Instance cell_KeyRefs : Cell cell KeyRef :=
  {| to_cell := KeyRefs; of_cell c := match c with KeyRefs a => Some a | _ => None end; of_to_cell l := eq_refl |}.
#[global] Instance cell_Credentials : Cell cell OAuthCredentialsRef :=
  {| to_cell := Credentials; of_cell c := match c with Credentials a => Some a | _ => None end; of_to_cell l := eq_refl |}.
#[global] Instance cell_ClaimHeaders : Cell cell ClaimToHeader :=
  {| to_cell := ClaimHeaders; of_cell c := match c with ClaimHeaders a => Some a | _ => None end; of_to_cell l := eq_refl |}.
#[global] Instance cell_MetaConditions : Cell cell MetaCondition :=
  {| to_cell := MetaConditions; of_cell c := match c with MetaConditions a => Some a | _ => None end; of_to_cell l := eq_refl |}.
#[global] Instance cell_OwnerRefs : Cell cell (OwnerReferenceOf in_memory) :=
  {| to_cell := OwnerRefs; of_cell c := match c with OwnerRefs a => Some a | _ => None end; of_to_cell l := eq_refl |}.
#[global] Instance cell_ValueFroms : Cell cell (ValueFromOf in_memory) :=
  {| to_cell := ValueFroms; of_cell c := match c with ValueFroms a => Some a | _ => None end; of_to_cell l := eq_refl |}.
#[global] Instance cell_Audiences : Cell cell (AllowedAudienceOf in_memory) :=
  {| to_cell := Audiences; of_cell c := match c with Audiences a => Some a | _ => None end; of_to_cell l := eq_refl |}.
#[global] Instance cell_AutoLogins : Cell cell (AutoLoginOf in_memory) :=
  {| to_cell := AutoLogins; of_cell c := match c with AutoLogins a => Some a | _ => None end; of_to_cell l := eq_refl |}.
#[global] Instance cell_Selectors : Cell cell (WorkloadSelectorOf in_memory) :=
  {| to_cell := Selectors; of_cell c := match c with Selectors a => Some a | _ => None end; of_to_cell l := eq_refl |}.
#[global] Instance cell_ClaimConditions : Cell cell (ConditionOf in_memory) :=
  {| to_cell := ClaimConditions; of_cell c := match c with ClaimConditions a => Some a | _ => None end; of_to_cell l := eq_refl |}.
#[global] Instance cell_Baselines : Cell cell (BaselineAuthOf in_memory) :=
  {| to_cell := Baselines; of_cell c := match c with Baselines a => Some a | _ => None end; of_to_cell l := eq_refl |}.
#[global] Instance cell_Matchers : Cell cell (RequestMatcherOf in_memory) :=
  {| to_cell := Matchers; of_cell c := match c with Matchers a => Some a | _ => None end; of_to_cell l := eq_refl |}.
#[global] Instance cell_Rules : Cell cell (RequestAuthRuleOf in_memory) :=
  {| to_cell := Rules; of_cell c := match c with Rules a => Some a | _ => None end; of_to_cell l := eq_refl |}.
#[global] Instance cell_Specs : Cell cell (AuthPolicySpecOf in_memory) :=
  {| to_cell := Specs; of_cell c := match c with Specs a => Some a | _ => None end; of_to_cell l := eq_refl |}.
#[global] Instance cell_Statuses : Cell cell (AuthPolicyStatusOf in_memory) :=
  {| to_cell := Statuses; of_cell c := match c with Statuses a => Some a | _ => None end; of_to_cell l := eq_refl |}.
#[global] Instance cell_Policies : Cell cell (AuthPolicyOf in_memory) :=
  {| to_cell := Policies; of_cell c := match c with Policies a => Some a | _ => None end; of_to_cell l := eq_refl |}.
#[global] Instance cell_PolicyLists : Cell cell (AuthPolicyListOf in_memory) :=
  {| to_cell := PolicyLists; of_cell c := match c with PolicyLists a => Some a | _ => None end; of_to_cell l := eq_refl |}.
#[global] Instance cell_StringSlices : Cell cell (option (slice string)) :=
  {| to_cell := StringSlices; of_cell c := match c with StringSlices a => Some a | _ => None end; of_to_cell l := eq_refl |}.
#[global] Instance cell_HeaderSlices : Cell cell (option (slice ClaimToHeader)) :=
  {| to_cell := HeaderSlices; of_cell c := match c with HeaderSlices a => Some a | _ => None end; of_to_cell l := eq_refl |}.
#[global] Instance cell_ConditionSlices : Cell cell (option (slice (ConditionOf in_memory))) :=
  {| to_cell := ConditionSlices; of_cell c := match c with ConditionSlices a => Some a | _ => None end; of_to_cell l := eq_refl |}.
#[global] Instance cell_RuleSlices : Cell cell (option (slice (RequestAuthRuleOf in_memory))) :=
  {| to_cell := RuleSlices; of_cell c := match c with RuleSlices a => Some a | _ => None end; of_to_cell l := eq_refl |}.
#[global] Instance cell_MatcherSlices : Cell cell (option (slice (RequestMatcherOf in_memory))) :=
  {| to_cell := MatcherSlices; of_cell c := match c with MatcherSlices a => Some a | _ => None end; of_to_cell l := eq_refl |}.

(** *** Zero values *)

#[global] Instance zero_string : Zero string := "".
#[global] Instance zero_bool : Zero bool := false.
#[global] Instance zero_int : Zero Z := 0%Z.
#[global] Instance zero_nil {A} : Zero (option A) := None.
#[global] Instance zero_KeyRef : Zero KeyRef := {| kr_Name := zero; kr_Key := zero |}.
#[global] Instance zero_OAuthCredentials : Zero OAuthCredentialsRef :=
  {| SecretRef := zero; ClientSecretKey := zero; ClientIDKey := zero |}.
#[global] Instance zero_ClaimToHeader : Zero ClaimToHeader := {| cth_Header := zero; cth_Claim := zero |}.
(** A condition's status is a string, the zero value of which [Api]'s type does not
    have; the elements of a new array of conditions are written before they are read. *)
#[global] Instance zero_MetaCondition : Zero MetaCondition :=
  {| cond_Type := zero; cond_Status := ConditionUnknown; cond_LastTransitionTime := zero; cond_Reason := zero;
     cond_Message := zero |}.
#[global] Instance zero_OwnerReference : Zero (OwnerReferenceOf in_memory) :=
  {| or_APIVersion := zero; or_Kind := zero; or_Name := zero; or_UID := zero; or_Controller := zero |}.
#[global] Instance zero_ObjectMeta : Zero (ObjectMetaOf in_memory) :=
  {| om_Name := zero; om_Namespace := zero; om_UID := zero; om_Generation := zero; om_Labels := zero;
     om_Annotations := zero; om_OwnerReferences := zero; om_DeletionTimestamp := zero |}.
#[global] Instance zero_ListMeta : Zero (ListMetaOf in_memory) :=
  {| lm_ResourceVersion := zero; lm_Continue := zero; lm_RemainingItemCount := zero |}.
#[global] Instance zero_TypeMeta : Zero TypeMeta := {| tm_Kind := zero; tm_APIVersion := zero |}.
#[global] Instance zero_ValueFrom : Zero (ValueFromOf in_memory) :=
  {| vf_ConfigMapKeyRef := zero; vf_SecretKeyRef := zero |}.
#[global] Instance zero_AllowedAudience : Zero (AllowedAudienceOf in_memory) :=
  {| aa_Value := zero; aa_ValueFrom := zero |}.
#[global] Instance zero_AutoLogin : Zero (AutoLoginOf in_memory) :=
  {| lo_Enabled := zero; lo_LoginPath := zero; lo_RedirectPath := zero; lo_LogoutPath := zero;
     lo_PostLogoutRedirectURI := zero; lo_Scopes := zero; lo_LoginParams := zero |}.
#[global] Instance zero_WorkloadSelector : Zero (WorkloadSelectorOf in_memory) := {| ws_MatchLabels := zero |}.
#[global] Instance zero_Condition : Zero (ConditionOf in_memory) := {| co_Claim := zero; co_Values := zero |}.
#[global] Instance zero_BaselineAuth : Zero (BaselineAuthOf in_memory) := {| ba_Claims := zero |}.
#[global] Instance zero_RequestMatcher : Zero (RequestMatcherOf in_memory) :=
  {| rm_Paths := zero; rm_Methods := zero |}.
#[global] Instance zero_RequestAuthRule : Zero (RequestAuthRuleOf in_memory) :=
  {| rr_RequestMatcher := zero; rr_When := zero; rr_DenyRedirect := zero |}.
#[global] Instance zero_AuthPolicySpec : Zero (AuthPolicySpecOf in_memory) :=
  {| sp_Enabled := zero; sp_AutoLogin := zero; sp_OAuthCredentials := zero; sp_WellKnownURI := zero;
     sp_AllowedAudiences := zero; sp_ForwardJwt := zero; sp_OutputClaimToHeaders := zero;
     sp_AcceptedResources := zero; sp_BaselineAuth := zero; sp_AuthRules := zero; sp_IgnoreAuthRules := zero;
     sp_Selector := zero |}.
#[global] Instance zero_AuthPolicyStatus : Zero (AuthPolicyStatusOf in_memory) :=
  {| st_ObservedGeneration := zero; st_Conditions := zero; st_Phase := PhaseUnset; st_Message := zero;
     st_Ready := zero |}.
#[global] Instance zero_AuthPolicy : Zero (AuthPolicyOf in_memory) :=
  {| po_TypeMeta := zero; po_ObjectMeta := zero; po_Spec := zero; po_Status := zero |}.
#[global] Instance zero_AuthPolicyList : Zero (AuthPolicyListOf in_memory) :=
  {| pl_TypeMeta := zero; pl_ListMeta := zero; pl_Items := zero |}.

(** ** The generated functions *)

(** The deep copies of the metadata types, which are not generated here. *)
Class MetaCopy := {
  ObjectMeta_DeepCopyInto : ObjectMetaOf in_memory → mem cell (ObjectMetaOf in_memory);
  ListMeta_DeepCopyInto : ListMetaOf in_memory → mem cell (ListMetaOf in_memory);
  MetaCondition_DeepCopyInto : MetaCondition → mem cell MetaCondition;
}.

Section functions.
Context `{MapOrder} `{MetaCopy}.

Definition KeyRef_DeepCopyInto (in_ : KeyRef) : mem cell KeyRef := mret in_.

Definition KeyRef_DeepCopy := copy_ptr KeyRef_DeepCopyInto.

Definition OAuthCredentials_DeepCopyInto (in_ : OAuthCredentialsRef) : mem cell OAuthCredentialsRef := mret in_.

Definition OAuthCredentials_DeepCopy := copy_ptr OAuthCredentials_DeepCopyInto.

Definition ClaimToHeader_DeepCopyInto (in_ : ClaimToHeader) : mem cell ClaimToHeader := mret in_.

Definition ClaimToHeader_DeepCopy := copy_ptr ClaimToHeader_DeepCopyInto.

Definition ValueFrom_DeepCopyInto (in_ : ValueFromOf in_memory) : mem cell (ValueFromOf in_memory) :=
  configMapKeyRef ← copy_ptr mret (vf_ConfigMapKeyRef in_);
  secretKeyRef ← copy_ptr mret (vf_SecretKeyRef in_);
  mret {| vf_ConfigMapKeyRef := configMapKeyRef; vf_SecretKeyRef := secretKeyRef |}.

Definition ValueFrom_DeepCopy := copy_ptr ValueFrom_DeepCopyInto.

Definition AllowedAudience_DeepCopyInto (in_ : AllowedAudienceOf in_memory) : mem cell (AllowedAudienceOf in_memory) :=
  value ← copy_ptr mret (aa_Value in_);
  valueFrom ← copy_ptr ValueFrom_DeepCopyInto (aa_ValueFrom in_);
  mret {| aa_Value := value; aa_ValueFrom := valueFrom |}.

Definition AllowedAudience_DeepCopy := copy_ptr AllowedAudience_DeepCopyInto.

Definition AutoLogin_DeepCopyInto (in_ : AutoLoginOf in_memory) : mem cell (AutoLoginOf in_memory) :=
  loginPath ← copy_ptr mret (lo_LoginPath in_);
  redirectPath ← copy_ptr mret (lo_RedirectPath in_);
  logoutPath ← copy_ptr mret (lo_LogoutPath in_);
  postLogoutRedirectURI ← copy_ptr mret (lo_PostLogoutRedirectURI in_);
  scopes ← copy_slice mret (lo_Scopes in_);
  loginParams ← copy_map (lo_LoginParams in_);
  mret {| lo_Enabled := lo_Enabled in_; lo_LoginPath := loginPath; lo_RedirectPath := redirectPath;
          lo_LogoutPath := logoutPath; lo_PostLogoutRedirectURI := postLogoutRedirectURI; lo_Scopes := scopes;
          lo_LoginParams := loginParams |}.

Definition AutoLogin_DeepCopy := copy_ptr AutoLogin_DeepCopyInto.

Definition WorkloadSelector_DeepCopyInto (in_ : WorkloadSelectorOf in_memory) : mem cell (WorkloadSelectorOf in_memory) :=
  matchLabels ← copy_map (ws_MatchLabels in_);
  mret {| ws_MatchLabels := matchLabels |}.

Definition WorkloadSelector_DeepCopy := copy_ptr WorkloadSelector_DeepCopyInto.

Definition Condition_DeepCopyInto (in_ : ConditionOf in_memory) : mem cell (ConditionOf in_memory) :=
  values ← copy_slice mret (co_Values in_);
  mret {| co_Claim := co_Claim in_; co_Values := values |}.

Definition Condition_DeepCopy := copy_ptr Condition_DeepCopyInto.

Definition BaselineAuth_DeepCopyInto (in_ : BaselineAuthOf in_memory) : mem cell (BaselineAuthOf in_memory) :=
  claims ← copy_slice Condition_DeepCopyInto (ba_Claims in_);
  mret {| ba_Claims := claims |}.

Definition BaselineAuth_DeepCopy := copy_ptr BaselineAuth_DeepCopyInto.

Definition RequestMatcher_DeepCopyInto (in_ : RequestMatcherOf in_memory) : mem cell (RequestMatcherOf in_memory) :=
  paths ← copy_slice mret (rm_Paths in_);
  methods ← copy_slice mret (rm_Methods in_);
  mret {| rm_Paths := paths; rm_Methods := methods |}.

Definition RequestMatcher_DeepCopy := copy_ptr RequestMatcher_DeepCopyInto.

(** A field that is a pointer to a slice: a new slice variable, nil as [new] makes
    it, and a new array if the slice behind the pointer is not nil. *)
Definition RequestAuthRule_DeepCopyInto (in_ : RequestAuthRuleOf in_memory) : mem cell (RequestAuthRuleOf in_memory) :=
  requestMatcher ← RequestMatcher_DeepCopyInto (rr_RequestMatcher in_);
  when ← copy_ptr (copy_slice Condition_DeepCopyInto) (rr_When in_);
  denyRedirect ← copy_ptr mret (rr_DenyRedirect in_);
  mret {| rr_RequestMatcher := requestMatcher; rr_When := when; rr_DenyRedirect := denyRedirect |}.

Definition RequestAuthRule_DeepCopy := copy_ptr RequestAuthRule_DeepCopyInto.

Definition AuthPolicySpec_DeepCopyInto (in_ : AuthPolicySpecOf in_memory) : mem cell (AuthPolicySpecOf in_memory) :=
  autoLogin ← copy_ptr AutoLogin_DeepCopyInto (sp_AutoLogin in_);
  oAuthCredentials ← copy_ptr mret (sp_OAuthCredentials in_);
  allowedAudiences ← copy_slice AllowedAudience_DeepCopyInto (sp_AllowedAudiences in_);
  forwardJwt ← copy_ptr mret (sp_ForwardJwt in_);
  outputClaimToHeaders ← copy_ptr (copy_slice mret) (sp_OutputClaimToHeaders in_);
  acceptedResources ← copy_ptr (copy_slice mret) (sp_AcceptedResources in_);
  baselineAuth ← copy_ptr BaselineAuth_DeepCopyInto (sp_BaselineAuth in_);
  authRules ← copy_ptr (copy_slice RequestAuthRule_DeepCopyInto) (sp_AuthRules in_);
  ignoreAuthRules ← copy_ptr (copy_slice RequestMatcher_DeepCopyInto) (sp_IgnoreAuthRules in_);
  selector ← WorkloadSelector_DeepCopyInto (sp_Selector in_);
  mret {| sp_Enabled := sp_Enabled in_; sp_AutoLogin := autoLogin; sp_OAuthCredentials := oAuthCredentials;
          sp_WellKnownURI := sp_WellKnownURI in_; sp_AllowedAudiences := allowedAudiences;
          sp_ForwardJwt := forwardJwt; sp_OutputClaimToHeaders := outputClaimToHeaders;
          sp_AcceptedResources := acceptedResources; sp_BaselineAuth := baselineAuth; sp_AuthRules := authRules;
          sp_IgnoreAuthRules := ignoreAuthRules; sp_Selector := selector |}.

Definition AuthPolicySpec_DeepCopy := copy_ptr AuthPolicySpec_DeepCopyInto.

Definition AuthPolicyStatus_DeepCopyInto (in_ : AuthPolicyStatusOf in_memory) : mem cell (AuthPolicyStatusOf in_memory) :=
  conditions ← copy_slice MetaCondition_DeepCopyInto (st_Conditions in_);
  mret {| st_ObservedGeneration := st_ObservedGeneration in_; st_Conditions := conditions;
          st_Phase := st_Phase in_; st_Message := st_Message in_; st_Ready := st_Ready in_ |}.

Definition AuthPolicyStatus_DeepCopy := copy_ptr AuthPolicyStatus_DeepCopyInto.

Definition AuthPolicy_DeepCopyInto (in_ : AuthPolicyOf in_memory) : mem cell (AuthPolicyOf in_memory) :=
  objectMeta ← ObjectMeta_DeepCopyInto (po_ObjectMeta in_);
  spec ← AuthPolicySpec_DeepCopyInto (po_Spec in_);
  status ← AuthPolicyStatus_DeepCopyInto (po_Status in_);
  mret {| po_TypeMeta := po_TypeMeta in_; po_ObjectMeta := objectMeta; po_Spec := spec; po_Status := status |}.

Definition AuthPolicy_DeepCopy := copy_ptr AuthPolicy_DeepCopyInto.

Definition AuthPolicyList_DeepCopyInto (in_ : AuthPolicyListOf in_memory) : mem cell (AuthPolicyListOf in_memory) :=
  listMeta ← ListMeta_DeepCopyInto (pl_ListMeta in_);
  items ← copy_slice AuthPolicy_DeepCopyInto (pl_Items in_);
  mret {| pl_TypeMeta := pl_TypeMeta in_; pl_ListMeta := listMeta; pl_Items := items |}.

Definition AuthPolicyList_DeepCopy := copy_ptr AuthPolicyList_DeepCopyInto.

(** A value of the interface [runtime.Object], if it is not nil: a pointer, which
    could be nil itself. *)
Inductive Object :=
  | PolicyObject (c : option (ptr (AuthPolicyOf in_memory)))
  | ListObject (c : option (ptr (AuthPolicyListOf in_memory))).

Definition AuthPolicy_DeepCopyObject (in_ : option (ptr (AuthPolicyOf in_memory))) : mem cell (option Object) :=
  c ← AuthPolicy_DeepCopy in_;
  match c with
  | Some c => mret (Some (PolicyObject (Some c)))
  | None => mret None
  end.

Definition AuthPolicyList_DeepCopyObject (in_ : option (ptr (AuthPolicyListOf in_memory))) : mem cell (option Object) :=
  c ← AuthPolicyList_DeepCopy in_;
  match c with
  | Some c => mret (Some (ListObject (Some c)))
  | None => mret None
  end.
End functions.
