(* ===== verification/DeepCopyFacts.v ===== *)
(** * The generated deep copies: what they guarantee

    Each type of the API stands for a tree ([Deep]) and each generated function is a
    copy ([Copies]): the copy of a policy has the same tree and shares nothing with
    the original, so that a write through the one never shows in the other. *)

From S2P Require Import Prelude Api Kube Memory MemoryFacts DeepCopy.

(** ** The tree of a value

    A struct is the tuple of its fields. *)

#[global] Instance deep_KeyRef : Deep cell KeyRef KeyRef := flat_deep.
#[global] Instance deep_OAuthCredentialsRef : Deep cell OAuthCredentialsRef OAuthCredentialsRef := flat_deep.
#[global] Instance deep_ClaimToHeader : Deep cell ClaimToHeader ClaimToHeader := flat_deep.
#[global] Instance deep_MetaCondition : Deep cell MetaCondition MetaCondition := flat_deep.
#[global] Instance deep_TypeMeta : Deep cell TypeMeta TypeMeta := flat_deep.
#[global] Instance deep_Phase : Deep cell Phase Phase := flat_deep.

Definition OwnerReference_fields {K} (v : OwnerReferenceOf K) :=
  (or_APIVersion v, (or_Kind v, (or_Name v, (or_UID v, or_Controller v)))).
Definition OwnerReference_struct {K} t : OwnerReferenceOf K :=
  let '(x0, (x1, (x2, (x3, x4)))) := t in
  {| or_APIVersion := x0; or_Kind := x1; or_Name := x2; or_UID := x3; or_Controller := x4 |}.
#[global] Instance deep_OwnerReference : Deep cell (OwnerReferenceOf in_memory) (OwnerReferenceOf tree) :=
  deep_via OwnerReference_fields OwnerReference_struct.

Definition ObjectMeta_fields {K} (v : ObjectMetaOf K) :=
  (om_Name v, (om_Namespace v, (om_UID v, (om_Generation v, (om_Labels v, (om_Annotations v, (om_OwnerReferences v,
    om_DeletionTimestamp v))))))).
Definition ObjectMeta_struct {K} t : ObjectMetaOf K :=
  let '(x0, (x1, (x2, (x3, (x4, (x5, (x6, x7))))))) := t in
  {| om_Name := x0; om_Namespace := x1; om_UID := x2; om_Generation := x3; om_Labels := x4; om_Annotations := x5;
    om_OwnerReferences := x6; om_DeletionTimestamp := x7 |}.
#[global] Instance deep_ObjectMeta : Deep cell (ObjectMetaOf in_memory) (ObjectMetaOf tree) :=
  deep_via ObjectMeta_fields ObjectMeta_struct.

Definition ListMeta_fields {K} (v : ListMetaOf K) :=
  (lm_ResourceVersion v, (lm_Continue v, lm_RemainingItemCount v)).
Definition ListMeta_struct {K} t : ListMetaOf K :=
  let '(x0, (x1, x2)) := t in
  {| lm_ResourceVersion := x0; lm_Continue := x1; lm_RemainingItemCount := x2 |}.
#[global] Instance deep_ListMeta : Deep cell (ListMetaOf in_memory) (ListMetaOf tree) :=
  deep_via ListMeta_fields ListMeta_struct.

Definition ValueFrom_fields {K} (v : ValueFromOf K) :=
  (vf_ConfigMapKeyRef v, vf_SecretKeyRef v).
Definition ValueFrom_struct {K} t : ValueFromOf K :=
  let '(x0, x1) := t in
  {| vf_ConfigMapKeyRef := x0; vf_SecretKeyRef := x1 |}.
#[global] Instance deep_ValueFrom : Deep cell (ValueFromOf in_memory) (ValueFromOf tree) :=
  deep_via ValueFrom_fields ValueFrom_struct.

Definition AllowedAudience_fields {K} (v : AllowedAudienceOf K) :=
  (aa_Value v, aa_ValueFrom v).
Definition AllowedAudience_struct {K} t : AllowedAudienceOf K :=
  let '(x0, x1) := t in
  {| aa_Value := x0; aa_ValueFrom := x1 |}.
#[global] Instance deep_AllowedAudience : Deep cell (AllowedAudienceOf in_memory) (AllowedAudienceOf tree) :=
  deep_via AllowedAudience_fields AllowedAudience_struct.

Definition AutoLogin_fields {K} (v : AutoLoginOf K) :=
  (lo_Enabled v, (lo_LoginPath v, (lo_RedirectPath v, (lo_LogoutPath v, (lo_PostLogoutRedirectURI v, (lo_Scopes v,
    lo_LoginParams v)))))).
Definition AutoLogin_struct {K} t : AutoLoginOf K :=
  let '(x0, (x1, (x2, (x3, (x4, (x5, x6)))))) := t in
  {| lo_Enabled := x0; lo_LoginPath := x1; lo_RedirectPath := x2; lo_LogoutPath := x3;
    lo_PostLogoutRedirectURI := x4; lo_Scopes := x5; lo_LoginParams := x6 |}.
#[global] Instance deep_AutoLogin : Deep cell (AutoLoginOf in_memory) (AutoLoginOf tree) :=
  deep_via AutoLogin_fields AutoLogin_struct.

Definition WorkloadSelector_fields {K} (v : WorkloadSelectorOf K) :=
  ws_MatchLabels v.
Definition WorkloadSelector_struct {K} t : WorkloadSelectorOf K :=
  let 'x0 := t in
  {| ws_MatchLabels := x0 |}.
#[global] Instance deep_WorkloadSelector : Deep cell (WorkloadSelectorOf in_memory) (WorkloadSelectorOf tree) :=
  deep_via WorkloadSelector_fields WorkloadSelector_struct.

Definition Condition_fields {K} (v : ConditionOf K) :=
  (co_Claim v, co_Values v).
Definition Condition_struct {K} t : ConditionOf K :=
  let '(x0, x1) := t in
  {| co_Claim := x0; co_Values := x1 |}.
#[global] Instance deep_Condition : Deep cell (ConditionOf in_memory) (ConditionOf tree) :=
  deep_via Condition_fields Condition_struct.

Definition BaselineAuth_fields {K} (v : BaselineAuthOf K) :=
  ba_Claims v.
Definition BaselineAuth_struct {K} t : BaselineAuthOf K :=
  let 'x0 := t in
  {| ba_Claims := x0 |}.
#[global] Instance deep_BaselineAuth : Deep cell (BaselineAuthOf in_memory) (BaselineAuthOf tree) :=
  deep_via BaselineAuth_fields BaselineAuth_struct.

Definition RequestMatcher_fields {K} (v : RequestMatcherOf K) :=
  (rm_Paths v, rm_Methods v).
Definition RequestMatcher_struct {K} t : RequestMatcherOf K :=
  let '(x0, x1) := t in
  {| rm_Paths := x0; rm_Methods := x1 |}.
#[global] Instance deep_RequestMatcher : Deep cell (RequestMatcherOf in_memory) (RequestMatcherOf tree) :=
  deep_via RequestMatcher_fields RequestMatcher_struct.

Definition RequestAuthRule_fields {K} (v : RequestAuthRuleOf K) :=
  (rr_RequestMatcher v, (rr_When v, rr_DenyRedirect v)).
Definition RequestAuthRule_struct {K} t : RequestAuthRuleOf K :=
  let '(x0, (x1, x2)) := t in
  {| rr_RequestMatcher := x0; rr_When := x1; rr_DenyRedirect := x2 |}.
#[global] Instance deep_RequestAuthRule : Deep cell (RequestAuthRuleOf in_memory) (RequestAuthRuleOf tree) :=
  deep_via RequestAuthRule_fields RequestAuthRule_struct.

Definition AuthPolicySpec_fields {K} (v : AuthPolicySpecOf K) :=
  (sp_Enabled v, (sp_AutoLogin v, (sp_OAuthCredentials v, (sp_WellKnownURI v, (sp_AllowedAudiences v,
    (sp_ForwardJwt v, (sp_OutputClaimToHeaders v, (sp_AcceptedResources v, (sp_BaselineAuth v, (sp_AuthRules v,
    (sp_IgnoreAuthRules v, sp_Selector v))))))))))).
Definition AuthPolicySpec_struct {K} t : AuthPolicySpecOf K :=
  let '(x0, (x1, (x2, (x3, (x4, (x5, (x6, (x7, (x8, (x9, (x10, x11))))))))))) := t in
  {| sp_Enabled := x0; sp_AutoLogin := x1; sp_OAuthCredentials := x2; sp_WellKnownURI := x3;
    sp_AllowedAudiences := x4; sp_ForwardJwt := x5; sp_OutputClaimToHeaders := x6; sp_AcceptedResources := x7;
    sp_BaselineAuth := x8; sp_AuthRules := x9; sp_IgnoreAuthRules := x10; sp_Selector := x11 |}.
#[global] Instance deep_AuthPolicySpec : Deep cell (AuthPolicySpecOf in_memory) (AuthPolicySpecOf tree) :=
  deep_via AuthPolicySpec_fields AuthPolicySpec_struct.

Definition AuthPolicyStatus_fields {K} (v : AuthPolicyStatusOf K) :=
  (st_ObservedGeneration v, (st_Conditions v, (st_Phase v, (st_Message v, st_Ready v)))).
Definition AuthPolicyStatus_struct {K} t : AuthPolicyStatusOf K :=
  let '(x0, (x1, (x2, (x3, x4)))) := t in
  {| st_ObservedGeneration := x0; st_Conditions := x1; st_Phase := x2; st_Message := x3; st_Ready := x4 |}.
#[global] Instance deep_AuthPolicyStatus : Deep cell (AuthPolicyStatusOf in_memory) (AuthPolicyStatusOf tree) :=
  deep_via AuthPolicyStatus_fields AuthPolicyStatus_struct.

Definition AuthPolicy_fields {K} (v : AuthPolicyOf K) :=
  (po_TypeMeta v, (po_ObjectMeta v, (po_Spec v, po_Status v))).
Definition AuthPolicy_struct {K} t : AuthPolicyOf K :=
  let '(x0, (x1, (x2, x3))) := t in
  {| po_TypeMeta := x0; po_ObjectMeta := x1; po_Spec := x2; po_Status := x3 |}.
#[global] Instance deep_AuthPolicy : Deep cell (AuthPolicyOf in_memory) (AuthPolicyOf tree) :=
  deep_via AuthPolicy_fields AuthPolicy_struct.

Definition AuthPolicyList_fields {K} (v : AuthPolicyListOf K) :=
  (pl_TypeMeta v, (pl_ListMeta v, pl_Items v)).
Definition AuthPolicyList_struct {K} t : AuthPolicyListOf K :=
  let '(x0, (x1, x2)) := t in
  {| pl_TypeMeta := x0; pl_ListMeta := x1; pl_Items := x2 |}.
#[global] Instance deep_AuthPolicyList : Deep cell (AuthPolicyListOf in_memory) (AuthPolicyListOf tree) :=
  deep_via AuthPolicyList_fields AuthPolicyList_struct.

(** ** The generated functions are copies *)

(** What the theorems ask of the metadata types' functions: they are deep copies. *)
Class MetaCopyLaws `{MetaCopy} : Prop := {
  ObjectMeta_copies :: Copies ObjectMeta_DeepCopyInto;
  ListMeta_copies :: Copies ListMeta_DeepCopyInto;
  MetaCondition_copies :: Copies MetaCondition_DeepCopyInto;
}.

#[global] Existing Instance copies_pair.

(** The equation between a sequence of copied fields and the copy of their tuple. *)
Ltac innermost_match :=
  repeat match goal with
  | |- context [match ?x with _ => _ end] =>
      lazymatch x with context [match _ with _ => _ end] => fail | _ => destruct x as [[]| |] end
  end.

Ltac unfold_head t := lazymatch t with ?f _ => unfold_head f | _ => unfold t end.

Tactic Notation "copy_fields" uconstr(fields) uconstr(struct) uconstr(g) :=
  refine (copies_via (fields in_memory) (struct tree) (struct in_memory) _ g _ _ _);
  [intros; repeat match goal with t : _ * _ |- _ => destruct t end; done
  | intros v h; lazymatch goal with |- ?f _ _ = _ (_ (?fields _ _)) _ => unfold_head f; unfold fields end;
    cbv [copy_pair mbind mem_bind mret mem_ret fst snd]; innermost_match; done].

#[global] Instance copies_KeyRef : Copies (C := cell) (T := KeyRef) mret := copies_flat.
#[global] Instance copies_OAuthCredentials : Copies (C := cell) (T := OAuthCredentialsRef) mret := copies_flat.
#[global] Instance copies_ClaimToHeader : Copies (C := cell) (T := ClaimToHeader) mret := copies_flat.
#[global] Instance copies_TypeMeta : Copies (C := cell) (T := TypeMeta) mret := copies_flat.
#[global] Instance copies_Phase : Copies (C := cell) (T := Phase) mret := copies_flat.

Section copies.
Context `{MapOrder} `{MetaCopy}.

#[global] Instance copies_ValueFrom : Copies ValueFrom_DeepCopyInto.
Proof.
  copy_fields @ValueFrom_fields @ValueFrom_struct
    (copy_pair (copy_ptr mret) (copy_ptr mret)).
Qed.

#[global] Instance copies_AllowedAudience : Copies AllowedAudience_DeepCopyInto.
Proof.
  copy_fields @AllowedAudience_fields @AllowedAudience_struct
    (copy_pair (copy_ptr mret) (copy_ptr ValueFrom_DeepCopyInto)).
Qed.

#[global] Instance copies_AutoLogin : Copies AutoLogin_DeepCopyInto.
Proof.
  copy_fields @AutoLogin_fields @AutoLogin_struct
    (copy_pair mret (copy_pair (copy_ptr mret) (copy_pair (copy_ptr mret) (copy_pair (copy_ptr mret) (copy_pair (copy_ptr mret) (copy_pair (copy_slice mret) copy_map)))))).
Qed.

#[global] Instance copies_WorkloadSelector : Copies WorkloadSelector_DeepCopyInto.
Proof.
  copy_fields @WorkloadSelector_fields @WorkloadSelector_struct
    copy_map.
Qed.

#[global] Instance copies_Condition : Copies Condition_DeepCopyInto.
Proof.
  copy_fields @Condition_fields @Condition_struct
    (copy_pair mret (copy_slice mret)).
Qed.

#[global] Instance copies_BaselineAuth : Copies BaselineAuth_DeepCopyInto.
Proof.
  copy_fields @BaselineAuth_fields @BaselineAuth_struct
    (copy_slice Condition_DeepCopyInto).
Qed.

#[global] Instance copies_RequestMatcher : Copies RequestMatcher_DeepCopyInto.
Proof.
  copy_fields @RequestMatcher_fields @RequestMatcher_struct
    (copy_pair (copy_slice mret) (copy_slice mret)).
Qed.

#[global] Instance copies_RequestAuthRule : Copies RequestAuthRule_DeepCopyInto.
Proof.
  copy_fields @RequestAuthRule_fields @RequestAuthRule_struct
    (copy_pair RequestMatcher_DeepCopyInto (copy_pair (copy_ptr (copy_slice Condition_DeepCopyInto)) (copy_ptr mret))).
Qed.

#[global] Instance copies_AuthPolicySpec : Copies AuthPolicySpec_DeepCopyInto.
Proof.
  copy_fields @AuthPolicySpec_fields @AuthPolicySpec_struct
    (copy_pair mret (copy_pair (copy_ptr AutoLogin_DeepCopyInto) (copy_pair (copy_ptr mret) (copy_pair mret (copy_pair (copy_slice AllowedAudience_DeepCopyInto) (copy_pair (copy_ptr mret) (copy_pair (copy_ptr (copy_slice mret)) (copy_pair (copy_ptr (copy_slice mret)) (copy_pair (copy_ptr BaselineAuth_DeepCopyInto) (copy_pair (copy_ptr (copy_slice RequestAuthRule_DeepCopyInto)) (copy_pair (copy_ptr (copy_slice RequestMatcher_DeepCopyInto)) WorkloadSelector_DeepCopyInto))))))))))).
Qed.

Context `{!MetaCopyLaws}.

#[global] Instance copies_AuthPolicyStatus : Copies AuthPolicyStatus_DeepCopyInto.
Proof.
  copy_fields @AuthPolicyStatus_fields @AuthPolicyStatus_struct
    (copy_pair mret (copy_pair (copy_slice MetaCondition_DeepCopyInto) (copy_pair mret (copy_pair mret mret)))).
Qed.

#[global] Instance copies_AuthPolicy : Copies AuthPolicy_DeepCopyInto.
Proof.
  copy_fields @AuthPolicy_fields @AuthPolicy_struct
    (copy_pair mret (copy_pair ObjectMeta_DeepCopyInto (copy_pair AuthPolicySpec_DeepCopyInto AuthPolicyStatus_DeepCopyInto))).
Qed.

#[global] Instance copies_AuthPolicyList : Copies AuthPolicyList_DeepCopyInto.
Proof.
  copy_fields @AuthPolicyList_fields @AuthPolicyList_struct
    (copy_pair mret (copy_pair ListMeta_DeepCopyInto (copy_slice AuthPolicy_DeepCopyInto))).
Qed.

(** *** The copy and the original

    For every list of policies, so for every value of the types it is made of. *)

(** What a policy's copy is as an interface value. *)
Lemma AuthPolicy_copy_object (in_ : option (ptr (AuthPolicyOf in_memory))) h :
  AuthPolicy_DeepCopyObject in_ h = (c ← AuthPolicy_DeepCopy in_; mret ((λ c, PolicyObject (Some c)) <$> c)) h.
Proof. unfold AuthPolicy_DeepCopyObject, mbind, mem_bind. by destruct (AuthPolicy_DeepCopy in_ h) as [[[c|] h']| |]. Qed.

(** A copy of a pointer that is not nil is a pointer that is not nil. *)
Lemma copy_not_nil {T D} `{!Cell cell T, !Zero T, !Deep cell T D} (f : T → mem cell T) p h c h' :
  copy_ptr f (Some p) h = Ok (c, h') → ∃ q, c = Some q.
Proof.
  unfold copy_ptr, mbind, mem_bind, mret, mem_ret. intros Hc. revert Hc.
  repeat (case_match; try done). intros [= <- _]. by eexists.
Qed.

(** Claim C15. [DeepCopyObject] of a list of policies returns, for a list that is not
    nil and in which no reference dangles: the copy is an object of the list's type
    with the same content, down to which fields are nil; the copy changes nothing
    that existed; no allocation is referred to from both or twice from the copy; so
    whatever is written through the one afterwards, the other keeps its content. *)
Theorem deep_copy_separate h p t :
  denote h (Some p) = Some (Some t) →
  ∃ q h', AuthPolicyList_DeepCopyObject (Some p) h = Ok (Some (ListObject (Some q)), h') ∧
    h `prefix_of` h' ∧ denote h' (Some q) = Some (Some t) ∧ NoDup (reach h' (Some q)) ∧
    (∀ h'', (∀ l, l ∉ reach h' (Some q) → h'' !! l = h' !! l) → denote h'' (Some p) = Some (Some t)) ∧
    (∀ h'', (∀ l, l ∉ reach h' (Some p) → h'' !! l = h' !! l) → denote h'' (Some q) = Some (Some t)).
Proof.
  intros Hd. pose proof (copies (f := AuthPolicyList_DeepCopy) h (Some p) (Some t) Hd) as Hc.
  unfold AuthPolicyList_DeepCopyObject, mbind, mem_bind, mret, mem_ret.
  destruct (AuthPolicyList_DeepCopy (Some p) h) as [[c h']| |] eqn:Hrun; [|done..].
  destruct (copied_separate h (Some p) (Some t) c h' Hd Hc) as (_ & _ & Hn & A1 & A2).
  destruct (copy_not_nil _ _ _ _ _ Hrun) as [q ->]. destruct Hc as (Hp & Hdq & _).
  exists q, h'. split_and!; done.
Qed.

(** A nil receiver has a nil copy, which is no object at all. *)
Lemma deep_copy_nil h :
  AuthPolicy_DeepCopyObject None h = Ok (None, h) ∧ AuthPolicyList_DeepCopyObject None h = Ok (None, h).
Proof. done. Qed.
End copies.

(** ** An instance

    Deep copies of the metadata types that copy what they have, and a memory with a
    list of one policy, the labels of which are those of its only item. *)

Section metadata.
Context `{MapOrder}.

Definition OwnerReference_copy (in_ : OwnerReferenceOf in_memory) : mem cell (OwnerReferenceOf in_memory) :=
  controller ← copy_ptr mret (or_Controller in_);
  mret {| or_APIVersion := or_APIVersion in_; or_Kind := or_Kind in_; or_Name := or_Name in_; or_UID := or_UID in_;
          or_Controller := controller |}.

Definition ObjectMeta_copy (in_ : ObjectMetaOf in_memory) : mem cell (ObjectMetaOf in_memory) :=
  labels ← copy_map (om_Labels in_);
  annotations ← copy_map (om_Annotations in_);
  ownerReferences ← copy_slice OwnerReference_copy (om_OwnerReferences in_);
  deletionTimestamp ← copy_ptr mret (om_DeletionTimestamp in_);
  mret {| om_Name := om_Name in_; om_Namespace := om_Namespace in_; om_UID := om_UID in_;
          om_Generation := om_Generation in_; om_Labels := labels; om_Annotations := annotations;
          om_OwnerReferences := ownerReferences; om_DeletionTimestamp := deletionTimestamp |}.

Definition ListMeta_copy (in_ : ListMetaOf in_memory) : mem cell (ListMetaOf in_memory) :=
  remainingItemCount ← copy_ptr mret (lm_RemainingItemCount in_);
  mret {| lm_ResourceVersion := lm_ResourceVersion in_; lm_Continue := lm_Continue in_;
          lm_RemainingItemCount := remainingItemCount |}.

Definition example_copy : MetaCopy := {|
  ObjectMeta_DeepCopyInto := ObjectMeta_copy;
  ListMeta_DeepCopyInto := ListMeta_copy;
  MetaCondition_DeepCopyInto c := mret c;
|}.

#[local] Instance copies_OwnerReference : Copies OwnerReference_copy.
Proof.
  copy_fields @OwnerReference_fields @OwnerReference_struct
    (copy_pair mret (copy_pair mret (copy_pair mret (copy_pair mret (copy_ptr mret))))).
Qed.

#[local] Instance copies_ObjectMeta : Copies ObjectMeta_copy.
Proof.
  copy_fields @ObjectMeta_fields @ObjectMeta_struct
    (copy_pair mret (copy_pair mret (copy_pair mret (copy_pair mret (copy_pair copy_map (copy_pair copy_map
      (copy_pair (copy_slice OwnerReference_copy) (copy_ptr mret)))))))).
Qed.

#[local] Instance copies_ListMeta : Copies ListMeta_copy.
Proof. copy_fields @ListMeta_fields @ListMeta_struct (copy_pair mret (copy_pair mret (copy_ptr mret))). Qed.

Lemma example_copy_laws : @MetaCopyLaws example_copy.
Proof. split; cbn; [apply _|apply _|apply copies_flat]. Qed.
End metadata.

Definition example_policy : AuthPolicyOf in_memory := {|
  po_TypeMeta := {| tm_Kind := "AuthPolicy"; tm_APIVersion := "ztoperator.kartverket.no/v1alpha1" |};
  po_ObjectMeta := {| om_Name := "p"; om_Namespace := "ns"; om_UID := "u"; om_Generation := 1;
                      om_Labels := Some (Ptr 1 : kmap in_memory); om_Annotations := None; om_OwnerReferences := None;
                      om_DeletionTimestamp := None |};
  po_Spec := {| sp_Enabled := true; sp_AutoLogin := None; sp_OAuthCredentials := None; sp_WellKnownURI := "https://idp";
                sp_AllowedAudiences := None; sp_ForwardJwt := None; sp_OutputClaimToHeaders := None;
                sp_AcceptedResources := None; sp_BaselineAuth := None;
                sp_AuthRules := Some (Ptr 2 : kptr in_memory (option (kslice in_memory (RequestAuthRuleOf in_memory))));
                sp_IgnoreAuthRules := None; sp_Selector := {| ws_MatchLabels := Some (Ptr 5 : kmap in_memory) |} |};
  po_Status := zero;
|}.

Definition example_rule : RequestAuthRuleOf in_memory := {|
  rr_RequestMatcher := {| rm_Paths := Some (Slice 4 0 1 : kslice in_memory string); rm_Methods := None |};
  rr_When := None; rr_DenyRedirect := None |}.

Definition example_list : AuthPolicyListOf in_memory := {|
  pl_TypeMeta := zero; pl_ListMeta := zero; pl_Items := Some (Slice 0 0 1 : kslice in_memory (AuthPolicyOf in_memory)) |}.

Definition example_memory : list cell :=
  [Policies [example_policy]; Maps [{[ "team" := "maps" ]}]; RuleSlices [Some (Slice 3 0 1)]; Rules [example_rule];
   Strings ["/api"; "/not-in-the-slice"]; Maps [{[ "app" := "x" ]}]; PolicyLists [example_list]].

Definition example_policy_tree : AuthPolicyOf tree := {|
  po_TypeMeta := po_TypeMeta example_policy;
  po_ObjectMeta := {| om_Name := "p"; om_Namespace := "ns"; om_UID := "u"; om_Generation := 1;
                      om_Labels := Some ({[ "team" := "maps" ]} : kmap tree); om_Annotations := None;
                      om_OwnerReferences := None; om_DeletionTimestamp := None |};
  po_Spec := {| sp_Enabled := true; sp_AutoLogin := None; sp_OAuthCredentials := None; sp_WellKnownURI := "https://idp";
                sp_AllowedAudiences := None; sp_ForwardJwt := None; sp_OutputClaimToHeaders := None;
                sp_AcceptedResources := None; sp_BaselineAuth := None;
                sp_AuthRules := Some (Some [{| rr_RequestMatcher :=
                                                 {| rm_Paths := Some (["/api"] : kslice tree string); rm_Methods := None |};
                                               rr_When := None; rr_DenyRedirect := None |}])
                                  : option (kptr tree (option (kslice tree (RequestAuthRuleOf tree))));
                sp_IgnoreAuthRules := None;
                sp_Selector := {| ws_MatchLabels := Some ({[ "app" := "x" ]} : kmap tree) |} |};
  po_Status := {| st_ObservedGeneration := 0; st_Conditions := None; st_Phase := PhaseUnset; st_Message := "";
                  st_Ready := false |};
|}.

Definition example_list_tree : AuthPolicyListOf tree := {|
  pl_TypeMeta := zero;
  pl_ListMeta := {| lm_ResourceVersion := ""; lm_Continue := ""; lm_RemainingItemCount := None |};
  pl_Items := Some ([example_policy_tree] : kslice tree (AuthPolicyOf tree)) |}.

Lemma deep_copy_separate_witness :
  denote example_memory (Some (Ptr 6 : ptr (AuthPolicyListOf in_memory))) = Some (Some example_list_tree) ∧
  ∃ q h', @AuthPolicyList_DeepCopyObject _ example_copy (Some (Ptr 6)) example_memory = Ok (Some (ListObject (Some q)), h') ∧
    example_memory `prefix_of` h' ∧ denote h' (Some q) = Some (Some example_list_tree) ∧ NoDup (reach h' (Some q)).
Proof.
  assert (denote example_memory (Some (Ptr 6 : ptr (AuthPolicyListOf in_memory))) = Some (Some example_list_tree))
    as Hd by (vm_compute; reflexivity).
  split; [exact Hd|].
  destruct (@deep_copy_separate _ example_copy example_copy_laws example_memory (Ptr 6) example_list_tree Hd)
    as (q & h' & Hc & Hp & Hq & Hn & _).
  exists q, h'. split_and!; assumption.
Defined.
