(* ===== verification/LuaResponse.v ===== *)
(** * The response phase of the generated script (ztoperator.lua)

    [envoy_on_response] rewrites the query of a redirect to the identity provider:
    login parameters are added to the authorize request, the logout request gets
    the configured [post_logout_redirect_uri]. A Lua table with string keys is a
    [gmap]; [pairs] visits it in any order. *)

From S2P Require Import Prelude GoStrings Api State LuaPattern LuaCapture LuaConvert.
From S2P Require Import LuaScript LuaScriptRead Kube.

(** ** The code *)

(** A table constructor or a sequence of assignments: the last one wins. *)
Definition table_of (kvs : list (string * string)) : gmap string string :=
  foldl (λ t kv, <[kv.1 := kv.2]> t) ∅ kvs.

Definition url_pattern : string := "^([^?]+)%??(.*)$".
Definition param_pattern : string := "([^&=?]+)=([^&=?]+)".

(** [for key, val in string.gmatch(qs, ...) do params[key] = val end]. *)
Definition query_params (qs : string) : option (gmap string string) :=
  ms ← lua_gmatch qs param_pattern;
  Some (foldl (λ t cs, match cs with [key; val] => <[key := val]> t | _ => t end) ∅ ms).

(** [k .. "=" .. v]. *)
Definition param (kv : string * string) : string := kv.1 +:+ String "=" kv.2.

Section response.
Context `{MapOrder}.

(** The two blocks that rewrite a location differ in what they do to [params].
    [None] is a Lua error: without a match [qs] is [nil] and [gmatch] raises. *)
Definition rewrite_query (update : gmap string string → gmap string string) (loc : string) : option string :=
  caps ← lua_match_captures loc url_pattern;
  match caps with
  | Some [base; qs] =>
      filtered ← (if String.eqb qs "" then Some []
                  else params ← query_params qs; Some (param <$> map_order (update params)));
      let new_qs := join_char "&" filtered in
      Some (base +:+ (if String.eqb new_qs "" then "" else String "?" new_qs))
  | _ => None
  end.

(** [for k, v in pairs(login_params) do params[k] = v end]. *)
Definition add_login_params (cfg : LuaConfig) (params : gmap string string) : gmap string string :=
  foldl (λ t kv, <[kv.1 := kv.2]> t) params (map_order (table_of (login_params cfg))).

Definition set_post_logout (cfg : LuaConfig) (params : gmap string string) : gmap string string :=
  if String.eqb (post_logout_redirect_uri cfg) "" then delete "post_logout_redirect_uri" params
  else <["post_logout_redirect_uri" := post_logout_redirect_uri cfg]> params.

(** [string.sub(loc, 1, #p) == p]. *)
Definition starts_with (loc p : string) : bool := String.eqb (str_take (String.length p) loc) p.

Definition is_empty_table (kvs : list (string * string)) : bool := match kvs with [] => true | _ => false end.

(** What [headers():replace("location", ...)] leaves, given the headers [:status]
    and [location]: inner [None] if the location is not replaced. Both blocks
    start from the location of the response, the later one's replacement stays. *)
Definition envoy_on_response (cfg : LuaConfig) (status location : option string) : option (option string) :=
  let status := default "" status in
  if String.eqb status "302" then
    let loc := default "" location in
    if negb (String.eqb loc "") then
      authorize ←
        (if starts_with loc (authorize_endpoint cfg) && negb (is_empty_table (login_params cfg))
         then Some <$> rewrite_query (add_login_params cfg) loc else Some None);
      end_session ←
        (if starts_with loc (end_session_endpoint cfg)
         then Some <$> rewrite_query (set_post_logout cfg) loc else Some None);
      Some (match end_session with Some u => Some u | None => authorize end)
    else Some None
  else Some None.
End response.

(** ** The specification: queries *)

(** A query string of parameters, in order. *)
Definition query (kvs : list (string * string)) : string := join_char "&" (param <$> kvs).

Definition reserved (c : ascii) : bool := ContainsChar "&=?" c.
Definition token (s : string) : bool := negb (String.eqb s "") && all_chars (λ c, negb (reserved c)) s.
Definition good_param (kv : string * string) : bool := token kv.1 && token kv.2.

(** What follows the first question mark. *)
Definition after_query (s : string) : string := str_drop (S (String.length (strip_query s))) s.

(** ** Splitting the location *)

Lemma starts_with_prefix loc p : starts_with loc p = HasPrefix loc p.
Proof.
  unfold starts_with. revert loc. induction p as [|a p IH]; intros [|b loc]; [done..|].
  cbn. rewrite <-IH. destruct (ascii_eqb_spec a b) as [->|Hne]; cbn.
  - by rewrite Ascii.eqb_refl.
  - by rewrite ascii_eqb_false.
Qed.

Lemma strip_query_class s : all_chars (class_match not_question) (strip_query s) = true.
Proof.
  induction s as [|c s IH]; [done|]. cbn [strip_query]. destruct (ascii_eqb_spec c "?") as [->|Hc]; [done|].
  cbn [all_chars]. rewrite IH. cbn. by rewrite bool_decide_false by set_solver.
Qed.

Lemma strip_query_split s :
  s = strip_query s +:+ (if ContainsChar s "?" then String "?" (after_query s) else "").
Proof.
  unfold after_query. induction s as [|c s IH]; [done|]. cbn [strip_query ContainsChar].
  destruct (ascii_eqb_spec c "?") as [->|Hc]; [done|].
  rewrite orb_false_l. cbn [String.length str_drop String.append]. f_equal. exact IH.
Qed.

Lemma after_query_none s : ContainsChar s "?" = false → after_query s = "".
Proof.
  unfold after_query. induction s as [|c s IH]; [done|]. cbn [strip_query ContainsChar].
  destruct (ascii_eqb_spec c "?") as [->|Hc]; [done|]. rewrite orb_false_l.
  intros Hs. cbn [String.length str_drop]. by apply IH.
Qed.

Lemma url_elems :
  parse_elems "" false false "([^?]+)%??(.*)$" =
  Some ([EOpen; EItem (not_question, RPlus); EClose; EItem (CChar "?", ROpt); EOpen; EItem (CAny, RStar); EClose], true).
Proof. reflexivity. Qed.

Lemma class_any s : all_chars (class_match CAny) s = true.
Proof. by induction s. Qed.

Lemma match_rest q caps :
  cap_match [EOpen; EItem (CAny, RStar); EClose] true caps q = Some ("", (q, Some "") :: caps).
Proof.
  cbn [cap_match]. rewrite <-(str_app_nil_r q) at 1.
  by apply max_expand_greedy; [apply class_any| |].
Qed.

Lemma match_url_split w (has : bool) q :
  w ≠ "" → all_chars (class_match not_question) w = true → (has = false → q = "") →
  let tail := if has then String "?" q else "" in
  cap_match [EOpen; EItem (not_question, RPlus); EClose; EItem (CChar "?", ROpt); EOpen; EItem (CAny, RStar); EClose]
    true [] (w +:+ tail) = Some ("", [(q, Some ""); (w +:+ tail, Some tail)]).
Proof.
  intros Hne Hw Hq tail.
  change (cap_match (EOpen :: ?es) true [] ?s) with (cap_match es true [(s, None)] s).
  apply plus_greedy; [done..|by destruct has|].
  change (cap_match (EClose :: ?es) true [(?b, None)] ?s) with (cap_match es true [(b, Some s)] s).
  unfold tail. destruct has; [|rewrite Hq by done].
  - exact (eq_trans (f_equal (λ o, match o with Some r => Some r | None => _ end) (match_rest q _)) eq_refl).
  - exact (match_rest "" _).
Qed.

Lemma match_url loc :
  strip_query loc ≠ "" →
  lua_match_captures loc url_pattern = Some (Some [strip_query loc; after_query loc]).
Proof.
  intros Hne. unfold lua_match_captures, url_pattern.
  cbn [HasPrefix Ascii.eqb Bool.eqb andb negb str_drop]. rewrite url_elems. cbn [mbind option_bind].
  rewrite (strip_query_split loc) at 1. rewrite match_url_split; [|done|apply strip_query_class|].
  - cbn [captures rev app mapM mbind option_bind]. unfold captures. cbn [rev app mapM mbind option_bind].
    rewrite captured_app. cbn [mbind option_bind].
    rewrite <-(str_app_nil_r (after_query loc)) at 1. by rewrite captured_app.
  - apply after_query_none.
Qed.

Lemma match_url_none loc :
  strip_query loc = "" → lua_match_captures loc url_pattern = Some None.
Proof.
  intros Hs. unfold lua_match_captures, url_pattern.
  cbn [HasPrefix Ascii.eqb Bool.eqb andb negb str_drop]. rewrite url_elems. cbn [mbind option_bind].
  destruct loc as [|c loc]; [done|]. cbn [strip_query] in Hs.
  destruct (ascii_eqb_spec c "?") as [->|]; [done|discriminate].
Qed.

(** ** Reading a query *)

Definition param_class : lclass := CSet true ["&"; "="; "?"]%char.
Definition param_elems : list elem :=
  [EOpen; EItem (param_class, RPlus); EClose; EItem (CChar "=", ROne); EOpen; EItem (param_class, RPlus); EClose].

Lemma parse_param : parse_elems "" false false param_pattern = Some (param_elems, false).
Proof. reflexivity. Qed.

Lemma param_class_reserved c : class_match param_class c = negb (reserved c).
Proof.
  unfold reserved. cbn [ContainsChar class_match param_class]. rewrite xorb_true_l. f_equal.
  rewrite !(Ascii.eqb_sym _ c). destruct (ascii_eqb_spec c "&"), (ascii_eqb_spec c "="), (ascii_eqb_spec c "?");
    try (by apply bool_decide_true; set_solver); by apply bool_decide_false; set_solver.
Qed.

Lemma token_class s : token s = true → s ≠ "" ∧ all_chars (class_match param_class) s = true.
Proof.
  unfold token. intros H. bools. split; [by apply String.eqb_neq|].
  eapply all_chars_impl; [|exact H0]. intros c Hc. by rewrite param_class_reserved.
Qed.

Lemma match_param kv t :
  good_param kv = true → stops param_class t = true →
  cap_match param_elems false [] (param kv +:+ t) =
  Some (t, [(kv.2 +:+ t, Some t); (param kv +:+ t, Some (String "=" (kv.2 +:+ t)))]).
Proof.
  unfold good_param. intros H Ht. bools. apply token_class in H as [Hk Hkc], H0 as [Hv Hvc].
  unfold param_elems. change (cap_match (EOpen :: ?es) false [] ?s) with (cap_match es false [(s, None)] s).
  unfold param. rewrite str_app_assoc. apply plus_greedy; [done..|].
  change (cap_match _ false _ _) with
    (cap_match [EItem (param_class, RPlus); EClose] false
       [(kv.2 +:+ t, None); (kv.1 +:+ String "=" (kv.2 +:+ t), Some (String "=" (kv.2 +:+ t)))] (kv.2 +:+ t)).
  by apply plus_greedy.
Qed.

Lemma captures_param kv t :
  captures [(kv.2 +:+ t, Some t); (param kv +:+ t, Some (String "=" (kv.2 +:+ t)))] = Some [kv.1; kv.2].
Proof.
  unfold captures, param. cbn [rev app mapM]. rewrite str_app_assoc.
  rewrite (captured_app kv.1). cbn [mbind option_bind]. by rewrite captured_app.
Qed.

(** One parameter is read, the search goes on after it. *)
Lemma gmatch_param kv t :
  good_param kv = true → stops param_class t = true →
  gmatch_go param_elems false 0 (param kv +:+ t) =
  (rest ← gmatch_go param_elems false 0 t; Some ([kv.1; kv.2] :: rest)).
Proof.
  intros Hg Ht. pose proof (match_param kv t Hg Ht) as Hm. pose proof (captures_param kv t) as Hc.
  assert (∃ c s', param kv +:+ t = String c (s' +:+ t) ∧ param kv = String c s') as (c & s' & Heq & Hp).
  { unfold good_param, token in Hg. bools. unfold param. destruct kv.1 as [|c k]; [done|]. by eexists _, _. }
  rewrite Heq in *. cbn [gmatch_go]. rewrite Hm, Hc. cbn [mbind option_bind]. rewrite str_length_app.
  replace (_ + _ - _) with (String.length s') by lia. by rewrite gmatch_skip.
Qed.

(** The parameters of a query are those it was made of. *)
Lemma gmatch_query kvs :
  Forall (λ kv, good_param kv = true) kvs →
  lua_gmatch (query kvs) param_pattern = Some ((λ kv, [kv.1; kv.2]) <$> kvs).
Proof.
  intros H. unfold lua_gmatch. rewrite parse_param. cbn [mbind option_bind].
  induction H as [|kv kvs Hkv Hkvs IH]; [done|]. unfold query in *. cbn [fmap list_fmap].
  destruct kvs as [|kv' kvs].
  - cbn [fmap list_fmap join_char]. rewrite <-(str_app_nil_r (param kv)). by rewrite gmatch_param.
  - rewrite join_char_cons by done. rewrite gmatch_param by done.
    assert (∀ s, gmatch_go param_elems false 0 (String "&" s) = gmatch_go param_elems false 0 s) as -> by done.
    by rewrite IH.
Qed.

Lemma query_params_query kvs :
  Forall (λ kv, good_param kv = true) kvs → query_params (query kvs) = Some (table_of kvs).
Proof.
  intros H. unfold query_params. rewrite gmatch_query by done. cbn [mbind option_bind]. f_equal.
  unfold table_of. generalize (∅ : gmap string string). clear H.
  induction kvs as [|kv kvs IH]; intros t; [done|]. cbn [fmap list_fmap foldl]. apply IH.
Qed.

(** Any query can be read. *)
Lemma query_params_total qs : is_Some (query_params qs).
Proof.
  unfold query_params, lua_gmatch. rewrite parse_param. cbn [mbind option_bind].
  destruct (gmatch_total param_elems false [true; true] 0 qs) as (ms & -> & _); [done..|]. cbn. eauto.
Qed.

(** ** Tables *)

Lemma foldl_insert_union kvs (t : gmap string string) :
  foldl (λ t kv, <[kv.1 := kv.2]> t) t kvs = table_of kvs ∪ t.
Proof.
  unfold table_of. revert t. induction kvs as [|kv kvs IH]; intros t; cbn [foldl].
  - by rewrite (left_id_L ∅ (∪)).
  - rewrite IH, (IH (<[kv.1 := kv.2]> ∅)). rewrite <-(assoc_L (∪)). f_equal.
    by rewrite insert_union_singleton_l, (insert_union_singleton_l ∅), (right_id_L ∅ (∪)).
Qed.

Lemma table_of_spec kvs : table_of kvs = list_to_map (rev kvs).
Proof.
  induction kvs as [|kv kvs IH] using rev_ind; [done|].
  unfold table_of in *. rewrite foldl_app, IH, rev_app_distr. cbn. by destruct kv.
Qed.

Lemma table_of_perm kvs (m : gmap string string) : kvs ≡ₚ map_to_list m → table_of kvs = m.
Proof.
  intros Hp. rewrite table_of_spec, <-(list_to_map_to_list m). apply list_to_map_proper.
  - rewrite <-Permutation_rev, Hp. apply NoDup_fst_map_to_list.
  - by rewrite <-Permutation_rev.
Qed.

Lemma query_empty kvs : query kvs = "" ↔ kvs = [].
Proof.
  split; [|by intros ->]. destruct kvs as [|kv kvs]; [done|]. unfold query. cbn [fmap list_fmap].
  intros H. exfalso. destruct kvs as [|kv' kvs]; cbn [fmap list_fmap join_char] in H.
  - unfold param in H. by destruct kv.1.
  - unfold param in H. by destruct kv.1.
Qed.

(** A location with the query [kvs]: no question mark if there is none. *)
Definition location (base : string) (kvs : list (string * string)) : string :=
  base +:+ (if decide (kvs = []) then "" else String "?" (query kvs)).

Definition good_base (base : string) : bool := negb (String.eqb base "") && negb (ContainsChar base "?").

Lemma strip_query_app base t :
  ContainsChar base "?" = false → strip_query (base +:+ String "?" t) = base ∧ after_query (base +:+ String "?" t) = t.
Proof.
  unfold after_query. induction base as [|c base IH]; [done|]. cbn [ContainsChar String.append strip_query].
  destruct (ascii_eqb_spec c "?") as [->|Hc]; [done|]. rewrite orb_false_l. intros [H1 H2]%IH.
  split; [by rewrite H1|]. cbn [String.length str_drop]. exact H2.
Qed.

Section response_facts.
Context `{MapOrder}.

(** The rewritten location: the base, and the updated parameters in any order;
    without a query nothing is added. *)
Lemma rewrite_query_spec update loc :
  strip_query loc ≠ "" →
  ∃ params, query_params (after_query loc) = Some params ∧
    rewrite_query update loc =
      Some (if String.eqb (after_query loc) "" then strip_query loc
            else location (strip_query loc) (map_order (update params))).
Proof.
  intros Hne. destruct (query_params_total (after_query loc)) as [params Hp]. exists params. split; [done|].
  unfold rewrite_query. rewrite match_url by done. cbn [mbind option_bind]. rewrite Hp.
  destruct (String.eqb (after_query loc) ""); cbn [mbind option_bind join_char String.eqb]; [by rewrite str_app_nil_r|].
  f_equal. unfold location. f_equal. fold (query (map_order (update params))). case_decide as Hm.
  - by rewrite Hm.
  - by rewrite (proj2 (String.eqb_neq _ _)) by (by rewrite query_empty).
Qed.

(** A location made of a base and well-formed parameters. *)
Lemma location_parts base kvs :
  good_base base = true → kvs ≠ [] → Forall (λ kv, good_param kv = true) kvs →
  strip_query (location base kvs) = base ∧ after_query (location base kvs) = query kvs ∧
  after_query (location base kvs) ≠ "" ∧ query_params (query kvs) = Some (list_to_map (rev kvs)).
Proof.
  unfold good_base. intros [Hb%negb_true_iff Hq%negb_true_iff]%andb_true_iff Hne Hg. unfold location.
  rewrite decide_False by done. destruct (strip_query_app base (query kvs) Hq) as [-> ->].
  split_and!; [done..|by rewrite query_empty|]. by rewrite query_params_query, table_of_spec.
Qed.

Lemma add_login_params_union cfg params :
  add_login_params cfg params = table_of (login_params cfg) ∪ params.
Proof.
  unfold add_login_params. rewrite foldl_insert_union. f_equal. apply table_of_perm, map_order_perm.
Qed.
End response_facts.
