(* ===== verification/Resolver.v ===== *)
(** * The resolvers (internal/resolver, pkg/rest)

    What a policy refers to is looked up: audiences in ConfigMaps and Secrets, the
    OAuth client in a Secret, the identity provider's endpoints in its discovery
    document. Each resolver returns a value or the error the code builds. *)

From S2P Require Import Prelude GoStrings Api Objects State Kube LuaScript.

(** ** audience_resolver.go *)

Section resolvers.
Context `{Reader} `{UrlParser} `{MapOrder}.

Definition slashed (ns name : string) : string := ns +:+ "/" +:+ name.

Definition resolveAudienceRef (namespace : string) (valueFrom : ValueFrom) : go string :=
  match ConfigMapKeyRef valueFrom, SecretKeyRef valueFrom with
  | Some _, Some _ => Err "cannot get value from both ConfigMap and Secret"
  | Some ref, None =>
      match GetConfigMap {| nn_Namespace := namespace; nn_Name := kr_Name ref |} with
      | Err _ => Err ("configmap " +:+ slashed namespace (kr_Name ref) +:+ " was not found")
      | Panic m => Panic m
      | Ok data =>
          let value := map_get data (kr_Key ref) in
          if String.eqb value "" then
            Err ("audience value from configmap " +:+ slashed namespace (kr_Name ref) +:+
                 " key " +:+ kr_Key ref +:+ " is empty or missing")
          else Ok value
      end
  | None, None => Err "both configMapKeyRef and secretKeyRef cannot be nil"
  | None, Some ref =>
      match GetSecret {| nn_Namespace := namespace; nn_Name := kr_Name ref |} with
      | Err _ => Err ("secret " +:+ slashed namespace (kr_Name ref) +:+ " was not found")
      | Panic m => Panic m
      | Ok secret =>
          let value := map_get (secret_Data secret) (kr_Key ref) in
          if String.eqb value "" then
            Err ("audience value from secret " +:+ slashed namespace (kr_Name ref) +:+
                 " key " +:+ kr_Key ref +:+ " is empty or missing")
          else Ok value
      end
  end.

Fixpoint ResolveAudiences (namespace : string) (allowedAudiences : list AllowedAudience) : go (list string) :=
  match allowedAudiences with
  | [] => Ok []
  | audience :: rest =>
      match aud_Value audience, aud_ValueFrom audience with
      | Some _, Some _ => Err "cannot define an audience as both string and ConfigMap/Secret ref"
      | Some v, None =>
          if String.eqb v "" then Err "audience value cannot be empty"
          else vs ← ResolveAudiences namespace rest; Ok (v :: vs)
      | None, Some from =>
          v ← wrap_err "failed to resolve audience reference: " (resolveAudienceRef namespace from);
          vs ← ResolveAudiences namespace rest; Ok (v :: vs)
      | None, None => ResolveAudiences namespace rest
      end
  end.

(** ** oauth_credentials_resolver.go *)

Definition ResolveOAuthCredentials (ap : AuthPolicy) : go OAuthCredentials :=
  match spec_OAuthCredentials (Spec ap), auto_login_enabled ap with
  | Some ref, true =>
      let where_ := slashed (Namespace (ap_Meta ap)) (SecretRef ref) in
      secret ← wrap_err ("failed to get OAuth credentials secret " +:+ where_ +:+ ": ")
        (GetSecret {| nn_Namespace := Namespace (ap_Meta ap); nn_Name := SecretRef ref |});
      let clientID := map_get (secret_Data secret) (ClientIDKey ref) in
      if String.eqb clientID "" then
        Err ("client id with key: " +:+ ClientIDKey ref +:+
             " was nil or empty when retrieving it from Secret with name " +:+ where_)
      else
        let clientSecret := map_get (secret_Data secret) (ClientSecretKey ref) in
        if String.eqb clientSecret "" then
          Err ("client secret with key: " +:+ ClientSecretKey ref +:+
               " was nil or empty when retrieving it from Secret with name " +:+ where_)
        else Ok {| ClientID := Some clientID; ClientSecret := Some clientSecret |}
  | _, _ => Ok {| ClientID := None; ClientSecret := None |}
  end.

(** ** rest/client.go, rest/dto.go *)

Record DiscoveryDocument := {
  Issuer : option string;
  AuthorizationEndpoint : option string;
  TokenEndpoint : option string;
  JwksURI_ : option string;
  EndSessionEndpoint : option string;
}.

Definition idp_document (base : string) : DiscoveryDocument :=
  {| Issuer := Some base; AuthorizationEndpoint := Some (base +:+ "/authorize");
     TokenEndpoint := Some (base +:+ "/token"); JwksURI_ := Some (base +:+ "/jwks");
     EndSessionEndpoint := Some (base +:+ "/endsession") |}.

Definition entra : string := "https://login.microsoftonline.com/7f74c8a2-43ce-46b2-b0e8-b6306cba73a3".

Definition GetWellknownURIToDiscoveryDocument : gmap string DiscoveryDocument := list_to_map [
  ("http://mock-oauth2.auth:8080/entraid/.well-known/openid-configuration",
   idp_document "http://mock-oauth2.auth:8080/entraid");
  ("http://mock-oauth2.auth:8080/smapi/.well-known/openid-configuration",
   idp_document "http://mock-oauth2.auth:8080/smapi");
  ("http://mock-oauth2.auth:8080/maskinporten/.well-known/openid-configuration",
   idp_document "http://mock-oauth2.auth:8080/maskinporten");
  (entra +:+ "/v2.0/.well-known/openid-configuration",
   {| Issuer := Some (entra +:+ "/v2.0");
      AuthorizationEndpoint := Some (entra +:+ "/oauth2/v2.0/authorize");
      TokenEndpoint := Some (entra +:+ "/oauth2/v2.0/token");
      JwksURI_ := Some (entra +:+ "/discovery/v2.0/keys");
      EndSessionEndpoint := Some (entra +:+ "/oauth2/v2.0/logout") |});
  ("https://idporten.no/.well-known/openid-configuration",
   {| Issuer := Some "https://idporten.no";
      AuthorizationEndpoint := Some "https://login.idporten.no/authorize";
      TokenEndpoint := Some "https://idporten.no/token";
      JwksURI_ := Some "https://idporten.no/jwks.json";
      EndSessionEndpoint := Some "https://login.idporten.no/logout" |});
  ("https://maskinporten.no/.well-known/oauth-authorization-server",
   {| Issuer := Some "https://maskinporten.no/"; AuthorizationEndpoint := None;
      TokenEndpoint := Some "https://maskinporten.no/token";
      JwksURI_ := Some "https://maskinporten.no/jwk"; EndSessionEndpoint := None |})].

(** The answer of the HTTP client: a transport error, or a status and the decoded
    body; and the error of closing the client. *)
Record HttpAnswer := {
  http_result : go (Z * string * DiscoveryDocument);
  http_close_error : option string;
}.

Definition GetOAuthDiscoveryDocument (http_get : string → HttpAnswer) (uri : string) : go DiscoveryDocument :=
  match GetWellknownURIToDiscoveryDocument !! uri with
  | Some cached => Ok cached
  | None =>
      let answer := http_get uri in
      match http_close_error answer with
      | Some closeErr => Panic closeErr
      | None =>
          '(code, status, doc) ← http_result answer;
          if Z.eqb code 200 then Ok doc else Err status
      end
  end.

(** ** discovery_document_resolver.go *)

Definition unsafe_uri_chars : string :=
  String dquote (String "092" (String "010" (String "013" (String "000" "")))).

Definition validateDiscoveryURI (field uri : string) : go () :=
  _ ← wrap_err ("field " +:+ field +:+ " is not a valid URI: ") (url_parse uri);
  if ContainsAny uri unsafe_uri_chars then
    Err ("field " +:+ field +:+ " contains unsafe characters (quotes, backslashes, or control characters)")
  else Ok ().

Fixpoint validateDiscoveryURIs (fields : list (string * string)) : go () :=
  match fields with
  | [] => Ok ()
  | (field, uri) :: fields => _ ← validateDiscoveryURI field uri; validateDiscoveryURIs fields
  end.

Definition set_if (k : string) (v : option string) (m : gmap string string) : gmap string string :=
  match v with Some v => <[k := v]> m | None => m end.

Definition urisToValidate (issuer jwks token : string) (authorization end_session : option string) : gmap string string :=
  set_if "end_session_endpoint" end_session
    (set_if "authorization_endpoint" authorization
       {[ "issuer" := issuer; "jwks_uri" := jwks; "token_endpoint" := token ]}).

Definition ResolveDiscoveryDocument (ap : AuthPolicy) (resolver : string → go DiscoveryDocument) : go IdentityProviderUris :=
  let name := slashed (Namespace (ap_Meta ap)) (Name (ap_Meta ap)) in
  let uri := WellKnownURI (Spec ap) in
  doc ← wrap_err ("failed to resolve discovery document from well-known uri: " +:+ uri +:+
                  " for AuthPolicy with name " +:+ name +:+ ": ") (resolver uri);
  match Issuer doc, JwksURI_ doc, TokenEndpoint doc with
  | Some issuer, Some jwks, Some token =>
      if auto_login_enabled ap && negb (has (AuthorizationEndpoint doc) && has (EndSessionEndpoint doc)) then
        Err ("issuer " +:+ issuer +:+ " for AuthPolicy with name " +:+ name +:+
             " does not support authorization endpoint or end session endpoint required for autologin")
      else
        _ ← wrap_err ("invalid discovery document from well-known uri: " +:+ uri +:+
                      " for AuthPolicy " +:+ name +:+ ": ")
              (validateDiscoveryURIs (map_order
                 (urisToValidate issuer jwks token (AuthorizationEndpoint doc) (EndSessionEndpoint doc))));
        Ok {| IssuerURI := issuer; JwksURI := jwks; TokenURI := token;
              AuthorizationURI := default "" (AuthorizationEndpoint doc);
              EndSessionURI := EndSessionEndpoint doc |}
  | _, _, _ =>
      Err ("failed to parse discovery document from well-known uri: " +:+ uri +:+
           " for AuthPolicy with name " +:+ name)
  end.

(** ** autologin_config_resolver.go *)

Definition ResolveAutoLoginConfig (ap : AuthPolicy) (uris : IdentityProviderUris) : go AutoLoginConfig :=
  let envoySecretName := EnvoySecret_name (Name (ap_Meta ap)) in
  let disabled :=
    {| alc_Enabled := false; alc_LoginPath := None; alc_RedirectPath := ""; alc_LogoutPath := "";
       alc_PostLogoutRedirectURI := None; alc_Scopes := []; alc_LoginParams := ∅; alc_LuaScript := "";
       alc_EnvoySecretName := envoySecretName |} in
  match spec_AutoLogin (Spec ap) with
  | None => Ok disabled
  | Some al =>
      if negb (al_Enabled al) then Ok disabled
      else
        let cfg := SetSaneDefaults
          {| alc_Enabled := al_Enabled al; alc_LoginPath := al_LoginPath al; alc_RedirectPath := "";
             alc_LogoutPath := ""; alc_PostLogoutRedirectURI := al_PostLogoutRedirectURI al;
             alc_Scopes := al_Scopes al; alc_LoginParams := al_LoginParams al; alc_LuaScript := "";
             alc_EnvoySecretName := envoySecretName |} al in
        script ← GenerateLuaScript ap cfg uris;
        Ok {| alc_Enabled := alc_Enabled cfg; alc_LoginPath := alc_LoginPath cfg;
              alc_RedirectPath := alc_RedirectPath cfg; alc_LogoutPath := alc_LogoutPath cfg;
              alc_PostLogoutRedirectURI := alc_PostLogoutRedirectURI cfg; alc_Scopes := alc_Scopes cfg;
              alc_LoginParams := alc_LoginParams cfg; alc_LuaScript := script;
              alc_EnvoySecretName := alc_EnvoySecretName cfg |}
  end.
End resolvers.
