(* ===== verification/ResolverFacts.v ===== *)
(** * What the resolvers return

    Each resolver succeeds exactly on the inputs the documentation calls resolvable,
    and its value is determined by the cluster's state, not by the order in which
    Go visits a map. *)

From S2P Require Import Prelude GoStrings Api Objects State Examples Kube PathValidation LuaPattern LuaConvert.
From S2P Require Import LuaMatch LuaRead LuaScript LuaScriptRead LuaDecision Resolver.

Section facts.
Context `{Reader} `{UrlParser} `{MapOrder}.

(** ** Audiences *)

(** The value a reference stands for: the key's value in the ConfigMap or Secret. *)
Definition ref_value (ns : string) (from : ValueFrom) (v : string) : Prop :=
  match ConfigMapKeyRef from, SecretKeyRef from with
  | Some ref, None => ∃ data,
      GetConfigMap {| nn_Namespace := ns; nn_Name := kr_Name ref |} = Ok data ∧ data !! kr_Key ref = Some v
  | None, Some ref => ∃ secret,
      GetSecret {| nn_Namespace := ns; nn_Name := kr_Name ref |} = Ok secret ∧
      secret_Data secret !! kr_Key ref = Some v
  | _, _ => False
  end.

Definition audience_value (ns : string) (a : AllowedAudience) (v : string) : Prop :=
  match aud_Value a, aud_ValueFrom a with
  | Some w, None => v = w
  | None, Some from => ref_value ns from v
  | _, _ => False
  end.

Definition has_source (a : AllowedAudience) : bool := has (aud_Value a) || has (aud_ValueFrom a).

Lemma map_get_nonempty m k v : v ≠ "" → map_get m k = v ↔ m !! k = Some v.
Proof. unfold map_get. intros Hv. destruct (m !! k); cbn; naive_solver. Qed.

Lemma resolveAudienceRef_ok ns from v : resolveAudienceRef ns from = Ok v ↔ ref_value ns from v ∧ v ≠ "".
Proof.
  unfold resolveAudienceRef, ref_value.
  destruct (ConfigMapKeyRef from) as [c|], (SecretKeyRef from) as [s|]; cbv zeta; try (split; [done|by intros []]).
  - destruct (GetConfigMap _) as [data|e|m]; [|split; [done|intros [(? & ? & _) _]; done]..].
    destruct (String.eqb_spec (map_get data (kr_Key c)) "") as [He|He].
    + split; [done|]. intros [(d & [= <-] & Hv) Hne]. apply map_get_nonempty in Hv; congruence.
    + split; [|intros [(d & [= <-] & Hv) Hne]; by apply map_get_nonempty in Hv as ->].
      intros <-%Ok_inj. split; [|done]. exists data. split; [done|]. by apply map_get_nonempty.
  - destruct (GetSecret _) as [sec|e|m]; [|split; [done|intros [(? & ? & _) _]; done]..].
    destruct (String.eqb_spec (map_get (secret_Data sec) (kr_Key s)) "") as [He|He].
    + split; [done|]. intros [(d & [= <-] & Hv) Hne]. apply map_get_nonempty in Hv; congruence.
    + split; [|intros [(d & [= <-] & Hv) Hne]; by apply map_get_nonempty in Hv as ->].
      intros <-%Ok_inj. split; [|done]. exists sec. split; [done|]. by apply map_get_nonempty.
Qed.

Lemma ResolveAudiences_ok ns auds vs :
  ResolveAudiences ns auds = Ok vs ↔
  Forall2 (λ a v, audience_value ns a v ∧ v ≠ "") (filter (λ a, has_source a = true) auds) vs.
Proof.
  revert vs. induction auds as [|a auds IH]; intros vs; cbn [ResolveAudiences].
  { rewrite filter_nil. split; [by intros <-%Ok_inj|]. by intros ->%Forall2_nil_inv_l. }
  rewrite filter_cons.
  destruct (aud_Value a) as [v|] eqn:Hv, (aud_ValueFrom a) as [from|] eqn:Hf;
    first [rewrite decide_True by (unfold has_source; by rewrite Hv, Hf)
          | rewrite decide_False by (unfold has_source; by rewrite Hv, Hf)];
    rewrite ?Forall2_cons_l; unfold audience_value at 1; rewrite ?Hv, ?Hf.
  - split; [done|]. by intros (w & ws & _ & [Hw _] & _).
  - destruct (String.eqb_spec v "") as [->|Hne].
    + split; [done|]. by intros (w & ws & _ & [-> Hw] & _).
    + rewrite go_bind_ok. split.
      * intros (ws & Hws & <-%Ok_inj). exists v, ws. by rewrite <-IH.
      * intros (w & ws & -> & [-> _] & Hws). exists ws. by rewrite IH.
  - rewrite go_bind_ok. setoid_rewrite wrap_err_ok. setoid_rewrite resolveAudienceRef_ok.
    setoid_rewrite go_bind_ok. split.
    + intros (v & Hr & ws & Hws & <-%Ok_inj). exists v, ws. by rewrite <-IH.
    + intros (v & ws & -> & Hr & Hws). exists v. split; [done|]. exists ws. by rewrite IH.
  - apply IH.
Qed.
(** ** OAuth credentials *)

Lemma ResolveOAuthCredentials_ok ap c :
  ResolveOAuthCredentials ap = Ok c ↔
  match spec_OAuthCredentials (Spec ap), auto_login_enabled ap with
  | Some ref, true => ∃ secret id sec,
      GetSecret {| nn_Namespace := Namespace (ap_Meta ap); nn_Name := SecretRef ref |} = Ok secret ∧
      secret_Data secret !! ClientIDKey ref = Some id ∧ secret_Data secret !! ClientSecretKey ref = Some sec ∧
      id ≠ "" ∧ sec ≠ "" ∧ c = {| ClientID := Some id; ClientSecret := Some sec |}
  | _, _ => c = {| ClientID := None; ClientSecret := None |}
  end.
Proof.
  unfold ResolveOAuthCredentials.
  destruct (spec_OAuthCredentials (Spec ap)) as [ref|], (auto_login_enabled ap);
    try (split; [by intros <-%Ok_inj|by intros ->]).
  rewrite go_bind_ok. setoid_rewrite wrap_err_ok. cbv zeta. split.
  - intros (secret & Hs & Hc). exists secret.
    destruct (String.eqb_spec (map_get (secret_Data secret) (ClientIDKey ref)) "") as [|Hi]; [done|].
    destruct (String.eqb_spec (map_get (secret_Data secret) (ClientSecretKey ref)) "") as [|Hc']; [done|].
    apply Ok_inj in Hc. eexists _, _. split_and!; [done| | |exact Hi|exact Hc'|done]; by apply map_get_nonempty.
  - intros (secret & id & sec & Hs & Hi & Hc & Hin & Hcn & ->). exists secret. split; [done|].
    apply map_get_nonempty in Hi as ->, Hc as ->; [|done..].
    destruct (String.eqb_spec id ""), (String.eqb_spec sec ""); congruence.
Qed.

(** ** The discovery document *)

Definition uri_ok (uri : string) : Prop :=
  is_ok (url_parse uri) = true ∧ ContainsAny uri unsafe_uri_chars = false.

Definition opt_uri_ok (uri : option string) : Prop := from_option uri_ok True uri.

Lemma validateDiscoveryURI_ok field uri : validateDiscoveryURI field uri = Ok () ↔ uri_ok uri.
Proof.
  unfold validateDiscoveryURI, uri_ok. rewrite go_bind_ok. setoid_rewrite wrap_err_ok.
  destruct (url_parse uri), (ContainsAny uri _); cbn; naive_solver.
Qed.

Lemma validateDiscoveryURIs_ok fields :
  validateDiscoveryURIs fields = Ok () ↔ Forall (λ kv, uri_ok kv.2) fields.
Proof.
  induction fields as [|[f u] fields IH]; cbn [validateDiscoveryURIs]; [by split|].
  rewrite go_bind_ok, Forall_cons_iff, <-IH. cbn. rewrite <-(validateDiscoveryURI_ok f). split.
  - by intros ([] & ? & ?).
  - intros [? ?]. by exists ().
Qed.

(** Whatever the order of the visit, the verdict is the same. *)
Lemma validate_map_ok m : validateDiscoveryURIs (map_order m) = Ok () ↔ map_Forall (λ _ u, uri_ok u) m.
Proof. rewrite validateDiscoveryURIs_ok, map_order_perm, map_Forall_to_list. apply Forall_iff. by intros []. Qed.

Lemma urisToValidate_ok i j t a e :
  map_Forall (λ _ u, uri_ok u) (urisToValidate i j t a e) ↔
  uri_ok i ∧ uri_ok j ∧ uri_ok t ∧ opt_uri_ok a ∧ opt_uri_ok e.
Proof.
  unfold urisToValidate.
  destruct a as [a|], e as [e|]; cbn [set_if opt_uri_ok from_option];
    rewrite !map_Forall_insert by (simplify_map_eq; done); rewrite map_Forall_singleton; tauto.
Qed.

Lemma ResolveDiscoveryDocument_ok ap resolver uris :
  ResolveDiscoveryDocument ap resolver = Ok uris ↔
  ∃ doc, resolver (WellKnownURI (Spec ap)) = Ok doc ∧
    Issuer doc = Some (IssuerURI uris) ∧ JwksURI_ doc = Some (JwksURI uris) ∧
    TokenEndpoint doc = Some (TokenURI uris) ∧ EndSessionEndpoint doc = EndSessionURI uris ∧
    default "" (AuthorizationEndpoint doc) = AuthorizationURI uris ∧
    (auto_login_enabled ap = true → is_Some (AuthorizationEndpoint doc) ∧ is_Some (EndSessionEndpoint doc)) ∧
    uri_ok (IssuerURI uris) ∧ uri_ok (JwksURI uris) ∧ uri_ok (TokenURI uris) ∧
    opt_uri_ok (AuthorizationEndpoint doc) ∧ opt_uri_ok (EndSessionEndpoint doc).
Proof.
  unfold ResolveDiscoveryDocument. cbv zeta. rewrite go_bind_ok. setoid_rewrite wrap_err_ok.
  apply exist_proper. intros doc. apply and_iff_compat_l.
  destruct (Issuer doc) as [i|], (JwksURI_ doc) as [j|], (TokenEndpoint doc) as [t|];
    try (split; [done|intros (?&?&?&_); done]).
  assert (auto_login_enabled ap && negb (has (AuthorizationEndpoint doc) && has (EndSessionEndpoint doc)) = false ↔
    (auto_login_enabled ap = true → is_Some (AuthorizationEndpoint doc) ∧ is_Some (EndSessionEndpoint doc))) as Hal.
  { destruct (auto_login_enabled ap), (AuthorizationEndpoint doc), (EndSessionEndpoint doc); cbn;
      split; try done; eauto; try (intros Hn; destruct (Hn eq_refl) as [[] []]; done). }
  destruct (auto_login_enabled ap && _) eqn:Hc.
  { split; [done|]. intros (_ & _ & _ & _ & _ & Ha & _). by apply Hal in Ha. }
  rewrite go_bind_ok. setoid_rewrite wrap_err_ok. rewrite <-Hal. split.
  - intros ([] & Hv & <-%Ok_inj). cbn. apply validate_map_ok, urisToValidate_ok in Hv. tauto.
  - intros ([= ->] & [= ->] & [= ->] & He & Ha & _ & Hv). exists ().
    split; [by apply validate_map_ok, urisToValidate_ok|]. rewrite He, Ha. by destruct uris.
Qed.

(** ** The auto-login configuration *)

Lemma ContainsAny_remove_nul s chars :
  ContainsAny s chars = false → ContainsChar chars nul = true → remove_nul s = s.
Proof.
  rewrite ContainsAny_all. intros Hs Hn. apply negb_false_iff in Hs. unfold remove_nul.
  induction s as [|c s IH]; [done|]. cbn in Hs. bools. cbn [byte_replace]. rewrite IH by done.
  destruct (ascii_eqb_spec c nul) as [->|]; [|done]. congruence.
Qed.
Lemma GenerateLuaScript_total ap cfg uris : ∃ script, GenerateLuaScript ap cfg uris = Ok script.
Proof.
  unfold GenerateLuaScript.
  destruct (convert_matchers_total (IgnoreAuthMatchers (IgnoreAuthRules (Spec ap)))) as [i ->].
  destruct (convert_matchers_total (RequireAuthMatchers (AuthRules (Spec ap)) cfg)) as [r ->].
  destruct (convert_matchers_total (DenyRedirectMatchers (AuthRules (Spec ap)))) as [d ->].
  cbn [mbind go_bind]. eauto.
Qed.

Lemma ResolveAutoLoginConfig_total ap uris : ∃ cfg, ResolveAutoLoginConfig ap uris = Ok cfg.
Proof.
  unfold ResolveAutoLoginConfig. cbv zeta. destruct (spec_AutoLogin (Spec ap)) as [al|]; [|eauto].
  destruct (negb (al_Enabled al)); [eauto|].
  match goal with |- context [GenerateLuaScript ap ?c uris] => destruct (GenerateLuaScript_total ap c uris) as [s ->] end.
  cbn [mbind go_bind]. eauto.
Qed.

(** The script in the resolved configuration is the one generated for it. *)
Lemma ResolveAutoLoginConfig_script ap uris cfg :
  ResolveAutoLoginConfig ap uris = Ok cfg → auto_login_enabled ap = true →
  GenerateLuaScript ap cfg uris = Ok (alc_LuaScript cfg).
Proof.
  unfold ResolveAutoLoginConfig, auto_login_enabled. cbv zeta.
  destruct (spec_AutoLogin (Spec ap)) as [al|]; [|done]. intros Hc Hal. rewrite Hal in Hc. cbn [negb] in Hc.
  apply go_bind_ok in Hc as (script & Hs & <-%Ok_inj). exact Hs.
Qed.

(** ** Properties *)

(** Audiences resolve exactly when every audience that names a source
    has one source, and that source a non-empty value: the literal, or the named
    key of the ConfigMap or Secret in the policy's namespace. The values come in
    the order of the policy. *)
Theorem audiences_resolve_iff ns auds vs :
  ResolveAudiences ns auds = Ok vs ↔
  Forall2 (λ a v, audience_value ns a v ∧ v ≠ "") (filter (λ a, has_source a = true) auds) vs.
Proof. apply ResolveAudiences_ok. Qed.

(** The credentials resolve exactly when auto-login is off or unreferenced,
    to none, or when the referenced Secret has non-empty values for both keys, to
    those values. *)
Theorem credentials_resolve_iff ap c :
  ResolveOAuthCredentials ap = Ok c ↔
  match spec_OAuthCredentials (Spec ap), auto_login_enabled ap with
  | Some ref, true => ∃ secret id sec,
      GetSecret {| nn_Namespace := Namespace (ap_Meta ap); nn_Name := SecretRef ref |} = Ok secret ∧
      secret_Data secret !! ClientIDKey ref = Some id ∧ secret_Data secret !! ClientSecretKey ref = Some sec ∧
      id ≠ "" ∧ sec ≠ "" ∧ c = {| ClientID := Some id; ClientSecret := Some sec |}
  | _, _ => c = {| ClientID := None; ClientSecret := None |}
  end.
Proof. apply ResolveOAuthCredentials_ok. Qed.

(** Claim C28. In whatever order Go visits the endpoints, the discovery document
    resolves exactly when it is fetched, names issuer, key set and token endpoint,
    names the authorization and end-session endpoints if auto-login is on, and all
    endpoints it names parse and hold no quote, backslash, line end or NUL; the
    result then holds those endpoints. *)
Theorem discovery_resolves_iff ap resolver uris :
  ResolveDiscoveryDocument ap resolver = Ok uris ↔
  ∃ doc, resolver (WellKnownURI (Spec ap)) = Ok doc ∧
    Issuer doc = Some (IssuerURI uris) ∧ JwksURI_ doc = Some (JwksURI uris) ∧
    TokenEndpoint doc = Some (TokenURI uris) ∧ EndSessionEndpoint doc = EndSessionURI uris ∧
    default "" (AuthorizationEndpoint doc) = AuthorizationURI uris ∧
    (auto_login_enabled ap = true → is_Some (AuthorizationEndpoint doc) ∧ is_Some (EndSessionEndpoint doc)) ∧
    uri_ok (IssuerURI uris) ∧ uri_ok (JwksURI uris) ∧ uri_ok (TokenURI uris) ∧
    opt_uri_ok (AuthorizationEndpoint doc) ∧ opt_uri_ok (EndSessionEndpoint doc).
Proof. apply ResolveDiscoveryDocument_ok. Qed.

Lemma resolved_endpoints_plain ap resolver uris :
  ResolveDiscoveryDocument ap resolver = Ok uris → auto_login_enabled ap = true →
  remove_nul (AuthorizationURI uris) = AuthorizationURI uris ∧
  ∃ e, EndSessionURI uris = Some e ∧ remove_nul e = e.
Proof.
  intros (doc & _ & _ & _ & _ & He & Ha & Hal & _ & _ & _ & Hao & Heo)%ResolveDiscoveryDocument_ok Hen.
  destruct (Hal Hen) as [[a Hda] [e Hde]]. rewrite Hda in *. rewrite Hde in *. cbn in Ha, Hao, Heo. subst a.
  split; [|exists e; split; [done|]]; apply (ContainsAny_remove_nul _ unsafe_uri_chars); try done; by destruct Hao, Heo.
Qed.

(** Resolution ends with a script that uses the identity provider's own
    endpoints: for resolved endpoints and an enabled auto-login, the configuration
    resolves without panic, and its script (for valid paths) binds exactly the
    resolved authorization and end-session endpoints. *)
Theorem resolved_script_endpoints ap resolver uris :
  ResolveDiscoveryDocument ap resolver = Ok uris → auto_login_enabled ap = true →
  ∃ cfg, ResolveAutoLoginConfig ap uris = Ok cfg ∧
    (script_ok ap cfg →
     ∃ c, read_script (alc_LuaScript cfg) = Some (c, lua_functions) ∧
          authorize_endpoint c = AuthorizationURI uris ∧ Some (end_session_endpoint c) = EndSessionURI uris).
Proof.
  intros Hd Hal. destruct (ResolveAutoLoginConfig_total ap uris) as [cfg Hc]. exists cfg. split; [done|].
  intros Hok. destruct (resolved_endpoints_plain _ _ _ Hd Hal) as (Ha & e & He & Hn).
  pose proof (ResolveAutoLoginConfig_script _ _ _ Hc Hal) as Hs.
  destruct (script_read ap cfg Hok uris) as (script & ir & rr & dr & Hg & _ & _ & _ & Hread).
  rewrite Hs in Hg. apply Ok_inj in Hg. subst script. eexists. split; [exact Hread|].
  cbn [config_of authorize_endpoint end_session_endpoint]. rewrite He.
  change (default "" (Some e)) with e. by rewrite Hn.
Qed.
End facts.

(** *** A concrete cluster *)

#[local] Existing Instances example_reader example_parser.

Lemma resolved_script_endpoints_witness :
  ∃ cfg, ResolveAutoLoginConfig (example_policy (Some (example_login None)) 1 [] []) example_uris = Ok cfg ∧
    (script_ok (example_policy (Some (example_login None)) 1 [] []) cfg →
     ∃ c, read_script (alc_LuaScript cfg) = Some (c, lua_functions) ∧
          authorize_endpoint c = AuthorizationURI example_uris ∧
          Some (end_session_endpoint c) = EndSessionURI example_uris).
Proof.
  apply (resolved_script_endpoints _ (λ _, Ok {|
    Issuer := Some "https://idp.example"; AuthorizationEndpoint := Some "https://idp.example/authorize";
    TokenEndpoint := Some "https://idp.example/token"; JwksURI_ := Some "https://idp.example/jwks";
    EndSessionEndpoint := Some "https://idp.example/endsession" |})); vm_compute; reflexivity.
Defined.
