(* ===== verification/LuaResponseFacts.v ===== *)
(** * What the generated script does to redirects

    The response phase of the script generated for a policy, on redirects to the
    identity provider that the policy's issuer names. *)

From S2P Require Import Prelude GoStrings Api State Examples LuaPattern LuaConvert LuaRead.
From S2P Require Import LuaScript LuaScriptRead LuaDecision Kube LuaResponse.
From S2P Require Import Resolver ResolverFacts.

(** ** Percent encoding *)

Definition hex_value (c : ascii) : option nat :=
  let n := nat_of_ascii c in
  if Nat.leb 48 n && Nat.leb n 57 then Some (n - 48)
  else if Nat.leb 65 n && Nat.leb n 70 then Some (n - 55)
  else if Nat.leb 97 n && Nat.leb n 102 then Some (n - 87) else None.

(** What a receiver makes of an encoded value: [+] is a space, [%XY] a byte. *)
Fixpoint query_unescape (s : string) : option string :=
  match s with
  | "" => Some ""
  | String c s =>
      if Ascii.eqb c "+" then String " " <$> query_unescape s
      else if Ascii.eqb c "%" then
        match s with
        | String h (String l s) =>
            h ← hex_value h; l ← hex_value l; String (ascii_of_nat (16 * h + l)) <$> query_unescape s
        | _ => None
        end
      else String c <$> query_unescape s
  end.

Definition url_safe (c : ascii) : bool := alnum c || ContainsChar "-_.~+%" c.

Ltac every_ascii c := destruct c as [[] [] [] [] [] [] [] []]; reflexivity.

Lemma query_unescape_char c s : query_unescape (query_escape_char c +:+ s) = String c <$> query_unescape s.
Proof. every_ascii c. Qed.

Lemma query_escape_safe c : all_chars url_safe (query_escape_char c) = true.
Proof. every_ascii c. Qed.

Lemma QueryEscape_unescape s : query_unescape (QueryEscape s) = Some s.
Proof.
  unfold QueryEscape. induction s as [|c s IH]; [done|]. cbn [byte_replace].
  by rewrite query_unescape_char, IH.
Qed.

Lemma QueryEscape_safe s : all_chars url_safe (QueryEscape s) = true.
Proof.
  unfold QueryEscape. induction s as [|c s IH]; [done|]. cbn [byte_replace].
  by rewrite all_chars_app, query_escape_safe, IH.
Qed.

Lemma QueryEscape_empty s : QueryEscape s = "" ↔ s = "".
Proof.
  split; [|by intros ->]. intros H. pose proof (QueryEscape_unescape s) as Hu. rewrite H in Hu. by injection Hu.
Qed.

Lemma remove_nul_id s : all_chars (λ c, negb (Ascii.eqb c nul)) s = true → remove_nul s = s.
Proof.
  intros H. apply byte_replace_id. eapply all_chars_impl; [|exact H].
  intros c Hc. cbn. apply negb_true_iff in Hc. by rewrite Hc, String.eqb_refl.
Qed.

Lemma remove_nul_QueryEscape s : remove_nul (QueryEscape s) = QueryEscape s.
Proof.
  apply remove_nul_id. eapply all_chars_impl; [|apply QueryEscape_safe].
  intros c Hc. destruct (ascii_eqb_spec c nul) as [->|]; done.
Qed.

Lemma remove_nul_identifier k : identifier k = true → remove_nul k = k.
Proof.
  intros H. apply remove_nul_id. destruct k as [|c k]; [done|]. cbn in H. bools. cbn [all_chars]. bools.
  - by destruct (ascii_eqb_spec c nul) as [->|].
  - eapply all_chars_impl; [|exact H0]. intros a Ha. by destruct (ascii_eqb_spec a nul) as [->|].
Qed.

(** The table [login_params] of the script holds the encoded parameters. *)
Lemma table_of_params m :
  LoginParams_admissible m = true → table_of (params_of m) = QueryEscape <$> m.
Proof.
  unfold LoginParams_admissible. rewrite andb_true_iff, forallb_forall. intros [Hk _].
  apply table_of_perm. unfold params_of, encodeLoginParams.
  rewrite sorted_params_perm, map_to_list_fmap, <-list_fmap_compose.
  apply Permutation_refl', list_fmap_ext. intros i [k v] Hi%list_elem_of_lookup_2%list_elem_of_In. unfold lua_param. cbn.
  rewrite remove_nul_QueryEscape. f_equal. by apply remove_nul_identifier, (Hk (k, v)).
Qed.

Lemma params_of_nil m : params_of m = [] ↔ m = ∅.
Proof.
  unfold params_of, encodeLoginParams. split; [|by intros ->].
  intros H%fmap_nil_inv. pose proof (sorted_params_perm (QueryEscape <$> m)) as Hp.
  rewrite H in Hp. apply Permutation_nil_l in Hp. symmetry in Hp. apply map_to_list_empty_iff in Hp.
  by apply fmap_empty_iff in Hp.
Qed.

(** ** The response *)

(** The parameters of a logout request for [postLogoutRedirectUri]. *)
Definition logout_params (uri : option string) (params : gmap string string) : gmap string string :=
  match uri with
  | Some u => if String.eqb u "" then delete "post_logout_redirect_uri" params
              else <["post_logout_redirect_uri" := QueryEscape u]> params
  | None => delete "post_logout_redirect_uri" params
  end.

Section response.
Context `{MapOrder}.

(** No redirect to an endpoint: nothing happens. *)
Lemma response_elsewhere cfg status loc :
  status ≠ Some "302" ∨ default "" loc = "" ∨
  HasPrefix (default "" loc) (end_session_endpoint cfg) = false ∧
    (HasPrefix (default "" loc) (authorize_endpoint cfg) = false ∨ login_params cfg = []) →
  envoy_on_response cfg status loc = Some None.
Proof.
  intros Hr. unfold envoy_on_response. destruct (String.eqb_spec (default "" status) "302") as [Hs|]; [|done].
  cbv zeta. destruct (String.eqb_spec (default "" loc) "") as [|Hl]; [done|]. cbn [negb]. rewrite !starts_with_prefix.
  destruct Hr as [Hr|[Hr|[-> Hr]]]; [|done|].
  - destruct status as [s|]; [|discriminate Hs]. change (s = "302") in Hs. by subst.
  - destruct Hr as [-> | ->]; [done|]. by rewrite andb_false_r.
Qed.

(** A redirect to an endpoint is rewritten, and there is no Lua error. *)
Lemma response_redirect cfg loc :
  strip_query loc ≠ "" →
  let logout := HasPrefix loc (end_session_endpoint cfg) in
  let login := HasPrefix loc (authorize_endpoint cfg) && negb (is_empty_table (login_params cfg)) in
  ∃ params, query_params (after_query loc) = Some params ∧
    envoy_on_response cfg (Some "302") (Some loc) = Some
      (if logout || login then Some
         (if String.eqb (after_query loc) "" then strip_query loc
          else location (strip_query loc) (map_order
            (if logout then set_post_logout cfg params else table_of (login_params cfg) ∪ params)))
       else None).
Proof.
  intros Hs. cbv zeta. destruct (rewrite_query_spec (set_post_logout cfg) loc Hs) as (params & Hp & Hout).
  destruct (rewrite_query_spec (add_login_params cfg) loc Hs) as (params' & Hp' & Hin).
  rewrite Hp in Hp'. apply Some_inj in Hp' as <-. exists params. split; [done|]. unfold envoy_on_response.
  change (default "" (Some "302")) with "302". change (default "" (Some loc)) with loc. cbn [String.eqb Ascii.eqb Bool.eqb].
  assert (loc ≠ "") as ->%String.eqb_neq by (by intros ->).
  cbn [negb]. rewrite !starts_with_prefix, Hout, Hin, add_login_params_union.
  by destruct (HasPrefix loc (end_session_endpoint cfg)),
    (HasPrefix loc (authorize_endpoint cfg) && negb (is_empty_table (login_params cfg))).
Qed.
End response.

(** ** The script of a policy *)

Section policy.
Context `{UrlParser} {range : MapOrder} (pairs : MapOrder).

Lemma resolved_login ap uris al cfg :
  spec_AutoLogin (Spec ap) = Some al → al_Enabled al = true → ResolveAutoLoginConfig ap uris = Ok cfg →
  alc_LoginParams cfg = al_LoginParams al ∧ alc_PostLogoutRedirectURI cfg = al_PostLogoutRedirectURI al.
Proof.
  unfold ResolveAutoLoginConfig. intros -> -> Hc. cbn [negb] in Hc. cbv zeta in Hc. go_inv. done.
Qed.

(** The configuration that the script of a resolved policy binds. *)
Lemma resolved_script ap al resolver uris cfg :
  ResolveDiscoveryDocument ap resolver = Ok uris → spec_AutoLogin (Spec ap) = Some al → al_Enabled al = true →
  ResolveAutoLoginConfig ap uris = Ok cfg → script_ok ap cfg →
  ∃ c e, read_script (alc_LuaScript cfg) = Some (c, lua_functions) ∧
    EndSessionURI uris = Some e ∧ end_session_endpoint c = e ∧ authorize_endpoint c = AuthorizationURI uris ∧
    table_of (login_params c) = QueryEscape <$> al_LoginParams al ∧
    (is_empty_table (login_params c) = true ↔ al_LoginParams al = ∅) ∧
    (∀ params, set_post_logout c params = logout_params (al_PostLogoutRedirectURI al) params).
Proof.
  intros Hd Hal Hen Hc Hok.
  assert (auto_login_enabled ap = true) as Hale by (unfold auto_login_enabled; by rewrite Hal).
  destruct (resolved_endpoints_plain _ _ _ Hd Hale) as (Ha & e & He & Hn).
  pose proof (ResolveAutoLoginConfig_script _ _ _ Hc Hale) as Hs.
  destruct (script_read ap cfg Hok uris) as (script & ir & rr & dr & Hg & _ & _ & _ & Hread).
  rewrite Hs in Hg. apply Ok_inj in Hg. subst script.
  destruct (resolved_login _ _ _ _ Hal Hen Hc) as [Hlp Hpl].
  exists (config_of ir rr dr cfg uris), e. split_and!; [done..| | | | |].
  - cbn [config_of end_session_endpoint]. rewrite He. done.
  - done.
  - cbn [config_of login_params]. rewrite Hlp. apply table_of_params.
    pose proof (so_spec _ _ Hok) as Hsp. unfold Spec_admissible in Hsp. rewrite Hal in Hsp. by bools.
  - cbn [config_of login_params]. rewrite Hlp, <-params_of_nil. by destruct (params_of _).
  - intros params. unfold set_post_logout, logout_params. cbn [config_of post_logout_redirect_uri].
    rewrite Hpl. destruct (al_PostLogoutRedirectURI al) as [u|]; [|done].
    change (remove_nul (default "" (QueryEscape <$> Some u))) with (remove_nul (QueryEscape u)).
    rewrite remove_nul_QueryEscape. destruct (String.eqb_spec u "") as [->|Hu]; [done|].
    by rewrite (proj2 (String.eqb_neq _ _)) by (by rewrite QueryEscape_empty).
Qed.

(** The parameters after the rewriting of a redirect. To the end-session endpoint
    they get [post_logout_redirect_uri], the encoded URI of the policy, or lose it;
    to the authorization endpoint they are overridden by the policy's encoded ones. *)
Definition redirect_params (al : AutoLogin) (logout : bool) (params : gmap string string) : gmap string string :=
  if logout then logout_params (al_PostLogoutRedirectURI al) params
  else (QueryEscape <$> al_LoginParams al) ∪ params.

(** Claim C17. What the script of a resolved policy ([script_ok]: admitted, with
    valid paths and auto-login paths) does to a response. It touches none but a 302
    whose location begins with the end-session endpoint, or with the authorization
    endpoint if the policy has login parameters. Such a location, if it has anything
    before its question mark, keeps that part. With nothing after the question mark
    nothing is added to it. Otherwise its query is replaced by the parameters read
    from it, updated by [redirect_params], in the order of the table's traversal:
    [post_logout_redirect_uri] set or removed at the end-session endpoint (which is
    tried first), else the policy's login parameters set. What is read from a query of
    well-formed parameters (no part empty, none with a separator) is these parameters,
    the last value of each key; of other queries the code may lose parameters and
    parts of values ([rewrite_loses_values]). There is no Lua error. *)
Theorem response_decision ap al resolver uris cfg :
  ResolveDiscoveryDocument ap resolver = Ok uris → spec_AutoLogin (Spec ap) = Some al → al_Enabled al = true →
  ResolveAutoLoginConfig ap uris = Ok cfg → script_ok ap cfg →
  ∃ c e, read_script (alc_LuaScript cfg) = Some (c, lua_functions) ∧ EndSessionURI uris = Some e ∧
    (∀ status loc,
      status ≠ Some "302" ∨ default "" loc = "" ∨
      HasPrefix (default "" loc) e = false ∧
        (HasPrefix (default "" loc) (AuthorizationURI uris) = false ∨ al_LoginParams al = ∅) →
      envoy_on_response c status loc = Some None) ∧
    (∀ loc, strip_query loc ≠ "" →
      HasPrefix loc e = true ∨ HasPrefix loc (AuthorizationURI uris) = true ∧ al_LoginParams al ≠ ∅ →
      ∃ r, envoy_on_response c (Some "302") (Some loc) = Some (Some r) ∧
        if String.eqb (after_query loc) "" then r = strip_query loc
        else ∃ params kvs, query_params (after_query loc) = Some params ∧ r = location (strip_query loc) kvs ∧
               kvs ≡ₚ map_to_list (redirect_params al (HasPrefix loc e) params)) ∧
    (∀ base kvs, good_base base = true → kvs ≠ [] → Forall (λ kv, good_param kv = true) kvs →
      strip_query (location base kvs) = base ∧ after_query (location base kvs) ≠ "" ∧
      query_params (after_query (location base kvs)) = Some (list_to_map (rev kvs))).
Proof.
  intros Hd Hal Hen Hc Hok.
  destruct (resolved_script _ _ _ _ _ Hd Hal Hen Hc Hok) as (c & e & Hread & He & <- & <- & Hlp & Hempty & Hpl).
  exists c, (end_session_endpoint c). split_and!; [done..| | |].
  - intros status loc Hr. apply response_elsewhere. rewrite <-Hempty in Hr.
    destruct Hr as [?|[?|[? [?|Ht]]]]; [by auto..|]. right; right. split; [done|]. right. by destruct (login_params c).
  - intros loc Hs Hr. destruct (response_redirect c loc Hs) as (params & Hp & ->).
    assert (HasPrefix loc (end_session_endpoint c) ||
            HasPrefix loc (authorize_endpoint c) && negb (is_empty_table (login_params c)) = true) as ->.
    { apply orb_true_iff. destruct Hr as [->|[-> Hne]]; [by left|right]. cbn [andb]. apply negb_true_iff, not_true_iff_false.
      by rewrite Hempty. }
    eexists. split; [done|]. destruct (String.eqb (after_query loc) ""); [done|]. eexists params, _. split_and!; [done..|].
    unfold redirect_params. rewrite <-Hpl, <-Hlp. by destruct (HasPrefix loc _); apply map_order_perm.
  - intros base kvs Hb Hne Hg. destruct (location_parts base kvs Hb Hne Hg) as (Hs & Ha & Hq & Hp). by rewrite Hs, Ha, Hp in *.
Qed.
End policy.

(** Percent encoding is undone by the receiver, and its output has no character
    that separates the parameters of a query. *)
Lemma QueryEscape_roundtrip s :
  query_unescape (QueryEscape s) = Some s ∧ all_chars (λ c, url_safe c && negb (reserved c)) (QueryEscape s) = true.
Proof.
  split; [apply QueryEscape_unescape|]. eapply all_chars_impl; [|apply QueryEscape_safe].
  intros c Hc. rewrite Hc. unfold reserved. cbn [ContainsChar].
  repeat match goal with |- context [Ascii.eqb ?a c] => destruct (ascii_eqb_spec a c) as [<-|] end; done.
Qed.

(** Claim C39. The login parameters survive the way into the script: for admitted
    parameters the table constructor of [ConvertLoginParamsToLuaParams] is read back
    as a table with the same keys, whose values are percent-decoded to the values
    of the policy and have no character that separates the parameters of a query. *)
Theorem login_params_roundtrip m :
  LoginParams_admissible m = true →
  ∃ kvs, read_params (ConvertLoginParamsToLuaParams m) = Some (kvs, "") ∧
    query_unescape <$> table_of kvs = Some <$> m ∧
    map_Forall (λ _ e, all_chars (λ c, url_safe c && negb (reserved c)) e = true) (table_of kvs).
Proof.
  intros Hm. exists (params_of m). pose proof (table_of_params m Hm) as Ht. split_and!.
  - rewrite <-(str_app_nil_r (ConvertLoginParamsToLuaParams m)). apply read_login_params.
  - rewrite Ht, <-map_fmap_compose. apply map_fmap_ext. intros k v _. apply QueryEscape_roundtrip.
  - rewrite Ht. intros k e He. apply lookup_fmap_Some in He as (v & <- & _). apply QueryEscape_roundtrip.
Qed.

Lemma login_params_roundtrip_witness :
  let m : gmap string string := {[ "ui_locales" := "nb"; "claims" := "a=b&c d" ]} in
  ∃ kvs, read_params (ConvertLoginParamsToLuaParams m) = Some (kvs, "") ∧
    query_unescape <$> table_of kvs = Some <$> m ∧ kvs = [("claims", "a%3Db%26c+d"); ("ui_locales", "nb")].
Proof.
  intros m. destruct (login_params_roundtrip m ltac:(vm_compute; reflexivity)) as (kvs & Hr & Ht & _).
  exists kvs. split_and!; [exact Hr|exact Ht|]. vm_compute in Hr. congruence.
Defined.

(** ** Concrete redirects *)

#[local] Existing Instances example_parser sorted_order.

Definition redirecting_policy : AuthPolicy := example_policy (Some (example_login None)) 0 [api_rule] [public_matcher].

Definition redirecting_config (uris : IdentityProviderUris) : AutoLoginConfig :=
  match ResolveAutoLoginConfig redirecting_policy uris with Ok cfg => cfg | _ => no_login_config end.

Definition example_discovery (end_session : string) : string → go DiscoveryDocument := λ _, Ok {|
  Issuer := Some "https://idp.example"; AuthorizationEndpoint := Some "https://idp.example/authorize";
  TokenEndpoint := Some "https://idp.example/token"; JwksURI_ := Some "https://idp.example/jwks";
  EndSessionEndpoint := Some end_session |}.

(** A logout request without a query, and a login request with one. *)
Lemma response_decision_witness :
  ∃ c e, read_script (alc_LuaScript (redirecting_config example_uris)) = Some (c, lua_functions) ∧
    EndSessionURI example_uris = Some e ∧
    envoy_on_response c (Some "302") (Some "https://app.example/?x=y") = Some None ∧
    envoy_on_response c (Some "302") (Some "https://idp.example/endsession") =
      Some (Some "https://idp.example/endsession") ∧
    ∃ kvs, envoy_on_response c (Some "302") (Some "https://idp.example/authorize?state=y&ui_locales=en") =
        Some (Some (location "https://idp.example/authorize" kvs)) ∧
      kvs ≡ₚ [("ui_locales", "nb"); ("state", "y")].
Proof.
  destruct (response_decision sorted_order redirecting_policy (example_login None)
    (example_discovery "https://idp.example/endsession") example_uris (redirecting_config example_uris))
    as (c & e & Hread & He & Hother & Hto & _); [try (vm_compute; reflexivity)..|].
  { split; vm_compute; reflexivity. }
  assert (e = "https://idp.example/endsession") as -> by (vm_compute in He; congruence).
  exists c, "https://idp.example/endsession". split_and!; [done..| | |].
  - apply Hother. right; right. split; [vm_compute; reflexivity|left; vm_compute; reflexivity].
  - destruct (Hto "https://idp.example/endsession") as (r & -> & Hr); [done|left; vm_compute; reflexivity|].
    change (r = "https://idp.example/endsession") in Hr. by rewrite Hr.
  - destruct (Hto "https://idp.example/authorize?state=y&ui_locales=en") as (r & -> & Hr);
      [done|right; split; [vm_compute; reflexivity|by vm_compute]|].
    destruct Hr as (params & kvs & Hp & -> & Hk). exists kvs. split; [done|]. etrans; [exact Hk|].
    vm_compute in Hp. apply Some_inj in Hp. subst params.
    first [apply Permutation_refl'; vm_compute; reflexivity|
      etrans; [apply Permutation_refl'; vm_compute; reflexivity|apply Permutation_swap]].
Defined.

(** The authorize request gets the policy's parameter. *)
Example login_params_added :
  match read_script (alc_LuaScript (redirecting_config example_uris)) with
  | Some (c, _) => envoy_on_response c (Some "302") (Some "https://idp.example/authorize?client_id=x&state=y")
  | None => None
  end = Some (Some "https://idp.example/authorize?state=y&client_id=x&ui_locales=nb").
Proof. vm_compute. reflexivity. Qed.

(** The empty reference is a URL. *)
#[local] Instance reference_parser : UrlParser := {|
  url_parse uri := if String.eqb uri "" then Ok {| url_Scheme := ""; url_Host := "" |} else @url_parse example_parser uri;
|}.

(** An issuer whose end-session endpoint is the empty string resolves, and then
    every redirect counts as a logout request: the login parameters are not added
    to the authorize request, and a redirect of the application itself loses its
    [post_logout_redirect_uri]. *)
Theorem empty_end_session_endpoint :
  match ResolveDiscoveryDocument redirecting_policy (example_discovery "") with
  | Ok uris =>
      match read_script (alc_LuaScript (redirecting_config uris)) with
      | Some (c, _) =>
          envoy_on_response c (Some "302") (Some "https://idp.example/authorize?client_id=x") =
            Some (Some "https://idp.example/authorize?client_id=x") ∧
          envoy_on_response c (Some "302") (Some "/app?a=b&post_logout_redirect_uri=z") = Some (Some "/app?a=b")
      | None => False
      end
  | _ => False
  end.
Proof. vm_compute. auto. Qed.

(** Rewriting a query drops the parameters without a value and cuts values at an
    equals sign. *)
Theorem rewrite_loses_values :
  match read_script (alc_LuaScript (redirecting_config example_uris)) with
  | Some (c, _) =>
      envoy_on_response c (Some "302") (Some "https://idp.example/authorize?prompt=&state=YQ==")
  | None => None
  end = Some (Some "https://idp.example/authorize?state=YQ&ui_locales=nb").
Proof. vm_compute. reflexivity. Qed.
