(* ===== verification/Generators.v ===== *)
(** * RequestAuthentication, Secret and EnvoyFilter (pkg/resourcegenerators)

    The generators other than the AuthorizationPolicies. A generator returns a nil
    pointer ([None]) when the object is not wanted, and the panics of the code are
    [Panic]. *)

From S2P Require Import Prelude GoStrings Api Objects State Kube LuaScript.

(** ** requestauthentication/request_authentication.go *)

Definition request_authentication_GetDesired (sc : Scope) (meta : ObjectMeta) : option RequestAuthentication :=
  let spec := Spec (sc_AuthPolicy sc) in
  if negb (Enabled spec) then None
  else if sc_InvalidConfig sc then None
  else
    Some {| ra_Meta := meta; ra_Selector := MatchLabels (Selector spec);
            ra_JwtRules := [{|
              jwt_Issuer := IssuerURI (sc_IdentityProviderUris sc);
              jwt_Audiences := sc_Audiences sc;
              jwt_JwksUri := JwksURI (sc_IdentityProviderUris sc);
              jwt_ForwardOriginalToken := match ForwardJwt spec with Some b => b | None => true end;
              jwt_OutputClaimToHeaders :=
                match OutputClaimToHeaders spec with
                | Some cs => (λ c, (cth_Header c, cth_Claim c)) <$> cs
                | None => []
                end |}] |}.

(** ** secret/auto_login_secret.go *)

Definition TokenSecretFileName : string := "token-secret.yaml".
Definition HmacSecretFileName : string := "hmac-secret.yaml".
Definition IstioTokenSecretSource : string := "/etc/istio/config/" +:+ TokenSecretFileName.
Definition IstioHmacSecretSource : string := "/etc/istio/config/" +:+ HmacSecretFileName.
Definition IstioCredentialsDirectory : string := "/etc/istio/config".

(** [yaml.Marshal] of kyaml. *)
Class Yaml := { yaml_marshal : Value → go string }.

(** [base64.StdEncoding]. *)
Definition base64_char (n : nat) : ascii :=
  ascii_of_nat (if Nat.ltb n 26 then 65 + n else if Nat.ltb n 52 then 71 + n
                else if Nat.ltb n 62 then n - 4 else if Nat.eqb n 62 then 43 else 47).

Definition base64_quad (a b c : nat) : list ascii :=
  [base64_char (Nat.div a 4); base64_char (Nat.modulo a 4 * 16 + Nat.div b 16);
   base64_char (Nat.modulo b 16 * 4 + Nat.div c 64); base64_char (Nat.modulo c 64)].

Fixpoint base64_list (l : list nat) : list ascii :=
  match l with
  | [] => []
  | [a] => take 2 (base64_quad a 0 0) ++ ["="; "="]%char
  | [a; b] => take 3 (base64_quad a b 0) ++ ["="%char]
  | a :: b :: c :: l => base64_quad a b c ++ base64_list l
  end.

Definition base64_encode (s : string) : string :=
  String.string_of_list_ascii (base64_list (nat_of_ascii <$> String.list_ascii_of_string s)).

(** What [crypto/rand] yields for a request of [size] bytes. *)
Definition Random : Type := nat → go string.

Definition GenerateHMACSecret (rand : Random) (size : nat) : go string :=
  secret ← wrap_err "failed to generate HMAC secret: " (rand size); Ok (base64_encode secret).

Section secret.
Context `{Yaml}.

Definition getEnvoySecretDataValue (resourceName secret secretType : string) : go string :=
  wrap_err "failed to marshal yaml: " (yaml_marshal (VMap [
    ("resources", VList [VMap [
       ("@type", VStr "type.googleapis.com/envoy.extensions.transport_sockets.tls.v3.Secret");
       ("name", VStr resourceName);
       ("generic_secret", VMap [("secret", VMap [(secretType, VStr secret)])])]])])).

Definition getEnvoySecret (rand : Random) (meta : ObjectMeta) (clientSecret : string) : go Secret :=
  hmacSecret ← GenerateHMACSecret rand 32;
  hmacSecretDataValue ← getEnvoySecretDataValue "hmac" hmacSecret "inline_bytes";
  tokenSecretDataValue ← getEnvoySecretDataValue "token" clientSecret "inline_string";
  Ok {| secret_Meta := meta; secret_Type := "Opaque";
        secret_Data := <[TokenSecretFileName := tokenSecretDataValue]>
                         {[ HmacSecretFileName := hmacSecretDataValue ]} |}.

(** [!Enabled || InvalidConfig || AutoLogin == nil || !AutoLogin.Enabled]. *)
Definition auto_login_off (sc : Scope) : bool :=
  negb (Enabled (Spec (sc_AuthPolicy sc))) || sc_InvalidConfig sc || negb (auto_login_enabled (sc_AuthPolicy sc)).

Definition secret_GetDesired (rand : Random) (sc : Scope) (meta : ObjectMeta) : go (option Secret) :=
  if auto_login_off sc then Ok None
  else
    clientSecret ← deref (ClientSecret (sc_OAuthCredentials sc));
    match getEnvoySecret rand meta clientSecret with
    | Ok s => Ok (Some s)
    | Err _ => Ok None
    | Panic m => Panic m
    end.
End secret.

(** ** envoyfilter/configpatch *)

Definition GetLuaScriptConfigPatch (sc : Scope) : Value := VMap [
  ("name", VStr "envoy.filters.http.lua");
  ("typed_config", VMap [
     ("@type", VStr "type.googleapis.com/envoy.extensions.filters.http.lua.v3.Lua");
     ("default_source_code", VMap [("inline_string", VStr (alc_LuaScript (sc_AutoLoginConfig sc)))])])].

Definition oauth_load_assignment (idpHostname : string) (port : Z) : Value := VMap [
  ("cluster_name", VStr "oauth");
  ("endpoints", VList [VMap [
     ("lb_endpoints", VList [VMap [
        ("endpoint", VMap [
           ("address", VMap [
              ("socket_address", VMap [("address", VStr idpHostname); ("port_value", VNum port)])])])]])]])].

Definition oauth_cluster_common : list (string * Value) := [
  ("name", VStr "oauth");
  ("dns_lookup_family", VStr "V4_ONLY");
  ("type", VStr "LOGICAL_DNS");
  ("connect_timeout", VStr "10s");
  ("lb_policy", VStr "ROUND_ROBIN")].

Definition GetInternalOAuthClusterConfigPatchValue (idpHostname : string) (port : Z) : Value :=
  VMap (oauth_cluster_common ++ [("load_assignment", oauth_load_assignment idpHostname port)]).

Definition GetExternalOAuthClusterPatchValue (idpHostname : string) : Value :=
  VMap (oauth_cluster_common ++ [
    ("transport_socket", VMap [
       ("name", VStr "envoy.transport_sockets.tls");
       ("typed_config", VMap [
          ("@type", VStr "type.googleapis.com/envoy.extensions.transport_sockets.tls.v3.UpstreamTlsContext");
          ("sni", VStr idpHostname)])]);
    ("load_assignment", oauth_load_assignment idpHostname 443)]).

(** A secret read by Envoy from a file that Istio mounts. *)
Definition sds_secret (name path : string) : Value := VMap [
  ("name", VStr name);
  ("sds_config", VMap [
     ("path_config_source", VMap [
        ("path", VStr path);
        ("watched_directory", VMap [("path", VStr IstioCredentialsDirectory)])])])].

Definition exact_header (name value : string) : Value :=
  VMap [("name", VStr name); ("string_match", VMap [("exact", VStr value)])].

Definition lax : Value := VMap [("same_site", VStr "LAX")].

Definition auth_scopes (scopes : list string) : list string :=
  if bool_decide ("openid" ∈ scopes) then scopes else scopes ++ ["openid"].

Definition GetOAuthSidecarConfigPatchValue (sc : Scope) : go Value :=
  let cfg := sc_AutoLoginConfig sc in
  let uris := sc_IdentityProviderUris sc in
  clientID ← deref (ClientID (sc_OAuthCredentials sc));
  let value := VMap [
    ("token_endpoint", VMap [("cluster", VStr "oauth"); ("uri", VStr (TokenURI uris)); ("timeout", VStr "5s")]);
    ("retry_policy", VMap []);
    ("authorization_endpoint", VStr (AuthorizationURI uris));
    ("redirect_uri", VStr ("https://%REQ(:authority)%" +:+ alc_RedirectPath cfg));
    ("redirect_path_matcher", VMap [("path", VMap [("exact", VStr (alc_RedirectPath cfg))])]);
    ("signout_path", VMap [("path", VMap [("exact", VStr (alc_LogoutPath cfg))])]);
    ("forward_bearer_token", VBool true);
    ("use_refresh_token", VBool true);
    ("pass_through_matcher", VList [
       VMap [("name", VStr "authorization"); ("string_match", VMap [("prefix", VStr "Bearer ")])];
       exact_header BypassOauthLoginHeaderName "true"]);
    ("deny_redirect_matcher", VList [exact_header DenyRedirectHeaderName "true"]);
    ("credentials", VMap [
       ("client_id", VStr clientID);
       ("token_secret", sds_secret "token" IstioTokenSecretSource);
       ("hmac_secret", sds_secret "hmac" IstioHmacSecretSource)]);
    ("auth_scopes", VList (VStr <$> auth_scopes (alc_Scopes cfg)));
    ("cookie_configs", VMap [
       ("bearer_token_cookie_config", lax); ("oauth_hmac_cookie_config", lax);
       ("oauth_expires_cookie_config", lax); ("id_token_cookie_config", lax);
       ("refresh_token_cookie_config", lax); ("oauth_nonce_cookie_config", lax);
       ("code_verifier_cookie_config", lax)])] in
  let value :=
    match AcceptedResources (Spec (sc_AuthPolicy sc)) with
    | Some (_ :: _ as resources) => set_field "resources" (VList (VStr <$> resources)) value
    | _ => value
    end in
  let value :=
    match EndSessionURI uris with
    | Some u => set_field "end_session_endpoint" (VStr u) value
    | None => value
    end in
  Ok (VMap [
    ("name", VStr "envoy.filters.http.oauth2");
    ("typed_config", VMap [
       ("@type", VStr "type.googleapis.com/envoy.extensions.filters.http.oauth2.v3.OAuth2");
       ("config", value)])]).

(** ** envoyfilter/auto_login_envoy_filter.go *)

(** [strings.LastIndexByte(s, ':')]: what is before and after the last colon. *)
Fixpoint last_colon (s : string) : option (string * string) :=
  match s with
  | "" => None
  | String c s =>
      match last_colon s with
      | Some (before, after) => Some (String c before, after)
      | None => if Ascii.eqb c ":" then Some ("", s) else None
      end
  end.

Definition is_digit (c : ascii) : bool := Nat.leb 48 (nat_of_ascii c) && Nat.leb (nat_of_ascii c) 57.

(** [URL.Hostname] and [URL.Port] of net/url. *)
Definition splitHostPort (hostPort : string) : string * string :=
  let '(host, port) :=
    match last_colon hostPort with
    | Some (host, port) => if all_chars is_digit port then (host, port) else (hostPort, "")
    | None => (hostPort, "")
    end in
  if HasPrefix host "[" && HasSuffix host "]"
  then (str_take (String.length host - 2) (str_drop 1 host), port) else (host, port).

Definition Hostname (u : URL) : string := (splitHostPort (url_Host u)).1.
Definition Port (u : URL) : string := (splitHostPort (url_Host u)).2.

(** [strconv.Atoi] on a string of digits: an [int] has 64 bits. *)
Fixpoint digits_value (acc : Z) (s : string) : Z :=
  match s with
  | "" => acc
  | String c s => digits_value (acc * 10 + (Z.of_nat (nat_of_ascii c) - 48)) s
  end.

Definition max_int : Z := 2 ^ 63 - 1.

Definition Atoi (s : string) : go Z :=
  let fail why := Err ("strconv.Atoi: parsing " +:+ dq +:+ s +:+ dq +:+ ": " +:+ why) in
  if String.eqb s "" || negb (all_chars is_digit s) then fail "invalid syntax"
  else
    let n := digits_value 0 s in
    if Z.leb n max_int then Ok n else fail "value out of range".

(** [structpb.NewStruct]: it fails on strings that are not UTF-8. *)
Class StructPb := { new_struct : Value → go Value }.

(** A failed computation whose error the code passes to [panic]. *)
Definition or_panic {A} (prefix : string) (m : go A) : go A :=
  match m with Err e => Panic (prefix +:+ e) | m => m end.

Section envoy_filter.
Context `{UrlParser} `{StructPb}.

Definition http_connection_manager : string := "envoy.filters.network.http_connection_manager".

Definition envoy_filter_GetDesired (sc : Scope) (meta : ObjectMeta) : go (option EnvoyFilter) :=
  if auto_login_off sc then Ok None
  else
    let uris := sc_IdentityProviderUris sc in
    idpAsParsedURL ← or_panic ("failed to get issuer hostname from issuer URI " +:+ IssuerURI uris +:+
                               " due to the following error: ") (GetParsedURL (TokenURI uris));
    oAuthClusterConfigPatchValue ←
      (if negb (String.eqb (Port idpAsParsedURL) "") then
         port ← or_panic "" (Atoi (Port idpAsParsedURL));
         Ok (GetInternalOAuthClusterConfigPatchValue (Hostname idpAsParsedURL) port)
       else Ok (GetExternalOAuthClusterPatchValue (url_Host idpAsParsedURL)));
    luaScriptConfigPatchValue ←
      or_panic "failed to serialize Lua script config patch value due to the following error: "
        (new_struct (GetLuaScriptConfigPatch sc));
    oAuthCluster ←
      or_panic "failed to serialize OAuth Cluster Config Patch to protobuf struct due to the following error: "
        (new_struct oAuthClusterConfigPatchValue);
    sidecar ← GetOAuthSidecarConfigPatchValue sc;
    oAuthSidecar ←
      or_panic "failed to serialize OAuth Sidecar Config Patch to protobuf struct due to the following error: "
        (new_struct sidecar);
    Ok (Some {|
      ef_Meta := meta;
      ef_ConfigPatches := [
        {| patch_ApplyTo := HTTP_FILTER; patch_Match := MatchListener true http_connection_manager None;
           patch_Operation := INSERT_BEFORE; patch_Value := luaScriptConfigPatchValue |};
        {| patch_ApplyTo := CLUSTER; patch_Match := MatchCluster "oauth";
           patch_Operation := ADD; patch_Value := oAuthCluster |};
        {| patch_ApplyTo := HTTP_FILTER;
           patch_Match := MatchListener true http_connection_manager (Some "envoy.filters.http.jwt_authn");
           patch_Operation := INSERT_BEFORE; patch_Value := oAuthSidecar |}];
      ef_WorkloadSelector := MatchLabels (Selector (Spec (sc_AuthPolicy sc))) |}).
End envoy_filter.
