(* ===== verification/GeneratorFacts.v ===== *)
(** * The auto-login objects fit together

    The EnvoyFilter and the Secret are generated without panic for an admitted
    policy whose references resolved, the filter's matchers react to the headers
    the Lua script adds, and it reads its secrets under the names the Secret has. *)

From S2P Require Import Prelude GoStrings Api Objects State Examples Kube LuaPattern LuaRead LuaScript Resolver.
From S2P Require Import ResolverFacts Generators.

Fixpoint value_utf8 (v : Value) : bool :=
  match v with
  | VStr s => utf8_valid s
  | VNum _ | VBool _ => true
  | VStruct fs => forallb (λ kv, utf8_valid kv.1 && value_utf8 kv.2) fs
  | VList vs => forallb value_utf8 vs
  end.

(** *** Numbers

    A number of structpb is a [float64]: an [int] becomes the nearest one, of two
    equally near the one with an even significand of 53 bits. *)
Definition float64 (z : Z) : Z :=
  let a := Z.abs z in
  if Z.leb a (2 ^ 53) then z
  else
    let e := (Z.log2 a - 52)%Z in
    let m := (a / 2 ^ e)%Z in
    let r := (a mod 2 ^ e)%Z in
    let half := (2 ^ (e - 1))%Z in
    let m := if Z.ltb r half || (Z.eqb r half && Z.even m) then m else (m + 1)%Z in
    (Z.sgn z * (m * 2 ^ e))%Z.

Fixpoint floats (v : Value) : Value :=
  match v with
  | VNum z => VNum (float64 z)
  | VStruct fs => VStruct ((λ kv, (kv.1, floats kv.2)) <$> fs)
  | VList vs => VList (floats <$> vs)
  | v => v
  end.

(** The documented behaviour of [structpb.NewStruct]. *)
Class StructPbLaws `{StructPb} := {
  new_struct_utf8 v : value_utf8 v = true → new_struct v = Ok (floats v);
  new_struct_invalid v : value_utf8 v = false → is_ok (new_struct v) = false ∧ is_panic (new_struct v) = false;
}.

Lemma float64_small z : (Z.abs z ≤ 2 ^ 53)%Z → float64 z = z.
Proof. intros H. unfold float64. by rewrite (proj2 (Z.leb_le _ _) H). Qed.

(** The error of the rounding: half a unit in the last place. *)
Lemma float64_error z : (2 ^ 53 < z < 2 ^ 63)%Z → (Z.abs (float64 z - z) ≤ 512)%Z.
Proof.
  intros [Hlo Hhi]. unfold float64. cbv zeta. rewrite (Z.abs_eq z) by lia.
  rewrite (proj2 (Z.leb_gt z (2 ^ 53)) Hlo), Z.sgn_pos by lia.
  assert (53 ≤ Z.log2 z)%Z as H1 by (apply Z.log2_le_pow2; lia).
  assert (Z.log2 z < 63)%Z as H2 by (apply Z.log2_lt_pow2; lia).
  set (e := (Z.log2 z - 52)%Z).
  assert (2 ^ e = 2 * 2 ^ (e - 1))%Z as Hp by (rewrite <-Z.pow_succ_r by lia; f_equal; lia).
  assert (2 ^ (e - 1) ≤ 512)%Z as Hb by (change 512%Z with (2 ^ 9)%Z; apply Z.pow_le_mono_r; lia).
  assert (0 < 2 ^ (e - 1))%Z as Hpos by (apply Z.pow_pos_nonneg; lia).
  pose proof (Z.div_mod z (2 ^ e) ltac:(lia)) as Hdm. pose proof (Z.mod_pos_bound z (2 ^ e) ltac:(lia)) as Hm.
  set (m := (z / 2 ^ e)%Z) in *. set (r := (z mod 2 ^ e)%Z) in *. set (h := (2 ^ (e - 1))%Z) in *.
  rewrite Z.mul_1_l, Hp in *.
  destruct (Z.ltb_spec r h), (Z.eqb_spec r h), (Z.even m); cbn [orb andb]; lia.
Qed.

(** *** The values the operator builds *)

Lemma value_utf8_insert k v l :
  utf8_valid k = true → value_utf8 v = true → value_utf8 (VStruct l) = true →
  value_utf8 (VStruct (insert_field k v l)) = true.
Proof.
  cbn [value_utf8]. intros Hk Hv. induction l as [|[k' v'] l IH]; cbn [insert_field forallb fst snd].
  - by rewrite Hk, Hv.
  - intros Hl. apply andb_true_iff in Hl as [Hkv Hl].
    destruct (String.eqb k k'), (String.leb k k'); cbn [forallb fst snd]; rewrite ?Hk, ?Hv, ?Hkv, ?Hl; try done;
      by rewrite IH.
Qed.

Lemma value_utf8_map fs :
  Forall (λ kv, utf8_valid kv.1 = true ∧ value_utf8 kv.2 = true) fs → value_utf8 (VMap fs) = true.
Proof.
  unfold VMap. assert (value_utf8 (VStruct []) = true) as H0 by done. revert H0. generalize (@nil (string * Value)).
  induction fs as [|[k v] fs IH]; intros l Hl Hf; [done|]. cbn [foldl fst snd].
  apply Forall_cons_iff in Hf as [[Hk Hv] Hf]. apply IH; [|done]. by apply value_utf8_insert.
Qed.

Lemma value_utf8_set_field k v s :
  utf8_valid k = true → value_utf8 v = true → value_utf8 s = true → value_utf8 (set_field k v s) = true.
Proof. destruct s; [done..| |done]. cbn [set_field]. apply value_utf8_insert. Qed.

Lemma value_utf8_strings l : Forall (λ s, utf8_valid s = true) l → value_utf8 (VList (VStr <$> l)) = true.
Proof. cbn. induction 1 as [|s l Hs _ IH]; [done|]. cbn. by rewrite Hs. Qed.

Lemma value_utf8_list l : Forall (λ v, value_utf8 v = true) l → value_utf8 (VList l) = true.
Proof. cbn. induction 1 as [|s l Hs _ IH]; [done|]. cbn. by rewrite Hs. Qed.

Ltac utf8 :=
  repeat lazymatch goal with
  | |- value_utf8 (VMap _) = true => apply value_utf8_map
  | |- value_utf8 (set_field _ _ _) = true => apply value_utf8_set_field
  | |- value_utf8 (VList (VStr <$> _)) = true => apply value_utf8_strings
  | |- value_utf8 (VList _) = true => apply value_utf8_list
  | |- value_utf8 (VStr ?s) = true => change (utf8_valid s = true)
  | |- value_utf8 _ = true => reflexivity
  | |- utf8_valid (_ +:+ _) = true => first [assumption | apply utf8_valid_app]
  | |- utf8_valid _ = true => first [assumption | reflexivity]
  | |- Forall _ (_ :: _) => apply List.Forall_cons
  | |- Forall _ [] => apply List.Forall_nil
  | |- Forall _ (_ ++ _) => apply List.Forall_app
  | |- Forall _ _ => assumption
  | |- _ ∧ _ => split; cbn [fst snd]
  end.

Record texts_utf8 (sc : Scope) (u : URL) : Prop := {
  tu_token : utf8_valid (TokenURI (sc_IdentityProviderUris sc)) = true;
  tu_authorization : utf8_valid (AuthorizationURI (sc_IdentityProviderUris sc)) = true;
  tu_end_session : utf8_valid (default "" (EndSessionURI (sc_IdentityProviderUris sc))) = true;
  tu_redirect : utf8_valid (alc_RedirectPath (sc_AutoLoginConfig sc)) = true;
  tu_logout : utf8_valid (alc_LogoutPath (sc_AutoLoginConfig sc)) = true;
  tu_script : utf8_valid (alc_LuaScript (sc_AutoLoginConfig sc)) = true;
  tu_scopes : Forall (λ s, utf8_valid s = true) (alc_Scopes (sc_AutoLoginConfig sc));
  tu_resources : Forall (λ s, utf8_valid s = true) (default [] (AcceptedResources (Spec (sc_AuthPolicy sc))));
  tu_client : utf8_valid (default "" (ClientID (sc_OAuthCredentials sc))) = true;
  tu_host : utf8_valid (url_Host u) = true ∧ utf8_valid (Hostname u) = true;
}.

Lemma auth_scopes_utf8 l : Forall (λ s, utf8_valid s = true) l → Forall (λ s, utf8_valid s = true) (auth_scopes l).
Proof.
  intros H. unfold auth_scopes. case_bool_decide; [done|]. apply Forall_app. split; [done|]. by repeat constructor.
Qed.

Lemma sidecar_utf8 sc u cid :
  texts_utf8 sc u → ClientID (sc_OAuthCredentials sc) = Some cid →
  ∃ v, GetOAuthSidecarConfigPatchValue sc = Ok v ∧ value_utf8 v = true.
Proof.
  intros [Ht Ha He Hr Hl _ Hs Hres Hc _] Hid. unfold GetOAuthSidecarConfigPatchValue.
  rewrite Hid in *. change (utf8_valid cid = true) in Hc. cbn [deref mbind go_bind]. cbv zeta.
  eexists. split; [reflexivity|]. apply auth_scopes_utf8 in Hs.
  unfold exact_header, lax, sds_secret.
  destruct (AcceptedResources _) as [[|r rs]|], (EndSessionURI _) as [e|]; cbn [default from_option] in *;
    try (apply Forall_cons_iff in Hres as [??]); utf8.
Qed.

Section total.
Context `{Reader} `{UrlParser} `{!StructPb} `{!StructPbLaws} `{Yaml}.

(** The port of the token endpoint fits an [int]. *)
Definition port_ok (u : URL) : Prop := Port u = "" ∨ is_ok (Atoi (Port u)) = true.

Lemma envoy_filter_total sc meta u id :
  auto_login_off sc = false → ClientID (sc_OAuthCredentials sc) = Some id →
  url_parse (TokenURI (sc_IdentityProviderUris sc)) = Ok u → port_ok u → texts_utf8 sc u →
  ∃ f, envoy_filter_GetDesired sc meta = Ok (Some f).
Proof.
  intros Hon Hid Hu Hport Htexts. destruct (sidecar_utf8 sc u id Htexts Hid) as (v & Hv & Hvu).
  unfold envoy_filter_GetDesired. rewrite Hon. cbv zeta. unfold GetParsedURL. rewrite Hu.
  cbn [or_panic mbind go_bind]. destruct Htexts as [_ _ _ _ _ Hs _ _ _ [Hhost Hname]].
  assert (∃ c, (if negb (String.eqb (Port u) "") then
       port ← or_panic "" (Atoi (Port u)); Ok (GetInternalOAuthClusterConfigPatchValue (Hostname u) port)
     else Ok (GetExternalOAuthClusterPatchValue (url_Host u))) = Ok c ∧ value_utf8 c = true) as (c & -> & Hc).
  { destruct (String.eqb_spec (Port u) "") as [|Hne]; cbn [negb].
    - eexists. split; [done|]. unfold GetExternalOAuthClusterPatchValue, oauth_load_assignment, oauth_cluster_common. utf8.
    - destruct Hport as [|Hp]; [done|]. destruct (Atoi (Port u)); try done. cbn [or_panic mbind go_bind].
      eexists. split; [done|]. unfold GetInternalOAuthClusterConfigPatchValue, oauth_load_assignment, oauth_cluster_common. utf8. }
  cbn [mbind go_bind]. rewrite (new_struct_utf8 (GetLuaScriptConfigPatch sc)) by (unfold GetLuaScriptConfigPatch; utf8).
  cbn [or_panic mbind go_bind]. rewrite (new_struct_utf8 c), Hv by done. cbn [or_panic mbind go_bind].
  rewrite (new_struct_utf8 v) by done. cbn [or_panic mbind go_bind]. eauto.
Qed.

Lemma secret_total rand sc meta sec :
  ClientSecret (sc_OAuthCredentials sc) = Some sec →
  (∀ n, is_panic (rand n) = false) → (∀ v, is_panic (yaml_marshal v) = false) →
  ∃ s, secret_GetDesired rand sc meta = Ok s ∧ (auto_login_off sc = true → s = None).
Proof.
  intros Hs Hr Hy. unfold secret_GetDesired. destruct (auto_login_off sc); [by eexists|].
  rewrite Hs. cbn [deref mbind go_bind].
  destruct (getEnvoySecret rand meta sec) eqn:Hg; [by eexists|by eexists|]. exfalso.
  revert Hg. unfold getEnvoySecret, GenerateHMACSecret, getEnvoySecretDataValue.
  repeat match goal with
  | |- context [rand ?n] => pose proof (Hr n); destruct (rand n); [|done|done]; cbn [wrap_err mbind go_bind]
  | |- context [yaml_marshal ?v] =>
      pose proof (Hy v); destruct (yaml_marshal v); [|done|done]; cbn [wrap_err mbind go_bind]
  end. done.
Qed.

Lemma resolved_credentials ap sc :
  Spec_admissible (Spec ap) = true → auto_login_enabled ap = true →
  ResolveOAuthCredentials ap = Ok (sc_OAuthCredentials sc) →
  ∃ id sec, ClientID (sc_OAuthCredentials sc) = Some id ∧ ClientSecret (sc_OAuthCredentials sc) = Some sec.
Proof.
  intros Hadm Hal Hc%ResolveOAuthCredentials_ok. destruct (Spec_admissible_credentials _ Hadm Hal) as [ref Href].
  rewrite Href, Hal in Hc. destruct Hc as (s & id & sec & _ & _ & _ & _ & _ & ->). eauto.
Qed.

(** ** Properties *)

(** For an admitted policy whose credentials resolved and whose token
    endpoint parses with a port that fits an [int], if the texts are UTF-8 neither
    generator panics: the dereferences of the client id and secret are safe, and
    the EnvoyFilter is generated exactly when auto-login is on. *)
Theorem auto_login_objects_total rand sc smeta fmeta u :
  let ap := sc_AuthPolicy sc in
  Spec_admissible (Spec ap) = true → ResolveOAuthCredentials ap = Ok (sc_OAuthCredentials sc) →
  url_parse (TokenURI (sc_IdentityProviderUris sc)) = Ok u → port_ok u → texts_utf8 sc u →
  (∀ n, is_panic (rand n) = false) → (∀ v, is_panic (yaml_marshal v) = false) →
  is_ok (secret_GetDesired rand sc smeta) = true ∧
  ∃ f, envoy_filter_GetDesired sc fmeta = Ok f ∧ (f = None ↔ auto_login_off sc = true).
Proof.
  intros ap Hadm Hcr Hu Hp Ht Hr Hy. destruct (auto_login_off sc) eqn:Hoff.
  - unfold secret_GetDesired, envoy_filter_GetDesired. rewrite Hoff. split; [done|]. by eexists.
  - assert (auto_login_enabled ap = true) as Hal.
    { unfold auto_login_off in Hoff. apply orb_false_iff in Hoff as [_ Hal]. by apply negb_false_iff in Hal. }
    destruct (resolved_credentials ap sc Hadm Hal Hcr) as (id & sec & Hid & Hsec). split.
    + by destruct (secret_total rand sc smeta sec Hsec Hr Hy) as (s & -> & _).
    + destruct (envoy_filter_total sc fmeta u id Hoff Hid Hu Hp Ht) as [f ->]. by exists (Some f).
Qed.
End total.

(** ** Fields of a value *)

Fixpoint assoc (k : string) (l : list (string * Value)) : option Value :=
  match l with
  | [] => None
  | (k', v) :: l => if String.eqb k k' then Some v else assoc k l
  end.

Fixpoint value_at (path : list string) (v : Value) : option Value :=
  match path with
  | [] => Some v
  | k :: path => match v with VStruct fs => w ← assoc k fs; value_at path w | _ => None end
  end.

Definition sidecar_config : list string := ["typed_config"; "config"].

Lemma sidecar_fields sc v :
  GetOAuthSidecarConfigPatchValue sc = Ok v →
  value_at (sidecar_config ++ ["pass_through_matcher"]) v =
    Some (VList [VMap [("name", VStr "authorization"); ("string_match", VMap [("prefix", VStr "Bearer ")])];
                 exact_header BypassOauthLoginHeaderName "true"]) ∧
  value_at (sidecar_config ++ ["deny_redirect_matcher"]) v = Some (VList [exact_header DenyRedirectHeaderName "true"]) ∧
  value_at (sidecar_config ++ ["credentials"; "token_secret"]) v = Some (sds_secret "token" IstioTokenSecretSource) ∧
  value_at (sidecar_config ++ ["credentials"; "hmac_secret"]) v = Some (sds_secret "hmac" IstioHmacSecretSource).
Proof.
  unfold GetOAuthSidecarConfigPatchValue. intros (cid & _ & <-%Ok_inj)%go_bind_ok. cbv zeta.
  destruct (AcceptedResources _) as [[|r rs]|], (EndSessionURI _) as [e|]; split_and!; reflexivity.
Qed.

(** Claim C30. The OAuth2 filter reacts to exactly what the Lua script adds: the
    header the script adds for a request is one that the filter's pass-through
    (deny-redirect) matchers list if and only if the script decided to bypass the
    login (to deny the redirect). *)
Theorem oauth_filter_follows_script sc v :
  GetOAuthSidecarConfigPatchValue sc = Ok v →
  ∃ pass deny_redirect,
    value_at (sidecar_config ++ ["pass_through_matcher"]) v = Some (VList pass) ∧
    value_at (sidecar_config ++ ["deny_redirect_matcher"]) v = Some (VList deny_redirect) ∧
    ∀ c path method headers, envoy_on_request c path method = Some headers →
      ∃ bypass deny, headers = [(BypassOauthLoginHeaderName, tostring bypass); (DenyRedirectHeaderName, tostring deny)] ∧
        (exact_header BypassOauthLoginHeaderName (tostring bypass) ∈ pass ↔ bypass = true) ∧
        (exact_header DenyRedirectHeaderName (tostring deny) ∈ deny_redirect ↔ deny = true).
Proof.
  intros (Hp & Hd & _)%sidecar_fields. eexists _, _. split_and!; [exact Hp|exact Hd|].
  intros c path method headers. unfold envoy_on_request. cbv zeta.
  destruct (lua_prefix_match _ _) as [[p|]|]; try done. cbn [mbind option_bind].
  destruct (should_bypass _ _ _) as [bypass|]; [|done]. destruct (should_deny_redirect _ _ _) as [deny|]; [|done].
  cbn [mbind option_bind]. intros [= <-]. exists bypass, deny. split; [done|].
  rewrite !elem_of_cons, !elem_of_nil. split.
  - destruct bypass; cbn [tostring]; (split; [|try done]); [done|by right; left|].
    intros [H|[H|[]]]; vm_compute in H; discriminate H.
  - destruct deny; cbn [tostring]; (split; [|try done]); [done|by left|].
    intros [H|[]]; vm_compute in H; discriminate H.
Qed.

(** Claim C31. The filter reads its secrets where they are: each of its two SDS
    secrets is read from a file of the mounted directory whose name is a key of
    the generated Secret, and the text under that key is the resource of the name
    the filter asks for. *)
Theorem sds_secrets_exist `{Yaml} rand sc meta s v :
  secret_GetDesired rand sc meta = Ok (Some s) → GetOAuthSidecarConfigPatchValue sc = Ok v →
  Forall (λ field, ∃ name key secret secretType text,
      value_at (sidecar_config ++ ["credentials"; field; "name"]) v = Some (VStr name) ∧
      value_at (sidecar_config ++ ["credentials"; field; "sds_config"; "path_config_source"; "path"]) v =
        Some (VStr (IstioCredentialsDirectory +:+ "/" +:+ key)) ∧
      secret_Data s !! key = Some text ∧
      getEnvoySecretDataValue name secret secretType = Ok text)
    ["token_secret"; "hmac_secret"].
Proof.
  unfold secret_GetDesired. destruct (auto_login_off sc); [done|]. intros (cs & _ & Hs)%go_bind_ok Hv.
  destruct (getEnvoySecret rand meta cs) as [s'|e|m] eqn:Hg; [|done..].
  assert (s' = s) as -> by (apply Ok_inj in Hs; congruence).
  apply go_bind_ok in Hg as (hm & _ & (ht & Hht & (tt & Htt & <-%Ok_inj)%go_bind_ok)%go_bind_ok).
  cbn [secret_Data]. unfold GetOAuthSidecarConfigPatchValue in Hv. apply go_bind_ok in Hv as (cid & _ & <-%Ok_inj).
  cbv zeta. repeat constructor.
  - exists "token", TokenSecretFileName, cs, "inline_string", tt.
    split_and!; [..|by rewrite lookup_insert_eq|done];
      destruct (AcceptedResources _) as [[|r rs]|], (EndSessionURI _) as [e|]; reflexivity.
  - exists "hmac", HmacSecretFileName, hm, "inline_bytes", ht.
    split_and!; [..|by rewrite lookup_insert_ne, lookup_singleton_eq by done|done];
      destruct (AcceptedResources _) as [[|r rs]|], (EndSessionURI _) as [e|]; reflexivity.
Qed.

(** *** Concrete objects *)

Definition example_pb : StructPb := {| new_struct v := if value_utf8 v then Ok (floats v) else Err "invalid UTF-8" |}.

Definition example_pb_laws : @StructPbLaws example_pb.
Proof. split; intros v Hv; cbn; by rewrite Hv. Qed.

Definition example_yaml : Yaml := {| yaml_marshal _ := Ok "resources" |}.

#[local] Existing Instances example_reader example_parser example_pb example_pb_laws example_yaml.

Definition login_policy : AuthPolicy := example_policy (Some (example_login None)) 1 [] [].

Definition login_config : AutoLoginConfig := SetSaneDefaults no_login_config (example_login None).

Definition login_scope (uris : IdentityProviderUris) : Scope :=
  {| sc_AuthPolicy := login_policy; sc_Audiences := ["aud"]; sc_AutoLoginConfig := login_config;
     sc_OAuthCredentials := {| ClientID := Some "client"; ClientSecret := Some "hunter2" |};
     sc_IdentityProviderUris := uris; sc_Descendants := [];
     sc_InvalidConfig := false; sc_ValidationErrorMessage := None |}.

Definition example_rand : Random := λ n, Ok (GoStrings.repeat_char n "x").

Lemma auto_login_objects_total_witness :
  let m := plain_meta "team" "app" in
  is_ok (secret_GetDesired example_rand (login_scope example_uris) m) = true ∧
  ∃ f, envoy_filter_GetDesired (login_scope example_uris) m = Ok f ∧
       (f = None ↔ auto_login_off (login_scope example_uris) = true).
Proof.
  apply (auto_login_objects_total example_rand (login_scope example_uris) _ _ {| url_Scheme := "https"; url_Host := "idp.example" |}).
  - vm_compute. reflexivity.
  - vm_compute. reflexivity.
  - vm_compute. reflexivity.
  - left. reflexivity.
  - split; try (vm_compute; reflexivity); [repeat constructor..|by split].
  - done.
  - done.
Defined.

Lemma sds_secrets_exist_witness :
  match secret_GetDesired example_rand (login_scope example_uris) (plain_meta "team" "app"),
        GetOAuthSidecarConfigPatchValue (login_scope example_uris) with
  | Ok (Some s), Ok v =>
      Forall (λ field, ∃ name key secret secretType text,
          value_at (sidecar_config ++ ["credentials"; field; "name"]) v = Some (VStr name) ∧
          value_at (sidecar_config ++ ["credentials"; field; "sds_config"; "path_config_source"; "path"]) v =
            Some (VStr (IstioCredentialsDirectory +:+ "/" +:+ key)) ∧
          secret_Data s !! key = Some text ∧
          getEnvoySecretDataValue name secret secretType = Ok text)
        ["token_secret"; "hmac_secret"]
  | _, _ => False
  end.
Proof.
  destruct (secret_GetDesired _ _ _) as [[s|]|e|m] eqn:Hs; [|vm_compute in Hs; discriminate Hs..].
  destruct (GetOAuthSidecarConfigPatchValue _) as [v|e|m] eqn:Hv; [|vm_compute in Hv; discriminate Hv..].
  exact (sds_secrets_exist example_rand (login_scope example_uris) (plain_meta "team" "app") s v Hs Hv).
Defined.

Lemma oauth_filter_follows_script_witness :
  match GetOAuthSidecarConfigPatchValue (login_scope example_uris) with
  | Ok v => ∃ pass deny_redirect,
      value_at (sidecar_config ++ ["pass_through_matcher"]) v = Some (VList pass) ∧
      value_at (sidecar_config ++ ["deny_redirect_matcher"]) v = Some (VList deny_redirect) ∧
      ∀ c path method headers, envoy_on_request c path method = Some headers →
        ∃ bypass deny, headers = [(BypassOauthLoginHeaderName, tostring bypass); (DenyRedirectHeaderName, tostring deny)] ∧
          (exact_header BypassOauthLoginHeaderName (tostring bypass) ∈ pass ↔ bypass = true) ∧
          (exact_header DenyRedirectHeaderName (tostring deny) ∈ deny_redirect ↔ deny = true)
  | _ => False
  end.
Proof.
  destruct (GetOAuthSidecarConfigPatchValue _) as [v|e|m] eqn:Hv; [|vm_compute in Hv; discriminate Hv..].
  exact (oauth_filter_follows_script (login_scope example_uris) v Hv).
Defined.

(** ** The port of the token endpoint *)

Lemma last_colon_app s before after : last_colon s = Some (before, after) → s = before +:+ ":" +:+ after.
Proof.
  revert before after. induction s as [|c s IH]; intros before after; [done|]. cbn [last_colon].
  destruct (last_colon s) as [[b a]|].
  - intros [= <- <-]. cbn. f_equal. by apply IH.
  - destruct (Ascii.eqb_spec c ":") as [->|]; [|done]. by intros [= <- <-].
Qed.

Lemma port_digits u : all_chars is_digit (Port u) = true.
Proof.
  unfold Port, splitHostPort. destruct (last_colon _) as [[host port]|].
  - destruct (all_chars is_digit port) eqn:Hp; destruct (_ && _); done.
  - by destruct (_ && _).
Qed.

(** The loop of [Atoi] only ever adds digits: no sign, no wrap-around. *)
Lemma digits_value_nonneg s acc :
  all_chars is_digit s = true → (0 ≤ acc)%Z → (acc * 10 ^ Z.of_nat (String.length s) ≤ digits_value acc s)%Z.
Proof.
  revert acc. induction s as [|c s IH]; intros acc; [cbn; lia|].
  cbn [all_chars digits_value String.length].
  intros [[Hlo%Nat.leb_le Hhi%Nat.leb_le]%andb_true_iff Hs]%andb_true_iff Hacc.
  etrans; [|apply IH; [done|lia]].
  rewrite Nat2Z.inj_succ, Z.pow_succ_r by lia.
  pose proof (Z.pow_nonneg 10 (Z.of_nat (String.length s))). nia.
Qed.

Section token_port.
Context `{UrlParser} `{!StructPb} `{!StructPbLaws}.

(** The address of the OAuth cluster, as it is read out of the generated filter. *)
Definition cluster_patch (f : EnvoyFilter) : option Value :=
  patch_Value <$> head (filter (λ p, patch_ApplyTo p = CLUSTER) (ef_ConfigPatches f)).

Definition first_of (v : Value) : option Value := match v with VList (v :: _) => Some v | _ => None end.

Definition cluster_address (f : EnvoyFilter) : option Value :=
  cluster ← cluster_patch f;
  endpoint ← value_at ["load_assignment"; "endpoints"] cluster ≫= first_of;
  lb_endpoint ← value_at ["lb_endpoints"] endpoint ≫= first_of;
  value_at ["endpoint"; "address"; "socket_address"] lb_endpoint.

Lemma internal_cluster_utf8 host port :
  utf8_valid host = true → value_utf8 (GetInternalOAuthClusterConfigPatchValue host port) = true.
Proof.
  intros Hhost. unfold GetInternalOAuthClusterConfigPatchValue, oauth_load_assignment, oauth_cluster_common. utf8.
Qed.

(** Claim C29. Bounds of the token endpoint's port, where auto-login is on. A port
    that does not fit an [int] makes the generator panic. Any other port is used,
    as the texts of the filter are UTF-8 and the client id is resolved: the filter
    is generated, and the address of its OAuth cluster is the endpoint's host with
    the number that structpb keeps of the port. Up to [2 ^ 53] that is the port itself,
    so that no limit of 65535 is enforced; above it is a rounded one, off by up to
    512. *)
Theorem token_port_bounds sc meta u id :
  auto_login_off sc = false → url_parse (TokenURI (sc_IdentityProviderUris sc)) = Ok u → Port u ≠ "" →
  ClientID (sc_OAuthCredentials sc) = Some id → texts_utf8 sc u →
  let port := digits_value 0 (Port u) in
  ((2 ^ 63 ≤ port)%Z → is_panic (envoy_filter_GetDesired sc meta) = true) ∧
  ((port < 2 ^ 63)%Z →
    ∃ f address written, envoy_filter_GetDesired sc meta = Ok (Some f) ∧ cluster_address f = Some address ∧
      value_at ["address"] address = Some (VStr (Hostname u)) ∧ value_at ["port_value"] address = Some (VNum written) ∧
      ((port ≤ 2 ^ 53)%Z → written = port) ∧ (Z.abs (written - port) ≤ 512)%Z).
Proof.
  intros Hon Hu Hport Hid Htexts port. pose proof (port_digits u) as Hd.
  assert (Atoi (Port u) = if Z.leb port max_int then Ok port
                          else Err ("strconv.Atoi: parsing " +:+ dq +:+ Port u +:+ dq +:+ ": " +:+ "value out of range")) as Hat.
  { unfold Atoi. cbv zeta. by rewrite (proj2 (String.eqb_neq _ _) Hport), Hd. }
  assert (0 ≤ port)%Z as Hpos.
  { pose proof (digits_value_nonneg (Port u) 0 Hd). unfold port. lia. }
  split; intros Hlim.
  - unfold envoy_filter_GetDesired. rewrite Hon. cbv zeta. unfold GetParsedURL. rewrite Hu.
    cbn [or_panic mbind go_bind]. rewrite (proj2 (String.eqb_neq _ _) Hport). cbn [negb].
    rewrite Hat. by rewrite (proj2 (Z.leb_gt port max_int)) by (unfold max_int; lia).
  - rewrite (proj2 (Z.leb_le port max_int)) in Hat by (unfold max_int; lia).
    destruct (sidecar_utf8 sc u id Htexts Hid) as (v & Hv & Hvu). destruct (tu_host _ _ Htexts) as [_ Hhost].
    pose proof (tu_script _ _ Htexts) as Hs.
    unfold envoy_filter_GetDesired. rewrite Hon. cbv zeta. unfold GetParsedURL. rewrite Hu.
    cbn [or_panic mbind go_bind]. rewrite (proj2 (String.eqb_neq _ _) Hport). cbn [negb]. rewrite Hat.
    cbn [or_panic mbind go_bind].
    rewrite (new_struct_utf8 (GetLuaScriptConfigPatch sc)) by (unfold GetLuaScriptConfigPatch; utf8).
    cbn [or_panic mbind go_bind].
    rewrite (new_struct_utf8 (GetInternalOAuthClusterConfigPatchValue _ _)) by (by apply internal_cluster_utf8).
    rewrite Hv. cbn [or_panic mbind go_bind]. rewrite (new_struct_utf8 v) by done. cbn [or_panic mbind go_bind].
    eexists _, _, (float64 port). split_and!; [done|reflexivity..| |].
    + intros Hsmall. apply float64_small. lia.
    + destruct (Z.le_gt_cases port (2 ^ 53)) as [Hle|Hgt]; [rewrite float64_small by lia; lia|].
      by apply float64_error.
Qed.
End token_port.

(** A token endpoint on an odd port. *)
Definition odd_port_uris (port : string) : IdentityProviderUris :=
  {| IssuerURI := IssuerURI example_uris; JwksURI := JwksURI example_uris;
     TokenURI := "https://idp.example:" +:+ port +:+ "/token";
     AuthorizationURI := AuthorizationURI example_uris; EndSessionURI := EndSessionURI example_uris |}.

Definition odd_port_url (port : string) : URL := {| url_Scheme := "https"; url_Host := "idp.example:" +:+ port |}.

Definition written_port (port : string) : option Value :=
  match envoy_filter_GetDesired (login_scope (odd_port_uris port)) (plain_meta "team" "app-login") with
  | Ok (Some f) => address ← cluster_address f; value_at ["port_value"] address
  | _ => None
  end.

(** A port that TCP does not have is written, one above [2 ^ 53] is written rounded. *)
Lemma token_port_bounds_witness :
  written_port "70000" = Some (VNum 70000) ∧
  ∃ n, written_port "9007199254740993" = Some (VNum n) ∧ (Z.abs (n - 9007199254740993) ≤ 512)%Z ∧
       n = 9007199254740992%Z.
Proof.
  assert (∀ p, url_parse (TokenURI (odd_port_uris p)) = Ok (odd_port_url p) → Port (odd_port_url p) ≠ "" →
            texts_utf8 (login_scope (odd_port_uris p)) (odd_port_url p) →
            (digits_value 0 (Port (odd_port_url p)) < 2 ^ 63)%Z →
            ∃ n, written_port p = Some (VNum n) ∧
              ((digits_value 0 (Port (odd_port_url p)) ≤ 2 ^ 53)%Z → n = digits_value 0 (Port (odd_port_url p))) ∧
              (Z.abs (n - digits_value 0 (Port (odd_port_url p))) ≤ 512)%Z) as Hp.
  { intros p Hu Hne Ht Hlim.
    destruct (token_port_bounds (login_scope (odd_port_uris p)) (plain_meta "team" "app-login") (odd_port_url p) "client"
                eq_refl Hu Hne eq_refl Ht) as [_ H].
    destruct (H Hlim) as (f & address & n & Hf & Hc & _ & Hn & Hsmall & Herr).
    exists n. unfold written_port. rewrite Hf, Hc. by split_and!. }
  split.
  - destruct (Hp "70000") as (n & -> & Hn & _); [by vm_compute..| |by vm_compute|].
    + split; try (vm_compute; reflexivity); [repeat constructor..|by split].
    + rewrite Hn; [by vm_compute|vm_compute; discriminate].
  - destruct (Hp "9007199254740993") as (n & Hw & _ & Herr); [by vm_compute..| |by vm_compute|].
    + split; try (vm_compute; reflexivity); [repeat constructor..|by split].
    + exists n. split_and!; [exact Hw|exact Herr|]. vm_compute in Hw. by injection Hw as <-.
Defined.

(** A discovery document whose token endpoint has a port that does not
    fit an [int] resolves without error, and the EnvoyFilter generator then panics
    instead of reporting a failed resolution. *)
Theorem token_port_panics :
  let document := {| Issuer := Some "https://idp.example"; AuthorizationEndpoint := Some "https://idp.example/authorize";
                     TokenEndpoint := Some "https://idp.example:99999999999999999999/token";
                     JwksURI_ := Some "https://idp.example/jwks";
                     EndSessionEndpoint := Some "https://idp.example/endsession" |} in
  match ResolveDiscoveryDocument login_policy (λ _, Ok document) with
  | Ok uris =>
      is_panic (envoy_filter_GetDesired (login_scope uris) (plain_meta "team" "app-login")) = true
  | _ => False
  end.
Proof. vm_compute. reflexivity. Qed.
