(* ===== verification/IstioPolicy.v ===== *)
(** * The generated AuthorizationPolicies (pkg/resourcegenerators/authorizationpolicy)

    Three generators: [deny] turns each condition of an auth rule into a DENY rule,
    [ignore] allows the ignored matchers, [require] allows the auth rules under
    their conditions and everything not mentioned under the base conditions. The
    conditions are slices of pointers grown with [append] from one base slice, so
    they are built on the heap of [GoSlices]. *)

From S2P Require Import Prelude GoStrings GoSlices Api Objects State Examples PathValidation.

(** ** common.go *)

Definition claim_key (claim : string) : string := "request.auth.claims[" +:+ claim +:+ "]".

Definition allow_condition (key : string) (values : list string) : IstioCondition :=
  {| ic_Key := key; ic_Values := values; ic_NotValues := [] |}.

Definition deny_condition (key : string) (values : list string) : IstioCondition :=
  {| ic_Key := key; ic_Values := []; ic_NotValues := values |}.

Definition getBaselineAuthConditions (baselineAuth : option BaselineAuth)
    (makeCondition : string → list string → IstioCondition) : list IstioCondition :=
  match baselineAuth with
  | Some b => (λ c, makeCondition (claim_key (Claim c)) (Values c)) <$> Claims b
  | None => []
  end.

Definition getAudienceAndIssuerConditions (acceptedResources : list string) (issuer : string)
    (makeCondition : string → list string → IstioCondition) : list IstioCondition :=
  makeCondition (claim_key "iss") [issuer] ::
  match acceptedResources with
  | [] => []
  | _ => [makeCondition (claim_key "aud") acceptedResources]
  end.

Definition GetBaselineAuthConditionsForAllowPolicy (baselineAuth : option BaselineAuth) : list IstioCondition :=
  getBaselineAuthConditions baselineAuth allow_condition.

Definition GetBaselineAuthConditionsForDenyPolicy (baselineAuth : option BaselineAuth) : list IstioCondition :=
  getBaselineAuthConditions baselineAuth deny_condition.

Definition GetAudienceAndIssuerConditionsForAllowPolicy (acceptedResources : list string) (issuer : string)
    : list IstioCondition :=
  getAudienceAndIssuerConditions acceptedResources issuer allow_condition.

Definition GetAudienceAndIssuerConditionsForDenyPolicy (acceptedResources : list string) (issuer : string)
    : list IstioCondition :=
  getAudienceAndIssuerConditions acceptedResources issuer deny_condition.

Definition ConstructAcceptedResources (sc : Scope) : list string :=
  sc_Audiences sc ++ match AcceptedResources (Spec (sc_AuthPolicy sc)) with Some rs => rs | None => [] end.

Definition authorizationPolicy (sc : Scope) (meta : ObjectMeta) (action : Action) (rules : list Rule)
    : AuthorizationPolicy :=
  {| azp_Meta := meta; azp_Action := action;
     azp_Selector := MatchLabels (Selector (Spec (sc_AuthPolicy sc))); azp_Rules := rules |}.

Definition AllowAuthorizationPolicy (sc : Scope) (meta : ObjectMeta) (allowRules : list Rule) : AuthorizationPolicy :=
  authorizationPolicy sc meta ALLOW allowRules.

Definition DenyAuthorizationPolicy (sc : Scope) (meta : ObjectMeta) (denyRules : list Rule) : AuthorizationPolicy :=
  authorizationPolicy sc meta DENY denyRules.

(** The base conditions, for either kind of policy. *)
Definition base_conditions (makeCondition : string → list string → IstioCondition) (sc : Scope)
    : list IstioCondition :=
  getAudienceAndIssuerConditions (ConstructAcceptedResources sc) (IssuerURI (sc_IdentityProviderUris sc)) makeCondition ++
  getBaselineAuthConditions (spec_BaselineAuth (Spec (sc_AuthPolicy sc))) makeCondition.

Definition when_conditions (makeCondition : string → list string → IstioCondition) (rule : RequestAuthRule)
    : list IstioCondition :=
  match When rule with
  | Some cs => (λ c, makeCondition (claim_key (Claim c)) (Values c)) <$> cs
  | None => []
  end.

Definition path_operation (paths methods : list string) : Operation :=
  {| op_Paths := paths; op_NotPaths := []; op_Methods := methods; op_NotMethods := [] |}.

Definition matcher_operation (m : RequestMatcher) : Operation :=
  path_operation (TransformPathsForIstio (Paths m)) (Methods m).

Definition all_paths_operation : Operation := path_operation ["*"] [].

(** ** deny/authorization_policy.go *)

Section generators.
Context `{Growth}.

Definition constructBaseConditionsForDenyPolicy (h : heap IstioCondition) (sc : Scope)
    : heap IstioCondition * slice :=
  slices_concat h
    (GetAudienceAndIssuerConditionsForDenyPolicy (ConstructAcceptedResources sc) (IssuerURI (sc_IdentityProviderUris sc)) ++
     GetBaselineAuthConditionsForDenyPolicy (spec_BaselineAuth (Spec (sc_AuthPolicy sc)))).

(** The loop over the auth rules: one DENY rule per condition. *)
Fixpoint deny_rules (h : heap IstioCondition) (base : slice) (rules : list RequestAuthRule) : list Rule :=
  match rules with
  | [] => []
  | rule :: rules =>
      let '(h', conditions) := append_all h base (when_conditions deny_condition rule) in
      ((λ c, {| rule_To := [matcher_operation (rule_RequestMatcher rule)]; rule_When := [c] |}) <$>
         read h' conditions) ++
      deny_rules h' base rules
  end.

Definition deny_GetDesired (sc : Scope) (meta : ObjectMeta) : option AuthorizationPolicy :=
  if negb (Enabled (Spec (sc_AuthPolicy sc))) then None
  else if sc_InvalidConfig sc then
    Some (DenyAuthorizationPolicy sc meta [{| rule_To := [all_paths_operation]; rule_When := [] |}])
  else
    match AuthRules (Spec (sc_AuthPolicy sc)) with
    | None | Some [] => None
    | Some rules =>
        let '(h, base) := constructBaseConditionsForDenyPolicy [] sc in
        Some (DenyAuthorizationPolicy sc meta (deny_rules h base rules))
    end.

(** ** ignore/authorization_policy.go *)

Definition ignore_GetDesired (sc : Scope) (meta : ObjectMeta) : option AuthorizationPolicy :=
  if negb (Enabled (Spec (sc_AuthPolicy sc))) then None
  else if sc_InvalidConfig sc then None
  else
    match GetIgnoreAuthRequestMatchers (sc_AuthPolicy sc) with
    | [] => None
    | matchers =>
        Some (AllowAuthorizationPolicy sc meta
                [{| rule_To := matcher_operation <$> matchers; rule_When := [] |}])
    end.

(** ** require/authorization_policy.go *)

Definition constructBaseConditions (h : heap IstioCondition) (sc : Scope) : heap IstioCondition * slice :=
  slices_concat h
    (GetAudienceAndIssuerConditionsForAllowPolicy (ConstructAcceptedResources sc) (IssuerURI (sc_IdentityProviderUris sc)) ++
     GetBaselineAuthConditionsForAllowPolicy (spec_BaselineAuth (Spec (sc_AuthPolicy sc)))).

(** The rules keep a reference to their conditions; they are read when the whole
    policy is built. *)
Fixpoint constructSpecifiedPathsAllowRules (h : heap IstioCondition) (base : slice)
    (rules : list RequestAuthRule) : heap IstioCondition * list (list Operation * slice) :=
  match rules with
  | [] => (h, [])
  | rule :: rules =>
      let '(h1, conditions) := append_all h base (when_conditions allow_condition rule) in
      let '(h2, rest) := constructSpecifiedPathsAllowRules h1 base rules in
      (h2, ([matcher_operation (rule_RequestMatcher rule)], conditions) :: rest)
  end.

Definition excluded_methods (m : RequestMatcher) : list string :=
  match Methods m with [] => GetAcceptedHTTPMethods | ms => ms end.

Definition other_methods_operation (m : RequestMatcher) : Operation :=
  {| op_Paths := TransformPathsForIstio (Paths m); op_NotPaths := []; op_Methods := [];
     op_NotMethods := excluded_methods m |}.

Definition other_paths_operation (ms : list RequestMatcher) : Operation :=
  {| op_Paths := ["*"]; op_NotPaths := ms ≫= (λ m, TransformPathsForIstio (Paths m));
     op_Methods := []; op_NotMethods := [] |}.

Definition unspecified_operations (ap : AuthPolicy) : list Operation :=
  let ms := GetRequireAuthRequestMatchers ap ++ GetIgnoreAuthRequestMatchers ap in
  (other_methods_operation <$> ms) ++ [other_paths_operation ms].

Definition constructUnspecifiedPathsAllowRule (sc : Scope) (base : slice) : list Operation * slice :=
  (unspecified_operations (sc_AuthPolicy sc), base).

Definition read_rule (h : heap IstioCondition) (r : list Operation * slice) : Rule :=
  {| rule_To := r.1; rule_When := read h r.2 |}.

Definition require_GetDesired (sc : Scope) (meta : ObjectMeta) : option AuthorizationPolicy :=
  let ap := sc_AuthPolicy sc in
  if negb (Enabled (Spec ap)) then None
  else if sc_InvalidConfig sc then None
  else
    let '(h, base) := constructBaseConditions [] sc in
    if negb (nonempty_opt (AuthRules (Spec ap))) && negb (nonempty_opt (IgnoreAuthRules (Spec ap))) then
      Some (AllowAuthorizationPolicy sc meta
              [{| rule_To := [all_paths_operation]; rule_When := read h base |}])
    else
      let '(h', specified) := constructSpecifiedPathsAllowRules h base (default [] (AuthRules (Spec ap))) in
      let unspecified := constructUnspecifiedPathsAllowRule sc base in
      Some (AllowAuthorizationPolicy sc meta (read_rule h' <$> unspecified :: specified)).

(** ** Specifications without a heap *)

Definition deny_rules_spec (sc : Scope) (rules : list RequestAuthRule) : list Rule :=
  rules ≫= λ rule,
    (λ c, {| rule_To := [matcher_operation (rule_RequestMatcher rule)]; rule_When := [c] |}) <$>
      base_conditions deny_condition sc ++ when_conditions deny_condition rule.

Definition require_rule_spec (sc : Scope) (rule : RequestAuthRule) : Rule :=
  {| rule_To := [matcher_operation (rule_RequestMatcher rule)];
     rule_When := base_conditions allow_condition sc ++ when_conditions allow_condition rule |}.

Definition unspecified_rule_spec (sc : Scope) : Rule :=
  {| rule_To := unspecified_operations (sc_AuthPolicy sc); rule_When := base_conditions allow_condition sc |}.

(** ** Lemmas *)

Lemma constructBaseConditions_eq h sc : constructBaseConditions h sc = slices_concat h (base_conditions allow_condition sc).
Proof. done. Qed.

Lemma constructBaseConditionsForDenyPolicy_eq h sc :
  constructBaseConditionsForDenyPolicy h sc = slices_concat h (base_conditions deny_condition sc).
Proof. done. Qed.

Lemma deny_rules_read sc h base rules :
  wf h base → read h base = base_conditions deny_condition sc →
  deny_rules h base rules = deny_rules_spec sc rules.
Proof.
  revert h. induction rules as [|rule rules IH]; intros h Hwf Hread; [done|].
  cbn [deny_rules]. destruct (append_all _ _ _) as [h' conditions] eqn:Happ.
  destruct (append_all_spec (sl_arr base) (sl_len base) h (when_conditions deny_condition rule) h base h' conditions)
    as (Hwf' & Hr & _ & Hev & _); auto using evolves_refl.
  unfold deny_rules_spec. cbn [mbind list_bind]. rewrite Hr, Hread. f_equal.
  apply IH; [by eapply evolves_wf|]. by rewrite (evolves_read_le _ _ _ _ _ Hev Hwf) by done.
Qed.

(** The rules of [constructSpecifiedPathsAllowRules]: every [When] starts with the
    base conditions and has the right length, whatever the allocator does. *)
Lemma specified_rules_prefix bs base rules : ∀ h h' out,
  wf h base → read h base = bs →
  constructSpecifiedPathsAllowRules h base rules = (h', out) →
  evolves (sl_arr base) (sl_len base) h h' ∧
  Forall2 (λ rule r, r.1 = [matcher_operation (rule_RequestMatcher rule)] ∧
             length (read h' r.2) = length (bs ++ when_conditions allow_condition rule) ∧
             take (length bs) (read h' r.2) = bs)
    rules out.
Proof.
  induction rules as [|rule rules IH]; cbn [constructSpecifiedPathsAllowRules]; intros h h' out Hwf Hread Hc.
  { simplify_eq. split; auto using evolves_refl. }
  destruct (append_all h base _) as [h1 cs] eqn:Happ.
  destruct (constructSpecifiedPathsAllowRules h1 base rules) as [h2 rest] eqn:Hrest. injection Hc as -> <-.
  destruct (append_all_spec (sl_arr base) (sl_len base) h
    (when_conditions allow_condition rule) h base h1 cs)
    as (Hwf1 & Hr1 & Hl1 & Hev1 & _); auto using evolves_refl.
  destruct (IH h1 h' rest) as (Hev2 & Hrest2); [by eapply evolves_wf| |done|].
  { by rewrite (evolves_read_le _ _ _ _ _ Hev1). }
  split; [by eapply evolves_trans|]. constructor; [|done]. cbn.
  pose proof (length_read _ _ Hwf) as Hlen. rewrite Hread in Hlen.
  assert (wf h' cs) by (by eapply evolves_wf).
  split_and!; [done| |].
  - rewrite length_read, Hl1, length_app by done. lia.
  - rewrite Hlen, (evolves_read_take _ _ _ _ _ Hev2), Hr1, Hread, <-Hlen by done. by apply take_app_length.
Qed.

(** The slices behind the rules stay well-typed: every cell below the length of a
    [When] is written, in an array that exists in the final heap. *)
Lemma specified_rules_wf base rules : ∀ h h' out,
  wf h base → constructSpecifiedPathsAllowRules h base rules = (h', out) →
  evolves (sl_arr base) (sl_len base) h h' ∧
  Forall2 (λ rule r, wf h' r.2 ∧ sl_len r.2 = sl_len base + length (when_conditions allow_condition rule)) rules out.
Proof.
  induction rules as [|rule rules IH]; cbn [constructSpecifiedPathsAllowRules]; intros h h' out Hwf Hc.
  { simplify_eq. split; auto using evolves_refl. }
  destruct (append_all h base _) as [h1 cs] eqn:Happ.
  destruct (constructSpecifiedPathsAllowRules h1 base rules) as [h2 rest] eqn:Hrest. injection Hc as -> <-.
  destruct (append_all_spec (sl_arr base) (sl_len base) h
    (when_conditions allow_condition rule) h base h1 cs)
    as (Hwf1 & _ & Hl1 & Hev1 & _); auto using evolves_refl.
  destruct (IH h1 h' rest) as (Hev2 & Hrest2); [by eapply evolves_wf|done|].
  split; [by eapply evolves_trans|]. constructor; [|done].
  split; [by eapply evolves_wf|done].
Qed.

(** Claim C21. Well-typedness of the generated conditions under aliasing. Whatever
    the allocator does, after the rules of a policy have been built from the
    shared base slice, that slice and the [When] slice of every rule (one per auth
    rule, in order) lie in existing arrays with every cell below their length
    written (no nil condition can be read back), each [When] has one condition per
    base condition and per condition of its rule, and the base slice still reads
    the base conditions. *)
Theorem specified_rules_well_formed sc rules :
  let '(h, base) := constructBaseConditions [] sc in
  let '(h', specified) := constructSpecifiedPathsAllowRules h base rules in
  wf h' base ∧ read h' base = base_conditions allow_condition sc ∧
  Forall2 (λ rule r,
    wf h' r.2 ∧
    length (read h' r.2) = length (base_conditions allow_condition sc) + length (when_conditions allow_condition rule))
    rules specified.
Proof.
  rewrite constructBaseConditions_eq. destruct (slices_concat _ _) as [h base] eqn:Hbase.
  destruct (slices_concat_spec _ _ _ _ Hbase) as (Hwf & Hread & Hlen & _).
  destruct (constructSpecifiedPathsAllowRules _ _ _) as [h' out] eqn:Hout.
  destruct (specified_rules_wf _ _ _ _ _ Hwf Hout) as [Hev Hall].
  split_and!.
  - by eapply evolves_wf.
  - by rewrite (evolves_read_le _ _ _ _ _ Hev).
  - eapply Forall2_impl; [exact Hall|]. intros rule r [Hr Hl]. split; [done|].
    by rewrite length_read, Hl, Hlen.
Qed.

(** Without spare capacity nothing is shared: the rules are the specified ones. *)
Lemma specified_rules_exact sc base rules : ∀ h h' out,
  wf h base → sl_len base = sl_cap base → read h base = base_conditions allow_condition sc →
  constructSpecifiedPathsAllowRules h base rules = (h', out) →
  (∀ i a, h !! i = Some a → h' !! i = Some a) ∧
  read_rule h' <$> out = require_rule_spec sc <$> rules.
Proof.
  induction rules as [|rule rules IH]; cbn [constructSpecifiedPathsAllowRules]; intros h h' out Hwf Hfull Hread Hc.
  { by simplify_eq. }
  destruct (append_all h base _) as [h1 cs] eqn:Happ.
  destruct (constructSpecifiedPathsAllowRules h1 base rules) as [h2 rest] eqn:Hrest. injection Hc as -> <-.
  destruct (append_all_spec (sl_arr base) (sl_len base) h
    (when_conditions allow_condition rule) h base h1 cs)
    as (Hwf1 & Hr1 & _ & Hev1 & _); auto using evolves_refl.
  pose proof (append_all_full _ _ _ _ _ Hwf Hfull Happ) as Hsame1.
  destruct (IH h1 h' rest) as (Hsame2 & Hrest2); [by eapply evolves_wf|done| |done|].
  { by rewrite (evolves_read_le _ _ _ _ _ Hev1). }
  split; [auto|]. rewrite !fmap_cons, Hrest2. f_equal.
  unfold read_rule, require_rule_spec. cbn [fst snd]. f_equal. rewrite <-Hread, <-Hr1.
  destruct Hwf1 as (a & Ha & _). unfold read, array. by rewrite Ha, (Hsame2 _ _ Ha).
Qed.

Definition has_rules (ap : AuthPolicy) : bool :=
  nonempty_opt (AuthRules (Spec ap)) || nonempty_opt (IgnoreAuthRules (Spec ap)).

(** The policy [require] generates, up to the conditions past the base ones. *)
Definition rule_extends (sc : Scope) (rule : RequestAuthRule) (r : Rule) : Prop :=
  rule_To r = [matcher_operation (rule_RequestMatcher rule)] ∧
  length (rule_When r) = length (rule_When (require_rule_spec sc rule)) ∧
  take (length (base_conditions allow_condition sc)) (rule_When r) = base_conditions allow_condition sc.

Lemma require_shape sc meta :
  Enabled (Spec (sc_AuthPolicy sc)) = true → sc_InvalidConfig sc = false → has_rules (sc_AuthPolicy sc) = true →
  ∃ specified,
    require_GetDesired sc meta =
      Some (authorizationPolicy sc meta ALLOW (unspecified_rule_spec sc :: specified)) ∧
    Forall2 (rule_extends sc) (default [] (AuthRules (Spec (sc_AuthPolicy sc)))) specified ∧
    (concat_cap (length (base_conditions allow_condition sc)) = length (base_conditions allow_condition sc) →
     specified = require_rule_spec sc <$> default [] (AuthRules (Spec (sc_AuthPolicy sc)))).
Proof.
  unfold require_GetDesired, has_rules. rewrite constructBaseConditions_eq. intros -> -> Hrules. cbv zeta. cbn [negb].
  rewrite <-negb_orb, Hrules. cbn [negb].
  destruct (slices_concat _ _) as [h base] eqn:Hbase.
  destruct (slices_concat_spec _ _ _ _ Hbase) as (Hwf & Hread & Hlen & Hcap & _).
  destruct (constructSpecifiedPathsAllowRules _ _ _) as [h' out] eqn:Hout.
  destruct (specified_rules_prefix _ _ _ _ _ _ Hwf Hread Hout) as [Hev Hext].
  exists (read_rule h' <$> out). split_and!.
  - rewrite fmap_cons. unfold read_rule at 1, constructUnspecifiedPathsAllowRule, unspecified_rule_spec.
    cbn [fst snd]. by rewrite (evolves_read_le _ _ _ _ _ Hev), Hread.
  - apply Forall2_fmap_r. eapply Forall2_impl; [exact Hext|]. intros rule r (? & ? & ?).
    split_and!; done.
  - rewrite <-Hcap, <-Hlen. intros Hfull. by eapply specified_rules_exact.
Qed.

Lemma require_no_rules sc meta :
  Enabled (Spec (sc_AuthPolicy sc)) = true → sc_InvalidConfig sc = false → has_rules (sc_AuthPolicy sc) = false →
  require_GetDesired sc meta =
    Some (authorizationPolicy sc meta ALLOW
            [{| rule_To := [all_paths_operation]; rule_When := base_conditions allow_condition sc |}]).
Proof.
  unfold require_GetDesired, has_rules. rewrite constructBaseConditions_eq. intros -> -> Hrules. cbv zeta. cbn [negb].
  rewrite <-negb_orb, Hrules. cbn [negb].
  destruct (slices_concat _ _) as [h base] eqn:Hbase.
  destruct (slices_concat_spec _ _ _ _ Hbase) as (_ & Hread & _). by rewrite Hread.
Qed.

Lemma deny_shape sc meta :
  deny_GetDesired sc meta =
  if negb (Enabled (Spec (sc_AuthPolicy sc))) then None
  else if sc_InvalidConfig sc then
    Some (authorizationPolicy sc meta DENY [{| rule_To := [all_paths_operation]; rule_When := [] |}])
  else match default [] (AuthRules (Spec (sc_AuthPolicy sc))) with
       | [] => None
       | rules => Some (authorizationPolicy sc meta DENY (deny_rules_spec sc rules))
       end.
Proof.
  unfold deny_GetDesired. rewrite constructBaseConditionsForDenyPolicy_eq.
  destruct (negb _), (sc_InvalidConfig sc),
    (AuthRules (Spec (sc_AuthPolicy sc))) as [[|rule rules]|]; try done.
  destruct (slices_concat _ _) as [h base] eqn:Hbase.
  destruct (slices_concat_spec _ _ _ _ Hbase) as (Hwf & Hread & _). cbn [default from_option].
  by rewrite (deny_rules_read sc).
Qed.

(** ** Properties *)

(** However the allocator shares backing arrays, the DENY policy is the
    one specified without a heap: for every auth rule, one rule per base and per
    [when] condition, with the rule's paths and methods and that condition
    negated; a single rule for all paths when the configuration is invalid. *)
Theorem deny_policy_refines sc meta :
  deny_GetDesired sc meta =
  if negb (Enabled (Spec (sc_AuthPolicy sc))) then None
  else if sc_InvalidConfig sc then
    Some (authorizationPolicy sc meta DENY [{| rule_To := [all_paths_operation]; rule_When := [] |}])
  else match default [] (AuthRules (Spec (sc_AuthPolicy sc))) with
       | [] => None
       | rules => Some (authorizationPolicy sc meta DENY (deny_rules_spec sc rules))
       end.
Proof. apply deny_shape. Qed.

(** Claim C20. However the allocator shares backing arrays, the ALLOW policy for
    auth rules starts with the rule for what no matcher mentions, under exactly
    the base conditions, followed by one rule per auth rule whose conditions start
    with the base conditions and number as many as specified; when the allocation
    of the base conditions leaves no spare capacity they are the specified ones. *)
Theorem require_policy_refines sc meta :
  Enabled (Spec (sc_AuthPolicy sc)) = true → sc_InvalidConfig sc = false → has_rules (sc_AuthPolicy sc) = true →
  ∃ specified,
    require_GetDesired sc meta =
      Some (authorizationPolicy sc meta ALLOW (unspecified_rule_spec sc :: specified)) ∧
    Forall2 (rule_extends sc) (default [] (AuthRules (Spec (sc_AuthPolicy sc)))) specified ∧
    (concat_cap (length (base_conditions allow_condition sc)) = length (base_conditions allow_condition sc) →
     specified = require_rule_spec sc <$> default [] (AuthRules (Spec (sc_AuthPolicy sc)))).
Proof. apply require_shape. Qed.

End generators.

Lemma require_policy_refines_witness :
  ∃ specified,
    let sc := example_scope (example_policy None 2 [role_rule "/admin" "admin"; role_rule "/user" "user"] []) ["aud"] in
    require_GetDesired sc (plain_meta "team" "app-require-auth") =
      Some (authorizationPolicy sc (plain_meta "team" "app-require-auth") ALLOW (unspecified_rule_spec sc :: specified)) ∧
    Forall2 (rule_extends sc) (default [] (AuthRules (Spec (sc_AuthPolicy sc)))) specified ∧
    (concat_cap (length (base_conditions allow_condition sc)) = length (base_conditions allow_condition sc) →
     specified = require_rule_spec sc <$> default [] (AuthRules (Spec (sc_AuthPolicy sc)))).
Proof. apply require_policy_refines; reflexivity. Defined.
