(* ===== verification/Istio.v ===== *)
(** * The interface to Istio

    Istio evaluates the AuthorizationPolicies of a workload. How it matches paths
    and claims, and its verdict, are parameters: an instance of [IstioMatch] and
    [IstioAuthz], whose laws are the documented behaviour of AuthorizationPolicy
    (DENY before ALLOW, the fields of an operation and of a condition). *)

From S2P Require Import Prelude GoStrings Objects PathValidation PathLang.

(** ** Boolean quantifiers *)

Lemma existsb_false_iff {A} (f : A → bool) l : existsb f l = false ↔ ∀ x, x ∈ l → f x = false.
Proof.
  rewrite <-not_true_iff_false, existsb_exists. setoid_rewrite <-list_elem_of_In. split.
  - intros Hn x Hx. apply not_true_iff_false. eauto.
  - intros Hf (x & Hx & Ht). by rewrite Hf in Ht.
Qed.

Lemma existsb_true_iff {A} (f : A → bool) l : existsb f l = true ↔ ∃ x, x ∈ l ∧ f x = true.
Proof. rewrite existsb_exists. by setoid_rewrite <-list_elem_of_In. Qed.

Lemma forallb_true_iff {A} (f : A → bool) l : forallb f l = true ↔ ∀ x, x ∈ l → f x = true.
Proof. rewrite forallb_forall. by setoid_rewrite <-list_elem_of_In. Qed.

Lemma existsb_fmap {A B} (f : B → bool) (g : A → B) l : existsb f (g <$> l) = existsb (λ x, f (g x)) l.
Proof. induction l as [|x l IH]; [done|]. cbn. by rewrite <-IH. Qed.

Lemma forallb_fmap {A B} (f : B → bool) (g : A → B) l : forallb f (g <$> l) = forallb (λ x, f (g x)) l.
Proof. induction l as [|x l IH]; [done|]. cbn. by rewrite <-IH. Qed.

(** ** The interface to Istio *)

Class IstioMatch := {
  request : Type;
  request_path : request → string;
  request_method : request → string;
  (** does the path pattern match the path *)
  path_match : string → string → bool;
  (** does the attribute (a claim of the request's token) have one of the values *)
  attribute_in : request → string → list string → bool;
}.

Section evaluation.
Context `{IstioMatch}.

Definition empty {A} (l : list A) : bool := match l with [] => true | _ => false end.

Definition operation_matches (r : request) (op : Operation) : bool :=
  (empty (op_Paths op) || existsb (λ p, path_match p (request_path r)) (op_Paths op)) &&
  negb (existsb (λ p, path_match p (request_path r)) (op_NotPaths op)) &&
  (empty (op_Methods op) || bool_decide (request_method r ∈ op_Methods op)) &&
  negb (bool_decide (request_method r ∈ op_NotMethods op)).

Definition condition_matches (r : request) (c : IstioCondition) : bool :=
  (empty (ic_Values c) || attribute_in r (ic_Key c) (ic_Values c)) &&
  (empty (ic_NotValues c) || negb (attribute_in r (ic_Key c) (ic_NotValues c))).

Definition rule_matches (r : request) (rule : Rule) : bool :=
  (empty (rule_To rule) || existsb (operation_matches r) (rule_To rule)) &&
  forallb (condition_matches r) (rule_When rule).

Definition policy_matches (r : request) (p : AuthorizationPolicy) : bool :=
  existsb (rule_matches r) (azp_Rules p).
End evaluation.

Class IstioAuthz `{IstioMatch} := {
  allowed : list AuthorizationPolicy → request → bool;
  (** the pattern [*] matches every request path *)
  path_match_star r : path_match "*" (request_path r) = true;
  allowed_spec ps r :
    allowed ps r = true ↔
    (∀ p, p ∈ ps → azp_Action p = DENY → policy_matches r p = false) ∧
    ((∀ p, p ∈ ps → azp_Action p = DENY) ∨
     ∃ p, p ∈ ps ∧ azp_Action p = ALLOW ∧ policy_matches r p = true);
}.

(** How Istio reads the paths: [*] at the end is any suffix, [{*}] one segment and
    [{**}] any characters, the rest is literal, on request paths without unusual
    bytes. *)
Class IstioPaths `{IstioMatch} := {
  path_match_language q p :
    validatePath q = Ok () → istio_syntax q = true → all_chars path_char p = true →
    path_match (transformPathForIstio q) p = true ↔ path_matches (transformPathForIstio q) p;
}.
