(* ===== verification/IstioExample.v ===== *)
(** * An instance of the interface to Istio

    A concrete matcher and evaluator, at which the theorems about the generated
    policies are instantiated. *)

From S2P Require Import Prelude GoStrings Objects PathValidation PathLang LuaPattern LuaConvert LuaMatch.
From S2P Require Import IstioPolicy Istio.

Record SimpleRequest := {
  sr_path : string;
  sr_method : string;
  sr_claims : list (string * list string);
}.

#[export] Instance simple_match : IstioMatch := {|
  request := SimpleRequest;
  request_path r := sr_path r;
  request_method r := sr_method r;
  path_match pattern path := bool_decide (is_Some (do_match (lua_item <$> tokenize pattern) true path));
  attribute_in r key values :=
    existsb (λ kv, String.eqb (claim_key kv.1) key && existsb (λ v, bool_decide (v ∈ values)) kv.2) (sr_claims r);
|}.

Definition simple_allowed (ps : list AuthorizationPolicy) (r : SimpleRequest) : bool :=
  forallb (λ p, negb (bool_decide (azp_Action p = DENY) && policy_matches r p)) ps &&
  (forallb (λ p, bool_decide (azp_Action p = DENY)) ps ||
   existsb (λ p, bool_decide (azp_Action p = ALLOW) && policy_matches r p) ps).

#[export] Program Instance simple_authz : IstioAuthz := {| allowed := simple_allowed |}.
Next Obligation.
  intros r. change (bool_decide (is_Some (do_match (lua_item <$> [TAny]) true (sr_path r))) = true).
  apply bool_decide_eq_true, do_match_tokens. rewrite <-(str_app_nil_r (sr_path r)). repeat constructor.
Qed.
Next Obligation.
  intros ps r. unfold simple_allowed. rewrite andb_true_iff, orb_true_iff, !forallb_true_iff, existsb_true_iff.
  setoid_rewrite bool_decide_eq_true. setoid_rewrite negb_true_iff. setoid_rewrite andb_true_iff.
  setoid_rewrite bool_decide_eq_true. apply and_iff_compat_r. split; intros Hd p Hp; specialize (Hd p Hp).
  - intros Ha. by rewrite bool_decide_true in Hd.
  - case_bool_decide; [|done]. by rewrite Hd.
Qed.

#[export] Program Instance simple_paths : IstioPaths.
Next Obligation. intros q p _ _ _. 
  change (bool_decide (is_Some (do_match (lua_item <$> tokenize (transformPathForIstio q)) true p)) = true ↔
    tok_match (tokenize (transformPathForIstio q)) p).
  by rewrite bool_decide_eq_true, do_match_tokens. Qed.
