(* ===== verification/Enforcement.v ===== *)
(** * What the generated policies enforce

    Against the interface to Istio, the three generated policies together are shown
    to implement the decision the AuthPolicy asks for. *)

From S2P Require Import Prelude GoStrings GoSlices Api Objects State Examples PathValidation.
From S2P Require Import IstioPolicy Istio IstioExample.

(** ** The decision an AuthPolicy asks for *)

Section decision.
Context `{IstioAuthz}.

Definition auth_rules (sc : Scope) : list RequestAuthRule := default [] (AuthRules (Spec (sc_AuthPolicy sc))).

Definition matcher_hits (r : request) (m : RequestMatcher) : bool := operation_matches r (matcher_operation m).

Definition rule_hits (r : request) (rule : RequestAuthRule) : bool := matcher_hits r (rule_RequestMatcher rule).

Definition base_holds (sc : Scope) (r : request) : bool :=
  forallb (condition_matches r) (base_conditions allow_condition sc).

Definition when_holds (r : request) (rule : RequestAuthRule) : bool :=
  forallb (condition_matches r) (when_conditions allow_condition rule).

Definition ignored (sc : Scope) (r : request) : bool :=
  existsb (matcher_hits r) (GetIgnoreAuthRequestMatchers (sc_AuthPolicy sc)).

(** Every auth rule the request matches has its conditions met, and the request
    matches an auth rule or an ignored matcher or meets the base conditions. *)
Definition admits (sc : Scope) (r : request) : bool :=
  forallb (λ rule, implb (rule_hits r rule) (base_holds sc r && when_holds r rule)) (auth_rules sc) &&
  (existsb (rule_hits r) (auth_rules sc) || ignored sc r || base_holds sc r).

(** A condition without values cannot be negated; Istio rejects it. *)
Definition conditions_ok (sc : Scope) : Prop :=
  Forall (λ c, Values c ≠ []) (match spec_BaselineAuth (Spec (sc_AuthPolicy sc)) with Some b => Claims b | None => [] end) ∧
  Forall (λ rule, Forall (λ c, Values c ≠ []) (default [] (When rule))) (auth_rules sc).

(** ** Lemmas *)

(** Negating a condition that has values negates its match. *)
Lemma deny_condition_matches r key values :
  values ≠ [] →
  condition_matches r (deny_condition key values) = negb (condition_matches r (allow_condition key values)).
Proof. destruct values; [done|]. intros _. unfold condition_matches. cbn. by rewrite andb_true_r. Qed.

Lemma deny_conditions_match r (cs : list (string * list string)) :
  Forall (λ kv, kv.2 ≠ []) cs →
  existsb (condition_matches r) ((λ kv, deny_condition kv.1 kv.2) <$> cs) =
  negb (forallb (condition_matches r) ((λ kv, allow_condition kv.1 kv.2) <$> cs)).
Proof.
  induction 1 as [|[k v] cs Hv _ IH]; [done|]. cbn [fmap list_fmap existsb forallb fst snd].
  by rewrite IH, deny_condition_matches, negb_andb.
Qed.

(** The keys and values of the conditions, whatever they are made into. *)
Definition claim_values (c : Condition) : string * list string := (claim_key (Claim c), Values c).

Definition base_claims (sc : Scope) : list (string * list string) :=
  (claim_key "iss", [IssuerURI (sc_IdentityProviderUris sc)]) ::
  match ConstructAcceptedResources sc with [] => [] | rs => [(claim_key "aud", rs)] end ++
  (claim_values <$> match spec_BaselineAuth (Spec (sc_AuthPolicy sc)) with Some b => Claims b | None => [] end).

Lemma base_conditions_claims mk sc : base_conditions mk sc = (λ kv, mk kv.1 kv.2) <$> base_claims sc.
Proof.
  unfold base_conditions, getAudienceAndIssuerConditions, getBaselineAuthConditions, base_claims.
  rewrite fmap_cons, fmap_app. cbn [app fst snd]. do 2 f_equal.
  - by destruct (ConstructAcceptedResources sc).
  - destruct (spec_BaselineAuth _); [|done]. by rewrite <-list_fmap_compose.
Qed.

Lemma when_conditions_claims mk rule :
  when_conditions mk rule = (λ kv, mk kv.1 kv.2) <$> (claim_values <$> default [] (When rule)).
Proof. unfold when_conditions. destruct (When rule); [|done]. cbn. by rewrite <-list_fmap_compose. Qed.

Lemma rule_denied sc rule r :
  conditions_ok sc → rule ∈ auth_rules sc →
  existsb (condition_matches r) (base_conditions deny_condition sc ++ when_conditions deny_condition rule) =
  negb (base_holds sc r && when_holds r rule).
Proof.
  intros [Hb Hw] Hr. unfold base_holds, when_holds.
  rewrite !base_conditions_claims, !when_conditions_claims, existsb_app, negb_andb.
  f_equal; apply deny_conditions_match.
  - constructor; [done|]. apply Forall_app. split; [by destruct (ConstructAcceptedResources sc); repeat constructor|].
    by apply Forall_fmap.
  - apply Forall_fmap. rewrite Forall_forall in Hw. by apply Hw.
Qed.
Lemma deny_policy_matches sc meta r :
  conditions_ok sc →
  policy_matches r (authorizationPolicy sc meta DENY (deny_rules_spec sc (auth_rules sc))) =
  negb (forallb (λ rule, implb (rule_hits r rule) (base_holds sc r && when_holds r rule)) (auth_rules sc)).
Proof.
  intros Hok. unfold policy_matches, deny_rules_spec. cbn [azp_Rules authorizationPolicy].
  pose proof (rule_denied sc) as Hden. induction (auth_rules sc) as [|rule rules IH]; [done|].
  cbn [mbind list_bind forallb]. rewrite existsb_app, IH by (intros; apply Hden; [done|by right]).
  rewrite negb_andb. f_equal. rewrite existsb_fmap.
  assert (∀ b c, negb (implb b c) = b && negb c) as -> by (by intros [] []).
  rewrite <-(Hden rule r Hok) by left. unfold rule_matches. cbn [rule_To rule_When existsb forallb empty].
  fold (matcher_hits r (rule_RequestMatcher rule)). fold (rule_hits r rule). clear.
  induction (_ ++ _) as [|c cs IH]; [by rewrite andb_false_r|].
  cbn [existsb]. rewrite IH. by destruct (rule_hits r rule), (condition_matches r c).
Qed.

(** *** The ALLOW rules *)

Lemma matcher_hits_split r m :
  matcher_hits r m =
  (empty (Paths m) || existsb (λ p, path_match (transformPathForIstio p) (request_path r)) (Paths m)) &&
  (empty (Methods m) || bool_decide (request_method r ∈ Methods m)).
Proof.
  unfold matcher_hits, operation_matches, matcher_operation, path_operation, TransformPathsForIstio. cbn.
  rewrite existsb_fmap, !andb_true_r. by destruct (Paths m).
Qed.

(** A request that no matcher matches is covered by an unspecified operation. *)
Lemma unspecified_covers ap r :
  existsb (matcher_hits r) (GetRequireAuthRequestMatchers ap ++ GetIgnoreAuthRequestMatchers ap) = false →
  existsb (operation_matches r) (unspecified_operations ap) = true.
Proof.
  unfold unspecified_operations. cbv zeta. set (ms := _ ++ _). intros Hno.
  rewrite existsb_app, existsb_fmap, orb_true_iff.
  destruct (existsb (λ m, operation_matches r (other_methods_operation m)) ms) eqn:Hm; [by left|right].
  rewrite existsb_false_iff in Hno, Hm. cbn [existsb]. rewrite orb_false_r.
  unfold operation_matches, other_paths_operation. cbn [op_Paths op_NotPaths op_Methods op_NotMethods empty existsb].
  rewrite path_match_star. cbn. rewrite !andb_true_r. apply negb_true_iff, existsb_false_iff.
  intros q (m & Hq & Hin)%list_elem_of_bind. apply list_elem_of_fmap in Hq as (p & -> & Hp).
  specialize (Hno m Hin). specialize (Hm m Hin). rewrite matcher_hits_split in Hno.
  unfold operation_matches, other_methods_operation, excluded_methods, TransformPathsForIstio in Hm.
  cbn [op_Paths op_NotPaths op_Methods op_NotMethods empty existsb negb] in Hm. rewrite existsb_fmap in Hm.
  apply not_true_iff_false. intros Hpm.
  assert (existsb (λ p, path_match (transformPathForIstio p) (request_path r)) (Paths m) = true) as Hex.
  { apply existsb_true_iff. eauto. }
  rewrite Hex, orb_true_r in *. cbn in *. destruct (Methods m); [done|]. cbn in *. by rewrite Hno in Hm.
Qed.

Lemma matchers_of_rules sc r :
  existsb (matcher_hits r) (GetRequireAuthRequestMatchers (sc_AuthPolicy sc)) = existsb (rule_hits r) (auth_rules sc).
Proof.
  unfold GetRequireAuthRequestMatchers, GetRequestMatchers, auth_rules.
  destruct (AuthRules _); [|done]. cbn. by rewrite existsb_fmap.
Qed.

Lemma unspecified_rule_matches sc r :
  rule_matches r (unspecified_rule_spec sc) =
  existsb (operation_matches r) (unspecified_operations (sc_AuthPolicy sc)) && base_holds sc r.
Proof.
  unfold rule_matches, unspecified_rule_spec, unspecified_operations. cbn [rule_To rule_When].
  by destruct (_ <$> _).
Qed.

Lemma require_rule_matches sc r rule :
  rule_matches r (require_rule_spec sc rule) = rule_hits r rule && (base_holds sc r && when_holds r rule).
Proof.
  unfold rule_matches, require_rule_spec. cbn [rule_To rule_When empty existsb orb].
  by rewrite forallb_app, orb_false_r.
Qed.

Lemma extended_rule_hits sc rule ir r :
  rule_extends sc rule ir → rule_matches r ir = true → rule_hits r rule = true.
Proof.
  intros (Hto & _) Hm. unfold rule_matches in Hm. rewrite Hto in Hm. cbn [empty existsb orb] in Hm.
  rewrite orb_false_r in Hm. by apply andb_true_iff in Hm as [Hm _].
Qed.

End decision.

(** ** The three policies together *)

Section policies.
Context `{IstioAuthz} `{Growth}.

Definition generated (sc : Scope) (deny ignore require : ObjectMeta) : list AuthorizationPolicy :=
  omap id [deny_GetDesired sc deny; ignore_GetDesired sc ignore; require_GetDesired sc require].

Lemma ignore_shape sc meta :
  Enabled (Spec (sc_AuthPolicy sc)) = true → sc_InvalidConfig sc = false →
  (ignore_GetDesired sc meta = None ∧ GetIgnoreAuthRequestMatchers (sc_AuthPolicy sc) = []) ∨
  ∃ p, ignore_GetDesired sc meta = Some p ∧ azp_Action p = ALLOW ∧
       ∀ r, policy_matches r p = ignored sc r.
Proof.
  intros He Hv. unfold ignore_GetDesired, ignored. rewrite He, Hv. cbn [negb].
  destruct (GetIgnoreAuthRequestMatchers _) as [|m ms]; [by left|right].
  eexists. split_and!; [done|done|]. intros r. unfold policy_matches, rule_matches.
  cbn [azp_Rules AllowAuthorizationPolicy authorizationPolicy existsb rule_To rule_When forallb].
  change (empty (matcher_operation <$> m :: ms)) with false.
  by rewrite existsb_fmap, andb_true_r, orb_false_r.
Qed.

Lemma require_policy_matches sc meta r :
  Enabled (Spec (sc_AuthPolicy sc)) = true → sc_InvalidConfig sc = false →
  ∃ p, require_GetDesired sc meta = Some p ∧ azp_Action p = ALLOW ∧
       (policy_matches r p = true → base_holds sc r = true ∨ existsb (rule_hits r) (auth_rules sc) = true) ∧
       (base_holds sc r = true → existsb (rule_hits r) (auth_rules sc) = false → ignored sc r = false →
        policy_matches r p = true) ∧
       (concat_cap (length (base_conditions allow_condition sc)) = length (base_conditions allow_condition sc) →
        existsb (λ rule, rule_hits r rule && (base_holds sc r && when_holds r rule)) (auth_rules sc) = true →
        policy_matches r p = true).
Proof.
  intros He Hv. destruct (has_rules (sc_AuthPolicy sc)) eqn:Hrules.
  - destruct (require_shape sc meta He Hv Hrules) as (specified & -> & Hext & Hexact).
    fold (auth_rules sc) in Hext, Hexact.
    eexists. split_and!; [done|done|..]; unfold policy_matches; cbn [azp_Rules authorizationPolicy existsb];
      rewrite unspecified_rule_matches, orb_true_iff.
    + intros [[_ Hb]%andb_true_iff|(ir & Hin & Hm)%existsb_true_iff]; [by left|right].
      apply existsb_true_iff. apply list_elem_of_lookup in Hin as [i Hi].
      destruct (Forall2_lookup_r _ _ _ _ _ Hext Hi) as (rule & Hrule & Hex).
      exists rule. split; [by eapply list_elem_of_lookup_2|]. by eapply extended_rule_hits.
    + intros -> Hno Hig. left. rewrite unspecified_covers; [done|].
      by rewrite existsb_app, matchers_of_rules, Hno.
    + intros Hcap Hex. right. rewrite Hexact, existsb_fmap by done.
      apply existsb_true_iff in Hex as (rule & Hin & Hr). apply existsb_true_iff. exists rule.
      by rewrite require_rule_matches.
  - rewrite require_no_rules by done. eexists. split_and!; [done|done|..];
      unfold policy_matches, rule_matches; cbn [azp_Rules authorizationPolicy existsb rule_To rule_When empty orb];
      unfold operation_matches, all_paths_operation; cbn [path_operation op_Paths op_NotPaths op_Methods op_NotMethods existsb empty];
      rewrite path_match_star; cbn [orb andb negb]; fold (base_holds sc r); rewrite orb_false_r; [by left|done|].
    intros _ Hex. unfold has_rules in Hrules. apply orb_false_iff in Hrules as [Hr _].
    unfold auth_rules in Hex. destruct (AuthRules _) as [[|]|]; done.
Qed.

Lemma generated_elem sc md mi mr p :
  p ∈ generated sc md mi mr ↔
  deny_GetDesired sc md = Some p ∨ ignore_GetDesired sc mi = Some p ∨ require_GetDesired sc mr = Some p.
Proof.
  unfold generated. rewrite list_elem_of_omap. cbn. split.
  - intros (o & Ho & ->). set_solver.
  - intros [Hp|[Hp|Hp]]; exists (Some p); rewrite Hp; set_solver.
Qed.

(** The DENY policy rejects exactly when a matched auth rule's conditions fail. *)
Lemma denied_iff sc md r :
  Enabled (Spec (sc_AuthPolicy sc)) = true → sc_InvalidConfig sc = false → conditions_ok sc →
  (∀ p, deny_GetDesired sc md = Some p → policy_matches r p = false) ↔
  forallb (λ rule, implb (rule_hits r rule) (base_holds sc r && when_holds r rule)) (auth_rules sc) = true.
Proof.
  intros He Hv Hok. rewrite deny_shape, He, Hv. cbn [negb]. fold (auth_rules sc).
  pose proof (deny_policy_matches sc md r Hok) as Hm.
  destruct (auth_rules sc) as [|rule rules]; [by split|]. rewrite <-negb_false_iff, <-Hm.
  split; [eauto|]. by intros ? p [= <-].
Qed.

Lemma deny_action sc md p : deny_GetDesired sc md = Some p → azp_Action p = DENY.
Proof.
  rewrite deny_shape. destruct (negb _), (sc_InvalidConfig sc),
    (default [] (AuthRules (Spec (sc_AuthPolicy sc)))); naive_solver.
Qed.

Lemma generated_allowed sc md mi mr r :
  Enabled (Spec (sc_AuthPolicy sc)) = true → sc_InvalidConfig sc = false → conditions_ok sc →
  (allowed (generated sc md mi mr) r = true → admits sc r = true) ∧
  (admits sc r = true →
   concat_cap (length (base_conditions allow_condition sc)) = length (base_conditions allow_condition sc) ∨
   existsb (rule_hits r) (auth_rules sc) = false →
   allowed (generated sc md mi mr) r = true).
Proof.
  intros He Hv Hok. rewrite allowed_spec. setoid_rewrite generated_elem.
  pose proof (denied_iff sc md r He Hv Hok) as Hden.
  destruct (require_policy_matches sc mr r He Hv) as (pr & Hpr & Har & Hr1 & Hr2 & Hr3).
  pose proof (ignore_shape sc mi He Hv) as Hig. unfold admits. rewrite andb_true_iff, <-Hden, !orb_true_iff.
  split.
  - intros [Hd Ha]. split; [eauto using deny_action|].
    destruct Ha as [Ha|(p & [Hp|[Hp|Hp]] & Hact & Hm)].
    + exfalso. specialize (Ha pr (or_intror (or_intror Hpr))). congruence.
    + apply deny_action in Hp. congruence.
    + destruct Hig as [[Hn _]|(p' & Hp' & _ & Hi)]; [congruence|]. simplify_eq.
      left. right. by rewrite <-Hi.
    + simplify_eq. destruct (Hr1 Hm); auto.
  - intros [Hd Ha] Hcase. split.
    + intros p [Hp|[Hp|Hp]] Hact; [auto| |congruence].
      destruct Hig as [[Hn _]|(p' & Hp' & Hact' & _)]; congruence.
    + right. destruct (ignored sc r) eqn:Hign.
      { destruct Hig as [[_ Hn]|(p & Hp & Hact & Hi)]; [unfold ignored in Hign; by rewrite Hn in Hign|].
        exists p. split_and!; [auto|done|by rewrite Hi]. }
      exists pr. split_and!; [auto|done|].
      destruct (existsb (rule_hits r) (auth_rules sc)) eqn:Hhit.
      * destruct Hcase as [Hcap|]; [|done]. apply Hr3; [done|].
        apply existsb_true_iff in Hhit as (rule & Hin & Hh). apply existsb_true_iff. exists rule.
        split; [done|]. apply Hden in Hd. rewrite forallb_true_iff in Hd.
        specialize (Hd rule Hin). rewrite Hh in *. done.
      * apply Hr2; [|done|done]. destruct Ha as [[|]|]; done.
Qed.
(** ** Properties *)

(** Claim C1. For an enabled policy with a valid configuration, every request
    that the three generated policies let through is one the AuthPolicy admits:
    all conditions (issuer, audience, baseline and [when]) of every auth rule it
    matches hold, and it matches an auth rule or an ignored matcher or meets the
    base conditions. This holds however slices share memory. Conversely every
    admitted request is let through if the allocator leaves no spare capacity
    behind the base conditions, or if the request matches no auth rule. *)
Theorem policies_enforce sc md mi mr r :
  Enabled (Spec (sc_AuthPolicy sc)) = true → sc_InvalidConfig sc = false → conditions_ok sc →
  (allowed (generated sc md mi mr) r = true → admits sc r = true) ∧
  (admits sc r = true →
   concat_cap (length (base_conditions allow_condition sc)) = length (base_conditions allow_condition sc) ∨
   existsb (rule_hits r) (auth_rules sc) = false →
   allowed (generated sc md mi mr) r = true).
Proof. apply generated_allowed. Qed.

Lemma generated_invalid sc md mi mr :
  Enabled (Spec (sc_AuthPolicy sc)) = true → sc_InvalidConfig sc = true →
  generated sc md mi mr =
    [authorizationPolicy sc md DENY [{| rule_To := [all_paths_operation]; rule_When := [] |}]].
Proof.
  intros He Hi. unfold generated, deny_GetDesired, ignore_GetDesired, require_GetDesired. by rewrite He, Hi.
Qed.

(** Claim C2. When the configuration is invalid the policies deny every request:
    the operator fails closed. *)
Theorem invalid_config_denies_all sc md mi mr r :
  Enabled (Spec (sc_AuthPolicy sc)) = true → sc_InvalidConfig sc = true →
  allowed (generated sc md mi mr) r = false.
Proof.
  intros He Hi. rewrite generated_invalid by done. apply not_true_iff_false. rewrite allowed_spec.
  intros [Hd _]. specialize (Hd _ (list_elem_of_here _ _) eq_refl). revert Hd.
  unfold policy_matches, rule_matches, operation_matches, all_paths_operation. cbn.
  by rewrite path_match_star.
Qed.

End policies.

(** *** Concrete requests *)

Definition example_rules : AuthPolicy :=
  example_policy None 3 [role_rule "/admin/{*}" "admin"; role_rule "/user" "user"]
    [{| Paths := ["/public/{**}"]; Methods := ["GET"] |}].

Definition token (role : string) : list (string * list string) :=
  [("iss", ["https://idp.example"]); ("aud", ["aud"]); ("a", ["x"]); ("b", ["x"]); ("c", ["x"]); ("role", [role])].

Definition admin_request : SimpleRequest := {| sr_path := "/admin/1"; sr_method := "GET"; sr_claims := token "admin" |}.

Lemma example_conditions_ok : conditions_ok (example_scope example_rules ["aud"]).
Proof. split; vm_compute; repeat constructor; done. Qed.

Lemma policies_enforce_witness :
  let sc := example_scope example_rules ["aud"] in
  let m := plain_meta "team" "app" in
  @allowed _ simple_authz (@generated exact_growth sc m m m) admin_request = true ∧
  ((allowed (@generated exact_growth sc m m m) admin_request = true → admits sc admin_request = true) ∧
   (admits sc admin_request = true →
    @concat_cap exact_growth (length (base_conditions allow_condition sc)) =
      length (base_conditions allow_condition sc) ∨
    existsb (rule_hits admin_request) (auth_rules sc) = false →
    allowed (@generated exact_growth sc m m m) admin_request = true)).
Proof.
  split; [vm_compute; reflexivity|].
  apply (@policies_enforce _ simple_authz exact_growth); [reflexivity|reflexivity|apply example_conditions_ok].
Defined.

Definition invalid_scope : Scope :=
  {| sc_AuthPolicy := example_rules; sc_Audiences := []; sc_AutoLoginConfig := no_login_config;
     sc_OAuthCredentials := {| ClientID := None; ClientSecret := None |};
     sc_IdentityProviderUris := example_uris; sc_Descendants := [];
     sc_InvalidConfig := true; sc_ValidationErrorMessage := Some "invalid path" |}.

Lemma invalid_config_denies_all_witness :
  @allowed _ simple_authz (generated invalid_scope (plain_meta "t" "a") (plain_meta "t" "b") (plain_meta "t" "c"))
    admin_request = false.
Proof. apply (@invalid_config_denies_all _ simple_authz go_growth); reflexivity. Defined.

(** With the capacities of Go's allocator and five base conditions
    (issuer, audience, three baseline claims), [slices.Concat] leaves a spare cell
    and the appends of two auth rules write their [when] condition to that same
    cell: the ALLOW rule of [/admin/{*}] asks for the role of the rule that
    follows, and a request the AuthPolicy admits is rejected. *)
Theorem shared_cell_rejects_admitted :
  let sc := example_scope example_rules ["aud"] in
  let m := plain_meta "team" "app" in
  Spec_admissible (Spec (sc_AuthPolicy sc)) = true ∧ ValidatePaths (GetPaths (sc_AuthPolicy sc)) = Ok () ∧
  (λ p, (λ r, (op_Paths <$> rule_To r, last (rule_When r))) <$> drop 1 (azp_Rules p)) <$>
    @require_GetDesired go_growth sc m =
    Some [([["/admin/{*}"]], Some (allow_condition (claim_key "role") ["user"]));
          ([["/user"]], Some (allow_condition (claim_key "role") ["user"]))] ∧
  admits sc admin_request = true ∧
  @allowed _ simple_authz (@generated go_growth sc m m m) admin_request = false.
Proof. vm_compute. auto. Qed.
