(* ===== verification/Consistency.v ===== *)
(** * The two gates agree

    A request passes the sidecar twice: the Lua script decides whether the OAuth2
    filter asks for a login, the AuthorizationPolicies decide whether the request
    reaches the application. What the script lets bypass the login must not be
    stopped for the lack of a token. *)

From S2P Require Import Prelude GoStrings GoSlices Api Objects State Examples PathValidation PathLang LuaPattern.
From S2P Require Import LuaConvert LuaMatch LuaRead LuaScript LuaScriptRead LuaDecision IstioPolicy Istio IstioExample Enforcement.

Section agree.
Context `{IstioAuthz} `{!IstioPaths} `{Growth}.

Definition istio_matchers (ms : list RequestMatcher) : Prop :=
  ∀ rm, rm ∈ ms → Paths rm ≠ [] ∧ Forall (λ q, validatePath q = Ok () ∧ istio_syntax q = true) (Paths rm).

(** On the same request, the matcher of the script and the operation of the policy
    agree. *)
Lemma matcher_agrees rm r :
  Paths rm ≠ [] → Forall (λ q, validatePath q = Ok () ∧ istio_syntax q = true) (Paths rm) →
  all_chars path_char (request_path r) = true →
  matcher_hits r rm = true ↔ matcher_matches rm (request_path r) (request_method r).
Proof.
  intros Hne Hq Hr. rewrite matcher_hits_split, andb_true_iff, !orb_true_iff, bool_decide_eq_true.
  unfold matcher_matches.
  assert (empty (Paths rm) = true ↔ False) as -> by (by destruct (Paths rm)).
  assert (empty (Methods rm) = true ↔ Methods rm = []) as -> by (by destruct (Methods rm)).
  rewrite existsb_true_iff. apply and_iff_compat_r. rewrite (left_id False or).
  rewrite Forall_forall in Hq. split; intros (q & Hin & Hm); exists q; split; try done;
    destruct (Hq q Hin) as [Hv Hs].
  - apply path_match_language in Hm; try done. unfold path_matches in *. by rewrite tokenize_transform in Hm.
  - apply path_match_language; try done. unfold path_matches in *. by rewrite tokenize_transform.
Qed.

Lemma some_agrees ms r :
  istio_matchers ms → all_chars path_char (request_path r) = true →
  existsb (matcher_hits r) ms = true ↔ some_matches ms (request_path r) (request_method r).
Proof.
  intros Hms Hr. rewrite existsb_true_iff. unfold some_matches.
  split; intros (rm & Hin & Hm); exists rm; (split; [done|]); destruct (Hms rm Hin);
    by apply matcher_agrees.
Qed.
(** An ignored request that matches no auth rule is admitted without a token. *)
Lemma ignored_admits sc r :
  ignored sc r = true → existsb (rule_hits r) (auth_rules sc) = false → admits sc r = true.
Proof.
  intros Hi Hno. unfold admits. rewrite Hi, orb_true_r, andb_true_r. apply forallb_true_iff. intros rule Hin.
  rewrite existsb_false_iff in Hno. by rewrite Hno.
Qed.

(** Claim C6. For an enabled policy with a valid configuration, conditions of the
    admitted form ([conditions_ok]), an admitted spec with valid paths and auto-login
    paths ([script_ok]), and matchers that each have a path and only paths that Istio
    can read ([istio_matchers]): whenever the generated script bypasses the login of
    a request whose path has only the characters of a URI path ([path_char]), the
    generated AuthorizationPolicies let every request with that path and method
    through, whatever its token, and however slices share memory. (Without a path in
    each matcher they need not: [no_paths_bypassed_and_denied].) *)
Theorem bypass_is_admitted sc cfg uris raw m md mi mr :
  let ap := sc_AuthPolicy sc in
  Enabled (Spec ap) = true → sc_InvalidConfig sc = false → conditions_ok sc → script_ok ap cfg →
  istio_matchers (GetRequireAuthRequestMatchers ap ++ GetIgnoreAuthRequestMatchers ap) →
  all_chars path_char (strip_query raw) = true →
  ∃ script c bypass deny,
    GenerateLuaScript ap cfg uris = Ok script ∧ read_script script = Some (c, lua_functions) ∧
    envoy_on_request c (Some raw) (Some m) =
      Some [(BypassOauthLoginHeaderName, tostring bypass); (DenyRedirectHeaderName, tostring deny)] ∧
    (bypass = true → ∀ r, request_path r = strip_query raw → request_method r = m →
     allowed (generated sc md mi mr) r = true).
Proof.
  intros ap He Hv Hok Hs Hm Hc.
  destruct (script_decides ap cfg Hs uris raw m) as (script & c & bypass & deny & Hgen & Hread & Hreq & Hb & _).
  exists script, c, bypass, deny. split_and!; [done..|]. intros (_ & _ & Hi & Hr)%Hb r Hp Hmeth.
  rewrite <-Hp in Hi, Hr, Hc. rewrite <-Hmeth in Hi, Hr.
  assert (istio_matchers (GetIgnoreAuthRequestMatchers ap)) as Hmi by (intros rm Hrm; apply Hm; set_solver).
  assert (istio_matchers (GetRequireAuthRequestMatchers ap)) as Hmr by (intros rm Hrm; apply Hm; set_solver).
  assert (ignored sc r = true) as Hig.
  { apply some_agrees; [done|done|]. unfold IgnoreAuthMatchers in Hi. unfold GetIgnoreAuthRequestMatchers, ap.
    fold ap. by destruct (IgnoreAuthRules (Spec ap)). }
  assert (existsb (rule_hits r) (auth_rules sc) = false) as Hno.
  { rewrite <-matchers_of_rules. apply not_true_iff_false. rewrite some_agrees by done.
    intros (rm & Hin & Hmm). apply Hr. exists rm. split; [|done]. apply Required_elem. by left. }
  apply generated_allowed; [done..| |by right]. by apply ignored_admits.
Qed.
End agree.

Definition login_rules : AuthPolicy :=
  example_policy (Some (example_login None)) 2 [role_rule "/admin/{*}" "admin"]
    [{| Paths := ["/public/{**}"; "/health*"]; Methods := ["GET"] |}].

Lemma bypass_is_admitted_witness :
  let sc := example_scope login_rules ["aud"] in
  let cfg := SetSaneDefaults no_login_config (example_login None) in
  let m := plain_meta "team" "app" in
  ∃ script c bypass deny,
    GenerateLuaScript login_rules cfg example_uris = Ok script ∧ read_script script = Some (c, lua_functions) ∧
    envoy_on_request c (Some "/public/a/b?x") (Some "GET") =
      Some [(BypassOauthLoginHeaderName, tostring bypass); (DenyRedirectHeaderName, tostring deny)] ∧
    (bypass = true → ∀ r : SimpleRequest, sr_path r = strip_query "/public/a/b?x" → sr_method r = "GET" →
     @allowed _ simple_authz (generated sc m m m) r = true).
Proof.
  apply (@bypass_is_admitted _ simple_authz simple_paths go_growth (example_scope login_rules ["aud"])).
  - reflexivity.
  - reflexivity.
  - split; vm_compute; repeat constructor; done.
  - split; vm_compute; reflexivity.
  - intros rm Hrm. cbn in Hrm.
    repeat (apply elem_of_cons in Hrm as [->|Hrm];
      [split; [done|repeat constructor; vm_compute; reflexivity]|]). by apply not_elem_of_nil in Hrm.
  - vm_compute. reflexivity.
Defined.

(** A rule without paths says different things to the two gates: the script has one
    entry for each path, so the rule requires no login of any request; to Istio an
    operation without paths is one on every path, so the DENY policy stops every
    request of the rule's method without the role. The request of the example is
    bypassed by the script and denied by the policies. *)
Definition no_paths_rule : RequestAuthRule :=
  {| rule_RequestMatcher := {| Paths := []; Methods := ["GET"] |};
     When := Some [{| Claim := "role"; Values := ["admin"] |}]; DenyRedirect := None |}.

Definition no_paths_policy : AuthPolicy :=
  example_policy (Some (example_login None)) 2 [no_paths_rule] [{| Paths := ["/public/{**}"]; Methods := ["GET"] |}].

Theorem no_paths_bypassed_and_denied :
  let sc := example_scope no_paths_policy ["aud"] in
  let cfg := SetSaneDefaults no_login_config (example_login None) in
  let m := plain_meta "team" "app" in
  Spec_admissible (Spec no_paths_policy) = true ∧ ValidatePaths (GetPaths no_paths_policy) = Ok () ∧
  match GenerateLuaScript no_paths_policy cfg example_uris with
  | Ok script =>
      (c ← read_script script; envoy_on_request c.1 (Some "/public/a") (Some "GET")) =
        Some [(BypassOauthLoginHeaderName, "true"); (DenyRedirectHeaderName, "false")]
  | _ => False
  end ∧
  @allowed _ simple_authz (generated sc m m m) {| sr_path := "/public/a"; sr_method := "GET"; sr_claims := [] |} = false.
Proof. vm_compute. auto. Qed.
