(* ===== verification/Reconciliation.v ===== *)
(** * The reconciliation engine (pkg/reconciliation/reconciler.go)

    One object is read, compared with what is desired, and created, patched or
    deleted. The cluster is a state of any type, changed by a [Client]'s
    operations; every write is also recorded, so that the safety of the engine is
    a statement about the calls it makes. *)

From S2P Require Import Prelude Api Objects State.

(** ** The objects and the API server *)

Class Controlled (T : Type) := {
  obj_meta : T → ObjectMeta;
  (** an object of which only the namespace and the name are set *)
  named_object : string → string → T;
  to_object : T → Object;
  set_meta : ObjectMeta → T → T;
}.

Inductive GetResult (T : Type) := Found (t : T) | NotFound | GetError (e : string).
Arguments Found {T} t.
Arguments NotFound {T}.
Arguments GetError {T} e.

(** A client of the API server on the objects of one type. A write returns the
    object as the call leaves it, and an error. *)
Class Client (W T : Type) := {
  client_get : W → NamespacedName → GetResult T;
  client_create : W → T → W * (T * option string);
  client_patch : W → T → T → W * (T * option string);
  client_delete : W → T → W * option string;
}.

(** [metav1.IsControlledBy] and [ctrl.SetControllerReference], which acts on the
    metadata only and makes the policy the controller. *)
Class Ownership := {
  is_controlled_by : ObjectMeta → AuthPolicy → bool;
  (** the metadata or an error; it does not panic *)
  set_controller_reference : AuthPolicy → ObjectMeta → go ObjectMeta;
  set_controller_controls ap m m' :
    set_controller_reference ap m = Ok m' →
    is_controlled_by m' ap = true ∧ Name m' = Name m ∧ Namespace m' = Namespace m ∧ Labels m' = Labels m;
}.

(** ** Actions *)

Inductive ReconcileAction := RequiresCreateAction | RequiresUpdateAction | RequiresDeleteAction | RequiresNoAction.

Definition Action_text (a : ReconcileAction) : string :=
  match a with
  | RequiresCreateAction => "creation"
  | RequiresUpdateAction => "update"
  | RequiresDeleteAction => "deletion"
  | RequiresNoAction => "no action"
  end.

(** [ctrl.Result]; the delay is in nanoseconds. *)
Record Result := { Requeue : bool; RequeueAfter : Z }.

#[global] Instance Result_eq_dec : EqDecision Result.
Proof. solve_decision. Defined.

Definition no_result : Result := {| Requeue := false; RequeueAfter := 0 |}.

Inductive ApiCall :=
  | CallCreate (o : Object)
  | CallPatch (before after : Object)
  | CallDelete (o : Object).

(** What a reconcile run changes: the cluster, and the descendants of the scope. *)
Record KState (W : Type) := {
  ks_world : W;
  ks_calls : list ApiCall;
  ks_scope : Scope;
}.
Arguments ks_world {W}. Arguments ks_calls {W}. Arguments ks_scope {W}.

Section engine.
Context {W : Type} `{Ownership} {T : Type} `{!Controlled T} `{!Client W T}.

Definition called (st : KState W) (w : W) (c : ApiCall) : KState W :=
  {| ks_world := w; ks_calls := ks_calls st ++ [c]; ks_scope := ks_scope st |}.

Definition report (st : KState W) (obj : T) (errorMessage successMessage : option string) (kind name : string)
    : KState W :=
  {| ks_world := ks_world st; ks_calls := ks_calls st;
     ks_scope := ReplaceDescendant (ks_scope st) (to_object obj) errorMessage successMessage kind name |}.

(** [kind namespace/name], as the messages have it. *)
Definition describe (kind : string) (m : ObjectMeta) : string := kind +:+ " " +:+ Namespace m +:+ "/" +:+ Name m.

Definition DetermineReconcileAction (current : T) (desired : option T) (shouldUpdate : T → T → bool)
    (currentExists currentIsOwnedByAuthPolicy : bool) : go ReconcileAction :=
  match desired with
  | None =>
      if currentExists && currentIsOwnedByAuthPolicy then Ok RequiresDeleteAction else Ok RequiresNoAction
  | Some desired =>
      if negb currentExists then Ok RequiresCreateAction
      else if negb currentIsOwnedByAuthPolicy then
        Err ("cannot update " +:+ Namespace (obj_meta current) +:+ "/" +:+ Name (obj_meta current) +:+
             " as it is not owned by AuthPolicy")
      else if shouldUpdate current desired then Ok RequiresUpdateAction
      else Ok RequiresNoAction
  end.

Definition reconcileOnCreate (st : KState W) (desired : T) (kind name : string) : KState W * (Result * option string) :=
  let d := describe kind (obj_meta desired) in
  match set_controller_reference (sc_AuthPolicy (ks_scope st)) (obj_meta desired) with
  | Ok m =>
      let '(w, (created, err)) := client_create (ks_world st) (set_meta m desired) in
      let st := called st w (CallCreate (to_object (set_meta m desired))) in
      match err with
      | Some e => (report st created (Some ("Unable to create " +:+ d)) None kind name, (no_result, Some e))
      | None => (report st created None (Some ("Successfully created " +:+ d +:+ ".")) kind name, (no_result, None))
      end
  | Err e | Panic e =>
      (report st desired (Some ("Unable to set AuthPolicy ownerReference on " +:+ d +:+ ".")) None kind name,
       (no_result, Some e))
  end.

Definition reconcileOnUpdate (st : KState W) (desired current : T) (updateFields : T → T → T) (kind name : string)
    : KState W * (Result * option string) :=
  let d := describe kind (obj_meta desired) in
  let updated := updateFields current desired in
  let '(w, (patched, err)) := client_patch (ks_world st) current updated in
  let st := called st w (CallPatch (to_object current) (to_object updated)) in
  match err with
  | Some e => (report st patched (Some ("Unable to patch " +:+ d)) None kind name, (no_result, Some e))
  | None => (report st patched None (Some ("Successfully updated " +:+ d +:+ ".")) kind name, (no_result, None))
  end.

Definition reconcileOnDelete (st : KState W) (current : T) (kind name : string) : KState W * (Result * option string) :=
  let '(w, err) := client_delete (ks_world st) current in
  let st := called st w (CallDelete (to_object current)) in
  match err with
  | Some e =>
      (report st current (Some ("Failed to delete " +:+ describe kind (obj_meta current))) None kind name,
       (no_result, Some e))
  | None => (st, (no_result, None))
  end.

Definition ReconcileControllerResource (kind name : string) (desired : option T)
    (shouldUpdate : T → T → bool) (updateFields : T → T → T) (st : KState W) : KState W * (Result * option string) :=
  let ap := sc_AuthPolicy (ks_scope st) in
  let ns := Namespace (ap_Meta ap) in
  let key := {| nn_Namespace := ns; nn_Name := name |} in
  let reconcile current currentExists :=
    match DetermineReconcileAction current desired shouldUpdate currentExists
            (is_controlled_by (obj_meta current) ap), desired with
    | Err e, _ | Panic e, _ =>
        (report st current (Some ("Failed to reconcile " +:+ describe kind (obj_meta current) +:+ ": " +:+ e)) None
           kind name, (no_result, Some e))
    | Ok RequiresDeleteAction, _ => reconcileOnDelete st current kind name
    | Ok RequiresCreateAction, Some desired => reconcileOnCreate st desired kind name
    | Ok RequiresUpdateAction, Some desired => reconcileOnUpdate st desired current updateFields kind name
    | Ok RequiresNoAction, Some _ =>
        (report st current None
           (Some ("Successfully reconciled " +:+ kind +:+ " " +:+ Namespace (obj_meta current) +:+ "/" +:+ name +:+ "."))
           kind name, (no_result, None))
    | Ok _, None => (st, (no_result, None))
    end in
  match client_get (ks_world st) key with
  | GetError e =>
      (report st (named_object ns name) (Some ("Unable to get " +:+ kind +:+ " " +:+ ns +:+ "/" +:+ name +:+ ".")) None
         kind name, (no_result, Some e))
  | NotFound => reconcile (named_object ns name) false
  | Found current => reconcile current true
  end.
End engine.
