(* ===== verification/ReconciliationFacts.v ===== *)
(** * Safety, reporting and convergence of the reconciliation engine

    The engine writes at most once, never to an object the policy does not
    control; it reports what happened in the descendant of the object; and against
    an API server that stores what it accepts, a second run has nothing to do. *)

From S2P Require Import Prelude Api Objects State Examples Reconciliation.

(** An object as the server stores the one submitted: the server may fill in
    metadata, and keeps the labels and everything else. *)
Definition stored_as `{Controlled T} (s o : T) : Prop :=
  s = set_meta (obj_meta s) o ∧ Labels (obj_meta s) = Labels (obj_meta o).

(** What an object needs for the engine: when to update, and how. *)
Class Updatable (T : Type) `{Controlled T} := {
  should_update : T → T → bool;
  update_fields : T → T → T;
  (** the content that the engine is to bring about: what is read is as desired *)
  as_desired : T → T → Prop;
  (** two desired objects the engine treats alike *)
  same_desired : T → T → Prop;
  (** a desired object the generators can produce *)
  desired_ok : T → Prop;
  same_should_update c d d' : same_desired d d' → should_update c d = should_update c d';
  same_as_desired c d d' : same_desired d d' → as_desired c d → as_desired c d';
  (** what is not updated is as desired *)
  no_update_as_desired c d : should_update c d = false → as_desired c d;
  (** what was created or updated is as desired *)
  created_as_desired s m d : desired_ok d → Labels m = Labels (obj_meta d) → stored_as s (set_meta m d) → as_desired s d;
  updated_as_desired s c d : desired_ok d → stored_as s (update_fields c d) → as_desired s d;
  (** and it is not changed again, also for a desired object generated anew: it is
      not updated, or an update leaves it as it is *)
  created_settles s m d d' :
    desired_ok d → same_desired d d' → Labels m = Labels (obj_meta d) → stored_as s (set_meta m d) →
    should_update s d' = false ∨ update_fields s d' = s;
  updated_settles s c d d' :
    desired_ok d → same_desired d d' → stored_as s (update_fields c d) →
    should_update s d' = false ∨ update_fields s d' = s;
  obj_meta_set m t : obj_meta (set_meta m t) = m;
  (** an update changes no name and no owner *)
  update_meta c d :
    Name (obj_meta (update_fields c d)) = Name (obj_meta c) ∧
    Namespace (obj_meta (update_fields c d)) = Namespace (obj_meta c) ∧
    OwnerReferences (obj_meta (update_fields c d)) = OwnerReferences (obj_meta c);
}.

(** A stored object that a run for the desired one leaves as it is. *)
Definition left_alone `{Updatable T} (c d : T) : Prop := should_update c d = false ∨ update_fields c d = c.

Definition key_of (m : ObjectMeta) : NamespacedName := {| nn_Namespace := Namespace m; nn_Name := Name m |}.

Section facts.
Context {W : Type} `{Ownership} {T : Type} `{!Controlled T} `{!Client W T}.

Lemma report_calls (st : KState W) (obj : T) e s k n : ks_calls (report st obj e s k n) = ks_calls st.
Proof. done. Qed.

(** *** The cases of a run *)

Inductive outcome (kind name : string) (desired : option T) (su : T → T → bool) (uf : T → T → T)
    (st : KState W) : KState W → option string → Prop :=
  | out_failed obj msg e :
      outcome kind name desired su uf st (report st obj (Some msg) None kind name) (Some e)
  | out_settled d current msg :
      desired = Some d →
      client_get (ks_world st) {| nn_Namespace := Namespace (ap_Meta (sc_AuthPolicy (ks_scope st))); nn_Name := name |} =
        Found current →
      is_controlled_by (obj_meta current) (sc_AuthPolicy (ks_scope st)) = true → su current d = false →
      outcome kind name desired su uf st (report st current None (Some msg) kind name) None
  | out_left :
      desired = None →
      (∀ current,
        client_get (ks_world st) {| nn_Namespace := Namespace (ap_Meta (sc_AuthPolicy (ks_scope st))); nn_Name := name |} =
          Found current → is_controlled_by (obj_meta current) (sc_AuthPolicy (ks_scope st)) = false) →
      (∀ e,
        client_get (ks_world st) {| nn_Namespace := Namespace (ap_Meta (sc_AuthPolicy (ks_scope st))); nn_Name := name |} ≠
          GetError e) →
      outcome kind name desired su uf st st None
  | out_created d m w created err :
      desired = Some d →
      client_get (ks_world st) {| nn_Namespace := Namespace (ap_Meta (sc_AuthPolicy (ks_scope st))); nn_Name := name |} =
        NotFound →
      set_controller_reference (sc_AuthPolicy (ks_scope st)) (obj_meta d) = Ok m →
      client_create (ks_world st) (set_meta m d) = (w, (created, err)) →
      ∀ e s, (e = None ↔ err = None) → (s = None ↔ is_Some err) →
      outcome kind name desired su uf st
        (report (called st w (CallCreate (to_object (set_meta m d)))) created e s kind name) err
  | out_updated d current w patched err :
      desired = Some d →
      client_get (ks_world st) {| nn_Namespace := Namespace (ap_Meta (sc_AuthPolicy (ks_scope st))); nn_Name := name |} =
        Found current →
      is_controlled_by (obj_meta current) (sc_AuthPolicy (ks_scope st)) = true → su current d = true →
      client_patch (ks_world st) current (uf current d) = (w, (patched, err)) →
      ∀ e s, (e = None ↔ err = None) → (s = None ↔ is_Some err) →
      outcome kind name desired su uf st
        (report (called st w (CallPatch (to_object current) (to_object (uf current d)))) patched e s kind name) err
  | out_deleted current w :
      desired = None →
      client_get (ks_world st) {| nn_Namespace := Namespace (ap_Meta (sc_AuthPolicy (ks_scope st))); nn_Name := name |} =
        Found current →
      is_controlled_by (obj_meta current) (sc_AuthPolicy (ks_scope st)) = true →
      client_delete (ks_world st) current = (w, None) →
      outcome kind name desired su uf st (called st w (CallDelete (to_object current))) None
  | out_delete_failed current w e msg :
      desired = None →
      client_get (ks_world st) {| nn_Namespace := Namespace (ap_Meta (sc_AuthPolicy (ks_scope st))); nn_Name := name |} =
        Found current →
      is_controlled_by (obj_meta current) (sc_AuthPolicy (ks_scope st)) = true →
      client_delete (ks_world st) current = (w, Some e) →
      outcome kind name desired su uf st
        (report (called st w (CallDelete (to_object current))) current (Some msg) None kind name) (Some e).

Ltac run_case c := eexists _, _, _; (split; [reflexivity|]); (split; [done|]); eapply c; eauto.

Lemma reconcile_outcome kind name desired su uf (st : KState W) :
  ∃ st' r err, ReconcileControllerResource kind name desired su uf st = (st', (r, err)) ∧ r = no_result ∧
    outcome kind name desired su uf st st' err.
Proof.
  unfold ReconcileControllerResource. cbv zeta.
  destruct (client_get _ _) as [current| |e] eqn:Hget; [| |by run_case out_failed].
  - unfold DetermineReconcileAction. destruct desired as [d|]; cbn [negb andb].
    + destruct (is_controlled_by _ _) eqn:Hown; cbn [negb]; [|by run_case out_failed].
      destruct (su current d) eqn:Hsu; [|by run_case out_settled].
      unfold reconcileOnUpdate. cbv zeta. destruct (client_patch _ _ _) as [w [patched [e|]]] eqn:Hp;
        run_case out_updated; split; try done; by intros [].
    + destruct (is_controlled_by _ _) eqn:Hown; cbn [andb];
        [|run_case out_left; [intros c; rewrite Hget; congruence|by rewrite Hget]].
      unfold reconcileOnDelete. destruct (client_delete _ _) as [w [e|]] eqn:Hd;
        [by run_case out_delete_failed|by run_case out_deleted].
  - unfold DetermineReconcileAction. destruct desired as [d|]; cbn [negb andb];
      [|run_case out_left; rewrite Hget; done].
    unfold reconcileOnCreate. cbv zeta. destruct (set_controller_reference _ _) as [m|e|e] eqn:Hm; [|by run_case out_failed..].
    destruct (client_create _ _) as [w [created [e|]]] eqn:Hc; run_case out_created; split; try done; by intros [].
Qed.
(** The run as a function of the state it starts from. *)
Definition key_in (st : KState W) (name : string) : NamespacedName :=
  {| nn_Namespace := Namespace (ap_Meta (sc_AuthPolicy (ks_scope st))); nn_Name := name |}.

(** A write the policy is entitled to: it creates what is missing, under its own
    control, and changes or removes only what it controls. *)
Definition write_ok (ap : AuthPolicy) (got : GetResult T) (desired : option T) (uf : T → T → T) (c : ApiCall) : Prop :=
  match c with
  | CallCreate o => got = NotFound ∧ ∃ d m, desired = Some d ∧ o = to_object (set_meta m d) ∧ is_controlled_by m ap = true
  | CallPatch before after => ∃ current d,
      got = Found current ∧ is_controlled_by (obj_meta current) ap = true ∧ desired = Some d ∧
      before = to_object current ∧ after = to_object (uf current d)
  | CallDelete o => ∃ current,
      got = Found current ∧ is_controlled_by (obj_meta current) ap = true ∧ desired = None ∧ o = to_object current
  end.

Lemma outcome_writes kind name desired su uf (st st' : KState W) err :
  outcome kind name desired su uf st st' err →
  ∃ calls, ks_calls st' = ks_calls st ++ calls ∧ length calls ≤ 1 ∧
    Forall (write_ok (sc_AuthPolicy (ks_scope st)) (client_get (ks_world st) (key_in st name)) desired uf) calls.
Proof.
  unfold key_in. destruct 1; try (exists []; rewrite app_nil_r; split_and!; [done|cbn; lia|constructor]);
    (eexists [_]; split; [reflexivity|]; split; [done|]; repeat constructor; cbn [write_ok]).
  - done.
  - exists d, m. split_and!; [done|done|]. by eapply set_controller_controls.
  - by exists current, d.
  - by exists current.
  - by exists current.
Qed.

Definition reported (kind name : string) (desired : option T) (before after : Scope) (err : option string) : Prop :=
  match desired, err with
  | None, None => after = before
  | _, Some _ => ∃ obj msg, after = ReplaceDescendant before obj (Some msg) None kind name
  | Some _, None => ∃ obj msg, after = ReplaceDescendant before obj None (Some msg) kind name
  end.

Lemma written_report (st : KState W) obj kind name (e s err : option string) :
  (e = None ↔ err = None) → (s = None ↔ is_Some err) →
  match err with
  | Some _ => ∃ o msg, ks_scope (report st obj e s kind name) = ReplaceDescendant (ks_scope st) o (Some msg) None kind name
  | None => ∃ o msg, ks_scope (report st obj e s kind name) = ReplaceDescendant (ks_scope st) o None (Some msg) kind name
  end.
Proof.
  intros He Hs. destruct err, e, s; try (by eexists _, _); exfalso; destruct He, Hs; naive_solver.
Qed.

Lemma outcome_reported kind name desired su uf (st st' : KState W) err :
  outcome kind name desired su uf st st' err → reported kind name desired (ks_scope st) (ks_scope st') err.
Proof.
  unfold reported. destruct 1; subst.
  - destruct desired; by eexists _, _.
  - by eexists _, _.
  - done.
  - by apply (written_report (called st w (CallCreate (to_object (set_meta m d))))).
  - by apply (written_report (called st w (CallPatch (to_object current) (to_object (uf current d))))).
  - done.
  - by eexists _, _.
Qed.

(** ** Properties *)

(** One run makes at most one write, and only one the policy is
    entitled to: an object is created only if it was not found, and then under the
    policy's control; an object is patched or deleted only if it was found and is
    controlled by the policy, deleted only if nothing is desired. *)
Theorem reconcile_ownership_safe kind name desired su uf (st : KState W) :
  let '(st', _) := ReconcileControllerResource kind name desired su uf st in
  ∃ calls, ks_calls st' = ks_calls st ++ calls ∧ length calls ≤ 1 ∧
    Forall (write_ok (sc_AuthPolicy (ks_scope st)) (client_get (ks_world st) (key_in st name)) desired uf) calls.
Proof.
  destruct (reconcile_outcome kind name desired su uf st) as (st' & r & err & -> & _ & Ho). by eapply outcome_writes.
Qed.

(** A run reports: an error leaves the object's descendant with an error
    message, success with a desired object leaves it with a success message, and
    success without one leaves the scope as it was; nothing else of the scope
    changes, and no run asks to be requeued. *)
Theorem reconcile_reports kind name desired su uf (st : KState W) :
  let '(st', (r, err)) := ReconcileControllerResource kind name desired su uf st in
  r = no_result ∧ reported kind name desired (ks_scope st) (ks_scope st') err.
Proof.
  destruct (reconcile_outcome kind name desired su uf st) as (st' & r & err & -> & Hr & Ho).
  split; [done|]. by eapply outcome_reported.
Qed.

End facts.

(** ** Convergence *)

(** What an API server that stores what it accepts promises: a get finds the
    object under its key; after a create or a patch the object found is the one
    submitted, up to metadata that the server fills in; a patch that changes nothing
    is accepted and changes nothing; after a delete nothing is found. *)
Class ApiServer (W T : Type) `{Ownership} `{Controlled T} `{!Client W T} := {
  get_key w k c : client_get w k = Found c → key_of (obj_meta c) = k;
  create_stores w o w' o' :
    client_create w o = (w', (o', None)) →
    ∃ s, client_get w' (key_of (obj_meta o)) = Found s ∧ stored_as s o ∧
         ∀ ap, is_controlled_by (obj_meta s) ap = is_controlled_by (obj_meta o) ap;
  patch_stores w c u w' u' :
    client_get w (key_of (obj_meta u)) = Found c → client_patch w c u = (w', (u', None)) →
    ∃ s, client_get w' (key_of (obj_meta u)) = Found s ∧ stored_as s u ∧
         ∀ ap, is_controlled_by (obj_meta s) ap = is_controlled_by (obj_meta u) ap;
  empty_patch w k c : client_get w k = Found c → client_patch w c c = (w, (c, None));
  delete_removes w c w' :
    client_delete w c = (w', None) → client_get w' (key_of (obj_meta c)) = NotFound;
}.

(** Control is read from the owner references. *)
Class OwnershipByReferences `{Ownership} := {
  controlled_by_references m m' ap :
    OwnerReferences m = OwnerReferences m' → is_controlled_by m ap = is_controlled_by m' ap;
}.

Section convergence.
Context {W T : Type} `{OwnershipByReferences} `{!Controlled T} `{!Updatable T} `{!Client W T} `{!ApiServer W T}.

Definition run (kind name : string) (desired : option T) (st : KState W) : KState W * (Result * option string) :=
  ReconcileControllerResource kind name desired should_update update_fields st.

(** A state in which the object is as desired and a run has nothing to change. *)
Definition settled (name : string) (desired : option T) (st : KState W) : Prop :=
  match desired, client_get (ks_world st) (key_in st name) with
  | Some d, Found c =>
      is_controlled_by (obj_meta c) (sc_AuthPolicy (ks_scope st)) = true ∧ as_desired c d ∧ left_alone c d
  | None, Found c => is_controlled_by (obj_meta c) (sc_AuthPolicy (ks_scope st)) = false
  | None, NotFound => True
  | _, _ => False
  end.

(** The calls of a run in such a state: none, or a patch of an object with itself. *)
Definition idle_calls (desired : option T) (got : GetResult T) : list ApiCall :=
  match desired, got with
  | Some d, Found c => if should_update c d then [CallPatch (to_object c) (to_object c)] else []
  | _, _ => []
  end.

(** And what it reports, for an object that is there as desired. *)
Definition left_by (kind name : string) (desired : option T) (got : GetResult T) (sc : Scope) : Scope :=
  match desired, got with
  | Some d, Found c =>
      ReplaceDescendant sc (to_object c) None
        (Some (if should_update c d then "Successfully updated " +:+ describe kind (obj_meta d) +:+ "."
               else "Successfully reconciled " +:+ kind +:+ " " +:+ Namespace (obj_meta c) +:+ "/" +:+ name +:+ "."))
        kind name
  | _, _ => sc
  end.

Lemma settled_run kind name desired st :
  settled name desired st →
  let got := client_get (ks_world st) (key_in st name) in
  run kind name desired st =
    ({| ks_world := ks_world st; ks_calls := ks_calls st ++ idle_calls desired got;
        ks_scope := left_by kind name desired got (ks_scope st) |}, (no_result, None)).
Proof.
  unfold settled, run, ReconcileControllerResource, key_in, DetermineReconcileAction, left_alone. cbv zeta.
  destruct desired as [d|], (client_get _ _) as [c| |e] eqn:Hget; try done; cbn [negb andb idle_calls left_by].
  - intros (-> & _ & Hl). cbn [negb]. destruct (should_update c d) eqn:Hsu.
    + destruct Hl as [?|Hu]; [done|]. unfold reconcileOnUpdate. rewrite Hu, (empty_patch _ _ _ Hget). done.
    + rewrite app_nil_r. by destruct st.
  - intros ->. rewrite app_nil_r. by destruct st.
  - rewrite app_nil_r. by destruct st.
Qed.

Lemma run_settles kind name desired desired' st st' r :
  run kind name desired st = (st', (r, None)) →
  match desired, desired' with
  | Some d, Some d' => same_desired d d' ∧ desired_ok d ∧ key_of (obj_meta d) = key_in st name
  | None, None => True
  | _, _ => False
  end →
  settled name desired' st'.
Proof.
  intros Hrun Hd. unfold run in Hrun.
  destruct (reconcile_outcome kind name desired should_update update_fields st) as (st1 & r1 & err & Heq & _ & Ho).
  rewrite Hrun in Heq. injection Heq as <- <- <-. clear Hrun.
  remember (@None string) as err eqn:Herr in Ho. unfold settled, left_alone.
  destruct Ho as [|d c msg Hdes Hget Hown Hsu|Hdes Hleft Hne|d m w created err Hdes Hget Hm Hc e s _ _
    |d c w patched err Hdes Hget Hown Hsu Hp e s _ _|c w Hdes Hget Hown Hdel|]; subst; try done;
    cbn [report called ks_world ks_scope ReplaceDescendant with_descendants sc_AuthPolicy];
    unfold key_in in *; cbn [report called ks_world ks_scope ReplaceDescendant with_descendants sc_AuthPolicy].
  - destruct desired' as [d'|]; [|done]. destruct Hd as (Hsame & _). rewrite Hget.
    rewrite <-(same_should_update _ _ _ Hsame). split; [done|]. split; [|by left].
    apply (same_as_desired _ d); [done|]. by apply no_update_as_desired.
  - destruct desired' as [d'|]; [done|]. destruct (client_get _ _) as [c| |e]; [by apply Hleft|done|by destruct (Hne e)].
  - destruct desired' as [d'|]; [|done]. destruct Hd as (Hsame & Hdok & Hkey).
    destruct (create_stores _ _ _ _ Hc) as (s' & Hs & Hst & Hown). rewrite obj_meta_set in Hs, Hown.
    destruct (set_controller_controls _ _ _ Hm) as (Hctl & Hname & Hns & Hlab).
    assert (key_of m = key_of (obj_meta d)) as Hk by (unfold key_of; by rewrite Hname, Hns).
    rewrite <-Hkey, <-Hk, Hs, Hown, Hctl. split; [done|]. split; [|by eapply created_settles].
    apply (same_as_desired _ d); [done|]. by eapply created_as_desired.
  - destruct desired' as [d'|]; [|done]. destruct Hd as (Hsame & Hdok & Hkey).
    pose proof (get_key _ _ _ Hget) as Hck. destruct (update_meta c d) as (Hun & Hus & Huo).
    assert (key_of (obj_meta (update_fields c d)) = key_of (obj_meta c)) as Huk by (unfold key_of; by rewrite Hun, Hus).
    destruct (patch_stores (ks_world st) c (update_fields c d) w patched) as (s' & Hs & Hst & Hown'); [by rewrite Huk, Hck|done|].
    rewrite <-Hck, <-Huk, Hs, Hown', (controlled_by_references _ _ _ Huo), Hown.
    split; [done|]. split; [|by eapply updated_settles].
    apply (same_as_desired _ d); [done|]. by eapply updated_as_desired.
  - destruct desired' as [d'|]; [done|]. rewrite <-(get_key _ _ _ Hget). by rewrite (delete_removes _ _ _ Hdel).
Qed.

(** A call that changes no object. *)
Definition idle_call (c : ApiCall) : Prop := ∃ o, c = CallPatch o o.

Lemma idle_calls_idle desired got : Forall idle_call (idle_calls desired got).
Proof.
  destruct desired as [d|], got as [c| |]; cbn [idle_calls]; [|constructor..].
  destruct (should_update c d); repeat constructor. by exists (to_object c).
Qed.

(** Against a server that stores what it accepts, a run that succeeds
    leaves nothing to do: the next run, for the same desired object or one
    generated anew, changes nothing in the cluster and succeeds. Its only call, if
    it makes one, is a patch of the object with itself. *)
Theorem reconcile_converges kind name desired desired' st st' r :
  run kind name desired st = (st', (r, None)) →
  match desired, desired' with
  | Some d, Some d' => same_desired d d' ∧ desired_ok d ∧ key_of (obj_meta d) = key_in st name
  | None, None => True
  | _, _ => False
  end →
  ∃ st'' calls, run kind name desired' st' = (st'', (no_result, None)) ∧
    ks_world st'' = ks_world st' ∧ ks_calls st'' = ks_calls st' ++ calls ∧ length calls ≤ 1 ∧ Forall idle_call calls.
Proof.
  intros Hrun Hd. pose proof (run_settles _ _ _ _ _ _ _ Hrun Hd) as Hs.
  rewrite (settled_run kind name desired' st' Hs). cbv zeta. eexists _, _. split_and!; try done; [|apply idle_calls_idle].
  destruct desired' as [d|], (client_get _ _) as [c| |]; cbn [idle_calls length]; try lia.
  destruct (should_update c d); cbn; lia.
Qed.
End convergence.
