(* ===== verification/Resources.v ===== *)
(** * The resources of a policy (internal/reconciler)

    For each of the six objects: what is desired, when the stored object has to be
    updated and which fields an update sets. *)

From S2P Require Import Prelude GoSlices Api Objects State Kube Generators IstioPolicy Reconciliation.

(** ** Objects *)

Definition named_meta (ns name : string) : ObjectMeta :=
  {| Name := name; Namespace := ns; UID := ""; Generation := 0; Labels := None; Annotations := None;
     OwnerReferences := []; DeletionTimestamp := None |}.

Definition buildObjectMeta (name namespace : string) : ObjectMeta :=
  {| Name := name; Namespace := namespace; UID := ""; Generation := 0; Labels := Some AuthPolicyStandardLabels;
     Annotations := None; OwnerReferences := []; DeletionTimestamp := None |}.

Definition with_labels (l : option (gmap string string)) (m : ObjectMeta) : ObjectMeta :=
  {| Name := Name m; Namespace := Namespace m; UID := UID m; Generation := Generation m; Labels := l;
     Annotations := Annotations m; OwnerReferences := OwnerReferences m; DeletionTimestamp := DeletionTimestamp m |}.

#[export] Instance secret_controlled : Controlled Secret := {|
  obj_meta := secret_Meta;
  named_object ns name := {| secret_Meta := named_meta ns name; secret_Type := ""; secret_Data := ∅ |};
  to_object := OSecret;
  set_meta m s := {| secret_Meta := m; secret_Type := secret_Type s; secret_Data := secret_Data s |};
|}.

#[export] Instance envoy_filter_controlled : Controlled EnvoyFilter := {|
  obj_meta := ef_Meta;
  named_object ns name := {| ef_Meta := named_meta ns name; ef_ConfigPatches := []; ef_WorkloadSelector := ∅ |};
  to_object := OEnvoyFilter;
  set_meta m f := {| ef_Meta := m; ef_ConfigPatches := ef_ConfigPatches f; ef_WorkloadSelector := ef_WorkloadSelector f |};
|}.

#[export] Instance request_authentication_controlled : Controlled RequestAuthentication := {|
  obj_meta := ra_Meta;
  named_object ns name := {| ra_Meta := named_meta ns name; ra_Selector := ∅; ra_JwtRules := [] |};
  to_object := ORequestAuthentication;
  set_meta m r := {| ra_Meta := m; ra_Selector := ra_Selector r; ra_JwtRules := ra_JwtRules r |};
|}.

#[export] Instance authorization_policy_controlled : Controlled AuthorizationPolicy := {|
  obj_meta := azp_Meta;
  named_object ns name := {| azp_Meta := named_meta ns name; azp_Action := ALLOW; azp_Selector := ∅; azp_Rules := [] |};
  to_object := OAuthorizationPolicy;
  set_meta m p := {| azp_Meta := m; azp_Action := azp_Action p; azp_Selector := azp_Selector p; azp_Rules := azp_Rules p |};
|}.

(** ** When to update, and what *)

(** A desired label is missing or has another value. *)
Definition labelsNeedUpdate (current desired : ObjectMeta) : bool :=
  existsb (λ kv, match map_or_empty (Labels current) !! kv.1 with
                 | Some v => negb (String.eqb v kv.2)
                 | None => true
                 end) (map_to_list (map_or_empty (Labels desired))).

Definition SecretShouldUpdate (current desired : Secret) : bool :=
  match secret_Data desired !! TokenSecretFileName, secret_Data current !! TokenSecretFileName with
  | Some desiredToken, Some currentToken =>
      negb (String.eqb currentToken desiredToken) || labelsNeedUpdate (secret_Meta current) (secret_Meta desired)
  | _, _ => true
  end.

Definition SecretUpdateFields (current desired : Secret) : Secret :=
  {| secret_Meta := with_labels (Labels (secret_Meta desired)) (secret_Meta current);
     secret_Type := secret_Type current; secret_Data := secret_Data desired |}.

(** [reflect.DeepEqual] on the protobuf messages of Istio's types. It also compares
    what the messages carry besides their content (the state that the protobuf
    library attaches to a message it has handled, nil and empty slices), which differs
    between a message read from the cluster and one just built. So messages with
    the same content may count as different; those that count as equal have the
    same content. All messages read are read in the same way, and all desired ones
    built in the same way, so the result is a function of the two contents. *)
Class DeepEqual := {
  equal_workload_selectors : gmap string string → gmap string string → bool;
  equal_config_patches : list EnvoyConfigPatch → list EnvoyConfigPatch → bool;
  equal_selectors : gmap string string → gmap string string → bool;
  equal_jwt_rules : list JWTRule → list JWTRule → bool;
  equal_rules : list Rule → list Rule → bool;
  equal_workload_selectors_content a b : equal_workload_selectors a b = true → a = b;
  equal_config_patches_content a b : equal_config_patches a b = true → a = b;
  equal_selectors_content a b : equal_selectors a b = true → a = b;
  equal_jwt_rules_content a b : equal_jwt_rules a b = true → a = b;
  equal_rules_content a b : equal_rules a b = true → a = b;
}.

Section should_update.
Context `{DeepEqual}.

Definition EnvoyFilterShouldUpdate (current desired : EnvoyFilter) : bool :=
  negb (equal_workload_selectors (ef_WorkloadSelector current) (ef_WorkloadSelector desired)) ||
  negb (equal_config_patches (ef_ConfigPatches current) (ef_ConfigPatches desired)) ||
  labelsNeedUpdate (ef_Meta current) (ef_Meta desired).

Definition EnvoyFilterUpdateFields (current desired : EnvoyFilter) : EnvoyFilter :=
  {| ef_Meta := with_labels (Labels (ef_Meta desired)) (ef_Meta current);
     ef_ConfigPatches := ef_ConfigPatches desired; ef_WorkloadSelector := ef_WorkloadSelector desired |}.

Definition RequestAuthenticationShouldUpdate (current desired : RequestAuthentication) : bool :=
  negb (equal_selectors (ra_Selector current) (ra_Selector desired)) ||
  negb (equal_jwt_rules (ra_JwtRules current) (ra_JwtRules desired)) ||
  labelsNeedUpdate (ra_Meta current) (ra_Meta desired).

Definition RequestAuthenticationUpdateFields (current desired : RequestAuthentication) : RequestAuthentication :=
  {| ra_Meta := with_labels (Labels (ra_Meta desired)) (ra_Meta current);
     ra_Selector := ra_Selector desired; ra_JwtRules := ra_JwtRules desired |}.

Definition AuthorizationPolicyShouldUpdate (current desired : AuthorizationPolicy) : bool :=
  negb (equal_selectors (azp_Selector current) (azp_Selector desired)) ||
  negb (equal_rules (azp_Rules current) (azp_Rules desired)) ||
  labelsNeedUpdate (azp_Meta current) (azp_Meta desired).

Definition AuthorizationPolicyUpdateFields (current desired : AuthorizationPolicy) : AuthorizationPolicy :=
  {| azp_Meta := with_labels (Labels (azp_Meta desired)) (azp_Meta current); azp_Action := azp_Action current;
     azp_Selector := azp_Selector desired; azp_Rules := azp_Rules desired |}.
End should_update.

(** ** The controller's resources *)

Record ControllerResource (W : Type) := {
  cr_Kind : string;
  cr_Name : string;
  cr_IsNil : bool;
  cr_Reconcile : KState W → KState W * (Result * option string);
}.
Arguments cr_Kind {W}. Arguments cr_Name {W}. Arguments cr_IsNil {W}. Arguments cr_Reconcile {W}.

Definition CountNonNilResources {W} (rfs : list (ControllerResource W)) : nat :=
  length (filter (λ rf, cr_IsNil rf = false) rfs).

Section resources.
Context {W : Type} `{Ownership} `{!Client W Secret} `{!Client W EnvoyFilter}.
Context `{!Client W RequestAuthentication} `{!Client W AuthorizationPolicy}.
Context `{UrlParser} `{StructPb} `{Yaml} `{Growth} `{DeepEqual}.

Definition adapter {T} `{Controlled T} `{!Client W T} (kind name : string) (desired : option T)
    (shouldUpdate : T → T → bool) (updateFields : T → T → T) : ControllerResource W :=
  {| cr_Kind := kind; cr_Name := name; cr_IsNil := negb (has desired);
     cr_Reconcile := ReconcileControllerResource kind name desired shouldUpdate updateFields |}.

Definition policy_namespace (sc : Scope) : string := Namespace (ap_Meta (sc_AuthPolicy sc)).
Definition policy_name (sc : Scope) : string := Name (ap_Meta (sc_AuthPolicy sc)).

Definition secretResource (rand : Random) (sc : Scope) : go (ControllerResource W) :=
  let name := alc_EnvoySecretName (sc_AutoLoginConfig sc) in
  desired ← secret_GetDesired rand sc (buildObjectMeta name (policy_namespace sc));
  Ok (adapter "Secret" name desired SecretShouldUpdate SecretUpdateFields).

Definition envoyFilterResource (sc : Scope) : go (ControllerResource W) :=
  let name := EnvoyFilter_name (policy_name sc) in
  desired ← envoy_filter_GetDesired sc (buildObjectMeta name (policy_namespace sc));
  Ok (adapter "EnvoyFilter" name desired EnvoyFilterShouldUpdate EnvoyFilterUpdateFields).

Definition requestAuthenticationResource (sc : Scope) : ControllerResource W :=
  let name := policy_name sc in
  adapter "RequestAuthentication" name
    (request_authentication_GetDesired sc (buildObjectMeta name (policy_namespace sc)))
    RequestAuthenticationShouldUpdate RequestAuthenticationUpdateFields.

Definition denyAuthorizationPolicyResource (sc : Scope) : ControllerResource W :=
  let name := DenyPolicy_name (policy_name sc) in
  adapter "AuthorizationPolicy" name (deny_GetDesired sc (buildObjectMeta name (policy_namespace sc)))
    AuthorizationPolicyShouldUpdate AuthorizationPolicyUpdateFields.

Definition ignoreAuthorizationPolicyResource (sc : Scope) : ControllerResource W :=
  let name := IgnorePolicy_name (policy_name sc) in
  adapter "AuthorizationPolicy" name (ignore_GetDesired sc (buildObjectMeta name (policy_namespace sc)))
    AuthorizationPolicyShouldUpdate AuthorizationPolicyUpdateFields.

Definition requireAuthorizationPolicyResource (sc : Scope) : ControllerResource W :=
  let name := RequirePolicy_name (policy_name sc) in
  adapter "AuthorizationPolicy" name (require_GetDesired sc (buildObjectMeta name (policy_namespace sc)))
    AuthorizationPolicyShouldUpdate AuthorizationPolicyUpdateFields.

Definition ControllerResources (rand : Random) (sc : Scope) : go (list (ControllerResource W)) :=
  secret ← secretResource rand sc;
  filter_ ← envoyFilterResource sc;
  Ok [secret; filter_; requestAuthenticationResource sc; denyAuthorizationPolicyResource sc;
      ignoreAuthorizationPolicyResource sc; requireAuthorizationPolicyResource sc].

(** ** helperfunctions.LowestNonZeroResult and the controller's doReconcile *)

Definition IsZero (r : Result) : bool := bool_decide (r = no_result).

Definition LowestNonZeroResult (i j : Result) : Result :=
  if IsZero i && IsZero j then no_result
  else if IsZero i then j
  else if IsZero j then i
  else if negb (Z.eqb (RequeueAfter i) 0) && negb (Z.eqb (RequeueAfter j) 0) then
    if Z.ltb (RequeueAfter i) (RequeueAfter j) then i else j
  else if negb (Z.eqb (RequeueAfter i) 0) then i
  else if negb (Z.eqb (RequeueAfter j) 0) then j
  else no_result.

(** The loop: every resource is reconciled, also after an error. *)
Fixpoint reconcile_all (rfs : list (ControllerResource W)) (result : Result) (errs : list string) (st : KState W)
    : KState W * (Result * list string) :=
  match rfs with
  | [] => (st, (result, errs))
  | rf :: rfs =>
      let '(st, (r, err)) := cr_Reconcile rf st in
      let errs := match err with Some e => errs ++ [e] | None => errs end in
      let result := match errs with [] => LowestNonZeroResult result r | _ => result end in
      reconcile_all rfs result errs st
  end.

(** The result, and the errors that are aggregated into one. *)
Definition doReconcile (rfs : list (ControllerResource W)) (st : KState W) : KState W * (Result * list string) :=
  let '(st, (result, errs)) := reconcile_all rfs no_result [] st in
  match errs with [] => (st, (result, [])) | _ => (st, (no_result, errs)) end.
End resources.
