(* ===== verification/ResourcesFacts.v ===== *)
(** * When the six resources are up to date

    Each pair of [ShouldUpdate] and [UpdateFields] satisfies the engine's
    interface, so that the engine's convergence applies to every resource. *)

From S2P Require Import Prelude GoSlices Api Objects State Examples Kube Generators IstioPolicy Reconciliation.
From S2P Require Import ReconciliationFacts Resources.

(** ** Labels *)

Definition labels_included (desired current : ObjectMeta) : Prop :=
  map_or_empty (Labels desired) ⊆ map_or_empty (Labels current).

Lemma labelsNeedUpdate_false current desired :
  labelsNeedUpdate current desired = false ↔ labels_included desired current.
Proof.
  unfold labelsNeedUpdate, labels_included. rewrite map_subseteq_spec, <-not_true_iff_false, existsb_exists. split.
  - intros Hn k v Hkv. destruct (map_or_empty (Labels current) !! k) as [w|] eqn:Hw.
    + destruct (String.eqb_spec w v) as [->|Hne]; [done|]. exfalso. apply Hn. exists (k, v). cbn. rewrite Hw.
      split; [by apply list_elem_of_In, elem_of_map_to_list|]. by apply negb_true_iff, String.eqb_neq.
    + exfalso. apply Hn. exists (k, v). cbn. rewrite Hw. split; [|done]. by apply list_elem_of_In, elem_of_map_to_list.
  - intros Hs ([k v] & Hin%list_elem_of_In%elem_of_map_to_list & Hb). cbn in Hb.
    rewrite (Hs _ _ Hin) in Hb. by rewrite String.eqb_refl in Hb.
Qed.

Lemma labels_included_eq desired current : Labels desired = Labels current → labels_included desired current.
Proof. intros H. unfold labels_included. by rewrite H. Qed.

#[export] Hint Resolve labels_included_eq : zto.

(** ** The engine's interface *)

Lemma secret_no_update c d :
  SecretShouldUpdate c d = false ↔
  ∃ token, secret_Data d !! TokenSecretFileName = Some token ∧
           secret_Data c !! TokenSecretFileName = Some token ∧ labels_included (secret_Meta d) (secret_Meta c).
Proof.
  unfold SecretShouldUpdate. setoid_rewrite <-labelsNeedUpdate_false.
  destruct (secret_Data d !! _) as [td|], (secret_Data c !! _) as [tc|];
    try (split; [done|intros (? & ? & ? & ?); done]).
  rewrite orb_false_iff, negb_false_iff, String.eqb_eq. naive_solver.
Qed.

Section instances.
Context `{DeepEqual}.

Lemma envoy_filter_no_update c d :
  EnvoyFilterShouldUpdate c d = false →
  ef_WorkloadSelector c = ef_WorkloadSelector d ∧ ef_ConfigPatches c = ef_ConfigPatches d ∧
  labels_included (ef_Meta d) (ef_Meta c).
Proof.
  unfold EnvoyFilterShouldUpdate. rewrite !orb_false_iff, !negb_false_iff, labelsNeedUpdate_false.
  intros [[Hs%equal_workload_selectors_content Hp%equal_config_patches_content] Hl]. done.
Qed.

Lemma request_authentication_no_update c d :
  RequestAuthenticationShouldUpdate c d = false →
  ra_Selector c = ra_Selector d ∧ ra_JwtRules c = ra_JwtRules d ∧ labels_included (ra_Meta d) (ra_Meta c).
Proof.
  unfold RequestAuthenticationShouldUpdate. rewrite !orb_false_iff, !negb_false_iff, labelsNeedUpdate_false.
  intros [[Hs%equal_selectors_content Hr%equal_jwt_rules_content] Hl]. done.
Qed.

Lemma authorization_policy_no_update c d :
  AuthorizationPolicyShouldUpdate c d = false →
  azp_Selector c = azp_Selector d ∧ azp_Rules c = azp_Rules d ∧ labels_included (azp_Meta d) (azp_Meta c).
Proof.
  unfold AuthorizationPolicyShouldUpdate. rewrite !orb_false_iff, !negb_false_iff, labelsNeedUpdate_false.
  intros [[Hs%equal_selectors_content Hr%equal_rules_content] Hl]. done.
Qed.

(** *** The interface

    A desired Secret is generated anew in every run, with a fresh HMAC key: two
    are alike if their token and their labels are. *)
#[export] Program Instance secret_updatable : Updatable Secret := {|
  should_update := SecretShouldUpdate;
  update_fields := SecretUpdateFields;
  as_desired c d := ∃ token, secret_Data d !! TokenSecretFileName = Some token ∧
                             secret_Data c !! TokenSecretFileName = Some token ∧
                             labels_included (secret_Meta d) (secret_Meta c);
  same_desired d d' := secret_Data d !! TokenSecretFileName = secret_Data d' !! TokenSecretFileName ∧
                       Labels (secret_Meta d) = Labels (secret_Meta d');
  desired_ok d := is_Some (secret_Data d !! TokenSecretFileName);
|}.
Next Obligation. intros c d d' [Ht Hl]. unfold SecretShouldUpdate, labelsNeedUpdate. by rewrite Ht, Hl. Qed.
Next Obligation. intros c d d' [Ht Hl]. unfold labels_included. by rewrite Ht, Hl. Qed.
Next Obligation. intros c d Hsu. by apply secret_no_update. Qed.
Next Obligation.
  intros s m d [t Ht] Hl [-> Hls]. exists t. split_and!; [done|done|]. apply labels_included_eq. cbn in *. congruence.
Qed.
Next Obligation.
  intros s c d [t Ht] [-> Hls]. exists t. split_and!; [done|done|]. apply labels_included_eq. cbn in *. congruence.
Qed.
Next Obligation.
  intros s m d d' [t Ht] [Htt Hll] Hl [-> Hls]. left. apply secret_no_update. exists t.
  split_and!; [congruence|done|]. apply labels_included_eq. cbn in *. congruence.
Qed.
Next Obligation.
  intros s c d d' [t Ht] [Htt Hll] [-> Hls]. left. apply secret_no_update. exists t.
  split_and!; [congruence|done|]. apply labels_included_eq. cbn in *. congruence.
Qed.
Next Obligation. done. Qed.
Next Obligation. done. Qed.

(** Labels that are as desired are not changed by setting them. *)
Lemma with_labels_same l m : Labels m = l → with_labels l m = m.
Proof. intros <-. by destruct m. Qed.

Ltac settles :=
  intros; cbn in *; subst; repeat match goal with H : stored_as _ _ |- _ => destruct H as [-> ?] end; cbn in *.

#[export] Program Instance envoy_filter_updatable : Updatable EnvoyFilter := {|
  should_update := EnvoyFilterShouldUpdate;
  update_fields := EnvoyFilterUpdateFields;
  as_desired c d := ef_WorkloadSelector c = ef_WorkloadSelector d ∧ ef_ConfigPatches c = ef_ConfigPatches d ∧
                    labels_included (ef_Meta d) (ef_Meta c);
  same_desired d d' := d = d';
  desired_ok d := True;
|}.
Next Obligation. by intros c d d' ->. Qed.
Next Obligation. by intros c d d' ->. Qed.
Next Obligation. intros c d. apply envoy_filter_no_update. Qed.
Next Obligation. settles. split_and!; [done..|]. apply labels_included_eq. congruence. Qed.
Next Obligation. settles. split_and!; [done..|]. apply labels_included_eq. congruence. Qed.
Next Obligation. settles. right. unfold EnvoyFilterUpdateFields. cbn. by rewrite with_labels_same by congruence. Qed.
Next Obligation. settles. right. unfold EnvoyFilterUpdateFields. cbn. by rewrite with_labels_same by congruence. Qed.
Next Obligation. done. Qed.
Next Obligation. done. Qed.

#[export] Program Instance request_authentication_updatable : Updatable RequestAuthentication := {|
  should_update := RequestAuthenticationShouldUpdate;
  update_fields := RequestAuthenticationUpdateFields;
  as_desired c d := ra_Selector c = ra_Selector d ∧ ra_JwtRules c = ra_JwtRules d ∧
                    labels_included (ra_Meta d) (ra_Meta c);
  same_desired d d' := d = d';
  desired_ok d := True;
|}.
Next Obligation. by intros c d d' ->. Qed.
Next Obligation. by intros c d d' ->. Qed.
Next Obligation. intros c d. apply request_authentication_no_update. Qed.
Next Obligation. settles. split_and!; [done..|]. apply labels_included_eq. congruence. Qed.
Next Obligation. settles. split_and!; [done..|]. apply labels_included_eq. congruence. Qed.
Next Obligation. settles. right. unfold RequestAuthenticationUpdateFields. cbn. by rewrite with_labels_same by congruence. Qed.
Next Obligation. settles. right. unfold RequestAuthenticationUpdateFields. cbn. by rewrite with_labels_same by congruence. Qed.
Next Obligation. done. Qed.
Next Obligation. done. Qed.

(** The action of an AuthorizationPolicy is not part of what is compared. *)
#[export] Program Instance authorization_policy_updatable : Updatable AuthorizationPolicy := {|
  should_update := AuthorizationPolicyShouldUpdate;
  update_fields := AuthorizationPolicyUpdateFields;
  as_desired c d := azp_Selector c = azp_Selector d ∧ azp_Rules c = azp_Rules d ∧
                    labels_included (azp_Meta d) (azp_Meta c);
  same_desired d d' := d = d';
  desired_ok d := True;
|}.
Next Obligation. by intros c d d' ->. Qed.
Next Obligation. by intros c d d' ->. Qed.
Next Obligation. intros c d. apply authorization_policy_no_update. Qed.
Next Obligation. settles. split_and!; [done..|]. apply labels_included_eq. congruence. Qed.
Next Obligation. settles. split_and!; [done..|]. apply labels_included_eq. congruence. Qed.
Next Obligation. settles. right. unfold AuthorizationPolicyUpdateFields. cbn. by rewrite with_labels_same by congruence. Qed.
Next Obligation. settles. right. unfold AuthorizationPolicyUpdateFields. cbn. by rewrite with_labels_same by congruence. Qed.
Next Obligation. done. Qed.
Next Obligation. done. Qed.

(** ** Properties *)

(** A Secret is left alone exactly when it carries the desired labels (others are
    ignored) and its token entry is the desired one, whatever its HMAC key. An
    object of Istio that is left alone has the desired content, and the desired
    labels among its own. *)
Theorem up_to_date_content :
  (∀ c d, SecretShouldUpdate c d = false ↔
     ∃ token, secret_Data d !! TokenSecretFileName = Some token ∧
              secret_Data c !! TokenSecretFileName = Some token ∧ labels_included (secret_Meta d) (secret_Meta c)) ∧
  (∀ c d, EnvoyFilterShouldUpdate c d = false →
     ef_WorkloadSelector c = ef_WorkloadSelector d ∧ ef_ConfigPatches c = ef_ConfigPatches d ∧
     labels_included (ef_Meta d) (ef_Meta c)) ∧
  (∀ c d, RequestAuthenticationShouldUpdate c d = false →
     ra_Selector c = ra_Selector d ∧ ra_JwtRules c = ra_JwtRules d ∧ labels_included (ra_Meta d) (ra_Meta c)) ∧
  (∀ c d, AuthorizationPolicyShouldUpdate c d = false →
     azp_Selector c = azp_Selector d ∧ azp_Rules c = azp_Rules d ∧ labels_included (azp_Meta d) (azp_Meta c)).
Proof.
  split_and!; intros c d; [apply secret_no_update|apply envoy_filter_no_update
    |apply request_authentication_no_update|apply authorization_policy_no_update].
Qed.
End instances.

(** ** Two comparisons *)

(** One that sees the content only, and one that finds every two messages different. *)
Definition content_equal : DeepEqual.
Proof.
  refine {| equal_workload_selectors a b := bool_decide (a = b); equal_config_patches a b := bool_decide (a = b);
            equal_selectors a b := bool_decide (a = b); equal_jwt_rules a b := bool_decide (a = b);
            equal_rules a b := bool_decide (a = b) |};
    intros a b; apply bool_decide_eq_true.
Defined.

Definition never_equal : DeepEqual.
Proof.
  refine {| equal_workload_selectors a b := false; equal_config_patches a b := false;
            equal_selectors a b := false; equal_jwt_rules a b := false; equal_rules a b := false |}; done.
Defined.
