(* ===== verification/MemoryServer.v ===== *)
(** * A server in memory

    An instance of the interfaces to the API server, at which the engine's
    theorems are instantiated: a finite map from kind, namespace and name to
    objects. *)

From S2P Require Import Prelude Api Objects State Examples Reconciliation ReconciliationFacts.
From S2P Require Import Resources ResourcesFacts.

Abbreviation memory := (gmap (string * string * string) Object).

Class Stored (T : Type) `{Controlled T} := {
  stored_kind : string;
  from_object : Object → option T;
  from_to t : from_object (to_object t) = Some t;
  to_from o t : from_object o = Some t → o = to_object t;
  set_meta_same t : set_meta (obj_meta t) t = t;
}.

#[export] Instance secret_stored : Stored Secret.
Proof.
  refine {| stored_kind := "Secret"; from_object o := match o with OSecret t => Some t | _ => None end |}; [done| |by intros []].
  intros [] t H; by simplify_eq.
Defined.
#[export] Instance envoy_filter_stored : Stored EnvoyFilter.
Proof.
  refine {| stored_kind := "EnvoyFilter"; from_object o := match o with OEnvoyFilter t => Some t | _ => None end |}; [done| |by intros []].
  intros [] t H; by simplify_eq.
Defined.
#[export] Instance request_authentication_stored : Stored RequestAuthentication.
Proof.
  refine {| stored_kind := "RequestAuthentication"; from_object o := match o with ORequestAuthentication t => Some t | _ => None end |}; [done| |by intros []].
  intros [] t H; by simplify_eq.
Defined.
#[export] Instance authorization_policy_stored : Stored AuthorizationPolicy.
Proof.
  refine {| stored_kind := "AuthorizationPolicy"; from_object o := match o with OAuthorizationPolicy t => Some t | _ => None end |}; [done| |by intros []].
  intros [] t H; by simplify_eq.
Defined.

#[global] Instance NamespacedName_eq_dec : EqDecision NamespacedName.
Proof. solve_decision. Defined.

(** A policy controls what its UID is the controller of. *)
Definition controller_of (m : ObjectMeta) : option OwnerReference :=
  head (filter (λ r, ref_Controller r = Some true) (OwnerReferences m)).

Definition references_control (m : ObjectMeta) (ap : AuthPolicy) : bool :=
  match controller_of m with Some r => String.eqb (ref_UID r) (UID (ap_Meta ap)) | None => false end.

Definition add_controller (ap : AuthPolicy) (m : ObjectMeta) : go ObjectMeta :=
  match controller_of m with
  | Some _ => Err "already owned by another controller"
  | None => Ok {|
      Name := Name m; Namespace := Namespace m; UID := UID m; Generation := Generation m; Labels := Labels m;
      Annotations := Annotations m;
      OwnerReferences := {| ref_APIVersion := "ztoperator.kartverket.no/v1alpha1"; ref_Kind := "AuthPolicy";
                            ref_Name := Name (ap_Meta ap); ref_UID := UID (ap_Meta ap); ref_Controller := Some true |} :: OwnerReferences m;
      DeletionTimestamp := DeletionTimestamp m |}
  end.

#[export] Program Instance memory_ownership : Ownership := {|
  is_controlled_by := references_control;
  set_controller_reference := add_controller;
|}.
Next Obligation.
  unfold add_controller. intros ap m m'. destruct (controller_of m); [done|]. intros <-%Ok_inj. split_and!; try done.
  unfold references_control, controller_of. cbn [OwnerReferences]. rewrite filter_cons_True by done. cbn.
  apply String.eqb_refl.
Qed.

#[export] Instance memory_references : OwnershipByReferences.
Proof. split. intros m m' ap H. cbn. unfold references_control, controller_of. by rewrite H. Qed.

Section memory.
Context {T : Type} `{Stored T}.

Definition memory_key (k : NamespacedName) : string * string * string := (stored_kind, nn_Namespace k, nn_Name k).

Definition memory_get (w : memory) (k : NamespacedName) : GetResult T :=
  match w !! memory_key k ≫= from_object with
  | Some t => if decide (key_of (obj_meta t) = k) then Found t else NotFound
  | None => NotFound
  end.

Definition memory_put (w : memory) (t : T) : memory := <[memory_key (key_of (obj_meta t)) := to_object t]> w.

#[export] Instance memory_client : Client memory T := {|
  client_get := memory_get;
  client_create w t :=
    match memory_get w (key_of (obj_meta t)) with
    | NotFound => (memory_put w t, (t, None))
    | _ => (w, (t, Some "already exists"))
    end;
  client_patch w before t :=
    match memory_get w (key_of (obj_meta t)) with
    | Found _ => (memory_put w t, (t, None))
    | _ => (w, (t, Some "not found"))
    end;
  client_delete w t := (delete (memory_key (key_of (obj_meta t))) w, None);
|}.

Lemma memory_get_put w t : memory_get (memory_put w t) (key_of (obj_meta t)) = Found t.
Proof.
  unfold memory_get, memory_put. rewrite lookup_insert_eq. cbn. rewrite from_to. by rewrite decide_True.
Qed.
End memory.

Lemma memory_put_same {T} `{Stored T} w k (t : T) : memory_get w k = Found t → memory_put w t = w.
Proof.
  unfold memory_get, memory_put. destruct (w !! memory_key k) as [o|] eqn:Ho; cbn; [|done].
  destruct (from_object o) as [t'|] eqn:Ht; [|done]. case_decide as Hk; [|done]. intros [= <-].
  apply insert_id. rewrite Hk, Ho. f_equal. by apply to_from.
Qed.

Lemma stored_as_same {T} `{Stored T} (t : T) : stored_as t t.
Proof. split; [|done]. by rewrite set_meta_same. Qed.

#[export] Instance memory_server {T} `{!Controlled T} `{!Stored T} : ApiServer memory T.
Proof.
  assert (∀ w k (c : T), memory_get w k = Found c → key_of (obj_meta c) = k) as Hkey.
  { intros w k c. unfold memory_get. destruct (_ ≫= _) as [t|]; [|done]. case_decide; [|done]. by intros [= <-]. }
  split; cbn.
  - exact Hkey.
  - intros w o w' o'. destruct (memory_get _ _); try done. intros [= <- <-]. exists o.
    split_and!; [apply (memory_get_put w)|apply stored_as_same|done].
  - intros w c u w' u' _. destruct (memory_get _ _); try done. intros [= <- <-]. exists u.
    split_and!; [apply (memory_get_put w)|apply stored_as_same|done].
  - intros w k c Hg. rewrite (Hkey _ _ _ Hg), Hg. do 2 f_equal. exact (memory_put_same _ _ _ Hg).
  - intros w c w' [= <-]. unfold memory_get. by rewrite lookup_delete_eq.
Qed.

(** ** Runs of the engine *)

Definition deny_all (action : Action) (owners : list OwnerReference) : AuthorizationPolicy :=
  {| azp_Meta := {| Name := "app-deny-auth-rules"; Namespace := "team"; UID := ""; Generation := 0;
                    Labels := Some AuthPolicyStandardLabels; Annotations := None; OwnerReferences := owners;
                    DeletionTimestamp := None |};
     azp_Action := action; azp_Selector := {[ "app" := "app" ]};
     azp_Rules := [{| rule_To := [{| op_Paths := ["*"]; op_NotPaths := []; op_Methods := []; op_NotMethods := [] |}];
                      rule_When := [] |}] |}.

Definition start_state (w : memory) : KState memory :=
  {| ks_world := w; ks_calls := []; ks_scope := example_scope (example_policy None 1 [] []) ["aud"] |}.

Definition example_run `{DeepEqual} (desired : option AuthorizationPolicy) (st : KState memory) :
    KState memory * (Result * option string) :=
  run "AuthorizationPolicy" "app-deny-auth-rules" desired st.

Section never.
#[local] Existing Instance never_equal.

(** Also if no two messages count as equal. *)
Lemma reconcile_converges_witness :
  match example_run (Some (deny_all DENY [])) (start_state ∅) with
  | (st', (r, None)) =>
      ks_calls st' ≠ [] ∧
      ∃ st'' calls, example_run (Some (deny_all DENY [])) st' = (st'', (no_result, None)) ∧
        ks_world st'' = ks_world st' ∧ ks_calls st'' = ks_calls st' ++ calls ∧ length calls ≤ 1 ∧ Forall idle_call calls
  | _ => False
  end.
Proof.
  assert ((example_run (Some (deny_all DENY [])) (start_state ∅)).2.2 = None) as He by (vm_compute; reflexivity).
  assert (length (ks_calls (example_run (Some (deny_all DENY [])) (start_state ∅)).1) = 1) as Hc by (vm_compute; reflexivity).
  destruct (example_run (Some (deny_all DENY [])) (start_state ∅)) as [st' [r [e|]]] eqn:Hrun; [discriminate He|].
  split; [intros Hn; cbn [fst] in Hc; rewrite Hn in Hc; discriminate Hc|].
  apply (reconcile_converges "AuthorizationPolicy" "app-deny-auth-rules" (Some (deny_all DENY [])) (Some (deny_all DENY []))
           (start_state ∅) st' r Hrun).
  split; [reflexivity|]. split; [exact I|reflexivity].
Defined.

End never.

(** The comparison and the update of an AuthorizationPolicy leave out
    its action: when the action of the owned deny policy has been changed to ALLOW,
    the run succeeds and the policy stays an ALLOW policy for all paths, whether or
    not messages of the same content count as equal. *)
Theorem changed_action_not_restored :
  let owner := {| ref_APIVersion := "v1alpha1"; ref_Kind := "AuthPolicy"; ref_Name := "app";
                  ref_UID := "uid-1"; ref_Controller := Some true |} in
  let changed := deny_all ALLOW [owner] in
  Forall (λ equal, let '(st', (_, err)) := @example_run equal (Some (deny_all DENY [])) (start_state (memory_put ∅ changed)) in
    err = None ∧ Forall idle_call (ks_calls st') ∧
    memory_get (ks_world st') {| nn_Namespace := "team"; nn_Name := "app-deny-auth-rules" |} = Found changed)
    [content_equal; never_equal] ∧
  azp_Action (AuthorizationPolicyUpdateFields changed (deny_all DENY [])) = ALLOW.
Proof.
  intros owner changed. split; [|reflexivity].
  apply List.Forall_cons; [|apply List.Forall_cons; [|apply List.Forall_nil]]; vm_compute;
    (split; [reflexivity|split; [|reflexivity]]); [apply List.Forall_nil|].
  apply List.Forall_cons; [eexists; reflexivity|apply List.Forall_nil].
Qed.
