(* ===== verification/Status.v ===== *)
(** * The status of a policy (internal/statusmanager)

    The state of a run is read off its scope and mapped to a phase, a message and
    conditions; the status is written when it differs from the original one. Each
    reading of the clock has its index: [clock 0] for the policy's condition, then
    one for each descendant and each missing resource. *)

From S2P Require Import Prelude GoStrings Api Objects State Reconciliation Resources.

Inductive ReconciliationState := StateInvalid | StatePending | StateFailed | StateReady.

#[global] Instance ReconciliationState_eq_dec : EqDecision ReconciliationState.
Proof. solve_decision. Defined.

Definition DetermineReconciliationState {W} (sc : Scope) (rfs : list (ControllerResource W)) : ReconciliationState :=
  if sc_InvalidConfig sc then StateInvalid
  else if negb (Nat.eqb (length (sc_Descendants sc)) (CountNonNilResources rfs)) then StatePending
  else match GetErrors sc with [] => StateReady | _ => StateFailed end.

Definition determinePhase (s : ReconciliationState) : Phase :=
  match s with
  | StateInvalid => PhaseInvalid
  | StatePending => PhasePending
  | StateFailed => PhaseFailed
  | StateReady => PhaseReady
  end.

Definition determineReadiness (s : ReconciliationState) : bool :=
  match s with StateReady => true | _ => false end.

Definition statusMessage (s : ReconciliationState) (validationErrorMessage : option string) : go string :=
  match s with
  | StateInvalid => deref validationErrorMessage
  | StatePending => Ok "AuthPolicy pending due to missing Descendants."
  | StateFailed => Ok "AuthPolicy failed."
  | StateReady => Ok "AuthPolicy ready."
  end.

(** ** Conditions *)

Definition isLogicallyEqualCondition (existing cond : MetaCondition) : bool :=
  String.eqb (cond_Type existing) (cond_Type cond) &&
  bool_decide (cond_Status existing = cond_Status cond) &&
  String.eqb (cond_Reason existing) (cond_Reason cond) &&
  String.eqb (cond_Message existing) (cond_Message cond).

Definition with_time (t : Z) (c : MetaCondition) : MetaCondition :=
  {| cond_Type := cond_Type c; cond_Status := cond_Status c; cond_LastTransitionTime := t;
     cond_Reason := cond_Reason c; cond_Message := cond_Message c |}.

(** The loop that keeps the time of the first logically equal condition. *)
Fixpoint preserve_time (existing : list MetaCondition) (c : MetaCondition) : MetaCondition :=
  match existing with
  | [] => c
  | e :: existing =>
      if isLogicallyEqualCondition e c then with_time (cond_LastTransitionTime e) c else preserve_time existing c
  end.

Definition BuildAuthPolicyCondition (now : Z) (ap : AuthPolicy) (s : ReconciliationState)
    (validationErrorMessage : option string) (existing : list MetaCondition) : go MetaCondition :=
  let condition status reason message :=
    preserve_time existing
      {| cond_Type := GetID (TrimPrefix (ap_Kind ap) "*") (Name (ap_Meta ap)); cond_Status := status;
         cond_LastTransitionTime := now; cond_Reason := reason; cond_Message := message |} in
  match s with
  | StateInvalid => m ← deref validationErrorMessage; Ok (condition ConditionFalse "InvalidConfiguration" m)
  | StatePending =>
      Ok (condition ConditionUnknown "ReconciliationPending" "Descendants of AuthPolicy are not yet reconciled.")
  | StateFailed =>
      Ok (condition ConditionFalse "ReconciliationFailed" "Descendants of AuthPolicy failed during reconciliation.")
  | StateReady =>
      Ok (condition ConditionTrue "ReconciliationSuccess" "Descendants of AuthPolicy reconciled successfully.")
  end.

Definition descendant_condition (now : Z) (existing : list MetaCondition) (d : Descendant) : MetaCondition :=
  let condition status reason message :=
    preserve_time existing
      {| cond_Type := desc_ID d; cond_Status := status; cond_LastTransitionTime := now;
         cond_Reason := reason; cond_Message := message |} in
  match desc_ErrorMessage d, desc_SuccessMessage d with
  | Some e, _ => condition ConditionFalse "Error" e
  | None, Some s => condition ConditionTrue "Success" s
  | None, None => condition ConditionUnknown "Unknown" "No status message set"
  end.

Definition BuildDescendantConditions (clock : nat → Z) (ds : list Descendant) (existing : list MetaCondition)
    : list MetaCondition :=
  imap (λ i d, descendant_condition (clock i) existing d) ds.

Definition missing_condition (now : Z) (existing : list MetaCondition) (kind name : string) : MetaCondition :=
  preserve_time existing
    {| cond_Type := GetID kind name; cond_Status := ConditionFalse; cond_LastTransitionTime := now;
       cond_Reason := "NotFound";
       cond_Message := "Expected resource " +:+ name +:+ " of kind " +:+ kind +:+ " was not created" |}.

Definition missing {W} (ds : list Descendant) (rfs : list (ControllerResource W)) : list (ControllerResource W) :=
  filter (λ rf, cr_IsNil rf = false ∧ GetID (cr_Kind rf) (cr_Name rf) ∉ desc_ID <$> ds) rfs.

Definition BuildMissingResourceConditions {W} (clock : nat → Z) (ds : list Descendant)
    (rfs : list (ControllerResource W)) (existing : list MetaCondition) : list MetaCondition :=
  imap (λ i rf, missing_condition (clock i) existing (cr_Kind rf) (cr_Name rf)) (missing ds rfs).

Definition BuildConditions {W} (clock : nat → Z) (ap : AuthPolicy) (s : ReconciliationState)
    (validationErrorMessage : option string) (ds : list Descendant) (rfs : list (ControllerResource W))
    (existing : list MetaCondition) : go (list MetaCondition) :=
  c ← BuildAuthPolicyCondition (clock 0) ap s validationErrorMessage existing;
  Ok (c :: BuildDescendantConditions (λ i, clock (1 + i)) ds existing ++
      BuildMissingResourceConditions (λ i, clock (1 + length ds + i)) ds rfs existing).

(** ** The new status *)

Definition new_status {W} (clock : nat → Z) (sc : Scope) (rfs : list (ControllerResource W))
    (original : AuthPolicyStatus) : go AuthPolicyStatus :=
  let s := DetermineReconciliationState sc rfs in
  message ← statusMessage s (sc_ValidationErrorMessage sc);
  conditions ← BuildConditions clock (sc_AuthPolicy sc) s (sc_ValidationErrorMessage sc) (sc_Descendants sc) rfs
                 (default [] (Conditions original));
  Ok {| ObservedGeneration := Generation (ap_Meta (sc_AuthPolicy sc)); Conditions := Some conditions;
        status_Phase := determinePhase s; status_Message := message; Ready := determineReadiness s |}.

(** [equality.Semantic.DeepEqual]: a nil and an empty list are the same. *)
Definition status_equal (a b : AuthPolicyStatus) : bool :=
  bool_decide (ObservedGeneration a = ObservedGeneration b) &&
  bool_decide (default [] (Conditions a) = default [] (Conditions b)) &&
  bool_decide (status_Phase a = status_Phase b) && String.eqb (status_Message a) (status_Message b) &&
  Bool.eqb (Ready a) (Ready b).

(** [UpdateAuthPolicyStatus] up to the write: the policy to pass to [UpdateStatus],
    if it is called. *)
Definition status_update {W} (clock : nat → Z) (sc : Scope) (rfs : list (ControllerResource W))
    (originalAuthPolicy : AuthPolicy) : go (option AuthPolicy) :=
  st ← new_status clock sc rfs (Status originalAuthPolicy);
  Ok (if status_equal (Status originalAuthPolicy) st then None else Some (with_status (sc_AuthPolicy sc) st)).
