(* ===== verification/StatusFacts.v ===== *)
(** * The status tells the truth about the run

    The loop over the resources reports every one of them in the scope, and the
    state read off the scope is Ready exactly when no resource failed. *)

From S2P Require Import Prelude GoStrings GoSlices Api Objects State Examples Kube Generators IstioPolicy.
From S2P Require Import Reconciliation ReconciliationFacts Resources ResourcesFacts MemoryServer Status.

(** ** The loop over the resources *)

(** What a resource promises: it reports as the engine does. *)
Definition reports_in {W} (rf : ControllerResource W) (before after : Scope) (err : option string) : Prop :=
  match cr_IsNil rf, err with
  | true, None => after = before
  | _, Some _ => ∃ obj msg, after = ReplaceDescendant before obj (Some msg) None (cr_Kind rf) (cr_Name rf)
  | false, None => ∃ obj msg, after = ReplaceDescendant before obj None (Some msg) (cr_Kind rf) (cr_Name rf)
  end.

Definition lawful {W} (rf : ControllerResource W) : Prop :=
  ∀ st, let '(st', (r, err)) := cr_Reconcile rf st in
        r = no_result ∧ reports_in rf (ks_scope st) (ks_scope st') err.

Definition resource_id {W} (rf : ControllerResource W) : string := GetID (cr_Kind rf) (cr_Name rf).

Lemma adapter_lawful {W T} `{Ownership} `{Controlled T} `{!Client W T} kind name desired su uf :
  lawful (adapter (W := W) kind name desired su uf).
Proof.
  intros st. pose proof (reconcile_outcome kind name desired su uf st) as (st' & r & err & Heq & Hr & Ho).
  cbn [cr_Reconcile adapter]. rewrite Heq. split; [done|]. apply outcome_reported in Ho.
  unfold reports_in, reported in *. cbn [cr_IsNil cr_Kind cr_Name adapter]. by destruct desired.
Qed.

(** The descendant a resource leaves. *)
Definition leaves {W} (rf : ControllerResource W) (err : option string) (ds : list Descendant) : Prop :=
  match err with
  | Some _ => ∃ d, ds = [d] ∧ desc_ID d = resource_id rf ∧ is_Some (desc_ErrorMessage d)
  | None =>
      if cr_IsNil rf then ds = []
      else ∃ d, ds = [d] ∧ desc_ID d = resource_id rf ∧ desc_ErrorMessage d = None ∧ is_Some (desc_SuccessMessage d)
  end.

Lemma reports_leaves {W} (rf : ControllerResource W) before after err :
  reports_in rf before after err → resource_id rf ∉ desc_ID <$> sc_Descendants before →
  ∃ ds, leaves rf err ds ∧ after = with_descendants before (sc_Descendants before ++ ds).
Proof.
  unfold reports_in, leaves, ReplaceDescendant, resource_id. intros Hr Hfresh.
  destruct (cr_IsNil rf), err as [e|].
  2: { exists []. split; [done|]. rewrite app_nil_r, Hr. by destruct before. }
  all: destruct Hr as (obj & msg & ->); rewrite replace_descendant_fresh by done; eexists [_];
    (split; [|reflexivity]); eauto 10.
Qed.

Lemma with_descendants_twice sc ds es : with_descendants (with_descendants sc ds) es = with_descendants sc es.
Proof. done. Qed.

(** Every resource is reconciled, one after the other, each in the state that the
    ones before it leave, whatever they return; with what each of them returns. *)
Inductive reconciled {W} : list (ControllerResource W) → KState W → list (option string) → KState W → Prop :=
  | reconciled_none st : reconciled [] st [] st
  | reconciled_next rf rfs st st1 st2 r err errs :
      cr_Reconcile rf st = (st1, (r, err)) → reconciled rfs st1 errs st2 →
      reconciled (rf :: rfs) st (err :: errs) st2.

Lemma reconcile_all_spec {W} (rfs : list (ControllerResource W)) : ∀ result errs st,
  Forall lawful rfs → NoDup (resource_id <$> rfs) →
  (∀ rf, rf ∈ rfs → resource_id rf ∉ desc_ID <$> sc_Descendants (ks_scope st)) →
  (errs = [] → result = no_result) →
  ∃ st' result' outs dss,
    reconcile_all rfs result errs st = (st', (result', errs ++ omap id outs)) ∧
    (errs ++ omap id outs = [] → result' = no_result) ∧
    reconciled rfs st outs st' ∧ Forall3 leaves rfs outs dss ∧
    ks_scope st' = with_descendants (ks_scope st) (sc_Descendants (ks_scope st) ++ concat dss).
Proof.
  induction rfs as [|rf rfs IH]; intros result errs st Hlaw Hnd Hfresh Hres.
  { exists st, result, [], []. rewrite !app_nil_r. split_and!; [done|done|constructor|constructor|]. by destruct (ks_scope st). }
  apply Forall_cons_iff in Hlaw as [Hrf Hlaw]. rewrite fmap_cons, NoDup_cons in Hnd. destruct Hnd as [Hnin Hnd].
  cbn [reconcile_all]. specialize (Hrf st).
  destruct (cr_Reconcile rf st) as [st1 [r err]] eqn:Hrun. destruct Hrf as [-> Hrep].
  destruct (reports_leaves _ _ _ _ Hrep) as (ds & Hds & Hst1); [apply Hfresh; by left|].
  set (errs1 := match err with Some e => errs ++ [e] | None => errs end).
  set (result1 := match errs1 with [] => LowestNonZeroResult result no_result | _ => result end).
  destruct (IH result1 errs1 st1) as (st' & result' & outs & dss & Heq & Hr & Hrec & Hl & Hsc); try done.
  - intros rf' Hin. rewrite Hst1. cbn [sc_Descendants with_descendants]. rewrite fmap_app, elem_of_app. intros [Ho|Hn].
    + by apply (Hfresh rf'); [right|].
    + assert (resource_id rf' ≠ resource_id rf) as Hne.
      { intros He. apply Hnin. rewrite <-He. by apply list_elem_of_fmap_2. }
      unfold leaves in Hds. destruct err as [e|]; [|destruct (cr_IsNil rf)].
      1, 3: destruct Hds as (d & -> & Hid & _); apply list_elem_of_singleton in Hn; congruence.
      subst ds. by apply not_elem_of_nil in Hn.
  - subst result1 errs1. intros He. destruct err; [by destruct errs|]. rewrite He. rewrite Hres by done. done.
  - exists st', result', (err :: outs), (ds :: dss).
    assert (errs1 ++ omap id outs = errs ++ omap id (err :: outs)) as <-.
    { subst errs1. destruct err; cbn; [by rewrite <-app_assoc|done]. }
    split_and!; [done|done|by eapply reconciled_next|by constructor|].
    rewrite Hsc, Hst1, with_descendants_twice. cbn [sc_Descendants with_descendants concat]. by rewrite app_assoc.
Qed.

(** *** What the descendants say *)

Lemma leaves_errors {W} (rfs : list (ControllerResource W)) outs dss :
  Forall3 leaves rfs outs dss →
  (omap desc_ErrorMessage (concat dss) = [] ↔ omap id outs = []) ∧
  (omap id outs = [] → length (concat dss) = CountNonNilResources rfs).
Proof.
  unfold CountNonNilResources.
  induction 1 as [|rf err ds rfs outs dss Hl _ [IH1 IH2]]; [done|].
  unfold leaves in Hl. cbn [concat]. rewrite omap_app, filter_cons.
  destruct err as [e|].
  - destruct Hl as (d & -> & _ & [m Hm]). cbn. rewrite Hm. split; [split; done|done].
  - change (omap id (None :: outs)) with (omap id outs). destruct (cr_IsNil rf) eqn:Hn.
    + subst ds. rewrite decide_False by done. cbn. auto.
    + destruct Hl as (d & -> & _ & Hm & _). rewrite decide_True by done. cbn. rewrite Hm. cbn.
      split; [done|]. intros Ho. by rewrite IH2.
Qed.

(** The outcomes that leave a descendant, and those that do so although nothing was wanted. *)
Definition reported_by {W} (p : ControllerResource W * option string) : Prop := cr_IsNil p.1 = false ∨ is_Some p.2.
Definition unwanted_failed {W} (p : ControllerResource W * option string) : Prop := cr_IsNil p.1 = true ∧ is_Some p.2.

#[global] Instance reported_by_dec {W} (p : ControllerResource W * option string) : Decision (reported_by p).
Proof. unfold reported_by. apply _. Defined.
#[global] Instance unwanted_failed_dec {W} (p : ControllerResource W * option string) : Decision (unwanted_failed p).
Proof. unfold unwanted_failed. apply _. Defined.

Lemma leaves_ids {W} (rfs : list (ControllerResource W)) outs dss :
  Forall3 leaves rfs outs dss →
  desc_ID <$> concat dss = (λ p, resource_id p.1) <$> filter reported_by (zip rfs outs).
Proof.
  induction 1 as [|rf err ds rfs outs dss Hl _ IH]; [done|]. cbn [concat zip zip_with].
  rewrite fmap_app, filter_cons, IH. unfold leaves in Hl.
  destruct err as [e|]; [|destruct (cr_IsNil rf) eqn:Hn].
  - destruct Hl as (d & -> & Hid & _). rewrite decide_True by (right; eauto). cbn. by rewrite Hid.
  - subst ds. rewrite decide_False; [done|]. intros [?|[? ?]]; cbn in *; congruence.
  - destruct Hl as (d & -> & Hid & _). rewrite decide_True by (by left). cbn. by rewrite Hid.
Qed.

Lemma count_reported {W} (rfs : list (ControllerResource W)) outs :
  length rfs = length outs →
  length (filter reported_by (zip rfs outs)) =
  CountNonNilResources rfs + length (filter unwanted_failed (zip rfs outs)).
Proof.
  unfold CountNonNilResources. revert outs. induction rfs as [|rf rfs IH]; intros [|o outs] Hlen; try done. cbn [zip zip_with].
  rewrite !filter_cons. injection Hlen as Hlen%IH.
  repeat case_decide; unfold reported_by, unwanted_failed, is_Some in *; cbn [fst snd length] in *;
    destruct (cr_IsNil rf), o as [e|]; try lia; exfalso; naive_solver.
Qed.

Lemma fmap_NoDup_inj {A B} (f : A → B) l x y : NoDup (f <$> l) → x ∈ l → y ∈ l → f x = f y → x = y.
Proof.
  intros Hnd [i Hi]%list_elem_of_lookup [j Hj]%list_elem_of_lookup Heq.
  assert (i = j) as ->; [|congruence].
  eapply NoDup_lookup; [exact Hnd|rewrite list_lookup_fmap, Hi; done|].
  rewrite list_lookup_fmap, Hj. cbn. by rewrite Heq.
Qed.

Lemma zip_elem_l {A B} (l : list A) (k : list B) p : p ∈ zip l k → p.1 ∈ l.
Proof. destruct p as [x y]. apply elem_of_zip_l. Qed.

Lemma state_pending_iff {W} (rfs : list (ControllerResource W)) sc outs dss :
  Forall3 leaves rfs outs dss → NoDup (resource_id <$> rfs) →
  sc_InvalidConfig sc = false → sc_Descendants sc = concat dss →
  DetermineReconciliationState sc rfs = StatePending ↔
  ∃ rf, rf ∈ rfs ∧ cr_IsNil rf = true ∧ resource_id rf ∈ desc_ids sc.
Proof.
  intros Hl Hnd Hv Hds. unfold desc_ids. rewrite Hds, (leaves_ids _ _ _ Hl).
  assert (length (concat dss) = CountNonNilResources rfs + length (filter unwanted_failed (zip rfs outs))) as Hlen.
  { rewrite <-count_reported by (by apply Forall3_length_lm in Hl).
    by rewrite <-(length_fmap desc_ID), (leaves_ids _ _ _ Hl), length_fmap. }
  unfold DetermineReconciliationState. rewrite Hv, Hds, Hlen.
  transitivity (filter unwanted_failed (zip rfs outs) ≠ []).
  - destruct (filter unwanted_failed _) as [|p ps]; cbn [length].
    + rewrite Nat.add_0_r, Nat.eqb_refl. cbn. by destruct (GetErrors sc).
    + destruct (Nat.eqb_spec (CountNonNilResources rfs + S (length ps)) (CountNonNilResources rfs)); [lia|done].
  - split.
    + destruct (filter unwanted_failed _) as [|p ps] eqn:Hp; [done|]. intros _.
      assert (p ∈ filter unwanted_failed (zip rfs outs)) as [[Hn He] Hin]%list_elem_of_filter by (rewrite Hp; left).
      exists p.1. split_and!; [by eapply zip_elem_l|done|]. apply list_elem_of_fmap. exists p. split; [done|].
      apply list_elem_of_filter. split; [by right|done].
    + intros (rf & Hin & Hn & (p & Hid & [Hr Hp]%list_elem_of_filter)%list_elem_of_fmap) Hnil.
      assert (p ∈ filter unwanted_failed (zip rfs outs)) as Hu; [|rewrite Hnil in Hu; by apply not_elem_of_nil in Hu].
      apply list_elem_of_filter. split; [|done].
      assert (rf = p.1) as -> by (eapply fmap_NoDup_inj; eauto using zip_elem_l).
      split; [done|]. destruct Hr as [Hr|Hr]; [congruence|done].
Qed.

Lemma doReconcile_visits {W} (rfs : list (ControllerResource W)) st :
  Forall lawful rfs → NoDup (resource_id <$> rfs) → sc_Descendants (ks_scope st) = [] →
  ∃ st' outs dss,
    doReconcile rfs st = (st', (no_result, omap id outs)) ∧ reconciled rfs st outs st' ∧ Forall3 leaves rfs outs dss ∧
    ks_scope st' = with_descendants (ks_scope st) (concat dss).
Proof.
  intros Hlaw Hnd Hds.
  destruct (reconcile_all_spec rfs no_result [] st Hlaw Hnd) as (st' & r & outs & dss & Heq & Hr & Hrec & Hl & Hsc); [|done|].
  { intros rf _. rewrite Hds. apply not_elem_of_nil. }
  rewrite Hds in Hsc. exists st', outs, dss. unfold doReconcile. rewrite Heq.
  change ([] ++ omap id outs) with (omap id outs) in *. split_and!; [|done|done|done].
  destruct (omap id outs) eqn:Ho; [by rewrite Hr|done].
Qed.

Lemma doReconcile_spec {W} (rfs : list (ControllerResource W)) st :
  Forall lawful rfs → NoDup (resource_id <$> rfs) → sc_Descendants (ks_scope st) = [] →
  ∃ st' outs dss,
    doReconcile rfs st = (st', (no_result, omap id outs)) ∧ Forall3 leaves rfs outs dss ∧
    ks_scope st' = with_descendants (ks_scope st) (concat dss).
Proof.
  intros Hlaw Hnd Hds. destruct (doReconcile_visits rfs st Hlaw Hnd Hds) as (st' & outs & dss & Heq & _ & Hrest).
  by exists st', outs, dss.
Qed.

Lemma state_ready_iff {W} (rfs : list (ControllerResource W)) sc outs dss :
  Forall3 leaves rfs outs dss → sc_InvalidConfig sc = false → sc_Descendants sc = concat dss →
  DetermineReconciliationState sc rfs = StateReady ↔ omap id outs = [].
Proof.
  intros [Herr Hcount]%leaves_errors Hv Hds. unfold DetermineReconciliationState, GetErrors. rewrite Hv, Hds.
  destruct (Nat.eqb_spec (length (concat dss)) (CountNonNilResources rfs)) as [Hlen|Hlen]; cbn [negb].
  - rewrite <-Herr. by destruct (omap desc_ErrorMessage (concat dss)).
  - split; [done|]. intros Ho%Hcount. done.
Qed.

(** *** The controller's own resources *)

Section controller.
Context {W : Type} `{Ownership} `{!Client W Secret} `{!Client W EnvoyFilter}.
Context `{!Client W RequestAuthentication} `{!Client W AuthorizationPolicy}.
Context `{UrlParser} `{StructPb} `{Yaml} `{Growth} `{DeepEqual}.

Lemma ControllerResources_ok rand sc (rfs : list (ControllerResource W)) :
  ControllerResources rand sc = Ok rfs →
  ∃ desired desired',
    rfs = [adapter "Secret" (alc_EnvoySecretName (sc_AutoLoginConfig sc)) desired SecretShouldUpdate SecretUpdateFields;
           adapter "EnvoyFilter" (EnvoyFilter_name (policy_name sc)) desired' EnvoyFilterShouldUpdate EnvoyFilterUpdateFields;
           requestAuthenticationResource sc; denyAuthorizationPolicyResource sc;
           ignoreAuthorizationPolicyResource sc; requireAuthorizationPolicyResource sc].
Proof.
  intros (s & Hs & (f & Hf & Heq%Ok_inj)%go_bind_ok)%go_bind_ok.
  apply go_bind_ok in Hs as (d & _ & Hs%Ok_inj), Hf as (d' & _ & Hf%Ok_inj). subst. eauto.
Qed.

Lemma ControllerResources_lawful rand sc (rfs : list (ControllerResource W)) :
  ControllerResources rand sc = Ok rfs → Forall lawful rfs.
Proof.
  intros (desired & desired' & ->)%ControllerResources_ok.
  repeat apply List.Forall_cons; try apply adapter_lawful. constructor.
Qed.

Lemma ids_differ kind name a b :
  String.length a ≠ String.length b → GetID kind (name +:+ a) ≠ GetID kind (name +:+ b).
Proof.
  intros Hab Heq. apply Hab. apply (f_equal String.length) in Heq. unfold GetID in Heq.
  rewrite !str_length_app in Heq. lia.
Qed.

Lemma ControllerResources_distinct rand sc (rfs : list (ControllerResource W)) :
  ControllerResources rand sc = Ok rfs → NoDup (resource_id <$> rfs).
Proof.
  intros (desired & desired' & ->)%ControllerResources_ok.
  rewrite !fmap_cons, fmap_nil. unfold resource_id. cbn [cr_Kind cr_Name adapter].
  assert (∀ k l n m, String.get 0 k ≠ String.get 0 l → k ≠ "" → l ≠ "" → GetID k n ≠ GetID l m) as Hk.
  { intros [|a k] [|b l] n m Hg Hk Hl; try done. unfold GetID. cbn [String.append]. intros Heq. injection Heq as -> _. by apply Hg. }
  rewrite !NoDup_cons, !not_elem_of_cons.
  repeat split; try apply not_elem_of_nil; try apply NoDup_nil_2; try (by apply Hk); by apply ids_differ.
Qed.

(** ** Properties *)

(** Claim C24. Whatever is wanted, a run reconciles six resources, each under an ID
    of its own: each in the state that the ones before it leave, whether these failed
    or not. The errors of the run are those the resources return, and the descendants
    it leaves are those of the resources that were wanted or failed. If the
    configuration is valid and the scope had no descendants, the phase becomes Ready
    exactly when no resource failed. *)
Theorem phase_ready_iff rand (st : KState W) :
  sc_Descendants (ks_scope st) = [] →
  match ControllerResources rand (ks_scope st) with
  | Ok rfs =>
      cr_Kind <$> rfs = ["Secret"; "EnvoyFilter"; "RequestAuthentication"; "AuthorizationPolicy"; "AuthorizationPolicy";
                         "AuthorizationPolicy"] ∧
      NoDup (resource_id <$> rfs) ∧
      let '(st', (r, errs)) := doReconcile rfs st in
      ∃ results, reconciled rfs st results st' ∧ r = no_result ∧ errs = omap id results ∧
        desc_ids (ks_scope st') = (λ p, resource_id p.1) <$> filter reported_by (zip rfs results) ∧
        (sc_InvalidConfig (ks_scope st) = false →
         determinePhase (DetermineReconciliationState (ks_scope st') rfs) = PhaseReady ↔ errs = [])
  | _ => True
  end.
Proof.
  intros Hds. destruct (ControllerResources rand (ks_scope st)) as [rfs| |] eqn:Hrfs; [|done..].
  pose proof (ControllerResources_lawful _ _ _ Hrfs) as Hlaw.
  pose proof (ControllerResources_distinct _ _ _ Hrfs) as Hnd. split.
  { unfold ControllerResources in Hrfs. apply go_bind_ok in Hrfs as (s & Hs & (f & Hf & <-%Ok_inj)%go_bind_ok).
    apply go_bind_ok in Hs as (d & _ & <-%Ok_inj), Hf as (d' & _ & <-%Ok_inj). done. }
  split; [done|].
  destruct (doReconcile_visits rfs st Hlaw Hnd Hds) as (st' & outs & dss & -> & Hrec & Hl & Hsc).
  exists outs. split_and!; [done|done|done| |].
  - unfold desc_ids. rewrite Hsc. cbn [sc_Descendants with_descendants]. apply (leaves_ids _ _ _ Hl).
  - intros Hv. rewrite <-(state_ready_iff rfs (ks_scope st') outs dss Hl) by (by rewrite Hsc).
    by destruct (DetermineReconciliationState _ _).
Qed.

(** For a valid configuration the phase becomes Pending exactly when an
    object that is not wanted could not be removed (or read): an error, reported as
    if a descendant were missing. *)
Theorem phase_pending_iff rand (st : KState W) :
  sc_InvalidConfig (ks_scope st) = false → sc_Descendants (ks_scope st) = [] →
  match ControllerResources rand (ks_scope st) with
  | Ok rfs =>
      let '(st', (_, errs)) := doReconcile rfs st in
      (DetermineReconciliationState (ks_scope st') rfs = StatePending ↔
       ∃ rf, rf ∈ rfs ∧ cr_IsNil rf = true ∧ resource_id rf ∈ desc_ids (ks_scope st')) ∧
      (DetermineReconciliationState (ks_scope st') rfs = StatePending → errs ≠ [])
  | _ => True
  end.
Proof.
  intros Hv Hds. destruct (ControllerResources rand (ks_scope st)) as [rfs| |] eqn:Hrfs; [|done..].
  pose proof (ControllerResources_lawful _ _ _ Hrfs) as Hlaw.
  pose proof (ControllerResources_distinct _ _ _ Hrfs) as Hnd.
  destruct (doReconcile_spec rfs st Hlaw Hnd Hds) as (st' & outs & dss & -> & Hl & Hsc).
  assert (sc_InvalidConfig (ks_scope st') = false ∧ sc_Descendants (ks_scope st') = concat dss) as [Hv' Hds'] by (by rewrite Hsc).
  split; [by eapply state_pending_iff|].
  intros Hp Herr. apply (state_ready_iff rfs (ks_scope st') outs dss) in Herr; [congruence|done..].
Qed.
End controller.
