(* ===== verification/StatusStability.v ===== *)
(** * When the status is written

    The conditions of a run that repeats the previous one keep their times, so the
    new status is the old one; but the controller compares it with a status that
    it has just reset. *)

From S2P Require Import Prelude GoStrings GoSlices Api Objects State Examples Kube Generators GeneratorFacts IstioPolicy.
From S2P Require Import Reconciliation ReconciliationFacts Resources ResourcesFacts MemoryServer Status StatusFacts.

(** ** Conditions *)

Lemma logically_equal_type e c : isLogicallyEqualCondition e c = true → cond_Type e = cond_Type c.
Proof. unfold isLogicallyEqualCondition. intros H. bools. by apply String.eqb_eq. Qed.

Lemma logically_equal_refl t c : isLogicallyEqualCondition (with_time t c) c = true.
Proof. unfold isLogicallyEqualCondition. cbn. by rewrite !String.eqb_refl, bool_decide_eq_true_2. Qed.

Lemma preserve_time_spec existing c : ∃ t, preserve_time existing c = with_time t c.
Proof.
  induction existing as [|e existing IH]; cbn; [|destruct (isLogicallyEqualCondition e c); eauto].
  exists (cond_LastTransitionTime c). by destruct c.
Qed.

(** A condition finds itself among conditions of distinct types. *)
Lemma preserve_time_self existing t c :
  NoDup (cond_Type <$> existing) → with_time t c ∈ existing → preserve_time existing c = with_time t c.
Proof.
  induction existing as [|e existing IH]; [intros _ H; by apply not_elem_of_nil in H|].
  rewrite fmap_cons, NoDup_cons, elem_of_cons. cbn [preserve_time]. intros [Hnin Hnd] [<-|Hin].
  - by rewrite logically_equal_refl.
  - destruct (isLogicallyEqualCondition e c) eqn:E; [|by apply IH].
    exfalso. apply Hnin. rewrite (logically_equal_type _ _ E). apply list_elem_of_fmap. by exists (with_time t c).
Qed.

(** The condition before its time is looked up. *)
Definition rebuilt (f : Z → list MetaCondition → MetaCondition) : Prop :=
  ∃ base, ∀ now existing, f now existing = preserve_time existing (with_time now base).

Lemma with_time_twice t t' c : with_time t (with_time t' c) = with_time t c.
Proof. done. Qed.

Lemma rebuilt_stable f now now' existing conditions :
  rebuilt f → NoDup (cond_Type <$> conditions) → f now existing ∈ conditions →
  f now' conditions = f now existing.
Proof.
  intros (base & Hf) Hnd. rewrite !Hf. destruct (preserve_time_spec existing (with_time now base)) as [t ->].
  rewrite with_time_twice. intros Hin. rewrite (preserve_time_self _ t); rewrite ?with_time_twice; done.
Qed.

Lemma descendant_rebuilt d : rebuilt (λ now existing, descendant_condition now existing d).
Proof.
  unfold descendant_condition.
  destruct (desc_ErrorMessage d) as [e|]; [|destruct (desc_SuccessMessage d) as [s|]].
  - exists {| cond_Type := desc_ID d; cond_Status := ConditionFalse; cond_LastTransitionTime := 0;
              cond_Reason := "Error"; cond_Message := e |}. done.
  - exists {| cond_Type := desc_ID d; cond_Status := ConditionTrue; cond_LastTransitionTime := 0;
              cond_Reason := "Success"; cond_Message := s |}. done.
  - exists {| cond_Type := desc_ID d; cond_Status := ConditionUnknown; cond_LastTransitionTime := 0;
              cond_Reason := "Unknown"; cond_Message := "No status message set" |}. done.
Qed.

Lemma missing_rebuilt kind name : rebuilt (λ now existing, missing_condition now existing kind name).
Proof.
  exists {| cond_Type := GetID kind name; cond_Status := ConditionFalse; cond_LastTransitionTime := 0;
            cond_Reason := "NotFound";
            cond_Message := "Expected resource " +:+ name +:+ " of kind " +:+ kind +:+ " was not created" |}. done.
Qed.

(** The policy's condition is of the same form, when it can be built. *)
Lemma policy_rebuilt ap s msg now existing c :
  BuildAuthPolicyCondition now ap s msg existing = Ok c →
  ∃ f, rebuilt f ∧ ∀ now existing, BuildAuthPolicyCondition now ap s msg existing = Ok (f now existing).
Proof.
  unfold BuildAuthPolicyCondition. set (ty := GetID _ _).
  pose (mk st reason m := λ now existing, preserve_time existing
    {| cond_Type := ty; cond_Status := st; cond_LastTransitionTime := now; cond_Reason := reason; cond_Message := m |}).
  assert (∀ st reason m, rebuilt (mk st reason m)) as Hmk.
  { intros st reason m. exists {| cond_Type := ty; cond_Status := st; cond_LastTransitionTime := 0;
                                  cond_Reason := reason; cond_Message := m |}. done. }
  destruct s; intros H.
  - destruct msg as [m|]; [|discriminate H]. by exists (mk ConditionFalse "InvalidConfiguration" m).
  - by exists (mk ConditionUnknown "ReconciliationPending" "Descendants of AuthPolicy are not yet reconciled.").
  - by exists (mk ConditionFalse "ReconciliationFailed" "Descendants of AuthPolicy failed during reconciliation.").
  - by exists (mk ConditionTrue "ReconciliationSuccess" "Descendants of AuthPolicy reconciled successfully.").
Qed.

Lemma imap_stable {A} (f : A → Z → list MetaCondition → MetaCondition) (clock clock' : nat → Z) existing conditions l :
  (∀ x, rebuilt (f x)) → NoDup (cond_Type <$> conditions) →
  (∀ c, c ∈ imap (λ i x, f x (clock i) existing) l → c ∈ conditions) →
  imap (λ i x, f x (clock' i) conditions) l = imap (λ i x, f x (clock i) existing) l.
Proof.
  intros Hf Hnd Hin. apply list_eq. intros i. rewrite !list_lookup_imap.
  destruct (l !! i) as [x|] eqn:Hx; [|done]. cbn. f_equal. apply rebuilt_stable; [done..|].
  apply Hin. apply list_elem_of_lookup. exists i. by rewrite list_lookup_imap, Hx.
Qed.

Lemma BuildConditions_stable {W} clock clock' ap s msg ds (rfs : list (ControllerResource W)) existing conditions :
  BuildConditions clock ap s msg ds rfs existing = Ok conditions → NoDup (cond_Type <$> conditions) →
  BuildConditions clock' ap s msg ds rfs conditions = Ok conditions.
Proof.
  unfold BuildConditions. intros (c & Hc & Heq%Ok_inj)%go_bind_ok Hnd.
  destruct (policy_rebuilt _ _ _ _ _ _ Hc) as (f & Hf & Hbuild). rewrite Hbuild in Hc |- *. apply Ok_inj in Hc. cbn.
  rewrite <-Heq at 4. f_equal. f_equal; [|f_equal].
  - subst c. apply rebuilt_stable; [done..|]. rewrite <-Heq. by left.
  - unfold BuildDescendantConditions.
    apply (imap_stable (λ d now ex, descendant_condition now ex d)); [apply descendant_rebuilt|done|].
    intros c' Hin. rewrite <-Heq. right. apply elem_of_app. by left.
  - unfold BuildMissingResourceConditions.
    apply (imap_stable (λ rf now ex, missing_condition now ex (cr_Kind rf) (cr_Name rf))); [intros; apply missing_rebuilt|done|].
    intros c' Hin. rewrite <-Heq. right. apply elem_of_app. by right.
Qed.

(** ** The types of the conditions *)

Lemma preserve_time_type existing c : cond_Type (preserve_time existing c) = cond_Type c.
Proof. by destruct (preserve_time_spec existing c) as [t ->]. Qed.

Lemma descendant_types clock existing ds : cond_Type <$> BuildDescendantConditions clock ds existing = desc_ID <$> ds.
Proof.
  apply list_eq. intros i. unfold BuildDescendantConditions. rewrite !list_lookup_fmap, list_lookup_imap.
  destruct (ds !! i) as [d|]; [|done]. cbn. unfold descendant_condition.
  destruct (desc_ErrorMessage d), (desc_SuccessMessage d); by rewrite preserve_time_type.
Qed.

Lemma missing_types {W} clock existing ds (rfs : list (ControllerResource W)) :
  cond_Type <$> BuildMissingResourceConditions clock ds rfs existing = resource_id <$> missing ds rfs.
Proof.
  apply list_eq. intros i. unfold BuildMissingResourceConditions. rewrite !list_lookup_fmap, list_lookup_imap.
  destruct (missing ds rfs !! i) as [d|]; [|done]. cbn. unfold missing_condition. by rewrite preserve_time_type.
Qed.

Definition policy_condition_type (ap : AuthPolicy) : string := GetID (TrimPrefix (ap_Kind ap) "*") (Name (ap_Meta ap)).

Lemma policy_type now ap s msg existing c :
  BuildAuthPolicyCondition now ap s msg existing = Ok c → cond_Type c = policy_condition_type ap.
Proof.
  unfold BuildAuthPolicyCondition. destruct s; [destruct msg as [m|]; [|discriminate]|..]; intros <-%Ok_inj;
    by rewrite preserve_time_type.
Qed.

Lemma filter_fmap_NoDup {A B} (f : A → B) (P : A → Prop) `{∀ x, Decision (P x)} l :
  NoDup (f <$> l) → NoDup (f <$> filter P l).
Proof.
  induction l as [|x l IH]; [done|]. rewrite fmap_cons, NoDup_cons, filter_cons. intros [Hx Hnd].
  case_decide; [|by apply IH]. rewrite fmap_cons, NoDup_cons. split; [|by apply IH].
  intros (y & Hy & [_ Hin]%list_elem_of_filter)%list_elem_of_fmap. apply Hx, list_elem_of_fmap. eauto.
Qed.

Lemma condition_types_NoDup {W} clock ap s msg ds (rfs : list (ControllerResource W)) existing conditions :
  BuildConditions clock ap s msg ds rfs existing = Ok conditions →
  NoDup (desc_ID <$> ds) → NoDup (resource_id <$> rfs) →
  policy_condition_type ap ∉ desc_ID <$> ds → policy_condition_type ap ∉ resource_id <$> rfs →
  NoDup (cond_Type <$> conditions).
Proof.
  intros (c & Hc & <-%Ok_inj)%go_bind_ok Hds Hrfs Hpd Hpr.
  rewrite fmap_cons, fmap_app, descendant_types, missing_types, (policy_type _ _ _ _ _ _ Hc).
  rewrite NoDup_cons, not_elem_of_app, NoDup_app. split_and!; [done| |done| |].
  - intros (rf & Hid & [_ Hin]%list_elem_of_filter)%list_elem_of_fmap. apply Hpr, list_elem_of_fmap. eauto.
  - intros id Hid (rf & -> & [[_ Hm] _]%list_elem_of_filter)%list_elem_of_fmap. done.
  - by apply filter_fmap_NoDup.
Qed.

(** ** Writing *)

Lemma status_equal_true a b :
  status_equal a b = true ↔
  ObservedGeneration a = ObservedGeneration b ∧ default [] (Conditions a) = default [] (Conditions b) ∧
  status_Phase a = status_Phase b ∧ status_Message a = status_Message b ∧ Ready a = Ready b.
Proof.
  unfold status_equal. rewrite !andb_true_iff, !bool_decide_eq_true, String.eqb_eq, Bool.eqb_true_iff. tauto.
Qed.

Lemma new_status_fields {W} clock sc (rfs : list (ControllerResource W)) original st :
  new_status clock sc rfs original = Ok st →
  let s := DetermineReconciliationState sc rfs in
  ObservedGeneration st = Generation (ap_Meta (sc_AuthPolicy sc)) ∧ status_Phase st = determinePhase s ∧
  Ready st = determineReadiness s ∧ statusMessage s (sc_ValidationErrorMessage sc) = Ok (status_Message st) ∧
  BuildConditions clock (sc_AuthPolicy sc) s (sc_ValidationErrorMessage sc) (sc_Descendants sc) rfs
    (default [] (Conditions original)) = Ok (default [] (Conditions st)).
Proof.
  intros (m & Hm & (cs & Hcs & <-%Ok_inj)%go_bind_ok)%go_bind_ok. cbn. by split_and!.
Qed.

(** The status built again from itself. *)
Lemma new_status_again {W} clock clock' sc (rfs : list (ControllerResource W)) original st :
  new_status clock sc rfs original = Ok st → NoDup (cond_Type <$> default [] (Conditions st)) →
  new_status clock' sc rfs st = Ok st.
Proof.
  intros Hst Hnd. pose proof (new_status_fields _ _ _ _ _ Hst) as (_ & _ & _ & _ & Hcs).
  pose proof (BuildConditions_stable _ clock' _ _ _ _ _ _ _ Hcs Hnd) as Hcs'.
  apply go_bind_ok in Hst as (m & Hm & (cs & Hcs0 & <-%Ok_inj)%go_bind_ok).
  unfold new_status. rewrite Hm. cbn [mbind go_bind]. cbn [default Conditions] in Hcs' |- *. by rewrite Hcs'.
Qed.

Section controller.
Context {W : Type} `{Ownership} `{!Client W Secret} `{!Client W EnvoyFilter}.
Context `{!Client W RequestAuthentication} `{!Client W AuthorizationPolicy}.
Context `{UrlParser} `{StructPb} `{Yaml} `{Growth} `{DeepEqual}.

Lemma policy_type_fresh rand sc (rfs : list (ControllerResource W)) ap :
  ap_Kind ap = "AuthPolicy" → ControllerResources rand sc = Ok rfs → policy_condition_type ap ∉ resource_id <$> rfs.
Proof.
  intros Hk (desired & desired' & ->)%ControllerResources_ok.
  assert (policy_condition_type ap = "AuthPolicy-" +:+ Name (ap_Meta ap)) as ->.
  { unfold policy_condition_type, GetID. rewrite Hk. done. }
  rewrite !fmap_cons, fmap_nil, !not_elem_of_cons. unfold resource_id, GetID. cbn.
  repeat split; try apply not_elem_of_nil; intros Heq; discriminate Heq.
Qed.

Lemma run_conditions_distinct clock rand (st : KState W) rfs st' r errs original status :
  ap_Kind (sc_AuthPolicy (ks_scope st)) = "AuthPolicy" → sc_Descendants (ks_scope st) = [] →
  ControllerResources rand (ks_scope st) = Ok rfs → doReconcile rfs st = (st', (r, errs)) →
  new_status clock (ks_scope st') rfs original = Ok status →
  NoDup (cond_Type <$> default [] (Conditions status)).
Proof.
  intros Hk Hds Hrfs Hrun Hst.
  pose proof (ControllerResources_distinct _ _ _ Hrfs) as Hnd.
  pose proof (policy_type_fresh _ _ _ _ Hk Hrfs) as Hfresh.
  destruct (doReconcile_spec rfs st (ControllerResources_lawful _ _ _ Hrfs) Hnd Hds) as (st1 & outs & dss & Heq & Hl & Hsc).
  rewrite Heq in Hrun. injection Hrun as <- <- <-.
  apply new_status_fields in Hst as (_ & _ & _ & _ & Hcs). rewrite Hsc in Hcs. cbn in Hcs.
  assert (∀ id, id ∈ desc_ID <$> concat dss → id ∈ resource_id <$> rfs) as Hsub.
  { rewrite (leaves_ids _ _ _ Hl). intros id (p & -> & [_ Hp]%list_elem_of_filter)%list_elem_of_fmap.
    apply list_elem_of_fmap. eauto using zip_elem_l. }
  eapply condition_types_NoDup; [exact Hcs| |exact Hnd| |exact Hfresh]; [|by intros ?%Hsub].
  rewrite (leaves_ids _ _ _ Hl). apply filter_fmap_NoDup.
  assert ((λ p, resource_id p.1) <$> zip rfs outs = resource_id <$> (fst <$> zip rfs outs)) as ->.
  { by rewrite <-list_fmap_compose. }
  rewrite fst_zip; [done|]. apply Forall3_length_lm in Hl. lia.
Qed.

(** ** Properties *)

(** Claim C26. The status of a run is a fixed point: every condition has a type of
    its own, and computed again, at any later time, with the status it produced
    as the previous one, the status is the same, times included, and is not
    written. *)
Theorem status_stable clock rand (st : KState W) rfs st' r errs original status :
  ap_Kind (sc_AuthPolicy (ks_scope st)) = "AuthPolicy" → sc_Descendants (ks_scope st) = [] →
  ControllerResources rand (ks_scope st) = Ok rfs → doReconcile rfs st = (st', (r, errs)) →
  new_status clock (ks_scope st') rfs original = Ok status →
  NoDup (cond_Type <$> default [] (Conditions status)) ∧
  ∀ clock', new_status clock' (ks_scope st') rfs status = Ok status ∧
            ∀ ap, status_update clock' (ks_scope st') rfs (with_status ap status) = Ok None.
Proof.
  intros Hk Hds Hrfs Hrun Hst.
  pose proof (run_conditions_distinct _ _ _ _ _ _ _ _ _ Hk Hds Hrfs Hrun Hst) as Hnd. split; [done|].
  intros clock'. pose proof (new_status_again _ clock' _ _ _ _ Hst Hnd) as Hag. split; [done|].
  intros ap. unfold status_update. cbn [Status with_status]. rewrite Hag. cbn.
  assert (status_equal status status = true) as -> by by apply status_equal_true. done.
Qed.
End controller.

(** The controller compares the new status with a copy taken after
    [InitializeStatus] has reset the phase: whatever the stored phase, readiness and
    generation were, the status is written exactly when the run is not Pending or
    its message or conditions are new. So an unchanged Ready status is written
    again by every run, and the observed generation of a Pending one may stay
    behind. *)
Theorem status_written_iff {W} clock ap sc (rfs : list (ControllerResource W)) st :
  sc_AuthPolicy sc = InitializeStatus ap →
  new_status clock sc rfs (Status (InitializeStatus ap)) = Ok st →
  status_update clock sc rfs (InitializeStatus ap) =
  if decide (DetermineReconciliationState sc rfs = StatePending ∧ status_Message (Status ap) = status_Message st ∧
             default [] (Conditions (Status ap)) = default [] (Conditions st))
  then Ok None else Ok (Some (with_status ap st)).
Proof.
  intros Hsc Hst. unfold status_update. rewrite Hst. cbn [mbind go_bind].
  pose proof (new_status_fields _ _ _ _ _ Hst) as (Hg & Hp & Hr & _ & _).
  assert (default [] (Conditions (Status (InitializeStatus ap))) = default [] (Conditions (Status ap))) as Hc.
  { cbn. by destruct (Conditions (Status ap)). }
  destruct (status_equal (Status (InitializeStatus ap)) st) eqn:E.
  - apply status_equal_true in E as (_ & Hcs & Hph & Hm & _). rewrite Hc in Hcs. rewrite decide_True; [done|].
    split_and!; [|done|done]. rewrite Hp in Hph. cbn in Hph. by destruct (DetermineReconciliationState sc rfs).
  - rewrite decide_False; [by rewrite Hsc|]. intros (Hs & Hm & Hcs). apply not_true_iff_false in E. apply E.
    apply status_equal_true. rewrite Hc, Hg, Hp, Hr, Hs, Hsc. by split_and!.
Qed.

(** ** Instances *)

#[local] Existing Instances example_parser example_pb example_yaml content_equal.

(** A server that refuses deletions. *)
Definition stubborn_client {T} `{Stored T} : Client memory T := {|
  client_get := client_get; client_create := client_create; client_patch := client_patch;
  client_delete w _ := (w, Some "forbidden");
|}.

Definition owner_reference : OwnerReference :=
  {| ref_APIVersion := "ztoperator.kartverket.no/v1alpha1"; ref_Kind := "AuthPolicy"; ref_Name := "app"; ref_UID := "uid-1";
     ref_Controller := Some true |}.

(** The deny policy is left from rules that are gone. *)
Definition leftover_state : KState memory := start_state (memory_put ∅ (deny_all DENY [owner_reference])).

Definition example_clock (i : nat) : Z := Z.of_nat i.

Lemma phase_ready_iff_witness :
  match ControllerResources example_rand (ks_scope leftover_state) with
  | Ok rfs =>
      let '(st', (r, errs)) := doReconcile rfs leftover_state in
      length rfs = 6 ∧ (∃ results, reconciled rfs leftover_state results st' ∧ errs = omap id results) ∧
      determinePhase (DetermineReconciliationState (ks_scope st') rfs) = PhaseReady
  | _ => False
  end.
Proof.
  pose proof (phase_ready_iff example_rand leftover_state eq_refl) as H.
  assert (match ControllerResources example_rand (ks_scope leftover_state) with
          | Ok rfs => (doReconcile rfs leftover_state).2.2 = [] | _ => False end) as He by (vm_compute; reflexivity).
  destruct (ControllerResources _ _) as [rfs| |]; [|done..].
  destruct H as (Hk & _ & H). destruct (doReconcile rfs leftover_state) as [st' [r errs]].
  destruct H as (results & Hrec & _ & Herrs & _ & Hphase). split_and!.
  - by rewrite <-(length_fmap cr_Kind), Hk.
  - by exists results.
  - by apply Hphase.
Defined.

Lemma phase_pending_iff_witness :
  match @ControllerResources _ _ stubborn_client stubborn_client stubborn_client stubborn_client _ _ _ _ _
          example_rand (ks_scope leftover_state) with
  | Ok rfs =>
      let '(st', (_, errs)) := doReconcile rfs leftover_state in
      DetermineReconciliationState (ks_scope st') rfs = StatePending ∧ errs ≠ [] ∧
      ∃ rf, rf ∈ rfs ∧ cr_IsNil rf = true ∧ resource_id rf ∈ desc_ids (ks_scope st')
  | _ => False
  end.
Proof.
  pose proof (@phase_pending_iff _ _ stubborn_client stubborn_client stubborn_client stubborn_client _ _ _ _ _
                example_rand leftover_state eq_refl eq_refl) as H.
  assert (match @ControllerResources _ _ stubborn_client stubborn_client stubborn_client stubborn_client _ _ _ _ _
                  example_rand (ks_scope leftover_state) with
          | Ok rfs => DetermineReconciliationState (ks_scope (doReconcile rfs leftover_state).1) rfs = StatePending
          | _ => False end) as He by (vm_compute; reflexivity).
  destruct (ControllerResources _ _) as [rfs| |]; [|done..].
  destruct (doReconcile rfs leftover_state) as [st' [r errs]]. destruct H as [H1 H2].
  split_and!; [done|by apply H2|by apply H1].
Defined.

Lemma status_stable_witness :
  match ControllerResources example_rand (ks_scope leftover_state) with
  | Ok rfs =>
      let '(st', _) := doReconcile rfs leftover_state in
      ∃ status, new_status example_clock (ks_scope st') rfs (Status (sc_AuthPolicy (ks_scope st'))) = Ok status ∧
                status_Message status = "AuthPolicy ready." ∧
                new_status (λ i, example_clock (i + 100)) (ks_scope st') rfs status = Ok status
  | _ => False
  end.
Proof.
  assert (match ControllerResources example_rand (ks_scope leftover_state) with
          | Ok rfs => let '(st', _) := doReconcile rfs leftover_state in
              match new_status example_clock (ks_scope st') rfs (Status (sc_AuthPolicy (ks_scope st'))) with
              | Ok st => status_Message st = "AuthPolicy ready." | _ => False end
          | _ => False end) as He by (vm_compute; reflexivity).
  destruct (ControllerResources _ _) as [rfs| |] eqn:Hrfs; [|done..].
  destruct (doReconcile rfs leftover_state) as [st' [r errs]] eqn:Hrun.
  destruct (new_status _ _ _ _) as [status| |] eqn:Hst; [|done..].
  exists status. split_and!; [done|done|].
  by apply (status_stable example_clock example_rand leftover_state rfs st' r errs _ status eq_refl eq_refl Hrfs Hrun Hst).
Defined.

(** A Ready status that would not change is written. *)
Definition ready_policy : AuthPolicy := with_status (sc_AuthPolicy (ks_scope leftover_state))
  {| ObservedGeneration := 1;
     Conditions := Some [{| cond_Type := "AuthPolicy-app"; cond_Status := ConditionTrue; cond_LastTransitionTime := 0;
                            cond_Reason := "ReconciliationSuccess";
                            cond_Message := "Descendants of AuthPolicy reconciled successfully." |}];
     status_Phase := PhaseReady; status_Message := "AuthPolicy ready."; Ready := true |}.

Lemma status_written_iff_witness :
  let sc := example_scope (InitializeStatus ready_policy) ["aud"] in
  new_status (W := memory) example_clock sc [] (Status (InitializeStatus ready_policy)) = Ok (Status ready_policy) ∧
  status_update (W := memory) example_clock sc [] (InitializeStatus ready_policy) =
    Ok (Some (with_status ready_policy (Status ready_policy))).
Proof.
  cbv zeta. split; [vm_compute; reflexivity|].
  rewrite (status_written_iff (W := memory) example_clock ready_policy (example_scope (InitializeStatus ready_policy) ["aud"])
             [] (Status ready_policy) eq_refl) by (vm_compute; reflexivity).
  by rewrite decide_False by (intros [Hs _]; discriminate Hs).
Defined.
