(* ===== verification/Metrics.v ===== *)
(** * The metrics (pkg/metrics)

    The gauge [ztoperator_authpolicy_info] is the list of the label values that
    have been set to 1; setting one panics if a value is not UTF-8. Reading the
    cluster is a class. *)

From S2P Require Import Prelude GoStrings Api Objects State Kube Generators Reconciliation.

(** The reads of the resolvers, the metrics and the event handlers. *)
Class ClusterReader (W : Type) := {
  reader_at : W → Reader;
  (** the labels of a namespace *)
  get_namespace : W → string → GetResult (option (gmap string string));
  list_pods : W → string → gmap string string → go (list ObjectMeta);
  list_policies : W → go (list AuthPolicy);
  list_policies_in : W → string → go (list AuthPolicy);
}.

Record MetricLabels := {
  ml_name : string;
  ml_namespace : string;
  ml_state : string;
  ml_owner : string;
  ml_issuer : string;
  ml_enabled : string;
  ml_auto_login_enabled : string;
  ml_protected_pod : string;
}.

#[global] Instance MetricLabels_eq_dec : EqDecision MetricLabels.
Proof. solve_decision. Defined.

Definition label_values (l : MetricLabels) : list string :=
  [ml_name l; ml_namespace l; ml_state l; ml_owner l; ml_issuer l; ml_enabled l; ml_auto_login_enabled l;
   ml_protected_pod l].

Definition labels_utf8 (l : MetricLabels) : bool := forallb utf8_valid (label_values l).

(** [WithLabelValues(...).Set(1)]: the client library panics on a label value that is
    not UTF-8. *)
Definition set_info (g : list MetricLabels) (l : MetricLabels) : go (list MetricLabels) :=
  if labels_utf8 l then Ok (if decide (l ∈ g) then g else g ++ [l]) else Panic "label value is not valid UTF-8".

(** One call after the other: the gauge where they end, and how. *)
Fixpoint set_all (g : list MetricLabels) (ls : list MetricLabels) : list MetricLabels * go () :=
  match ls with
  | [] => (g, Ok ())
  | l :: ls =>
      match set_info g l with
      | Ok g => set_all g ls
      | Err e => (g, Err e)
      | Panic m => (g, Panic m)
      end
  end.

(** [DeletePartialMatch] on the name and the namespace. *)
Definition about (nn : NamespacedName) (l : MetricLabels) : Prop :=
  ml_name l = nn_Name nn ∧ ml_namespace l = nn_Namespace nn.

#[global] Instance about_dec nn l : Decision (about nn l).
Proof. unfold about. apply _. Defined.

Definition DeleteAuthPolicyInfo (nn : NamespacedName) (g : list MetricLabels) : list MetricLabels :=
  filter (λ l, ¬ about nn l) g.

Definition FormatBool (b : bool) : string := if b then "true" else "false".

Definition Phase_text (p : Phase) : string :=
  match p with
  | PhaseUnset => ""
  | PhasePending => "Pending"
  | PhaseReady => "Ready"
  | PhaseFailed => "Failed"
  | PhaseInvalid => "Invalid"
  end.

Section metrics.
Context {W : Type} `{!ClusterReader W} `{UrlParser}.

(** The text of the error of [GetProtectedPods] is dropped by its only caller. *)
Definition GetProtectedPods (w : W) (ap : AuthPolicy) : go (list ObjectMeta) :=
  list_pods w (Namespace (ap_Meta ap)) (MatchLabels (Selector (Spec ap))).

(** The label values of a policy for one pod. *)
Definition info_labels (w : W) (ap : AuthPolicy) (url : URL) (pod : string) : MetricLabels :=
  {| ml_name := Name (ap_Meta ap); ml_namespace := Namespace (ap_Meta ap);
     ml_state := Phase_text (status_Phase (Status ap));
     ml_owner :=
       match get_namespace w (Namespace (ap_Meta ap)) with
       | Found labels => map_get (map_or_empty labels) "team"
       | _ => ""
       end;
     ml_issuer := url_Scheme url +:+ "://" +:+ Hostname url;
     ml_enabled := FormatBool (Enabled (Spec ap)); ml_auto_login_enabled := FormatBool (auto_login_enabled ap);
     ml_protected_pod := pod |}.

(** The gauge as the function leaves it, and its error or panic. *)
Definition RefreshAuthPolicyInfo (w : W) (ap : AuthPolicy) (g : list MetricLabels) : list MetricLabels * go () :=
  match GetParsedURL (WellKnownURI (Spec ap)) with
  | Err e =>
      (g, Err ("failed to get issuer hostname from issuer URI " +:+ WellKnownURI (Spec ap) +:+
               " due to the following error: " +:+ e))
  | Panic m => (g, Panic m)
  | Ok url =>
      match GetProtectedPods w ap with
      | Err _ => (g, Ok ()) (* the code returns [err], which is nil here *)
      | Panic m => (g, Panic m)
      | Ok pods =>
          match pods with
          | [] => set_all g [info_labels w ap url ""]
          | _ => set_all g ((λ pod, info_labels w ap url (Name pod)) <$> pods)
          end
      end
  end.

(** The loop of [refreshOnce]: an error is logged, a panic ends it. *)
Fixpoint refresh_all (w : W) (policies : list AuthPolicy) (g : list MetricLabels) : list MetricLabels * go () :=
  match policies with
  | [] => (g, Ok ())
  | ap :: policies =>
      match RefreshAuthPolicyInfo w ap g with
      | (g, Panic m) => (g, Panic m)
      | (g, _) => refresh_all w policies g
      end
  end.

(** [Reset], [List] and the loop. *)
Definition refreshOnce (w : W) : list MetricLabels * go () :=
  match list_policies w with
  | Ok policies => refresh_all w policies []
  | Err _ => ([], Ok ())
  | Panic m => ([], Panic m)
  end.

(** ** What is exported for a policy *)

Definition series (w : W) (ap : AuthPolicy) : list MetricLabels :=
  match GetParsedURL (WellKnownURI (Spec ap)), GetProtectedPods w ap with
  | Ok url, Ok [] => [info_labels w ap url ""]
  | Ok url, Ok pods => (λ pod, info_labels w ap url (Name pod)) <$> pods
  | _, _ => []
  end.

(** All label values of the policy's series are UTF-8. *)
Definition series_utf8 (w : W) (ap : AuthPolicy) : bool := forallb labels_utf8 (series w ap).

Lemma set_all_ok ls : ∀ g,
  forallb labels_utf8 ls = true → ∃ g', set_all g ls = (g', Ok ()) ∧ ∀ l, l ∈ g' ↔ l ∈ g ∨ l ∈ ls.
Proof.
  induction ls as [|x ls IH]; intros g; cbn [set_all forallb].
  - intros _. exists g. split; [done|]. intros l. rewrite elem_of_nil. tauto.
  - intros [Hx Hls]%andb_true_iff. unfold set_info. rewrite Hx.
    destruct (IH (if decide (x ∈ g) then g else g ++ [x]) Hls) as (g' & -> & Hg'). exists g'. split; [done|].
    intros l. rewrite Hg', elem_of_cons. case_decide; [naive_solver|].
    rewrite elem_of_app, list_elem_of_singleton. tauto.
Qed.

Lemma set_all_panics ls : ∀ g, forallb labels_utf8 ls = false → is_panic (set_all g ls).2 = true.
Proof.
  induction ls as [|x ls IH]; intros g; cbn [set_all forallb]; [done|]. unfold set_info.
  destruct (labels_utf8 x); [|done]. intros Hls. by apply IH.
Qed.

(** Whatever happens, nothing is removed, and nothing else is set. *)
Lemma set_all_keeps ls : ∀ g l, l ∈ g → l ∈ (set_all g ls).1.
Proof.
  induction ls as [|x ls IH]; intros g l Hl; cbn [set_all]; [done|]. unfold set_info.
  destruct (labels_utf8 x); [|done]. apply IH. case_decide; [done|]. apply elem_of_app. by left.
Qed.

Lemma set_all_bounds ls : ∀ g l, l ∈ (set_all g ls).1 → l ∈ g ∨ l ∈ ls.
Proof.
  induction ls as [|x ls IH]; intros g l; cbn [set_all]; [by left|]. unfold set_info.
  destruct (labels_utf8 x); [|by left]. intros [Hl|Hl]%IH; rewrite elem_of_cons; [|tauto].
  case_decide; [tauto|]. apply elem_of_app in Hl. rewrite list_elem_of_singleton in Hl. tauto.
Qed.

Lemma refresh_bounds w ap g l : l ∈ (RefreshAuthPolicyInfo w ap g).1 → l ∈ g ∨ l ∈ series w ap.
Proof.
  unfold RefreshAuthPolicyInfo, series.
  destruct (GetParsedURL _) as [url| |]; [|by left..]. destruct (GetProtectedPods w ap) as [[|p ps]| |]; try (by left).
  all: apply set_all_bounds.
Qed.

(** The only error is the one of the URI. *)
Lemma set_all_no_error ls : ∀ g e, (set_all g ls).2 ≠ Err e.
Proof.
  induction ls as [|x ls IH]; intros g e; cbn [set_all]; [done|]. unfold set_info. by destruct (labels_utf8 x).
Qed.

Lemma RefreshAuthPolicyInfo_ok w ap g url :
  GetParsedURL (WellKnownURI (Spec ap)) = Ok url → ∀ e, (RefreshAuthPolicyInfo w ap g).2 ≠ Err e.
Proof.
  unfold RefreshAuthPolicyInfo. intros ->. destruct (GetProtectedPods w ap) as [[|p ps]| |]; try done.
  all: apply set_all_no_error.
Qed.

Lemma refresh_keeps w ap g l : l ∈ g → l ∈ (RefreshAuthPolicyInfo w ap g).1.
Proof.
  unfold RefreshAuthPolicyInfo.
  destruct (GetParsedURL _) as [url| |]; [|done..]. destruct (GetProtectedPods w ap) as [[|p ps]| |]; try done.
  all: apply set_all_keeps.
Qed.

Lemma refresh_series w ap g :
  series_utf8 w ap = true → ∀ l, l ∈ (RefreshAuthPolicyInfo w ap g).1 ↔ l ∈ g ∨ l ∈ series w ap.
Proof.
  intros Hu l. unfold series_utf8, RefreshAuthPolicyInfo, series in *.
  destruct (GetParsedURL _) as [url| |]; [|cbn; rewrite elem_of_nil; tauto..].
  destruct (GetProtectedPods w ap) as [[|p ps]| |]; [..|cbn; rewrite elem_of_nil; tauto|cbn; rewrite elem_of_nil; tauto].
  all: by destruct (set_all_ok _ g Hu) as (g' & -> & Hg').
Qed.

Lemma refresh_panics w ap g : series_utf8 w ap = false → is_panic (RefreshAuthPolicyInfo w ap g).2 = true.
Proof.
  unfold series_utf8, RefreshAuthPolicyInfo, series.
  destruct (GetParsedURL _) as [url| |]; [|done..]. destruct (GetProtectedPods w ap) as [[|p ps]| |]; try done.
  all: apply set_all_panics.
Qed.

(** Where nothing else panics, a refresh panics only on such a label. *)
Lemma refresh_quiet w ap g :
  is_panic (GetParsedURL (WellKnownURI (Spec ap))) = false → is_panic (GetProtectedPods w ap) = false →
  series_utf8 w ap = true → is_panic (RefreshAuthPolicyInfo w ap g).2 = false.
Proof.
  intros Hu Hp. unfold series_utf8, RefreshAuthPolicyInfo, series.
  destruct (GetParsedURL _) as [url| |]; try done. destruct (GetProtectedPods w ap) as [[|p ps]| |]; try done.
  all: intros Hs; by destruct (set_all_ok _ g Hs) as (g' & -> & _).
Qed.

Lemma series_about w ap l :
  l ∈ series w ap → about {| nn_Namespace := Namespace (ap_Meta ap); nn_Name := Name (ap_Meta ap) |} l.
Proof.
  unfold series. destruct (GetParsedURL _) as [url| |]; [|by intros ?%elem_of_nil..].
  destruct (GetProtectedPods w ap) as [[|p ps]| |]; [| |by intros ?%elem_of_nil..].
  - by intros ->%list_elem_of_singleton.
  - by intros (q & -> & _)%list_elem_of_fmap.
Qed.

(** A refresh of the policy does not panic: nor do the parser and the listing of the
    pods, and its labels are UTF-8. *)
Definition refreshable (w : W) (ap : AuthPolicy) : Prop :=
  is_panic (GetParsedURL (WellKnownURI (Spec ap))) = false ∧ is_panic (GetProtectedPods w ap) = false ∧
  series_utf8 w ap = true.

Lemma refresh_all_series w policies : ∀ g,
  Forall (refreshable w) policies →
  ∃ g', refresh_all w policies g = (g', Ok ()) ∧
        ∀ l, l ∈ g' ↔ l ∈ g ∨ ∃ p, p ∈ policies ∧ l ∈ series w p.
Proof.
  induction policies as [|ap policies IH]; intros g; cbn [refresh_all].
  - intros _. exists g. split; [done|]. intros l. setoid_rewrite elem_of_nil. naive_solver.
  - intros [(Hu & Hp & Hr) Hrs]%Forall_cons_iff. pose proof (refresh_series w ap g Hr) as Hs.
    pose proof (refresh_quiet w ap g Hu Hp Hr) as Hq. destruct (RefreshAuthPolicyInfo w ap g) as [g1 [| |]]; try done; cbn [fst] in Hs;
      destruct (IH g1 Hrs) as (g' & -> & Hg'); exists g'; (split; [done|]); intros l;
      rewrite Hg', Hs; setoid_rewrite elem_of_cons; naive_solver.
Qed.

(** One policy with a label that is not UTF-8 is enough to end the loop. *)
Lemma refresh_all_panics w policies ap : ∀ g,
  ap ∈ policies → series_utf8 w ap = false → is_panic (refresh_all w policies g).2 = true.
Proof.
  induction policies as [|x policies IH]; intros g; cbn [refresh_all]; [by intros ?%elem_of_nil|].
  intros [->|Hin]%elem_of_cons Hs.
  - pose proof (refresh_panics w x g Hs) as Hp. by destruct (RefreshAuthPolicyInfo w x g) as [g1 [| |]].
  - destruct (RefreshAuthPolicyInfo w x g) as [g1 [| |]]; [by apply IH..|done].
Qed.

(** A collection leaves exactly the series of the policies listed. *)
Lemma metrics_listed w policies :
  list_policies w = Ok policies → Forall (refreshable w) policies →
  ∃ g', refreshOnce w = (g', Ok ()) ∧ ∀ l, l ∈ g' ↔ ∃ p, p ∈ policies ∧ l ∈ series w p.
Proof.
  intros Hp Hr. unfold refreshOnce. rewrite Hp. destruct (refresh_all_series w policies [] Hr) as (g' & -> & Hg').
  exists g'. split; [done|]. intros l. rewrite Hg', elem_of_nil. tauto.
Qed.

(** Where no refresh panics, the gauge holds after a collection exactly the series of
    the policies that were listed; and removing and refreshing a policy, as every
    status update does, leaves exactly its current series, with the new phase, and
    does not touch another policy's. *)
Theorem metrics_exact w ap g :
  (∀ policies, list_policies w = Ok policies → Forall (refreshable w) policies →
     ∃ g', refreshOnce w = (g', Ok ()) ∧ ∀ l, l ∈ g' ↔ ∃ p, p ∈ policies ∧ l ∈ series w p) ∧
  let nn := {| nn_Namespace := Namespace (ap_Meta ap); nn_Name := Name (ap_Meta ap) |} in
  (series_utf8 w ap = true →
     ∀ l, about nn l → l ∈ (RefreshAuthPolicyInfo w ap (DeleteAuthPolicyInfo nn g)).1 ↔ l ∈ series w ap) ∧
  (∀ l, ¬ about nn l → l ∈ (RefreshAuthPolicyInfo w ap (DeleteAuthPolicyInfo nn g)).1 ↔ l ∈ g).
Proof.
  split; [|cbv zeta; split].
  - apply metrics_listed.
  - intros Hu l. rewrite (refresh_series w ap _ Hu). unfold DeleteAuthPolicyInfo. rewrite list_elem_of_filter. tauto.
  - intros l Hn. split.
    + intros [Hl|Hs%series_about]%refresh_bounds; [|done]. by apply list_elem_of_filter in Hl as [_ ?].
    + intros Hl. apply refresh_keeps. by apply list_elem_of_filter.
Qed.
End metrics.
