(* ===== verification/Controller.v ===== *)
(** * The controller (internal/controller/authpolicy_controller.go,
    internal/statusmanager/status_updater.go)

    One call of [Reconcile]: the policy is read and labelled, resolved, validated,
    its six objects are reconciled, and its status is written on the way out. *)

From S2P Require Import Prelude GoStrings GoSlices Api Objects State PathValidation Kube Resolver Generators IstioPolicy.
From S2P Require Import Reconciliation Resources Status Metrics.

(** ** The API server's operations on policies *)

Inductive UpdateAnswer := Updated | Conflict (e : string) | UpdateFailed (e : string).

Class PolicyClient (W : Type) := {
  policy_get : W → NamespacedName → GetResult AuthPolicy;
  (** a merge patch from the first object to the second; the object as the call leaves it *)
  policy_patch : W → AuthPolicy → AuthPolicy → W * (AuthPolicy * option string);
  (** [Status().Update] *)
  policy_update_status : W → AuthPolicy → W * UpdateAnswer;
}.

(** [retry.RetryOnConflict] tries again on a conflict, a bounded number of times. *)
Fixpoint attempts {W} (again : nat) (fn : W → W * UpdateAnswer) (w : W) : W * option string :=
  let '(w, answer) := fn w in
  match answer with
  | Updated => (w, None)
  | UpdateFailed e => (w, Some e)
  | Conflict e => match again with 0 => (w, Some e) | S again => attempts again fn w end
  end.

Class Retry (W : Type) := {
  RetryOnConflict : (W → W * UpdateAnswer) → W → W * option string;
  retry_attempts : ∃ again, ∀ fn w, RetryOnConflict fn w = attempts again fn w;
}.

(** The text of [k8sErrors.NewAggregate]. *)
Class Aggregate := { NewAggregate : list string → string }.

Definition policy_key (ap : AuthPolicy) : NamespacedName :=
  {| nn_Namespace := Namespace (ap_Meta ap); nn_Name := Name (ap_Meta ap) |}.

(** What a call of [Reconcile] changes. *)
Record RState (W : Type) := {
  rs_world : W;
  rs_calls : list ApiCall;
  rs_gauge : list MetricLabels;
}.
Arguments rs_world {W}. Arguments rs_calls {W}. Arguments rs_gauge {W}.

Section controller.
Context {W : Type} `{Ownership} `{!Client W Secret} `{!Client W EnvoyFilter}.
Context `{!Client W RequestAuthentication} `{!Client W AuthorizationPolicy} `{!PolicyClient W} `{!ClusterReader W}.
Context `{UrlParser} `{MapOrder} `{StructPb} `{Yaml} `{Growth} `{DeepEqual} `{!Retry W} `{Aggregate}.

(** *** status_updater.go *)

(** The state it leaves, and its error or panic. *)
Definition UpdateStatus (ap : AuthPolicy) (st : RState W) : RState W * go () :=
  let deleted := DeleteAuthPolicyInfo (policy_key ap) (rs_gauge st) in
  let '(gauge, refreshed) := RefreshAuthPolicyInfo (rs_world st) ap deleted in
  match refreshed with
  | Err e => ({| rs_world := rs_world st; rs_calls := rs_calls st; rs_gauge := gauge |}, Err e)
  | Panic m => ({| rs_world := rs_world st; rs_calls := rs_calls st; rs_gauge := gauge |}, Panic m)
  | Ok _ =>
      let '(w, err) := RetryOnConflict (λ w,
        match policy_get w (policy_key ap) with
        | Found latest => policy_update_status w (with_status latest (Status ap))
        | NotFound => (w, UpdateFailed "not found")
        | GetError e => (w, UpdateFailed e)
        end) (rs_world st) in
      ({| rs_world := w; rs_calls := rs_calls st; rs_gauge := gauge |},
       match err with Some e => Err e | None => Ok () end)
  end.

(** *** Resolution and validation *)

Definition resolveAuthPolicy (w : W) (authPolicy : option AuthPolicy) (resolver : string → go DiscoveryDocument)
    : go Scope :=
  match authPolicy with
  | None => Err "encountered AuthPolicy as null when resolving"
  | Some ap =>
      oAuthCredentials ← @ResolveOAuthCredentials (reader_at w) ap;
      identityProviderUris ← ResolveDiscoveryDocument ap resolver;
      autoLoginConfig ← ResolveAutoLoginConfig ap identityProviderUris;
      resolvedAudiences ← wrap_err "failed to resolve audiences: "
        (@ResolveAudiences (reader_at w) (Namespace (ap_Meta ap)) (AllowedAudiences (Spec ap)));
      Ok {| sc_AuthPolicy := ap; sc_Audiences := resolvedAudiences; sc_AutoLoginConfig := autoLoginConfig;
            sc_OAuthCredentials := oAuthCredentials; sc_IdentityProviderUris := identityProviderUris;
            sc_Descendants := []; sc_InvalidConfig := false; sc_ValidationErrorMessage := None |}
  end.

Definition with_validation (sc : Scope) (invalid : bool) (message : option string) : Scope :=
  {| sc_AuthPolicy := sc_AuthPolicy sc; sc_Audiences := sc_Audiences sc; sc_AutoLoginConfig := sc_AutoLoginConfig sc;
     sc_OAuthCredentials := sc_OAuthCredentials sc; sc_IdentityProviderUris := sc_IdentityProviderUris sc;
     sc_Descendants := sc_Descendants sc; sc_InvalidConfig := invalid; sc_ValidationErrorMessage := message |}.

Definition validateAuthPolicy (sc : Scope) : go Scope :=
  match ValidatePaths (GetPaths (sc_AuthPolicy sc)) with
  | Err e => Ok (with_validation sc true (Some e))
  | Panic m => Panic m
  | Ok _ => Ok (with_validation sc false (sc_ValidationErrorMessage sc))
  end.

(** *** Reconcile *)

Definition with_policy_labels (ap : AuthPolicy) (l : option (gmap string string)) : AuthPolicy :=
  {| ap_Kind := ap_Kind ap; ap_Meta := with_labels l (ap_Meta ap); Spec := Spec ap; Status := Status ap |}.

(** [maps.Copy]: the standard labels over the policy's own. *)
Definition labelled (ap : AuthPolicy) : AuthPolicy :=
  with_policy_labels ap (Some (AuthPolicyStandardLabels ∪ map_or_empty (Labels (ap_Meta ap)))).

(** The patch that adds the labels, if there are any to add; the policy with which
    the new status will be compared. *)
Definition patch_labels (ap : AuthPolicy) (w : W) : W * (AuthPolicy * option string) :=
  if bool_decide (Labels (ap_Meta (labelled ap)) = Some (map_or_empty (Labels (ap_Meta ap))))
  then (w, (labelled ap, None)) else policy_patch w ap (labelled ap).

Definition failed_status (ap : AuthPolicy) (message : string) : AuthPolicy :=
  with_status ap {| ObservedGeneration := ObservedGeneration (Status ap); Conditions := Conditions (Status ap);
                    status_Phase := PhaseFailed; status_Message := message; Ready := Ready (Status ap) |}.

(** [UpdateAuthPolicyStatus]: the error of the write is only logged, a panic is not caught. *)
Definition UpdateAuthPolicyStatus (clock : nat → Z) (sc : Scope) (original : AuthPolicy)
    (rfs : list (ControllerResource W)) (st : RState W) : RState W * go () :=
  match status_update clock sc rfs original with
  | Ok (Some ap) =>
      match UpdateStatus ap st with
      | (st, Panic m) => (st, Panic m)
      | (st, _) => (st, Ok ())
      end
  | Ok None => (st, Ok ())
  | Err m | Panic m => (st, Panic m)
  end.

(** From the resolved scope on: validation, the objects, and the deferred status.
    Neither the validation nor the generators return an error here: what does not
    return a value is a panic, which ends the call. *)
Definition reconcile_resolved (clock : nat → Z) (rand : Random) (sc : Scope) (original : AuthPolicy) (st : RState W)
    : RState W * go Result :=
  match sc ← validateAuthPolicy sc; rfs ← ControllerResources (W := W) rand sc; Ok (sc, rfs) with
  | Err m | Panic m => (st, Panic m)
  | Ok (sc, rfs) =>
      let '(ks, (result, errs)) :=
        doReconcile rfs {| ks_world := rs_world st; ks_calls := rs_calls st; ks_scope := sc |} in
      let st := {| rs_world := ks_world ks; rs_calls := ks_calls ks; rs_gauge := rs_gauge st |} in
      match UpdateAuthPolicyStatus clock (ks_scope ks) original rfs st with
      | (st, Panic m) => (st, Panic m)
      | (st, _) => (st, match errs with [] => Ok result | _ => Err (NewAggregate errs) end)
      end
  end.

Definition forget (nn : NamespacedName) (st : RState W) : RState W :=
  {| rs_world := rs_world st; rs_calls := rs_calls st; rs_gauge := DeleteAuthPolicyInfo nn (rs_gauge st) |}.

Definition Reconcile (clock : nat → Z) (rand : Random) (resolver : string → go DiscoveryDocument)
    (req : NamespacedName) (st : RState W) : RState W * go Result :=
  match policy_get (rs_world st) req with
  | NotFound => (forget req st, Ok no_result)
  | GetError e => (st, Err e)
  | Found stored =>
      let authPolicy := InitializeStatus stored in
      if has (DeletionTimestamp (ap_Meta authPolicy)) then (forget req st, Ok no_result)
      else
        let '(w, (original, patchErr)) := patch_labels authPolicy (rs_world st) in
        let st := {| rs_world := w; rs_calls := rs_calls st; rs_gauge := rs_gauge st |} in
        match patchErr with
        | Some e => (st, Err e)
        | None =>
            match resolveAuthPolicy (rs_world st) (Some authPolicy) resolver with
            | Panic m => (st, Panic m)
            | Err e =>
                match UpdateStatus (failed_status authPolicy e) st with
                | (st, Panic m) => (st, Panic m)
                | (st, Err e') => (st, Err e')
                | (st, Ok _) => (st, Err e)
                end
            | Ok sc => reconcile_resolved clock rand sc original st
            end
        end
  end.
End controller.
