(* ===== verification/ControllerFacts.v ===== *)
(** * What a call of the controller does

    Whatever happens, the calls it makes change only objects the policy controls;
    and with an API server that accepts status updates, the stored status tells how
    the call went. *)

From S2P Require Import Prelude GoStrings GoSlices Api Objects State PathValidation Kube Resolver Generators IstioPolicy.
From S2P Require Import Reconciliation ReconciliationFacts Resources ResourcesFacts Status StatusFacts StatusStability.
From S2P Require Import Metrics Controller.

(** ** Relations kept by the loop over the resources *)

Definition respects {W} (R : KState W → KState W → Prop) (rf : ControllerResource W) : Prop :=
  ∀ st, R st (cr_Reconcile rf st).1.

Lemma reconcile_all_respects {W} (R : KState W → KState W → Prop) `{!PreOrder R} (rfs : list (ControllerResource W)) :
  Forall (respects R) rfs → ∀ result errs st, R st (reconcile_all rfs result errs st).1.
Proof.
  induction 1 as [|rf rfs Hrf _ IH]; intros result errs st; cbn [reconcile_all]; [reflexivity|].
  specialize (Hrf st). destruct (cr_Reconcile rf st) as [st1 [r err]]. etrans; [exact Hrf|apply IH].
Qed.

Lemma doReconcile_respects {W} (R : KState W → KState W → Prop) `{!PreOrder R} (rfs : list (ControllerResource W)) st :
  Forall (respects R) rfs → R st (doReconcile rfs st).1.
Proof.
  intros Hrfs. pose proof (reconcile_all_respects R rfs Hrfs no_result [] st) as HR. unfold doReconcile.
  destruct (reconcile_all rfs no_result [] st) as [st' [result errs]]. by destruct errs.
Qed.

(** ** The calls *)

Definition object_meta (o : Object) : ObjectMeta :=
  match o with
  | OSecret o => secret_Meta o
  | OEnvoyFilter o => ef_Meta o
  | ORequestAuthentication o => ra_Meta o
  | OAuthorizationPolicy o => azp_Meta o
  end.

Class Metadata (T : Type) `{Controlled T} := {
  object_meta_of t : object_meta (to_object t) = obj_meta t;
  obj_meta_of_set m t : obj_meta (set_meta m t) = m;
}.

#[export] Instance secret_metadata : Metadata Secret.
Proof. by split. Qed.
#[export] Instance envoy_filter_metadata : Metadata EnvoyFilter.
Proof. by split. Qed.
#[export] Instance request_authentication_metadata : Metadata RequestAuthentication.
Proof. by split. Qed.
#[export] Instance authorization_policy_metadata : Metadata AuthorizationPolicy.
Proof. by split. Qed.

(** The object a call changes is, or becomes, controlled by the policy. *)
Definition call_target (c : ApiCall) : Object :=
  match c with CallCreate o => o | CallPatch before _ => before | CallDelete o => o end.

Definition makes_owned_calls `{Ownership} {W} (st st' : KState W) : Prop :=
  sc_AuthPolicy (ks_scope st') = sc_AuthPolicy (ks_scope st) ∧
  ∃ calls, ks_calls st' = ks_calls st ++ calls ∧
    Forall (λ c, is_controlled_by (object_meta (call_target c)) (sc_AuthPolicy (ks_scope st)) = true) calls.

#[global] Instance makes_owned_calls_preorder `{Ownership} W : PreOrder (makes_owned_calls (W := W)).
Proof.
  split.
  - intros st. split; [done|]. exists []. rewrite app_nil_r. by split.
  - intros st1 st2 st3 [He1 (c1 & Hc1 & Hf1)] [He2 (c2 & Hc2 & Hf2)]. split; [congruence|].
    exists (c1 ++ c2). rewrite Hc2, Hc1, app_assoc. split; [done|]. apply Forall_app. rewrite He1 in Hf2. by split.
Qed.

(** The API server keeps policies apart from the objects of another type. *)
Class PolicyFrame (W T : Type) `{!Client W T} `{!PolicyClient W} := {
  create_frame w o k : policy_get (client_create w o).1 k = policy_get w k;
  patch_frame w o o' k : policy_get (client_patch w o o').1 k = policy_get w k;
  delete_frame w o k : policy_get (client_delete w o).1 k = policy_get w k;
}.

Definition same_policies {W} `{!PolicyClient W} (st st' : KState W) : Prop :=
  ∀ k, policy_get (ks_world st') k = policy_get (ks_world st) k.

#[global] Instance same_policies_preorder W `{!PolicyClient W} : PreOrder (same_policies (W := W)).
Proof. split; [by intros st k|]. intros st1 st2 st3 H1 H2 k. by rewrite H2, H1. Qed.

Section adapters.
Context {W T : Type} `{Ownership} `{Metadata T} `{!Client W T}.

Lemma adapter_owned kind name desired su uf :
  respects makes_owned_calls (adapter (W := W) (T := T) kind name desired su uf).
Proof.
  intros st. destruct (reconcile_outcome kind name desired su uf st) as (st' & r & err & Heq & _ & Ho).
  cbn [cr_Reconcile adapter]. rewrite Heq. cbn [fst]. split; [by destruct Ho|].
  apply outcome_writes in Ho as (calls & Hcalls & _ & Hok). exists calls. split; [done|].
  eapply Forall_impl; [exact Hok|]. intros [o|o o'|o]; cbn [write_ok call_target].
  - intros (_ & d & m & _ & -> & Hm). by rewrite object_meta_of, obj_meta_of_set.
  - intros (c & d & _ & Hc & _ & -> & _). by rewrite object_meta_of.
  - intros (c & _ & Hc & _ & ->). by rewrite object_meta_of.
Qed.

Lemma adapter_frame `{!PolicyClient W} `{!PolicyFrame W T} kind name desired su uf :
  respects same_policies (adapter (W := W) (T := T) kind name desired su uf).
Proof.
  intros st k. destruct (reconcile_outcome kind name desired su uf st) as (st' & r & err & Heq & _ & Ho).
  cbn [cr_Reconcile adapter]. rewrite Heq. cbn [fst].
  destruct Ho as [| | |d m w created err _ _ _ Hw|d c w patched err _ _ _ _ Hw|c w _ _ _ Hw|c w e msg _ _ _ Hw];
    cbn [report called ks_world]; try done.
  - by rewrite <-(create_frame (ks_world st) (set_meta m d)), Hw.
  - by rewrite <-(patch_frame (ks_world st) c (uf c d)), Hw.
  - by rewrite <-(delete_frame (ks_world st) c), Hw.
  - by rewrite <-(delete_frame (ks_world st) c), Hw.
Qed.
End adapters.

(** ** The status *)

(** What the controller relies on when it writes a status: an object found under a
    key has that key, and an update is accepted and stored. *)
Class StatusServer (W : Type) `{!PolicyClient W} := {
  policy_get_key w k ap : policy_get w k = Found ap → policy_key ap = k;
  status_accepted w k ap s :
    policy_get w k = Found ap →
    ∃ w', policy_update_status w (with_status ap s) = (w', Updated) ∧ policy_get w' k = Found (with_status ap s);
}.

(** Only the message of a ready policy comes with the phase Ready. *)
Definition status_consistent (s : AuthPolicyStatus) : Prop :=
  status_Phase s = PhaseReady → status_Message s = "AuthPolicy ready.".

Lemma attempts_updated {W} again (fn : W → W * UpdateAnswer) w w' :
  fn w = (w', Updated) → attempts again fn w = (w', None).
Proof. intros H. destruct again; cbn; by rewrite H. Qed.

Section controller.
Context {W : Type} `{Ownership} `{!Client W Secret} `{!Client W EnvoyFilter}.
Context `{!Client W RequestAuthentication} `{!Client W AuthorizationPolicy} `{!PolicyClient W} `{!ClusterReader W}.
Context `{UrlParser} `{MapOrder} `{StructPb} `{Yaml} `{Growth} `{DeepEqual} `{!Retry W} `{Aggregate}.

Lemma ControllerResources_respects (R : KState W → KState W → Prop) rand sc rfs :
  (∀ kind name d, respects R (adapter (T := Secret) kind name d SecretShouldUpdate SecretUpdateFields)) →
  (∀ kind name d, respects R (adapter (T := EnvoyFilter) kind name d EnvoyFilterShouldUpdate EnvoyFilterUpdateFields)) →
  (∀ kind name d, respects R (adapter (T := RequestAuthentication) kind name d
                                RequestAuthenticationShouldUpdate RequestAuthenticationUpdateFields)) →
  (∀ kind name d, respects R (adapter (T := AuthorizationPolicy) kind name d
                                AuthorizationPolicyShouldUpdate AuthorizationPolicyUpdateFields)) →
  ControllerResources rand sc = Ok rfs → Forall (respects R) rfs.
Proof.
  intros Hs Hf Hr Ha (desired & desired' & ->)%ControllerResources_ok.
  repeat (apply List.Forall_cons; [first [apply Hs|apply Hf|apply Hr|apply Ha]|]). apply List.Forall_nil.
Qed.

Lemma ControllerResources_owned rand sc (rfs : list (ControllerResource W)) :
  ControllerResources rand sc = Ok rfs → Forall (respects makes_owned_calls) rfs.
Proof. apply ControllerResources_respects; intros; apply adapter_owned. Qed.

Lemma UpdateStatus_fields ap (st : RState W) :
  rs_calls (UpdateStatus ap st).1 = rs_calls st.
Proof.
  unfold UpdateStatus. destruct (RefreshAuthPolicyInfo _ _ _) as [g [u|e|m]]; [|done..].
  by destruct (RetryOnConflict _ _) as [w err].
Qed.

(** The status is written or not: the call goes on unless the write panics. *)
Lemma UpdateAuthPolicyStatus_cases clock sc original rfs (st : RState W) :
  match status_update clock sc rfs original with
  | Ok update =>
      (UpdateAuthPolicyStatus clock sc original rfs st).1 =
        match update with Some ap => (UpdateStatus ap st).1 | None => st end ∧
      is_panic (UpdateAuthPolicyStatus clock sc original rfs st).2 =
        match update with Some ap => is_panic (UpdateStatus ap st).2 | None => false end
  | Err m | Panic m => UpdateAuthPolicyStatus clock sc original rfs st = (st, Panic m)
  end.
Proof.
  unfold UpdateAuthPolicyStatus. destruct (status_update _ _ _ _) as [[ap|]|m|m]; [|done..].
  by destruct (UpdateStatus ap st) as [st' [| |]].
Qed.

Lemma resolveAuthPolicy_ok w ap resolver sc :
  resolveAuthPolicy w (Some ap) resolver = Ok sc →
  sc_AuthPolicy sc = ap ∧ sc_Descendants sc = [] ∧ sc_ValidationErrorMessage sc = None.
Proof.
  intros (creds & _ & (uris & _ & (cfg & _ & (auds & _ & <-%Ok_inj)%go_bind_ok)%go_bind_ok)%go_bind_ok)%go_bind_ok. done.
Qed.

Lemma validateAuthPolicy_ok sc sc' :
  validateAuthPolicy sc = Ok sc' →
  sc_AuthPolicy sc' = sc_AuthPolicy sc ∧ sc_Descendants sc' = sc_Descendants sc ∧
  sc_InvalidConfig sc' = negb (is_ok (ValidatePaths (GetPaths (sc_AuthPolicy sc)))).
Proof. unfold validateAuthPolicy. by destruct (ValidatePaths _) as [[]|e|m]; intros Heq; simplify_eq. Qed.

(** What a call returns after its status has been handled. *)
Definition after_status (p : RState W * go ()) (res : go Result) : RState W * go Result :=
  match p with (st, Panic m) => (st, Panic m) | (st, _) => (st, res) end.

(** Where a call of [Reconcile] goes: it ends early, or it goes through the resources. *)
Definition resolved_run (clock : nat → Z) (rand : Random) (sc : Scope) (original : AuthPolicy) (st : RState W)
    (r : RState W * go Result) : Prop :=
  (∃ m, r = (st, Panic m)) ∨
  ∃ sc' rfs ks errs,
    validateAuthPolicy sc = Ok sc' ∧ ControllerResources rand sc' = Ok rfs ∧
    doReconcile rfs {| ks_world := rs_world st; ks_calls := rs_calls st; ks_scope := sc' |} = (ks, (no_result, errs)) ∧
    r = after_status
          (UpdateAuthPolicyStatus clock (ks_scope ks) original rfs
             {| rs_world := ks_world ks; rs_calls := ks_calls ks; rs_gauge := rs_gauge st |})
          (match errs with [] => Ok no_result | _ => Err (NewAggregate errs) end).

Lemma reconcile_resolved_run clock rand sc original st :
  sc_Descendants sc = [] → resolved_run clock rand sc original st (reconcile_resolved clock rand sc original st).
Proof.
  intros Hds. unfold reconcile_resolved, resolved_run.
  destruct (validateAuthPolicy sc) as [sc'| |] eqn:Hv; cbn [mbind go_bind]; [|by left; eexists..].
  destruct (ControllerResources rand sc') as [rfs| |] eqn:Hrfs; cbn [mbind go_bind]; [|by left; eexists..].
  right. destruct (validateAuthPolicy_ok _ _ Hv) as (_ & Hds' & _). rewrite Hds in Hds'.
  set (ks0 := {| ks_world := _ |}).
  destruct (doReconcile_spec rfs ks0 (ControllerResources_lawful _ _ _ Hrfs) (ControllerResources_distinct _ _ _ Hrfs) Hds')
    as (ks & outs & dss & Hrun & _ & _).
  exists sc', rfs, ks, (omap id outs). rewrite Hrun. by split_and!.
Qed.

(** What the state after the status has in common with the one before it. *)
Lemma after_status_state (P : RState W → Prop) clock sc original rfs (st : RState W) res :
  P st → (∀ ap, P st → P (UpdateStatus ap st).1) →
  P (after_status (UpdateAuthPolicyStatus clock sc original rfs st) res).1.
Proof.
  intros Hst HP. assert (P (UpdateAuthPolicyStatus clock sc original rfs st).1) as Hp.
  { pose proof (UpdateAuthPolicyStatus_cases clock sc original rfs st) as Hc.
    destruct (status_update _ _ _ _) as [[ap|]|m|m]; [destruct Hc as [-> _]; auto..|by rewrite Hc|by rewrite Hc]. }
  by destruct (UpdateAuthPolicyStatus _ _ _ _ _) as [st' [| |]].
Qed.

(** ** Properties *)

(** Claim C8. Every call of [Reconcile] that changes an object of the cluster
    creates one under the control of the policy that was requested, or patches or
    deletes one that policy controls; without such a policy, or when it is being
    deleted or cannot be resolved, no object is touched. *)
Theorem reconcile_touches_owned clock rand resolver req (st : RState W) :
  let '(st', res) := Reconcile clock rand resolver req st in
  ∃ calls, rs_calls st' = rs_calls st ++ calls ∧
    match policy_get (rs_world st) req with
    | Found stored =>
        Forall (λ c, is_controlled_by (object_meta (call_target c)) (InitializeStatus stored) = true) calls ∧
        (DeletionTimestamp (ap_Meta stored) ≠ None → calls = [])
    | _ => calls = []
    end.
Proof.
  unfold Reconcile. destruct (policy_get (rs_world st) req) as [stored| |e];
    [|by exists []; rewrite app_nil_r..].
  destruct (has _) eqn:Hdel; [by exists []; rewrite app_nil_r|].
  assert (DeletionTimestamp (ap_Meta stored) = None) as Hdt.
  { cbn in Hdel. by destruct (DeletionTimestamp (ap_Meta stored)). }
  destruct (patch_labels _ _) as [w [original [e|]]]; [by exists []; rewrite app_nil_r|].
  set (st0 := {| rs_world := w; rs_calls := rs_calls st; rs_gauge := rs_gauge st |}).
  destruct (resolveAuthPolicy _ _ _) as [sc|e|m] eqn:Hres; [| |by exists []; rewrite app_nil_r].
  2: { pose proof (UpdateStatus_fields (failed_status (InitializeStatus stored) e) st0) as Hc.
       destruct (UpdateStatus _ _) as [st1 [u|e'|m]]; exists []; rewrite app_nil_r; by split. }
  apply resolveAuthPolicy_ok in Hres as (Hap & Hds & _).
  destruct (reconcile_resolved_run clock rand sc original st0 Hds) as [(m & ->)|(sc' & rfs & ks & errs & Hv & Hrfs & Hrun & Hend)].
  { exists []. rewrite app_nil_r. by split. }
  destruct (validateAuthPolicy_ok _ _ Hv) as (Hap' & _ & _).
  pose proof (doReconcile_respects makes_owned_calls rfs
                {| ks_world := rs_world st0; ks_calls := rs_calls st0; ks_scope := sc' |}
                (ControllerResources_owned _ _ _ Hrfs)) as (_ & calls & Hcalls & Hok).
  rewrite Hrun in Hcalls. cbn [fst ks_calls] in Hcalls. cbn [ks_scope] in Hok. rewrite Hap', Hap in Hok.
  rewrite Hend. set (st1 := {| rs_world := ks_world ks; rs_calls := ks_calls ks; rs_gauge := rs_gauge st0 |}).
  pose proof (after_status_state (λ st, rs_calls st = ks_calls ks) clock (ks_scope ks) original rfs st1
    (match errs with [] => Ok no_result | _ => Err (NewAggregate errs) end) eq_refl) as Hc.
  destruct (after_status _ _) as [st' res]. exists calls. cbn [fst] in Hc. rewrite Hc; [by split; [|split]|].
  intros ap Hst. by rewrite UpdateStatus_fields.
Qed.

(** *** The status *)

Section status.
Context `{!StatusServer W}.

(** Where the URI parses, the status is written unless the metrics panic. *)
Lemma UpdateStatus_stores ap (st : RState W) latest url :
  GetParsedURL (WellKnownURI (Spec ap)) = Ok url →
  policy_get (rs_world st) (policy_key ap) = Found latest →
  (is_panic (UpdateStatus ap st).2 = true ∧ rs_world (UpdateStatus ap st).1 = rs_world st) ∨
  ∃ st', UpdateStatus ap st = (st', Ok ()) ∧
         policy_get (rs_world st') (policy_key ap) = Found (with_status latest (Status ap)).
Proof.
  intros Hurl Hget. unfold UpdateStatus.
  pose proof (RefreshAuthPolicyInfo_ok (rs_world st) ap (DeleteAuthPolicyInfo (policy_key ap) (rs_gauge st)) url Hurl) as Hr.
  destruct (RefreshAuthPolicyInfo _ _ _) as [g [u|e|m]]; [|by destruct (Hr e)|by left]. right.
  destruct (status_accepted _ _ _ (Status ap) Hget) as (w' & Hup & Hget').
  destruct retry_attempts as [again Ha]. rewrite Ha, (attempts_updated _ _ _ w') by (by rewrite Hget).
  by eexists.
Qed.

(** The status a finished run leaves, given the status it computes. *)
Lemma status_outcome clock sc (rfs : list (ControllerResource W)) stored st url update :
  GetParsedURL (WellKnownURI (Spec stored)) = Ok url →
  sc_AuthPolicy sc = InitializeStatus stored → policy_get (rs_world st) (policy_key stored) = Found stored →
  (∀ ap, update = Some ap → is_panic (UpdateStatus ap st).2 = false) →
  ∀ l, status_update clock sc rfs (with_policy_labels (InitializeStatus stored) l) = Ok update →
  let st' := match update with Some ap => (UpdateStatus ap st).1 | None => st end in
  ∃ status, policy_get (rs_world st') (policy_key stored) = Found (with_status stored status) ∧
    (status_consistent (Status stored) → status_consistent status) ∧
    let s := DetermineReconciliationState sc rfs in
    ((s = StatePending ∧ status = Status stored ∧ status_Message status ≠ "AuthPolicy ready.") ∨
     (status_Phase status = determinePhase s ∧ Ready status = determineReadiness s ∧
      ObservedGeneration status = Generation (ap_Meta stored))).
Proof.
  intros Hurl Hsc Hget Hquiet l (new & Hnew & Hup%Ok_inj)%go_bind_ok. cbv zeta.
  pose proof (new_status_fields _ _ _ _ _ Hnew) as (Hg & Hp & Hr & Hm & _).
  destruct (status_equal _ new) eqn:Heq; subst update.
  - exists (Status stored). split; [by destruct stored|]. split; [done|]. left.
    apply status_equal_true in Heq as (_ & _ & Hph & Hmsg & _). rewrite Hp in Hph. cbn in Hph, Hmsg.
    destruct (DetermineReconciliationState sc rfs); try discriminate Hph.
    split_and!; [done|done|]. apply Ok_inj in Hm. rewrite Hmsg, <-Hm. done.
  - destruct (UpdateStatus_stores (with_status (sc_AuthPolicy sc) new) st stored url) as [[Hp' _]|(st' & -> & Hst')].
    { cbn. by rewrite Hsc. }
    { cbn. by rewrite Hsc. }
    { by rewrite (Hquiet _ eq_refl) in Hp'. }
    exists new. rewrite Hsc in Hst'. split; [exact Hst'|]. split.
    + intros _ Hph. rewrite Hp in Hph. destruct (DetermineReconciliationState sc rfs); try discriminate Hph.
      by apply Ok_inj in Hm.
    + right. rewrite Hg, Hsc. by split_and!.
Qed.

Context `{!PolicyFrame W Secret} `{!PolicyFrame W EnvoyFilter}.
Context `{!PolicyFrame W RequestAuthentication} `{!PolicyFrame W AuthorizationPolicy}.

Lemma doReconcile_frame rand sc (rfs : list (ControllerResource W)) st k :
  ControllerResources rand sc = Ok rfs →
  policy_get (ks_world (doReconcile rfs st).1) k = policy_get (ks_world st) k.
Proof.
  intros Hrfs. apply (doReconcile_respects same_policies).
  eapply ControllerResources_respects; [..|exact Hrfs]; intros; apply adapter_frame.
Qed.

(** The state the run is in, and whether it failed. *)
Lemma run_state rand sc (rfs : list (ControllerResource W)) w calls ks errs :
  ControllerResources rand sc = Ok rfs → sc_Descendants sc = [] →
  doReconcile rfs {| ks_world := w; ks_calls := calls; ks_scope := sc |} = (ks, (no_result, errs)) →
  sc_AuthPolicy (ks_scope ks) = sc_AuthPolicy sc ∧ sc_InvalidConfig (ks_scope ks) = sc_InvalidConfig sc ∧
  if sc_InvalidConfig (ks_scope ks) then DetermineReconciliationState (ks_scope ks) rfs = StateInvalid
  else DetermineReconciliationState (ks_scope ks) rfs = StateReady ↔ errs = [].
Proof.
  intros Hrfs Hds Hrun.
  destruct (doReconcile_spec rfs {| ks_world := w; ks_calls := calls; ks_scope := sc |}
              (ControllerResources_lawful _ _ _ Hrfs) (ControllerResources_distinct _ _ _ Hrfs) Hds)
    as (ks' & outs & dss & Heq & Hl & Hsc).
  rewrite Heq in Hrun. injection Hrun as -> <-. split; [by rewrite Hsc|]. split; [by rewrite Hsc|].
  destruct (sc_InvalidConfig (ks_scope ks)) eqn:Hinv.
  - unfold DetermineReconciliationState. by rewrite Hinv.
  - eapply state_ready_iff; [exact Hl|done|by rewrite Hsc].
Qed.

(** What the stored status says after a call of [Reconcile]. *)
Definition status_tells (stored : AuthPolicy) (res : go Result) (status : AuthPolicyStatus) : Prop :=
  match res with
  | Ok r =>
      r = no_result ∧ ObservedGeneration status = Generation (ap_Meta stored) ∧
      let valid := is_ok (ValidatePaths (GetPaths stored)) in
      status_Phase status = (if valid then PhaseReady else PhaseInvalid) ∧ Ready status = valid
  | Err _ => status_Phase status ≠ PhaseReady
  | Panic _ => status = Status stored
  end.

Lemma status_tells_run stored rfs sc errs status :
  sc_InvalidConfig sc = negb (is_ok (ValidatePaths (GetPaths stored))) → status_consistent (Status stored) →
  (if sc_InvalidConfig sc then DetermineReconciliationState sc rfs = StateInvalid
   else DetermineReconciliationState sc rfs = StateReady ↔ errs = []) →
  ((DetermineReconciliationState sc rfs = StatePending ∧ status = Status stored ∧
    status_Message status ≠ "AuthPolicy ready.") ∨
   (status_Phase status = determinePhase (DetermineReconciliationState (W := W) sc rfs) ∧
    Ready status = determineReadiness (DetermineReconciliationState sc rfs) ∧
    ObservedGeneration status = Generation (ap_Meta stored))) →
  status_tells stored (match errs with [] => Ok no_result | _ => Err (NewAggregate errs) end) status.
Proof.
  intros Hinv Hcons Hstate Hstatus. rewrite Hinv in Hstate. unfold status_tells.
  destruct (is_ok (ValidatePaths _)); cbn [negb] in Hstate.
  - destruct errs as [|e errs].
    + assert (DetermineReconciliationState sc rfs = StateReady) as Hs by (by apply Hstate). rewrite Hs in Hstatus.
      destruct Hstatus as [[? _]|(-> & -> & ->)]; done.
    + assert (DetermineReconciliationState sc rfs ≠ StateReady) as Hs by (by intros ?%Hstate).
      destruct Hstatus as [(_ & -> & Hm)|(-> & _)]; [by intros ?%Hcons|].
      by destruct (DetermineReconciliationState sc rfs).
  - rewrite Hstate in Hstatus. destruct Hstatus as [[? _]|(-> & -> & ->)]; [done|]. by destruct errs.
Qed.

(** The part of a call after the resolution. *)
Lemma truthful_run clock rand sc stored url (st : RState W) :
  GetParsedURL (WellKnownURI (Spec stored)) = Ok url →
  policy_get (rs_world st) (policy_key stored) = Found stored → status_consistent (Status stored) →
  sc_AuthPolicy sc = InitializeStatus stored → sc_Descendants sc = [] →
  let '(st', res) := reconcile_resolved clock rand sc (labelled (InitializeStatus stored)) st in
  ∃ status, policy_get (rs_world st') (policy_key stored) = Found (with_status stored status) ∧
            status_consistent status ∧ status_tells stored res status.
Proof.
  intros Hurl Hget Hcons Hap Hds.
  assert (Found stored = Found (with_status stored (Status stored))) as Hsame by (by destruct stored).
  destruct (reconcile_resolved_run clock rand sc (labelled (InitializeStatus stored)) st Hds)
    as [(m & ->)|(sc' & rfs & ks & errs & Hv & Hrfs & Hrun & ->)].
  { exists (Status stored). by rewrite <-Hsame. }
  destruct (validateAuthPolicy_ok _ _ Hv) as (Hap' & Hds' & Hinv). rewrite Hap in Hap', Hinv. rewrite Hds in Hds'.
  destruct (run_state _ _ _ _ _ _ _ Hrfs Hds' Hrun) as (Hap'' & Hinv' & Hstate).
  pose proof (doReconcile_frame _ _ _ {| ks_world := rs_world st; ks_calls := rs_calls st; ks_scope := sc' |}
                (policy_key stored) Hrfs) as Hframe.
  rewrite Hrun in Hframe. cbn [fst ks_world] in Hframe. rewrite Hget in Hframe.
  set (st1 := {| rs_world := ks_world ks; rs_calls := ks_calls ks; rs_gauge := rs_gauge st |}) in *.
  pose proof (UpdateAuthPolicyStatus_cases clock (ks_scope ks) (labelled (InitializeStatus stored)) rfs st1) as Hcases.
  destruct (status_update _ _ _ _) as [update| |] eqn:Hup;
    [|rewrite Hcases; exists (Status stored); by rewrite <-Hsame..].
  destruct Hcases as [Hw Hp]. destruct (UpdateAuthPolicyStatus _ _ _ _ _) as [st2 res]. cbn [fst snd] in Hw, Hp.
  destruct (is_panic res) eqn:Hpan.
  - destruct res as [| |m]; try done. cbn [after_status]. exists (Status stored). split; [|done]. rewrite <-Hsame, Hw.
    destruct update as [ap|]; [|done].
    assert (GetParsedURL (WellKnownURI (Spec ap)) = Ok url ∧ policy_key ap = policy_key stored) as [Hu Hk].
    { apply go_bind_ok in Hup as (new & _ & Hup%Ok_inj). destruct (status_equal _ _); [done|].
      injection Hup as <-. cbn. by rewrite Hap'', Hap'. }
    destruct (UpdateStatus_stores ap st1 stored url Hu) as [[_ ->]|(st3 & Hst3 & _)]; [by rewrite Hk|done|].
    by rewrite Hst3 in Hp.
  - destruct (status_outcome clock (ks_scope ks) rfs stored st1 url update Hurl) with
      (l := Labels (ap_Meta (labelled (InitializeStatus stored)))) as (status & Hst & Hc & Hcase);
      [congruence|done|by intros ap ->|exact Hup|].
    pose proof (status_tells_run stored rfs (ks_scope ks) errs status) as Ht. rewrite Hinv', Hinv in Ht.
    assert (∀ r : go Result, after_status (st2, res) r = (st2, r)) as -> by (by destruct res).
    exists status. rewrite Hw. split; [exact Hst|]. split; [by apply Hc|]. apply Ht; [done|done| |exact Hcase].
    by rewrite Hinv', Hinv in Hstate.
Qed.

(** Claim C3. The stored status tells how the call went. For a policy that carries
    the operator's labels, is not being deleted, has a well-known URI that parses
    and a stored status that says Ready only with the message of a ready policy, on
    a server that accepts status updates: if [Reconcile] returns without an error
    the policy is Ready for its generation, or Invalid if one of its paths is; if it
    returns an error the policy is not Ready; if it panics the status is the one
    stored before; the rest of the policy is not changed. *)
Theorem reconcile_status_truthful clock rand resolver req (st : RState W) stored url :
  policy_get (rs_world st) req = Found stored →
  DeletionTimestamp (ap_Meta stored) = None →
  AuthPolicyStandardLabels ⊆ map_or_empty (Labels (ap_Meta stored)) →
  GetParsedURL (WellKnownURI (Spec stored)) = Ok url →
  status_consistent (Status stored) →
  let '(st', res) := Reconcile clock rand resolver req st in
  ∃ status, policy_get (rs_world st') req = Found (with_status stored status) ∧
            status_consistent status ∧ status_tells stored res status.
Proof.
  intros Hget Hdel Hlab Hurl Hcons. pose proof (policy_get_key _ _ _ Hget) as <-.
  unfold Reconcile. rewrite Hget. cbv zeta.
  change (DeletionTimestamp (ap_Meta (InitializeStatus stored))) with (DeletionTimestamp (ap_Meta stored)).
  rewrite Hdel. cbn [has]. unfold patch_labels. rewrite bool_decide_eq_true_2.
  2: { cbn. f_equal. by apply map_subseteq_union. }
  assert (Found stored = Found (with_status stored (Status stored))) as Hsame by (by destruct stored).
  set (st0 := {| rs_world := rs_world st; rs_calls := rs_calls st; rs_gauge := rs_gauge st |}).
  destruct (resolveAuthPolicy _ _ _) as [sc|e|m] eqn:Hres; [| |by exists (Status stored); rewrite <-Hsame].
  2: { destruct (UpdateStatus_stores (failed_status (InitializeStatus stored) e) st0 stored url Hurl Hget)
         as [[Hp Hw]|(st' & -> & Hst')].
       - destruct (UpdateStatus _ _) as [st' [| |m]]; try done. exists (Status stored). cbn in Hw. by rewrite Hw, <-Hsame.
       - eexists. split; [exact Hst'|]. by split. }
  pose proof (resolveAuthPolicy_ok _ _ _ _ Hres) as (Hap & Hds & _).
  pose proof (truthful_run clock rand sc stored url st0 Hurl Hget Hcons Hap Hds) as Hrun. cbv zeta in Hrun.
  by destruct (reconcile_resolved _ _ _ _ _) as [st' res].
Qed.

Lemma UpdateStatus_refused ap st e :
  GetParsedURL (WellKnownURI (Spec ap)) = Err e → rs_world (UpdateStatus ap st).1 = rs_world st.
Proof. intros Hurl. unfold UpdateStatus, RefreshAuthPolicyInfo. by rewrite Hurl. Qed.

(** A call whose status updates leave the cluster alone leaves the policy alone. *)
Definition no_status_write (ap : AuthPolicy) : Prop :=
  ∀ (st : RState W) s, rs_world (UpdateStatus (with_status ap s) st).1 = rs_world st.

Lemma status_never_written clock rand resolver req (st : RState W) stored :
  policy_get (rs_world st) req = Found stored →
  AuthPolicyStandardLabels ⊆ map_or_empty (Labels (ap_Meta stored)) → no_status_write stored →
  policy_get (rs_world (Reconcile clock rand resolver req st).1) req = Found stored.
Proof.
  intros Hget Hlab Hno. unfold Reconcile. rewrite Hget. cbv zeta. destruct (has _); [done|].
  unfold patch_labels. rewrite bool_decide_eq_true_2.
  2: { cbn. f_equal. by apply map_subseteq_union. }
  set (st0 := {| rs_world := rs_world st; rs_calls := rs_calls st; rs_gauge := rs_gauge st |}).
  destruct (resolveAuthPolicy _ _ _) as [sc|e'|m] eqn:Hres; [| |done].
  2: { pose proof (Hno st0 (Status (failed_status (InitializeStatus stored) e'))) as Hw.
       change (with_status stored (Status (failed_status (InitializeStatus stored) e')))
         with (failed_status (InitializeStatus stored) e') in Hw.
       destruct (UpdateStatus _ _) as [st' [| |]]; cbn in Hw |- *; by rewrite Hw. }
  apply resolveAuthPolicy_ok in Hres as (Hap & Hds & _).
  destruct (reconcile_resolved_run clock rand sc (labelled (InitializeStatus stored)) st0 Hds)
    as [(m & ->)|(sc' & rfs & ks & errs & Hv & Hrfs & Hrun & ->)]; [done|].
  destruct (validateAuthPolicy_ok _ _ Hv) as (Hap' & Hds' & _). rewrite Hds in Hds'.
  destruct (run_state _ _ _ _ _ _ _ Hrfs Hds' Hrun) as (Hap'' & _ & _).
  pose proof (doReconcile_frame _ _ _ {| ks_world := rs_world st0; ks_calls := rs_calls st0; ks_scope := sc' |}
                req Hrfs) as Hframe.
  rewrite Hrun in Hframe. cbn [fst ks_world st0 rs_world] in Hframe. rewrite Hget in Hframe.
  set (st1 := {| rs_world := ks_world ks; rs_calls := ks_calls ks; rs_gauge := rs_gauge st0 |}) in *.
  pose proof (UpdateAuthPolicyStatus_cases clock (ks_scope ks) (labelled (InitializeStatus stored)) rfs st1) as Hcases.
  assert (rs_world (UpdateAuthPolicyStatus clock (ks_scope ks) (labelled (InitializeStatus stored)) rfs st1).1 = ks_world ks) as Hw.
  { destruct (status_update _ _ _ _) as [[ap|]| |] eqn:Hup; [|by destruct Hcases as [-> _]|by rewrite Hcases..].
    destruct Hcases as [-> _]. apply go_bind_ok in Hup as (new & _ & Hup%Ok_inj). destruct (status_equal _ _); [done|].
    injection Hup as <-. rewrite Hap'', Hap', Hap. exact (Hno st1 new). }
  destruct (UpdateAuthPolicyStatus _ _ _ _ _) as [st2 [| |]]; cbn [after_status fst] in *; by rewrite Hw.
Qed.

(** Claim C27. The status of a policy is never written while its well-known URI does
    not parse: the metrics are refreshed first, and their error ends the update. The
    failure to resolve such a policy is therefore not reported in its status, which
    may say Ready for an earlier generation. *)
Theorem unparsable_uri_hides_status clock rand resolver req (st : RState W) stored e :
  policy_get (rs_world st) req = Found stored →
  AuthPolicyStandardLabels ⊆ map_or_empty (Labels (ap_Meta stored)) →
  GetParsedURL (WellKnownURI (Spec stored)) = Err e →
  policy_get (rs_world (Reconcile clock rand resolver req st).1) req = Found stored.
Proof.
  intros Hget Hlab Hurl. apply status_never_written; [done|done|]. intros st' s. by apply (UpdateStatus_refused _ _ e).
Qed.

(** *** Labels that are not UTF-8 *)

Lemma UpdateStatus_panics ap (st : RState W) :
  series_utf8 (rs_world st) ap = false →
  is_panic (UpdateStatus ap st).2 = true ∧ rs_world (UpdateStatus ap st).1 = rs_world st.
Proof.
  intros Hs. unfold UpdateStatus. pose proof (refresh_panics (rs_world st) ap (DeleteAuthPolicyInfo (policy_key ap) (rs_gauge st)) Hs).
  by destruct (RefreshAuthPolicyInfo _ _ _) as [g [| |]].
Qed.

(** The name of the issuer in the metrics. *)
Definition issuer_text (url : URL) : string := url_Scheme url +:+ "://" +:+ Hostname url.

Lemma issuer_not_utf8 (w : W) ap url pods :
  GetParsedURL (WellKnownURI (Spec ap)) = Ok url → GetProtectedPods w ap = Ok pods →
  utf8_valid (issuer_text url) = false → series_utf8 w ap = false.
Proof.
  intros Hurl Hpods Hi. unfold series_utf8, series. rewrite Hurl, Hpods.
  assert (∀ p, labels_utf8 (info_labels w ap url p) = false) as Hl.
  { intros p. unfold labels_utf8, label_values. cbn [forallb info_labels ml_issuer]. fold (issuer_text url).
    rewrite Hi, !andb_false_r. by rewrite ?andb_false_l, ?andb_false_r. }
  destruct pods as [|p ps]; cbn [forallb fmap list_fmap]; by rewrite Hl.
Qed.

End status.
End controller.
