(* ===== verification/Cluster.v ===== *)
(** * A cluster in memory

    The objects of [MemoryServer] and the policies, as one cluster: an instance of
    the interfaces of the controller, at which its theorems are instantiated. *)

From S2P Require Import Prelude GoStrings GoSlices Api Objects State Examples PathValidation Kube Resolver Generators.
From S2P Require Import GeneratorFacts IstioPolicy Reconciliation ReconciliationFacts Resources ResourcesFacts MemoryServer.
From S2P Require Import Status StatusFacts StatusStability Metrics Controller ControllerFacts.

Record cluster := { cl_objects : memory; cl_policies : gmap (string * string) AuthPolicy }.

Definition with_objects (w : cluster) (m : memory) : cluster := {| cl_objects := m; cl_policies := cl_policies w |}.

#[export] Instance cluster_client {T} `{Stored T} : Client cluster T := {|
  client_get w k := client_get (cl_objects w) k;
  client_create w t := let '(m, r) := client_create (cl_objects w) t in (with_objects w m, r);
  client_patch w t t' := let '(m, r) := client_patch (cl_objects w) t t' in (with_objects w m, r);
  client_delete w t := let '(m, r) := client_delete (cl_objects w) t in (with_objects w m, r);
|}.

Definition cluster_policy (w : cluster) (nn : NamespacedName) : GetResult AuthPolicy :=
  match cl_policies w !! (nn_Namespace nn, nn_Name nn) with
  | Some ap => if decide (policy_key ap = nn) then Found ap else NotFound
  | None => NotFound
  end.

Definition put_policy (w : cluster) (ap : AuthPolicy) : cluster :=
  {| cl_objects := cl_objects w;
     cl_policies := <[(Namespace (ap_Meta ap), Name (ap_Meta ap)) := ap]> (cl_policies w) |}.

#[export] Instance cluster_policies : PolicyClient cluster := {|
  policy_get := cluster_policy;
  policy_patch w before after := (put_policy w after, (after, None));
  policy_update_status w ap := (put_policy w ap, Updated);
|}.

#[export] Instance cluster_frame {T} `{Stored T} : PolicyFrame cluster T.
Proof.
  split; intros w o k; cbn.
  - by destruct (memory_get (T := T) _ _).
  - intros k'. by destruct (memory_get (T := T) _ _).
  - done.
Qed.

#[export] Instance cluster_status : StatusServer cluster.
Proof.
  split; cbn.
  - intros w k ap. unfold cluster_policy. destruct (_ !! _); [|done]. case_decide; [|done]. by intros [= <-].
  - intros w k ap s Hget. eexists. split; [reflexivity|]. unfold cluster_policy in *.
    destruct (cl_policies w !! _) as [ap'|]; [|done]. case_decide as Hk; [|done]. injection Hget as ->. subst k.
    cbn. rewrite lookup_insert_eq. by rewrite decide_True.
Qed.

#[export] Instance cluster_reader : ClusterReader cluster := {|
  reader_at w := {|
    get_secret nn := match memory_get (T := Secret) (cl_objects w) nn with Found s => Ok s | _ => Err "not found" end;
    get_configmap nn := Err "not found" |};
  get_namespace w ns := Found (Some {[ "team" := "team"; "skip.kartverket.no/skip-managed" := "true" ]});
  list_pods w ns labels := Ok [];
  list_policies w := Ok ((map_to_list (cl_policies w)).*2);
  list_policies_in w ns := Ok (filter (λ ap, Namespace (ap_Meta ap) = ns) ((map_to_list (cl_policies w)).*2));
|}.

#[export] Program Instance cluster_retry : Retry cluster := {| RetryOnConflict := attempts 3 |}.
Next Obligation. by exists 3. Qed.

#[export] Instance join_aggregate : Aggregate := {| NewAggregate := concat_str |}.

(** ** Calls of the controller *)

#[local] Existing Instances example_parser example_pb example_yaml content_equal.

(** A policy with the operator's labels, the given well-known URI and a stale Ready status. *)
Definition stored_policy (uri : string) (rules : list RequestAuthRule) : AuthPolicy :=
  let ap := example_policy None 1 rules [] in
  with_status
    (with_policy_labels
       {| ap_Kind := ap_Kind ap; ap_Meta := ap_Meta ap; Status := Status ap;
          Spec := {| Enabled := true; spec_AutoLogin := None; spec_OAuthCredentials := None; WellKnownURI := uri;
                     AllowedAudiences := []; ForwardJwt := None; OutputClaimToHeaders := None; AcceptedResources := None;
                     spec_BaselineAuth := None; AuthRules := Some rules; IgnoreAuthRules := None;
                     Selector := Selector (Spec ap) |} |} (Some AuthPolicyStandardLabels))
    {| ObservedGeneration := 0; Conditions := None; status_Phase := PhaseReady; status_Message := "AuthPolicy ready.";
       Ready := true |}.

Definition cluster_state (ap : AuthPolicy) : RState cluster :=
  {| rs_world := put_policy {| cl_objects := ∅; cl_policies := ∅ |} ap; rs_calls := []; rs_gauge := [] |}.

Definition app_key : NamespacedName := {| nn_Namespace := "team"; nn_Name := "app" |}.

Definition idp_resolver (uri : string) : go DiscoveryDocument :=
  if HasPrefix uri "https://" then Ok (idp_document "https://idp.example") else Err "unsupported protocol scheme".

Definition idp_uri : string := "https://idp.example/.well-known/openid-configuration".

Lemma labels_present uri rules : AuthPolicyStandardLabels ⊆ map_or_empty (Labels (ap_Meta (stored_policy uri rules))).
Proof. done. Qed.

(** A valid policy becomes Ready, one with an invalid path becomes Invalid. *)
Lemma reconcile_status_truthful_witness :
  let run rules := Reconcile example_clock example_rand idp_resolver app_key (cluster_state (stored_policy idp_uri rules)) in
  let tells rules :=
    let '(st', res) := run rules in
    ∃ status, policy_get (rs_world st') app_key = Found (with_status (stored_policy idp_uri rules) status) ∧
              status_consistent status ∧ status_tells (stored_policy idp_uri rules) res status in
  (run [role_rule "/admin" "admin"]).2 = Ok no_result ∧ tells [role_rule "/admin" "admin"] ∧
  (run [role_rule "/a{b" "admin"]).2 = Ok no_result ∧ tells [role_rule "/a{b" "admin"].
Proof.
  cbv zeta. split_and!; try (vm_compute; reflexivity).
  - by apply (reconcile_status_truthful example_clock example_rand idp_resolver app_key _
                (stored_policy idp_uri [role_rule "/admin" "admin"]) {| url_Scheme := "https"; url_Host := "idp.example" |}).
  - by apply (reconcile_status_truthful example_clock example_rand idp_resolver app_key _
                (stored_policy idp_uri [role_rule "/a{b" "admin"]) {| url_Scheme := "https"; url_Host := "idp.example" |}).
Defined.

(** The call fails, and the stored status still says Ready. *)
Lemma unparsable_uri_hides_status_witness :
  let st := cluster_state (stored_policy "not a uri" []) in
  let '(st', res) := Reconcile example_clock example_rand idp_resolver app_key st in
  is_ok res = false ∧ policy_get (rs_world st') app_key = Found (stored_policy "not a uri" []) ∧
  status_Phase (Status (stored_policy "not a uri" [])) = PhaseReady.
Proof.
  cbv zeta.
  pose proof (unparsable_uri_hides_status example_clock example_rand idp_resolver app_key
    (cluster_state (stored_policy "not a uri" [])) (stored_policy "not a uri" []) "parse not a uri"
    eq_refl (labels_present _ _) eq_refl) as H.
  assert (is_ok (Reconcile example_clock example_rand idp_resolver app_key
            (cluster_state (stored_policy "not a uri" []))).2 = false) as Hres by (vm_compute; reflexivity).
  destruct (Reconcile _ _ _ _ _) as [st' res]. done.
Defined.

Lemma metrics_exact_witness :
  let w := rs_world (cluster_state (stored_policy idp_uri [])) in
  ∃ g l, refreshOnce w = (g, Ok ()) ∧ l ∈ g ∧ ml_owner l = "team" ∧ ∃ p, p ∈ [stored_policy idp_uri []] ∧ l ∈ series w p.
Proof.
  cbv zeta.
  destruct (metrics_exact (rs_world (cluster_state (stored_policy idp_uri []))) (stored_policy idp_uri []) []) as [H _].
  destruct (H [stored_policy idp_uri []]) as (g & Hg & Hl).
  - vm_compute. reflexivity.
  - apply List.Forall_cons; [|apply List.Forall_nil]. split_and!; vm_compute; reflexivity.
  - exists g, (info_labels (rs_world (cluster_state (stored_policy idp_uri []))) (stored_policy idp_uri [])
            {| url_Scheme := "https"; url_Host := "idp.example" |} "").
    assert (info_labels (rs_world (cluster_state (stored_policy idp_uri []))) (stored_policy idp_uri [])
            {| url_Scheme := "https"; url_Host := "idp.example" |} "" ∈
            series (rs_world (cluster_state (stored_policy idp_uri []))) (stored_policy idp_uri [])) as Hin
      by (vm_compute; left).
    split; [exact Hg|]. split; [apply Hl; eexists; split; [left|exact Hin]|]. split; [vm_compute; reflexivity|].
    eexists. split; [left|exact Hin].
Defined.

(** *** A host that is not UTF-8 *)

(** [url.Parse] decodes the escapes of a host: that of http://%ff/ is the byte 255. *)
Definition hostile_uri : string := "http://%ff/".
Definition hostile_url : URL := {| url_Scheme := "http"; url_Host := String "255" "" |}.

Definition hostile_parser : UrlParser :=
  {| url_parse uri := if String.eqb uri hostile_uri then Ok hostile_url else @url_parse example_parser uri |}.

#[local] Existing Instance hostile_parser.

