(* ===== verification/NoPanic.v ===== *)
(** * A call of Reconcile that does not panic, and one that does

    Every dereference, index and explicit [panic] on the way of a call is shown to
    be safe for an admitted policy, up to conditions on texts from outside: the port
    of the token endpoint fits an [int], the texts that go into the EnvoyFilter are
    UTF-8, and so are the labels of the metrics. *)

From S2P Require Import Prelude GoStrings GoSlices Api Objects State Examples PathValidation Kube Resolver ResolverFacts.
From S2P Require Import Generators GeneratorFacts IstioPolicy Reconciliation ReconciliationFacts Resources ResourcesFacts.
From S2P Require Import MemoryServer Status StatusFacts StatusStability Metrics Controller ControllerFacts Cluster.

(** The code outside the repository reports failures as errors. *)
Class Quiet (W : Type) `{!ClusterReader W} `{UrlParser} `{Yaml} := {
  quiet_secret (w : W) nn : is_panic (@get_secret (reader_at w) nn) = false;
  quiet_configmap (w : W) nn : is_panic (@get_configmap (reader_at w) nn) = false;
  quiet_url uri : is_panic (url_parse uri) = false;
  quiet_yaml v : is_panic (yaml_marshal v) = false;
  quiet_pods (w : W) ns labels : is_panic (list_pods w ns labels) = false;
}.

(** The names and label values of Kubernetes objects are ASCII. *)
Class Utf8Names (W : Type) `{!ClusterReader W} := {
  pod_names_utf8 (w : W) ns labels pods :
    list_pods w ns labels = Ok pods → Forall (λ pod, utf8_valid (Name pod) = true) pods;
  namespace_labels_utf8 (w : W) ns labels key :
    get_namespace w ns = Found labels → utf8_valid (map_get (map_or_empty labels) key) = true;
}.

(** ** The resolvers *)

Section resolvers.
Context {W : Type} `{!ClusterReader W} `{UrlParser} `{MapOrder} `{Yaml} `{!Quiet W}.
Implicit Types w : W.

Lemma audience_ref_quiet w ns from : is_panic (@resolveAudienceRef (reader_at w) ns from) = false.
Proof.
  unfold resolveAudienceRef, GetConfigMap, GetSecret.
  destruct (ConfigMapKeyRef from) as [ref|], (SecretKeyRef from) as [ref'|]; try done.
  - pose proof (quiet_configmap w {| nn_Namespace := ns; nn_Name := kr_Name ref |}) as Hq.
    destruct (get_configmap _); try done. cbv zeta. by destruct (String.eqb _ _).
  - pose proof (quiet_secret w {| nn_Namespace := ns; nn_Name := kr_Name ref' |}) as Hq.
    destruct (get_secret _); try done. cbv zeta. by destruct (String.eqb _ _).
Qed.

Lemma audiences_quiet w ns auds : is_panic (@ResolveAudiences (reader_at w) ns auds) = false.
Proof.
  induction auds as [|a auds IH]; cbn [ResolveAudiences]; [done|].
  destruct (aud_Value a) as [v|], (aud_ValueFrom a) as [from|]; try done.
  - destruct (String.eqb v ""); [done|]. by apply bind_no_panic.
  - apply bind_no_panic; [rewrite wrap_err_no_panic; apply audience_ref_quiet|]. intros v _. by apply bind_no_panic.
Qed.

Lemma credentials_quiet w ap : is_panic (@ResolveOAuthCredentials (reader_at w) ap) = false.
Proof.
  unfold ResolveOAuthCredentials. destruct (spec_OAuthCredentials _) as [ref|]; [|done].
  destruct (auto_login_enabled ap); [|done]. cbv zeta. apply bind_no_panic.
  - rewrite wrap_err_no_panic. apply quiet_secret.
  - intros s _. by repeat case_match.
Qed.

Lemma discovery_uris_quiet fields : is_panic (validateDiscoveryURIs fields) = false.
Proof.
  induction fields as [|[field uri] fields IH]; cbn [validateDiscoveryURIs]; [done|].
  apply bind_no_panic; [|done]. unfold validateDiscoveryURI. apply bind_no_panic.
  - rewrite wrap_err_no_panic. apply quiet_url.
  - intros u _. by destruct (ContainsAny _ _).
Qed.

Lemma discovery_quiet ap resolver :
  (∀ uri, is_panic (resolver uri) = false) → is_panic (ResolveDiscoveryDocument ap resolver) = false.
Proof.
  intros Hr. unfold ResolveDiscoveryDocument. cbv zeta. apply bind_no_panic.
  - by rewrite wrap_err_no_panic.
  - intros doc _. destruct (Issuer doc), (JwksURI_ doc), (TokenEndpoint doc); try done. destruct (_ && _); [done|].
    apply bind_no_panic; [|done]. rewrite wrap_err_no_panic. apply discovery_uris_quiet.
Qed.

Lemma resolve_quiet w ap resolver :
  (∀ uri, is_panic (resolver uri) = false) → is_panic (resolveAuthPolicy w (Some ap) resolver) = false.
Proof.
  intros Hr. unfold resolveAuthPolicy. apply bind_no_panic; [apply credentials_quiet|]. intros creds _.
  apply bind_no_panic; [by apply discovery_quiet|]. intros uris _.
  apply bind_no_panic; [by destruct (ResolveAutoLoginConfig_total ap uris) as [cfg ->]|]. intros cfg _.
  apply bind_no_panic; [rewrite wrap_err_no_panic; apply audiences_quiet|done].
Qed.

(** What a resolved scope is made of. *)
Lemma resolved_parts w ap resolver sc :
  resolveAuthPolicy w (Some ap) resolver = Ok sc →
  @ResolveOAuthCredentials (reader_at w) ap = Ok (sc_OAuthCredentials sc) ∧
  ∃ u, url_parse (TokenURI (sc_IdentityProviderUris sc)) = Ok u.
Proof.
  intros (creds & Hc & (uris & Hu & (cfg & _ & (auds & _ & <-%Ok_inj)%go_bind_ok)%go_bind_ok)%go_bind_ok)%go_bind_ok.
  split; [done|]. apply ResolveDiscoveryDocument_ok in Hu as (doc & _ & _ & _ & _ & _ & _ & _ & _ & _ & Ht & _).
  destruct Ht as [Ht _]. cbn [sc_IdentityProviderUris]. destruct (url_parse _) as [u| |]; [by exists u|done..].
Qed.
End resolvers.

(** ** Validation *)

Lemma plain_path_quiet path : is_panic (validatePlainPathLiterals path) = false.
Proof.
  unfold validatePlainPathLiterals. pose proof (plain_literals_no_panic path (toPathSegments path)) as Hp.
  destruct (plain_literals_go _ _) as [| |m]; [done..|]. by destruct (Hp m).
Qed.

Lemma template_path_quiet path : is_panic (validateTemplatePath path) = false.
Proof.
  unfold validateTemplatePath. generalize {| seenMatchOne := false; seenMatchMulti := false |}.
  induction (toPathSegments path) as [|seg segs IH]; intros st; cbn [template_go]; [done|]. cbv zeta.
  apply bind_no_panic; [|auto]. unfold validateTemplatePathSegment. by repeat case_match.
Qed.

Lemma path_quiet path : is_panic (validatePath path) = false.
Proof.
  unfold validatePath. destruct (negb _); [done|]. apply bind_no_panic.
  - unfold classifyPath. cbv zeta. by repeat case_match.
  - intros [] _; auto using plain_path_quiet, template_path_quiet.
Qed.

Lemma paths_quiet paths : is_panic (ValidatePaths paths) = false.
Proof.
  induction paths as [|p paths IH]; cbn [ValidatePaths]; [done|].
  pose proof (path_quiet p). by destruct (validatePath p).
Qed.

(** Validation succeeds or records a message, and leaves the rest of the scope. *)
Lemma validate_runs sc :
  ∃ invalid message, validateAuthPolicy sc = Ok (with_validation sc invalid message) ∧
    (invalid = true → is_Some message).
Proof.
  unfold validateAuthPolicy. pose proof (paths_quiet (GetPaths (sc_AuthPolicy sc))).
  destruct (ValidatePaths _) as [[]|e|m]; [| |done].
  - by eexists _, _.
  - eexists _, _. by split.
Qed.

(** ** The status *)

Lemma status_quiet {W} clock sc (rfs : list (ControllerResource W)) original :
  (sc_InvalidConfig sc = true → is_Some (sc_ValidationErrorMessage sc)) →
  is_ok (status_update clock sc rfs original) = true.
Proof.
  intros Hm.
  assert (DetermineReconciliationState sc rfs = StateInvalid → is_Some (sc_ValidationErrorMessage sc)) as Hs.
  { unfold DetermineReconciliationState. destruct (sc_InvalidConfig sc); [by intros _; apply Hm|].
    destruct (negb _); [done|]. by destruct (GetErrors sc). }
  unfold status_update, new_status, BuildConditions. cbv zeta. revert Hs.
  destruct (DetermineReconciliationState sc rfs); intros Hs; [|done..]. by destruct (Hs eq_refl) as [m ->].
Qed.

(** ** The whole call *)

Section call.
Context {W : Type} `{Ownership} `{!Client W Secret} `{!Client W EnvoyFilter}.
Context `{!Client W RequestAuthentication} `{!Client W AuthorizationPolicy} `{!PolicyClient W} `{!ClusterReader W}.
Context `{UrlParser} `{MapOrder} `{!StructPb} `{!StructPbLaws} `{Yaml} `{Growth} `{DeepEqual}.
Context `{!Retry W} `{Aggregate} `{!Quiet W} `{!Utf8Names W}.

(** *** The metrics *)

(** The texts of a policy that become labels. *)
Definition metric_texts_utf8 (ap : AuthPolicy) : Prop :=
  utf8_valid (Name (ap_Meta ap)) = true ∧ utf8_valid (Namespace (ap_Meta ap)) = true ∧
  ∀ url, GetParsedURL (WellKnownURI (Spec ap)) = Ok url → utf8_valid (issuer_text url) = true.

Lemma info_labels_utf8 (w : W) ap url pod :
  metric_texts_utf8 ap → GetParsedURL (WellKnownURI (Spec ap)) = Ok url → utf8_valid pod = true →
  labels_utf8 (info_labels w ap url pod) = true.
Proof.
  intros (Hn & Hns & Hi) Hurl Hpod. specialize (Hi url Hurl). unfold issuer_text in Hi.
  assert (utf8_valid match get_namespace w (Namespace (ap_Meta ap)) with
                     | Found labels => map_get (map_or_empty labels) "team" | _ => "" end = true) as Hteam.
  { destruct (get_namespace _ _) as [labels| |] eqn:Hg; [by eapply namespace_labels_utf8|done..]. }
  assert (∀ b, utf8_valid (FormatBool b) = true) as Hb by (by intros []).
  unfold labels_utf8, label_values, info_labels. cbn [forallb ml_name ml_namespace ml_state ml_owner ml_issuer ml_enabled
    ml_auto_login_enabled ml_protected_pod].
  rewrite Hn, Hns, Hteam, Hi, !Hb, Hpod. by destruct (status_Phase (Status ap)).
Qed.

Lemma metrics_quiet (w : W) ap g : metric_texts_utf8 ap → is_panic (RefreshAuthPolicyInfo w ap g).2 = false.
Proof.
  intros Hap. apply refresh_quiet; [apply quiet_url|apply quiet_pods|]. unfold series_utf8, series.
  destruct (GetParsedURL _) as [url| |] eqn:Hurl; [|done..]. destruct (GetProtectedPods w ap) as [pods| |] eqn:Hpods; [|done..].
  apply pod_names_utf8 in Hpods. destruct pods as [|p ps]; [cbn [forallb]; by rewrite info_labels_utf8|].
  revert Hpods. generalize (p :: ps). intros l. induction 1 as [|x l Hx _ IH]; [done|]. cbn [fmap list_fmap forallb].
  by rewrite info_labels_utf8.
Qed.

Lemma update_quiet ap (st : RState W) : metric_texts_utf8 ap → is_panic (UpdateStatus ap st).2 = false.
Proof.
  intros Hap. unfold UpdateStatus.
  pose proof (metrics_quiet (rs_world st) ap (DeleteAuthPolicyInfo (policy_key ap) (rs_gauge st)) Hap) as Hq.
  destruct (RefreshAuthPolicyInfo _ _ _) as [g [u|e|m]]; [|done..].
  by destruct (RetryOnConflict _ _) as [w [e|]].
Qed.

(** *** The objects *)

(** The texts of a resolved scope fit into the EnvoyFilter. *)
Definition texts_fit (sc : Scope) : Prop :=
  auto_login_enabled (sc_AuthPolicy sc) = true →
  ∀ u, url_parse (TokenURI (sc_IdentityProviderUris sc)) = Ok u → port_ok u ∧ texts_utf8 sc u.

Lemma texts_fit_validated sc invalid message : texts_fit sc → texts_fit (with_validation sc invalid message).
Proof. intros Hf Hal u Hu. destruct (Hf Hal u Hu) as [Hp []]. split; [done|]. by split. Qed.

Lemma auto_login_on sc : auto_login_off sc = false → auto_login_enabled (sc_AuthPolicy sc) = true.
Proof. unfold auto_login_off. intros [_ Hal]%orb_false_iff. by apply negb_false_iff in Hal. Qed.

(** The desired objects are computed. *)
Lemma resources_quiet rand sc :
  Spec_admissible (Spec (sc_AuthPolicy sc)) = true →
  (∃ w : W, @ResolveOAuthCredentials (reader_at w) (sc_AuthPolicy sc) = Ok (sc_OAuthCredentials sc)) →
  is_ok (url_parse (TokenURI (sc_IdentityProviderUris sc))) = true → texts_fit sc →
  (∀ n, is_panic (rand n) = false) →
  ∃ rfs, ControllerResources (W := W) rand sc = Ok rfs.
Proof.
  intros Hadm [w Hcr] Hu Hfit Hrand. unfold ControllerResources, secretResource, envoyFilterResource. cbv zeta.
  destruct (auto_login_off sc) eqn:Hoff.
  { unfold secret_GetDesired, envoy_filter_GetDesired. rewrite Hoff. by eexists. }
  pose proof (auto_login_on _ Hoff) as Hal. destruct (url_parse _) as [u| |] eqn:Hurl; [|done..].
  destruct (Hfit Hal u Hurl) as [Hport Htexts].
  destruct (@resolved_credentials (reader_at w) _ _ Hadm Hal Hcr) as (id & sec & Hid & Hsec).
  destruct (secret_total rand sc (buildObjectMeta (alc_EnvoySecretName (sc_AutoLoginConfig sc)) (policy_namespace sc))
              sec Hsec Hrand quiet_yaml) as (s & -> & _).
  destruct (envoy_filter_total sc (buildObjectMeta (EnvoyFilter_name (policy_name sc)) (policy_namespace sc))
              u id Hoff Hid Hurl Hport Htexts) as [f ->]. by eexists.
Qed.

Lemma resolved_quiet clock rand w sc original st ap resolver :
  resolveAuthPolicy w (Some ap) resolver = Ok sc → Spec_admissible (Spec ap) = true → texts_fit sc →
  metric_texts_utf8 ap → (∀ n, is_panic (rand n) = false) →
  is_panic (reconcile_resolved clock rand sc original st).2 = false.
Proof.
  intros Hres Hadm Hfit Hmet Hrand. destruct (resolved_parts _ _ _ _ Hres) as [Hcr [u Hu]].
  apply resolveAuthPolicy_ok in Hres as (Hap & Hds & _). subst ap.
  destruct (validate_runs sc) as (invalid & message & Hv & Hmsg).
  destruct (resources_quiet rand (with_validation sc invalid message)) as [rfs Hrfs]; cbn; eauto using texts_fit_validated.
  { by rewrite Hu. }
  unfold reconcile_resolved. rewrite Hv. cbn [mbind go_bind]. rewrite Hrfs. cbn [mbind go_bind].
  set (ks0 := {| ks_world := _ |}).
  destruct (doReconcile_spec rfs ks0 (ControllerResources_lawful _ _ _ Hrfs) (ControllerResources_distinct _ _ _ Hrfs) Hds)
    as (ks & outs & dss & -> & _ & Hsc).
  set (st1 := {| rs_world := ks_world ks; rs_calls := ks_calls ks; rs_gauge := rs_gauge st |}).
  assert (is_ok (status_update clock (ks_scope ks) rfs original) = true) as Hq.
  { apply status_quiet. rewrite Hsc. exact Hmsg. }
  pose proof (UpdateAuthPolicyStatus_cases clock (ks_scope ks) original rfs st1) as Hcases.
  destruct (status_update _ _ _ _) as [update| |] eqn:Hup; [|done..]. destruct Hcases as [_ Hp].
  assert (is_panic (UpdateAuthPolicyStatus clock (ks_scope ks) original rfs st1).2 = false) as Hquiet.
  { rewrite Hp. destruct update as [ap|]; [|done]. apply update_quiet.
    apply go_bind_ok in Hup as (n & _ & Hup%Ok_inj). destruct (status_equal _ _); [done|]. injection Hup as <-.
    by rewrite Hsc. }
  destruct (UpdateAuthPolicyStatus _ _ _ _ _) as [st2 [| |]]; [by destruct (omap id outs)..|done].
Qed.

(** Claim C9. No call of [Reconcile] panics, whatever the state of the cluster, if
    the policy is admitted and the texts from outside are of the kind the libraries
    accept: where auto-login is on, the port of the resolved token endpoint fits an
    [int] and the texts of the EnvoyFilter are UTF-8; and the policy's name and
    namespace and the scheme and host of its well-known URI are UTF-8, as the
    labels of the metrics must be. The resolver of discovery documents and the random
    source do not panic. Then the dereferences of the credentials and of the
    validation message, the conversion of the paths, the explicit panics of the
    generators, those of the status conditions and the one of the metrics are not
    reached. *)
Theorem reconcile_no_panic clock rand resolver req (st : RState W) :
  (∀ uri, is_panic (resolver uri) = false) → (∀ n, is_panic (rand n) = false) →
  (∀ stored, policy_get (rs_world st) req = Found stored →
     Spec_admissible (Spec stored) = true ∧ metric_texts_utf8 stored ∧
     ∀ sc, resolveAuthPolicy (patch_labels (InitializeStatus stored) (rs_world st)).1
             (Some (InitializeStatus stored)) resolver = Ok sc → texts_fit sc) →
  is_panic (Reconcile clock rand resolver req st).2 = false.
Proof.
  intros Hres Hrand Hst. unfold Reconcile. destruct (policy_get _ _) as [stored| |e]; [|done..].
  destruct (Hst stored eq_refl) as (Hadm & Hmet & Hfit). cbv zeta. destruct (has _); [done|].
  destruct (patch_labels _ _) as [w [original [e|]]]; [done|]. cbn [fst] in Hfit. cbn [rs_world].
  pose proof (resolve_quiet w (InitializeStatus stored) resolver Hres) as Hq.
  destruct (resolveAuthPolicy _ _ _) as [sc|e|m] eqn:Hsc; [| |done].
  - eapply resolved_quiet; eauto.
  - pose proof (update_quiet (failed_status (InitializeStatus stored) e)
      {| rs_world := w; rs_calls := rs_calls st; rs_gauge := rs_gauge st |} Hmet) as Hu.
    by destruct (UpdateStatus _ _) as [st1 [| |]].
Qed.
End call.

(** ** A policy with auto-login in a cluster *)

#[local] Existing Instances example_parser example_pb example_pb_laws example_yaml content_equal.

#[export] Instance quiet_cluster : Quiet cluster.
Proof.
  split; try done.
  - intros w nn. cbn. by destruct (memory_get _ _).
  - intros uri. cbv [url_parse example_parser]. by destruct (HasPrefix uri "https://").
Qed.

#[export] Instance utf8_cluster : Utf8Names cluster.
Proof.
  split.
  - intros w ns labels pods. cbn. intros [= <-]. constructor.
  - intros w ns labels key H. unfold get_namespace, cluster_reader in H. injection H as <-.
    destruct (decide (key = "team")) as [->|H1]; [by vm_compute|].
    destruct (decide (key = "skip.kartverket.no/skip-managed")) as [->|H2]; [by vm_compute|].
    assert (({[ "team" := "team"; "skip.kartverket.no/skip-managed" := "true" ]} : gmap string string) !! key = None) as Hn
      by (by rewrite lookup_insert_ne, lookup_singleton_ne by congruence).
    change (map_or_empty (Some ?m)) with m. unfold map_get. by rewrite Hn.
Qed.

Definition login_stored : AuthPolicy :=
  let ap := example_policy (Some (example_login None)) 1 [role_rule "/admin" "admin"] [] in
  with_status (with_policy_labels ap (Some AuthPolicyStandardLabels))
    {| ObservedGeneration := 0; Conditions := None; status_Phase := PhaseReady; status_Message := "AuthPolicy ready.";
       Ready := true |}.

Definition oauth_secret (id : string) : Secret :=
  {| secret_Meta := plain_meta "team" "oauth"; secret_Type := "Opaque";
     secret_Data := {[ "id" := id; "secret" := "hunter2" ]} |}.

Definition login_cluster (id : string) : RState cluster :=
  {| rs_world := put_policy {| cl_objects := memory_put ∅ (oauth_secret id); cl_policies := ∅ |} login_stored;
     rs_calls := []; rs_gauge := [] |}.

Lemma login_texts : metric_texts_utf8 login_stored.
Proof.
  split; [vm_compute; reflexivity|]. split; [vm_compute; reflexivity|]. intros url Hurl.
  vm_compute in Hurl. injection Hurl as <-. vm_compute. reflexivity.
Qed.

Lemma reconcile_no_panic_witness :
  let '(st', res) := Reconcile example_clock example_rand idp_resolver app_key (login_cluster "client") in
  is_panic res = false ∧ length (rs_calls st') = 5.
Proof.
  pose proof (reconcile_no_panic example_clock example_rand idp_resolver app_key (login_cluster "client")) as Hno.
  assert (length (rs_calls (Reconcile example_clock example_rand idp_resolver app_key (login_cluster "client")).1) = 5)
    as Hc by (vm_compute; reflexivity).
  destruct (Reconcile _ _ _ _ _) as [st' res]. split; [|exact Hc]. apply Hno.
  - intros uri. unfold idp_resolver. by destruct (HasPrefix uri "https://").
  - done.
  - intros stored [= <-]. split; [vm_compute; reflexivity|]. split.
    { exact login_texts. }
    intros sc Hsc. vm_compute in Hsc. injection Hsc as <-.
    intros _ u Hu. vm_compute in Hu. injection Hu as <-. split; [left; vm_compute; reflexivity|].
    split; vm_compute; repeat constructor.
Defined.

(** A client id that is not UTF-8 is accepted by the resolver and makes
    the whole call panic: no object is written, and the status is not either, so
    the policy stays Ready as it was. *)
Theorem invalid_client_id_panics :
  let st := login_cluster (String "255" "") in
  let '(st', res) := Reconcile example_clock example_rand idp_resolver app_key st in
  is_ok (resolveAuthPolicy (rs_world st) (Some login_stored) idp_resolver) = true ∧
  is_panic res = true ∧ rs_calls st' = [] ∧ policy_get (rs_world st') app_key = Found login_stored ∧
  status_Phase (Status login_stored) = PhaseReady.
Proof. vm_compute. split_and!; reflexivity. Qed.
