(* ===== verification/Collector.v ===== *)
(** * The metrics collector (pkg/metrics, StartAuthPolicyCollector)

    The collector is a goroutine: it waits for the cache, then for the election,
    and then clears and refills the gauge at every tick, while the controller
    removes and sets series of single policies. Operations on the gauge are atomic
    in the Prometheus client; here a refresh of one policy is one step. *)

From S2P Require Import Prelude GoStrings Api Objects State Examples Kube Generators Reconciliation.
From S2P Require Import MemoryServer Metrics Controller ControllerFacts Cluster.

(** Where the goroutine is: before the election, before [Reset], before [List],
    with policies left to refresh, waiting for the ticker, never started, or ended by
    a panic, which ends the process. *)
Inductive Collector :=
  | WaitingForSync
  | WaitingForElection
  | Clearing
  | Listing
  | Refreshing (rest : list AuthPolicy)
  | WaitingForTick
  | Failed (e : string)
  | Crashed (m : string).

Record CState (W : Type) := {
  cs_world : W;
  cs_gauge : list MetricLabels;
  cs_collector : Collector;
}.
Arguments cs_world {W}. Arguments cs_gauge {W}. Arguments cs_collector {W}.

(** What the collector waits for: [WaitForCacheSync], the channel [elected], the ticker. *)
Inductive Signal := CacheSynced (ok : bool) | ElectedSignal | Tick.

Section collector.
Context {W : Type} `{!ClusterReader W} `{UrlParser}.

(** [MustRegister]: a process starts with a registered gauge without series. *)
Definition MustRegister (w : W) : CState W := {| cs_world := w; cs_gauge := []; cs_collector := WaitingForSync |}.

(** The steps the goroutine takes by itself; it blocks in the other phases. *)
Definition collector_step (w : W) (g : list MetricLabels) (c : Collector) : option (list MetricLabels * Collector) :=
  match c with
  | Clearing => Some ([], Listing)
  | Listing =>
      match list_policies w with
      | Ok policies => Some (g, Refreshing policies)
      | Err _ => Some (g, Refreshing [])
      | Panic m => Some (g, Crashed m)
      end
  | Refreshing (ap :: rest) =>
      match RefreshAuthPolicyInfo w ap g with
      | (g, Panic m) => Some (g, Crashed m)
      | (g, _) => Some (g, Refreshing rest)
      end
  | Refreshing [] => Some (g, WaitingForTick)
  | _ => None
  end.

Definition signal (c : Collector) (s : Signal) : option Collector :=
  match c, s with
  | WaitingForSync, CacheSynced true => Some WaitingForElection
  | WaitingForSync, CacheSynced false => Some (Failed "failed to wait for cache sync")
  | WaitingForElection, ElectedSignal => Some Clearing
  | WaitingForTick, Tick => Some Clearing
  | _, _ => None
  end.

Definition crashed (c : Collector) : bool := match c with Crashed _ => true | _ => false end.

(** The collector, the controller's two operations on the gauge, and the cluster
    that changes, in any interleaving. *)
Inductive step : CState W → CState W → Prop :=
  | step_collector st g c :
      collector_step (cs_world st) (cs_gauge st) (cs_collector st) = Some (g, c) →
      step st {| cs_world := cs_world st; cs_gauge := g; cs_collector := c |}
  | step_signal st s c :
      signal (cs_collector st) s = Some c →
      step st {| cs_world := cs_world st; cs_gauge := cs_gauge st; cs_collector := c |}
  | step_delete st nn :
      crashed (cs_collector st) = false →
      step st {| cs_world := cs_world st; cs_gauge := DeleteAuthPolicyInfo nn (cs_gauge st);
                 cs_collector := cs_collector st |}
  | step_refresh st ap :
      crashed (cs_collector st) = false →
      step st {| cs_world := cs_world st; cs_gauge := (RefreshAuthPolicyInfo (cs_world st) ap (cs_gauge st)).1;
                 cs_collector := cs_collector st |}
  | step_world st w :
      step st {| cs_world := w; cs_gauge := cs_gauge st; cs_collector := cs_collector st |}.

Definition reachable (w : W) (st : CState W) : Prop := rtc step (MustRegister w) st.

(** ** A tick without interference *)

(** A step of the collector itself. *)
Definition own_step (st st' : CState W) : Prop :=
  ∃ g c, collector_step (cs_world st) (cs_gauge st) (cs_collector st) = Some (g, c) ∧
         st' = {| cs_world := cs_world st; cs_gauge := g; cs_collector := c |}.

Definition blocked (st : CState W) : Prop := collector_step (cs_world st) (cs_gauge st) (cs_collector st) = None.

(** The state when the ticker has fired. *)
Definition ticked (st : CState W) : CState W :=
  {| cs_world := cs_world st; cs_gauge := cs_gauge st; cs_collector := Clearing |}.

(** Where the collector's own steps end. *)
Definition loop_end (r : list MetricLabels * go ()) : list MetricLabels * Collector :=
  match r with (g, Panic m) => (g, Crashed m) | (g, _) => (g, WaitingForTick) end.

Definition finish (w : W) (g : list MetricLabels) (c : Collector) : list MetricLabels * Collector :=
  match c with
  | Refreshing rest => loop_end (refresh_all w rest g)
  | Listing =>
      match list_policies w with
      | Ok policies => loop_end (refresh_all w policies g)
      | Err _ => (g, WaitingForTick)
      | Panic m => (g, Crashed m)
      end
  | Clearing => loop_end (refreshOnce w)
  | c => (g, c)
  end.

Lemma finish_step w g c g' c' : collector_step w g c = Some (g', c') → finish w g' c' = finish w g c.
Proof.
  destruct c as [| | | |[|ap rest]| |e|m]; cbn; try done; [|intros Hs..].
  - intros [= <- <-]. cbn. unfold refreshOnce. by destruct (list_policies w).
  - by destruct (list_policies w); simplify_eq.
  - by simplify_eq.
  - by destruct (RefreshAuthPolicyInfo w ap g) as [g1 [| |]]; simplify_eq.
Qed.

Lemma finish_blocked w g c : collector_step w g c = None → finish w g c = (g, c).
Proof.
  destruct c as [| | | |[|ap rest]| |e|m]; cbn; try done.
  - by destruct (list_policies w).
  - by destruct (RefreshAuthPolicyInfo w ap g) as [g1 [| |]].
Qed.

(** Every run of the collector that nothing interrupts ends there. *)
Lemma own_steps_end st st' :
  rtc own_step st st' → blocked st' →
  cs_world st' = cs_world st ∧ (cs_gauge st', cs_collector st') = finish (cs_world st) (cs_gauge st) (cs_collector st).
Proof.
  induction 1 as [st|st st1 st2 (g & c & Hs & ->) _ IH]; intros Hb.
  - split; [done|]. by rewrite finish_blocked.
  - destruct (IH Hb) as [-> ->]. split; [done|]. cbn. by apply finish_step.
Qed.

Lemma refreshing_ends w rest : ∀ g,
  rtc own_step {| cs_world := w; cs_gauge := g; cs_collector := Refreshing rest |}
    {| cs_world := w; cs_gauge := (loop_end (refresh_all w rest g)).1;
       cs_collector := (loop_end (refresh_all w rest g)).2 |}.
Proof.
  induction rest as [|ap rest IH]; intros g; cbn [refresh_all].
  - eapply rtc_l; [|apply rtc_refl]. by do 2 eexists.
  - destruct (RefreshAuthPolicyInfo w ap g) as [g1 r] eqn:Hr.
    assert (collector_step w g (Refreshing (ap :: rest)) =
            Some (g1, match r with Panic m => Crashed m | _ => Refreshing rest end)) as Hs
      by (cbn; rewrite Hr; by destruct r).
    destruct r as [| |m].
    1, 2: eapply rtc_l; [|apply IH]; by do 2 eexists.
    eapply rtc_l; [|apply rtc_refl]. by do 2 eexists.
Qed.

Lemma loop_end_blocked w r : collector_step w (loop_end r).1 (loop_end r).2 = None.
Proof. by destruct r as [g [| |]]. Qed.

(** There is such a run: the collector does not go on for ever. *)
Lemma own_steps_finish st :
  cs_collector st = Clearing → ∃ st', rtc own_step st st' ∧ blocked st'.
Proof.
  destruct st as [w g c]. cbn. intros ->.
  assert (∃ st', rtc own_step {| cs_world := w; cs_gauge := []; cs_collector := Listing |} st' ∧ blocked st') as (st' & Hr & Hb).
  { destruct (list_policies w) as [ps|e|m] eqn:Hl.
    - eexists. split; [eapply rtc_l; [|apply refreshing_ends]|apply loop_end_blocked].
      exists [], (Refreshing ps). cbn. by rewrite Hl.
    - eexists. split; [eapply rtc_l; [|apply (refreshing_ends w [])]|by apply loop_end_blocked].
      exists [], (Refreshing []). cbn. by rewrite Hl.
    - exists {| cs_world := w; cs_gauge := []; cs_collector := Crashed m |}. split; [|done].
      eapply rtc_l; [|apply rtc_refl]. exists [], (Crashed m). cbn. by rewrite Hl. }
  exists st'. split; [|done]. eapply rtc_l; [|exact Hr]. by do 2 eexists.
Qed.

(** ** Invariants of every interleaving *)

(** A series that some state of the cluster exports for some policy. *)
Definition exported (l : MetricLabels) : Prop := ∃ w ap, l ∈ series w ap.

Lemma refresh_exported w ap g :
  (∀ l, l ∈ g → exported l) → ∀ l, l ∈ (RefreshAuthPolicyInfo w ap g).1 → exported l.
Proof. intros Hg l [Hl|Hl]%refresh_bounds; [by apply Hg|by exists w, ap]. Qed.

Lemma gauge_exported st st' :
  (∀ l, l ∈ cs_gauge st → exported l) → step st st' → ∀ l, l ∈ cs_gauge st' → exported l.
Proof.
  intros Hg Hs l. destruct Hs as [st g c Hc|st s c Hc|st nn _|st ap _|st w]; cbn; [|by apply Hg| | |by apply Hg].
  - destruct (cs_collector st) as [| | | |[|ap rest]| |e|m]; cbn in Hc; simplify_eq.
    + by intros ?%elem_of_nil.
    + destruct (list_policies _); simplify_eq; by apply Hg.
    + by apply Hg.
    + pose proof (refresh_exported (cs_world st) ap (cs_gauge st) Hg l) as He.
      destruct (RefreshAuthPolicyInfo _ _ _) as [g1 [| |]]; by simplify_eq.
  - unfold DeleteAuthPolicyInfo. intros [_ Hl]%list_elem_of_filter. by apply Hg.
  - by apply refresh_exported.
Qed.

Lemma reachable_exported w st : reachable w st → ∀ l, l ∈ cs_gauge st → exported l.
Proof.
  unfold reachable. remember (MustRegister w) as st0 eqn:Hst0. intros Hr.
  assert (∀ l, l ∈ cs_gauge st0 → exported l) as H0 by (subst; by intros l ?%elem_of_nil).
  clear Hst0. induction Hr as [|x y z Hxy _ IH]; [done|]. apply IH. by apply (gauge_exported x).
Qed.

(** Claim C36. Whatever the collector and the controller did before, in any
    interleaving and with a changing cluster: no series is ever set that some state of
    the cluster would not export; and when the ticker fires and nothing interrupts
    the collector until it blocks again, which it does, it leaves exactly the series
    of the policies listed. Their labels must be UTF-8, and the reads must not panic;
    see [collector_crashes]. *)
Theorem tick_restores w0 st policies :
  reachable w0 st → cs_collector st = WaitingForTick → list_policies (cs_world st) = Ok policies →
  Forall (refreshable (cs_world st)) policies →
  (∀ l, l ∈ cs_gauge st → exported l) ∧ step st (ticked st) ∧
  (∃ st', rtc own_step (ticked st) st' ∧ blocked st') ∧
  ∀ st', rtc own_step (ticked st) st' → blocked st' →
    cs_world st' = cs_world st ∧ cs_collector st' = WaitingForTick ∧
    ∀ l, l ∈ cs_gauge st' ↔ ∃ p, p ∈ policies ∧ l ∈ series (cs_world st) p.
Proof.
  intros Hr Hc Hl Hp. split; [by apply reachable_exported with w0|].
  split; [apply (step_signal _ Tick); by rewrite Hc|]. split; [by apply own_steps_finish|].
  intros st' Hs Hb. destruct (own_steps_end _ _ Hs Hb) as [Hw Hend]. split; [exact Hw|].
  destruct (metrics_listed (cs_world st) policies Hl Hp) as (g & Hg & Hex). cbn in Hend. rewrite Hg in Hend.
  injection Hend as -> ->. by split.
Qed.

(** Claim C35. One policy ends the process: when the ticker fires and a listed policy
    has a label that is not UTF-8, as a host with an escaped byte in its well-known
    URI makes it, the collector, if nothing interrupts it, ends in a panic of its
    goroutine. After that there is no operator any more: whatever happens in the
    cluster, nothing sets, deletes or collects a series. *)
Theorem collector_crashes st policies p :
  cs_collector st = WaitingForTick → list_policies (cs_world st) = Ok policies →
  p ∈ policies → series_utf8 (cs_world st) p = false →
  step st (ticked st) ∧ (∃ st', rtc own_step (ticked st) st' ∧ blocked st') ∧
  ∀ st', rtc own_step (ticked st) st' → blocked st' →
    crashed (cs_collector st') = true ∧
    ∀ st'', rtc step st' st'' → cs_collector st'' = cs_collector st' ∧ cs_gauge st'' = cs_gauge st'.
Proof.
  intros Hc Hl Hin Hs. split; [apply (step_signal _ Tick); by rewrite Hc|]. split; [by apply own_steps_finish|].
  intros st' Hown Hb. destruct (own_steps_end _ _ Hown Hb) as [Hw Hend]. cbn in Hend. unfold refreshOnce in Hend. rewrite Hl in Hend.
  pose proof (refresh_all_panics (cs_world st) policies p [] Hin Hs) as Hp.
  destruct (refresh_all _ _ _) as [g [| |m]]; try done. cbn in Hend. injection Hend as Hg Hm. split; [by rewrite Hm|].
  clear - Hm. intros st'' Hsteps.
  induction Hsteps as [x|x y z Hxy _ IH]; [done|].
  assert (cs_collector y = cs_collector x ∧ cs_gauge y = cs_gauge x) as [Hy1 Hy2].
  { destruct Hxy as [x g c Hs|x s c Hs|x nn Hs|x ap Hs|x w]; [..|done]; by rewrite Hm in Hs. }
  destruct IH as [-> ->]; [congruence|done].
Qed.
End collector.

(** ** A status update in the middle of a collection *)

#[local] Existing Instances example_parser.

Definition ready_policy : AuthPolicy := stored_policy idp_uri [].
Definition failing_policy : AuthPolicy := failed_status ready_policy "no audience".

Definition ready_world : cluster := rs_world (cluster_state ready_policy).
Definition failing_world : cluster := put_policy ready_world failing_policy.

(** One step of the collector, if it has one, or the answer to a signal. *)
Definition advance (st : CState cluster) : CState cluster :=
  match collector_step (cs_world st) (cs_gauge st) (cs_collector st) with
  | Some (g, c) => {| cs_world := cs_world st; cs_gauge := g; cs_collector := c |}
  | None => st
  end.

Definition signalled (st : CState cluster) (s : Signal) : CState cluster :=
  match signal (cs_collector st) s with
  | Some c => {| cs_world := cs_world st; cs_gauge := cs_gauge st; cs_collector := c |}
  | None => st
  end.

Lemma advance_steps st : rtc step st (advance st).
Proof.
  unfold advance. destruct (collector_step _ _ _) as [[g c]|] eqn:Hs; [|apply rtc_refl].
  apply rtc_once. by apply step_collector.
Qed.

Lemma signalled_steps st s : rtc step st (signalled st s).
Proof.
  unfold signalled. destruct (signal _ _) as [c|] eqn:Hs; [|apply rtc_refl]. apply rtc_once. by apply (step_signal _ s).
Qed.

(** The collector has listed the policy when its status changes. *)
Definition listed_state : CState cluster :=
  advance (advance (signalled (signalled (MustRegister ready_world) (CacheSynced true)) ElectedSignal)).

Definition updated_state : CState cluster :=
  {| cs_world := failing_world;
     cs_gauge := (RefreshAuthPolicyInfo failing_world failing_policy
                    (DeleteAuthPolicyInfo (policy_key failing_policy) (cs_gauge listed_state))).1;
     cs_collector := cs_collector listed_state |}.

Lemma updated_steps : rtc step listed_state updated_state.
Proof.
  assert (crashed (cs_collector listed_state) = false) as Hc by (vm_compute; reflexivity).
  unfold updated_state. generalize dependent listed_state. intros st Hc.
  eapply rtc_l; [apply (step_world st failing_world)|].
  eapply rtc_l; [apply (step_delete _ (policy_key failing_policy)); exact Hc|].
  eapply rtc_l; [apply (step_refresh _ failing_policy); exact Hc|]. apply rtc_refl.
Qed.

Lemma stale_reachable :
  ∃ st, reachable ready_world st ∧ cs_collector st = WaitingForTick ∧ list_policies (cs_world st) = Ok [failing_policy] ∧
    (λ l, (ml_name l, ml_state l)) <$> cs_gauge st = [("app", "Failed"); ("app", "Ready")].
Proof.
  exists (advance (advance updated_state)). split; [|vm_compute; auto]. unfold reachable.
  etrans; [|apply advance_steps]. etrans; [|apply advance_steps]. etrans; [|apply updated_steps].
  unfold listed_state. etrans; [|apply advance_steps]. etrans; [|apply advance_steps].
  etrans; [|apply signalled_steps]. apply signalled_steps.
Qed.

(** The collector works on the list it fetched: when a policy's status
    changes after the listing, and the status update has refreshed its series, the
    collector then sets the old series again. The gauge holds the policy twice,
    with two phases, until the next tick. *)
Theorem stale_series_until_next_tick :
  ∃ st, reachable ready_world st ∧ cs_collector st = WaitingForTick ∧ list_policies (cs_world st) = Ok [failing_policy] ∧
    (λ l, (ml_name l, ml_state l)) <$> cs_gauge st = [("app", "Failed"); ("app", "Ready")].
Proof. apply stale_reachable. Qed.

Lemma tick_restores_witness :
  ∃ st st', length (cs_gauge st) = 2 ∧ rtc own_step (ticked st) st' ∧
    ∀ l, l ∈ cs_gauge st' ↔ ∃ p, p ∈ [failing_policy] ∧ l ∈ series (cs_world st) p.
Proof.
  destruct stale_reachable as (st & Hr & Hc & Hl & Hg). exists st.
  destruct (tick_restores ready_world st [failing_policy] Hr Hc Hl) as (_ & _ & (st' & Hs & Hb) & Hex).
  { apply List.Forall_cons; [|apply List.Forall_nil]. split_and!; vm_compute; reflexivity. }
  exists st'. split; [by rewrite <-(length_fmap (λ l, (ml_name l, ml_state l))), Hg|]. split; [exact Hs|]. by apply Hex.
Defined.

(** *** The end of the process *)

#[local] Existing Instance hostile_parser.

Definition hostile_state : CState cluster :=
  {| cs_world := rs_world (cluster_state (stored_policy hostile_uri [])); cs_gauge := []; cs_collector := WaitingForTick |}.

Lemma collector_crashes_witness :
  ∃ st', rtc own_step (ticked hostile_state) st' ∧ crashed (cs_collector st') = true.
Proof.
  destruct (collector_crashes hostile_state [stored_policy hostile_uri []] (stored_policy hostile_uri []))
    as (_ & (st' & Hs & Hb) & Hend); [reflexivity|vm_compute; reflexivity|left|vm_compute; reflexivity|].
  exists st'. split; [exact Hs|]. by apply Hend.
Defined.
