(* ===== verification/Webhook.v ===== *)
(** * The admission of pods (internal/webhook/v1, pkg/validation/pod_annotation_validation.go)

    The webhook admits a pod or returns an error; a pod is its metadata. JSON is
    decoded by the standard library's [encoding/json], a class here. *)

From S2P Require Import Prelude GoStrings Api Objects State Kube Generators Reconciliation Metrics.

(** ** pod_annotation_validation.go *)

Record istioUserVolume := { vol_Name : string; vol_SecretName : option string }.

Record istioUserVolumeMount := { mount_Name : string; mount_Path : string; mount_ReadOnly : bool }.

Class Json := {
  unmarshal_volumes : string → go (list istioUserVolume);
  unmarshal_mounts : string → go (list istioUserVolumeMount);
}.

(** [config.Get().GitRef]. *)
Class Config := { GitRef : string }.

Definition IstioUserVolumeAnnotation : string := "sidecar.istio.io/userVolume".
Definition istioUserVolumeMountAnnotation : string := "sidecar.istio.io/userVolumeMount".

Section annotations.
Context `{Json} `{Config}.

Definition PodAnnotationErrorMessageSuffix : string :=
  "see https://github.com/kartverket/ztoperator/blob/" +:+ GitRef +:+
  "/README.md#-mounting-oauth-credentials-in-the-istio-sidecar on how to do it correctly".

Definition annotation_error (annotation : string) : string :=
  "the required annotation '" +:+ annotation +:+ "' is either missing or its content is not properly formatted, " +:+
  PodAnnotationErrorMessageSuffix.

Definition replace_err {A} (message : string) (m : go A) : go A :=
  match m with Err _ => Err message | m => m end.

Definition collectIstioVolumesAndMountsFromPod (podAnnotations : gmap string string)
    : go (list istioUserVolume * list istioUserVolumeMount) :=
  volumes ← replace_err (annotation_error IstioUserVolumeAnnotation)
    (unmarshal_volumes (map_get podAnnotations IstioUserVolumeAnnotation));
  mounts ← replace_err (annotation_error istioUserVolumeMountAnnotation)
    (unmarshal_mounts (map_get podAnnotations istioUserVolumeMountAnnotation));
  Ok (volumes, mounts).

Definition validateSecretVolumeMount (mounts : list istioUserVolumeMount) (userVolumes : list istioUserVolume)
    (expectedSecretName : string) : bool :=
  existsb (λ mount,
    existsb (λ volume,
      String.eqb (vol_Name volume) (mount_Name mount) &&
      bool_decide (vol_SecretName volume = Some expectedSecretName)) userVolumes) mounts.

Definition ValidatePodAnnotations (pod : ObjectMeta) (ap : AuthPolicy) : go () :=
  if negb (auto_login_enabled ap) then Ok ()
  else
    '(volumes, mounts) ← collectIstioVolumesAndMountsFromPod (map_or_empty (Annotations pod));
    let envoySecretVolumeMounts := filter (λ m, mount_Path m = IstioCredentialsDirectory) mounts in
    let envoySecretName := EnvoySecret_name (Name (ap_Meta ap)) in
    if Nat.eqb (length envoySecretVolumeMounts) 0 ||
       negb (validateSecretVolumeMount envoySecretVolumeMounts volumes envoySecretName)
    then Err ("secret with name '" +:+ envoySecretName +:+
              "' used by OAuth-EnvoyFilter is not mounted in istio-proxy, " +:+ PodAnnotationErrorMessageSuffix)
    else Ok ().
End annotations.

(** ** pod_webhook.go, authpolicy_config.go *)

Definition CreatedBySkipNamespaceLabel : string := "skip.kartverket.no/skip-managed".
Definition CreatedBySkipNamespaceLabelValue : string := "true".
Definition SkiperatorApplicationRefLabel : string := "application.skiperator.no/app-name".
Definition ZtoperatorWebhookAnnotationPrefix : string := "ztoperator.kartverket.no/".
Definition ZtoperatorVerifyAnnotationKey : string := ZtoperatorWebhookAnnotationPrefix +:+ "verify-authpolicy".
Definition ZtoperatorVerifyAnnotationValue : string := "true".

(** What is known of a pod; without a policy in the cases that fetch none. *)
Record PodAuthPolicyConfiguration := {
  cfg_AuthPolicy : option AuthPolicy;
  cfg_AppName : string;
  cfg_CreatedFromSkiperatorApplication : bool;
}.

Section webhook.
Context {W : Type} `{!ClusterReader W} `{Json} `{Config}.

Definition GetAuthPolicyForApplication (w : W) (appKey : NamespacedName) : go AuthPolicy :=
  items ← wrap_err "failed to fetch AuthPolicy resources: " (list_policies_in w (nn_Namespace appKey));
  match filter (λ ap, map_get (MatchLabels (Selector (Spec ap))) "app" = nn_Name appKey) items with
  | [] => Err "no AuthPolicy resource was found for the corresponding Application"
  | [ap] => if Ready (Status ap) then Ok ap else Err "AuthPolicy resource for Application is not ready"
  | _ => Err "multiple AuthPolicy resources found for Application"
  end.

Definition not_from_skiperator : PodAuthPolicyConfiguration :=
  {| cfg_AuthPolicy := None; cfg_AppName := ""; cfg_CreatedFromSkiperatorApplication := false |}.

Definition GetPodAuthPolicyConfiguration (k8sClient : option W) (pod : ObjectMeta) : go PodAuthPolicyConfiguration :=
  match Labels pod with
  | None => Ok not_from_skiperator
  | Some labels =>
      match labels !! SkiperatorApplicationRefLabel, k8sClient with
      | None, _ => Ok not_from_skiperator
      | Some _, None => Err "webhook client is not configured"
      | Some appName, Some w =>
          if bool_decide (map_or_empty (Annotations pod) !! ZtoperatorVerifyAnnotationKey =
                          Some ZtoperatorVerifyAnnotationValue)
          then
            ap ← GetAuthPolicyForApplication w {| nn_Namespace := Namespace pod; nn_Name := appName |};
            Ok {| cfg_AuthPolicy := Some ap; cfg_AppName := appName; cfg_CreatedFromSkiperatorApplication := true |}
          else
            Ok {| cfg_AuthPolicy := None; cfg_AppName := appName; cfg_CreatedFromSkiperatorApplication := true |}
      end
  end.

Definition IsWebhookEligible (k8sClient : option W) (pod : ObjectMeta) : go (bool * string) :=
  let name := Namespace pod +:+ "/" +:+ Name pod in
  let no reason := Ok (false, reason) in
  match Labels pod with
  | None => no ("pod " +:+ name +:+ " has no labels")
  | Some labels =>
      if negb (has (labels !! SkiperatorApplicationRefLabel))
      then no ("pod " +:+ name +:+ " is not created from a Skiperator Application")
      else
        match Annotations pod with
        | None => no ("pod " +:+ name +:+ " has no annotations")
        | Some annotations =>
            if negb (existsb (λ kv, HasPrefix kv.1 ZtoperatorWebhookAnnotationPrefix) (map_to_list annotations))
            then no ("pod " +:+ name +:+ " has no Ztoperator webhook annotations")
            else
              w ← deref k8sClient;
              match get_namespace w (Namespace pod) with
              | NotFound => no ("namespace " +:+ Namespace pod +:+ " not found")
              | GetError e => no ("failed to get namespace " +:+ Namespace pod +:+ ": " +:+ e)
              | Found None => no ("namespace " +:+ Namespace pod +:+ " has no labels")
              | Found (Some nsLabels) =>
                  match nsLabels !! CreatedBySkipNamespaceLabel with
                  | None => no ("namespace " +:+ Namespace pod +:+ " does not have the created by SKIP label")
                  | Some value =>
                      if negb (String.eqb value CreatedBySkipNamespaceLabelValue)
                      then no ("namespace " +:+ Namespace pod +:+
                               " does have the created by SKIP label, but it's value is not " +:+
                               CreatedBySkipNamespaceLabelValue)
                      else Ok (true, "")
                  end
              end
        end
  end.

(** The policy of a configuration without one is Go's zero value: auto-login is off. *)
Definition validatePod (k8sClient : option W) (pod : ObjectMeta) : go () :=
  '(eligible, _) ← IsWebhookEligible k8sClient pod;
  if negb (eligible : bool) then Ok ()
  else
    cfg ← GetPodAuthPolicyConfiguration k8sClient pod;
    if negb (cfg_CreatedFromSkiperatorApplication cfg) then Ok ()
    else
      match cfg_AuthPolicy cfg with
      | Some ap => ValidatePodAnnotations pod ap
      | None => Ok ()
      end.

Definition ValidateCreate (w : W) (pod : ObjectMeta) : go () := validatePod (Some w) pod.
Definition ValidateUpdate (w : W) (oldPod newPod : ObjectMeta) : go () := validatePod (Some w) newPod.
Definition ValidateDelete (pod : ObjectMeta) : go () := Ok ().
End webhook.
