(* ===== verification/EventHandlers.v ===== *)
(** * What a change enqueues (internal/eventhandler)

    A change of a watched object is mapped to the policies to reconcile. *)

From S2P Require Import Prelude Api Objects State Kube Reconciliation Metrics Controller.

(** The objects the handlers are asked about. *)
Inductive Watched :=
  | WatchedPod (m : ObjectMeta)
  | WatchedSecret (m : ObjectMeta)
  | WatchedConfigMap (m : ObjectMeta)
  | WatchedOther.

Definition authPolicyGroup : string := "ztoperator.kartverket.no".
Definition authPolicyVersion : string := "v1alpha1".
Definition authPolicyKind : string := "AuthPolicy".

Definition IsOwnedByAuthPolicy (m : ObjectMeta) : bool :=
  existsb (λ ref, String.eqb (ref_APIVersion ref) (authPolicyGroup +:+ "/" +:+ authPolicyVersion) &&
                  String.eqb (ref_Kind ref) authPolicyKind) (OwnerReferences m).

Section handlers.
Context {W : Type} `{!ClusterReader W}.

Definition EnqueueAuthPoliciesInNamespace (w : W) (namespace : string) : list NamespacedName :=
  match list_policies_in w namespace with
  | Ok items => policy_key <$> items
  | _ => []
  end.

Definition pod_EventHandler (w : W) (obj : Watched) : list NamespacedName :=
  match obj with
  | WatchedPod m => EnqueueAuthPoliciesInNamespace w (Namespace m)
  | _ => []
  end.

Definition secret_EventHandler (w : W) (obj : Watched) : list NamespacedName :=
  match obj with
  | WatchedSecret m => if IsOwnedByAuthPolicy m then [] else EnqueueAuthPoliciesInNamespace w (Namespace m)
  | _ => []
  end.

Definition configmap_EventHandler (w : W) (obj : Watched) : list NamespacedName :=
  match obj with
  | WatchedConfigMap m => if IsOwnedByAuthPolicy m then [] else EnqueueAuthPoliciesInNamespace w (Namespace m)
  | _ => []
  end.
End handlers.
