(* ===== verification/EventFacts.v ===== *)
(** * Changes reach the policies that depend on them

    The resolvers read only Secrets and ConfigMaps of the policy's own namespace,
    and the event handlers enqueue all policies of the changed object's. *)

From S2P Require Import Prelude GoStrings GoSlices Api Objects State Examples Kube Resolver Generators.
From S2P Require Import Reconciliation ReconciliationFacts Resources MemoryServer Metrics Controller Cluster EventHandlers.

(** The two readers answer alike about the objects of a namespace. *)
Definition agree_in (R1 R2 : Reader) (ns : string) : Prop :=
  ∀ name, let nn := {| nn_Namespace := ns; nn_Name := name |} in
          @get_secret R1 nn = @get_secret R2 nn ∧ @get_configmap R1 nn = @get_configmap R2 nn.

Lemma resolveAudienceRef_local R1 R2 ns from :
  agree_in R1 R2 ns → @resolveAudienceRef R1 ns from = @resolveAudienceRef R2 ns from.
Proof.
  intros Ha. unfold resolveAudienceRef, GetConfigMap, GetSecret.
  destruct (ConfigMapKeyRef from) as [c|], (SecretKeyRef from) as [s|]; try done.
  - by rewrite (proj2 (Ha _)).
  - by rewrite (proj1 (Ha _)).
Qed.

Lemma ResolveAudiences_local R1 R2 ns auds :
  agree_in R1 R2 ns → @ResolveAudiences R1 ns auds = @ResolveAudiences R2 ns auds.
Proof.
  intros Ha. induction auds as [|a auds IH]; [done|]. cbn [ResolveAudiences].
  destruct (aud_Value a), (aud_ValueFrom a) as [from|]; try done; rewrite ?IH; [done|].
  by rewrite (resolveAudienceRef_local R1 R2 ns from Ha).
Qed.

Lemma ResolveOAuthCredentials_local R1 R2 ap :
  agree_in R1 R2 (Namespace (ap_Meta ap)) → @ResolveOAuthCredentials R1 ap = @ResolveOAuthCredentials R2 ap.
Proof.
  intros Ha. unfold ResolveOAuthCredentials, GetSecret.
  destruct (spec_OAuthCredentials (Spec ap)) as [ref|]; [|done]. destruct (auto_login_enabled ap); [|done].
  by rewrite (proj1 (Ha _)).
Qed.

Section facts.
Context {W : Type} `{!ClusterReader W} `{UrlParser} `{MapOrder}.

Lemma resolveAuthPolicy_local w1 w2 ap resolver :
  agree_in (reader_at w1) (reader_at w2) (Namespace (ap_Meta ap)) →
  resolveAuthPolicy w1 (Some ap) resolver = resolveAuthPolicy w2 (Some ap) resolver.
Proof.
  intros Ha. unfold resolveAuthPolicy.
  rewrite (ResolveOAuthCredentials_local (reader_at w1) (reader_at w2)) by done.
  by rewrite (ResolveAudiences_local (reader_at w1) (reader_at w2)).
Qed.

(** The clusters differ at most in the Secret and the ConfigMap with the key of [m]. *)
Definition differ_at (w1 w2 : W) (m : ObjectMeta) : Prop :=
  ∀ nn, nn ≠ key_of m →
    @get_secret (reader_at w1) nn = @get_secret (reader_at w2) nn ∧
    @get_configmap (reader_at w1) nn = @get_configmap (reader_at w2) nn.

Lemma differ_elsewhere w1 w2 m ns :
  differ_at w1 w2 m → ns ≠ Namespace m → agree_in (reader_at w1) (reader_at w2) ns.
Proof. intros Hd Hns name. apply Hd. unfold key_of. congruence. Qed.

(** Claim C34. No dependent policy is forgotten: when a Secret or ConfigMap that no
    AuthPolicy owns changes, every policy whose resolution changes with it is
    enqueued by the handler (provided the listing of its namespace succeeds). *)
Theorem change_enqueues_dependents w1 w2 m ap resolver items :
  differ_at w1 w2 m → IsOwnedByAuthPolicy m = false →
  list_policies_in w2 (Namespace m) = Ok items → (Namespace (ap_Meta ap) = Namespace m → ap ∈ items) →
  resolveAuthPolicy w1 (Some ap) resolver ≠ resolveAuthPolicy w2 (Some ap) resolver →
  policy_key ap ∈ secret_EventHandler w2 (WatchedSecret m) ∧
  policy_key ap ∈ configmap_EventHandler w2 (WatchedConfigMap m).
Proof.
  intros Hd Ho Hl Hin Hne. assert (Namespace (ap_Meta ap) = Namespace m) as Hns.
  { destruct (decide (Namespace (ap_Meta ap) = Namespace m)); [done|]. exfalso. apply Hne, resolveAuthPolicy_local.
    by apply (differ_elsewhere w1 w2 m). }
  unfold secret_EventHandler, configmap_EventHandler, EnqueueAuthPoliciesInNamespace. rewrite Ho, Hl.
  split; apply list_elem_of_fmap; eauto.
Qed.
End facts.

(** *** An instance: the secret of an audience appears *)

#[local] Existing Instances example_parser.

Definition audience_policy : AuthPolicy :=
  let ap := stored_policy idp_uri [] in
  {| ap_Kind := ap_Kind ap; ap_Meta := ap_Meta ap; Status := Status ap;
     Spec := {| Enabled := true; spec_AutoLogin := None; spec_OAuthCredentials := None; WellKnownURI := idp_uri;
                AllowedAudiences := [{| aud_Value := None; aud_ValueFrom := Some {| ConfigMapKeyRef := None;
                  SecretKeyRef := Some {| kr_Name := "audience"; kr_Key := "aud" |} |} |}];
                ForwardJwt := None; OutputClaimToHeaders := None; AcceptedResources := None;
                spec_BaselineAuth := None; AuthRules := None; IgnoreAuthRules := None; Selector := Selector (Spec ap) |} |}.

Definition audience_secret : Secret :=
  {| secret_Meta := plain_meta "team" "audience"; secret_Type := "Opaque"; secret_Data := {[ "aud" := "api" ]} |}.

Definition before : cluster := rs_world (cluster_state audience_policy).
Definition after : cluster := with_objects before (memory_put ∅ audience_secret).

Lemma only_the_secret : differ_at before after (secret_Meta audience_secret).
Proof.
  intros nn Hne. split; [|done]. cbn. unfold memory_get, memory_put. rewrite lookup_empty, lookup_insert_ne; [done|].
  intros Heq. apply Hne. destruct nn as [ns n]. injection Heq as <- <-. done.
Qed.

Lemma change_enqueues_dependents_witness :
  policy_key audience_policy ∈ secret_EventHandler after (WatchedSecret (secret_Meta audience_secret)).
Proof.
  refine (proj1 (change_enqueues_dependents before after (secret_Meta audience_secret) audience_policy idp_resolver
                   [audience_policy] _ _ _ _ _)).
  - apply only_the_secret.
  - vm_compute. reflexivity.
  - vm_compute. reflexivity.
  - intros _. left.
  - vm_compute. discriminate.
Defined.
