(* ===== verification/Manager.v ===== *)
(** * Which events lead to a call of Reconcile (SetupWithManager)

    [SetupWithManager] tells controller-runtime what to watch. The registration is
    data here; what controller-runtime makes of it is the class [Runtime]. *)

From S2P Require Import Prelude GoStrings Api Objects State Examples Kube Resolver.
From S2P Require Import Reconciliation ReconciliationFacts MemoryServer Metrics Controller ControllerFacts Cluster.
From S2P Require Import EventHandlers EventFacts.

Inductive Kind :=
  | KAuthPolicy | KRequestAuthentication | KAuthorizationPolicy | KEnvoyFilter | KSecret | KPod | KConfigMap.

#[global] Instance Kind_eq_dec : EqDecision Kind.
Proof. solve_decision. Defined.

(** An event: a creation has no old object, a deletion no new one. *)
Record Event := {
  ev_kind : Kind;
  ev_old : option ObjectMeta;
  ev_new : option ObjectMeta;
}.

Definition watched (k : Kind) (m : ObjectMeta) : Watched :=
  match k with
  | KPod => WatchedPod m
  | KSecret => WatchedSecret m
  | KConfigMap => WatchedConfigMap m
  | _ => WatchedOther
  end.

Inductive Predicate := GenerationChangedPredicate.

(** What the builder is told. *)
Inductive Source (W : Type) :=
  | For (k : Kind) (predicates : list Predicate)
  | Owns (k : Kind)
  | Watches (k : Kind) (handler : W → Watched → list NamespacedName).
Arguments For {W}. Arguments Owns {W}. Arguments Watches {W}.

Definition SetupWithManager {W} `{!ClusterReader W} : list (Source W) :=
  [For KAuthPolicy [GenerationChangedPredicate];
   Owns KRequestAuthentication; Owns KAuthorizationPolicy; Owns KEnvoyFilter; Owns KSecret;
   Watches KPod pod_EventHandler; Watches KSecret secret_EventHandler; Watches KConfigMap configmap_EventHandler].

(** ** controller-runtime *)

(** One of the objects of the event. *)
Definition concerns (e : Event) (m : ObjectMeta) : Prop := ev_old e = Some m ∨ ev_new e = Some m.

(** An update that leaves the generation as it was. *)
Definition same_generation (e : Event) : Prop :=
  match ev_old e, ev_new e with Some o, Some n => Generation o = Generation n | _, _ => False end.

(** The reference that [SetControllerReference] adds for a policy. *)
Definition policy_reference (ap : AuthPolicy) : OwnerReference :=
  {| ref_APIVersion := authPolicyGroup +:+ "/" +:+ authPolicyVersion; ref_Kind := authPolicyKind;
     ref_Name := Name (ap_Meta ap); ref_UID := UID (ap_Meta ap); ref_Controller := Some true |}.

Class Runtime (W : Type) := {
  dispatch : Source W → W → Event → list NamespacedName;
  (** the object itself, unless a predicate filters the event out *)
  dispatch_for k ps w e nn :
    nn ∈ dispatch (For k ps) w e ↔
    ev_kind e = k ∧ (GenerationChangedPredicate ∈ ps → ¬ same_generation e) ∧ ∃ m, concerns e m ∧ nn = key_of m;
  (** the controller of an object, if it is an AuthPolicy *)
  dispatch_owns k w e m ap :
    ev_kind e = k → concerns e m → controller_of m = Some (policy_reference ap) →
    {| nn_Namespace := Namespace m; nn_Name := Name (ap_Meta ap) |} ∈ dispatch (Owns k) w e;
  dispatch_owns_only k w e nn :
    nn ∈ dispatch (Owns k) w e →
    ev_kind e = k ∧ ∃ m r, concerns e m ∧ controller_of m = Some r ∧ ref_Kind r = authPolicyKind ∧ nn = {| nn_Namespace := Namespace m; nn_Name := ref_Name r |};
  dispatch_watches k handler w e nn :
    nn ∈ dispatch (Watches k handler) w e ↔
    ev_kind e = k ∧ ∃ m, concerns e m ∧ nn ∈ handler w (watched k m);
}.

Section manager.
Context {W : Type} `{!ClusterReader W} `{!Runtime W}.

(** The requests an event leads to. *)
Definition requests (w : W) (e : Event) : list NamespacedName :=
  SetupWithManager ≫= λ s, dispatch s w e.

Lemma requests_from s w e nn : s ∈ SetupWithManager → nn ∈ dispatch s w e → nn ∈ requests w e.
Proof. intros Hs Hn. apply list_elem_of_bind. eauto. Qed.

(** The kinds of the objects a policy controls. *)
Definition owned_kind (k : Kind) : bool :=
  match k with KRequestAuthentication | KAuthorizationPolicy | KEnvoyFilter | KSecret => true | _ => false end.

Lemma owned_registered k : owned_kind k = true → Owns k ∈ SetupWithManager.
Proof. unfold SetupWithManager. destruct k; intros Hk; try discriminate; set_solver. Qed.

(** Claim C18. What makes the controller look at a policy again: the policy's own
    creation, its deletion, and those of its updates that change the generation (no
    others: [own_writes_do_not_requeue]); any event of an object with the controller
    reference to the policy, of the four kinds it owns; and any event of a pod, or
    of a Secret or ConfigMap that no AuthPolicy owns, in its namespace, where the
    policies of the namespace can be listed and the policy is among them. *)
Theorem relevant_events_enqueue w e ap m :
  concerns e m →
  (ev_kind e = KAuthPolicy → key_of m = policy_key ap → ¬ same_generation e → policy_key ap ∈ requests w e) ∧
  (owned_kind (ev_kind e) = true → controller_of m = Some (policy_reference ap) → Namespace m = Namespace (ap_Meta ap) →
   policy_key ap ∈ requests w e) ∧
  (∀ items, list_policies_in w (Namespace m) = Ok items → ap ∈ items →
   ev_kind e = KPod ∨ (ev_kind e = KSecret ∨ ev_kind e = KConfigMap) ∧ IsOwnedByAuthPolicy m = false →
   policy_key ap ∈ requests w e).
Proof.
  intros Hm. split_and!.
  - intros Hk Hkey Hg. apply (requests_from (For KAuthPolicy [GenerationChangedPredicate])); [left|].
    apply dispatch_for. split_and!; [done|done|]. by exists m.
  - intros Hk Href Hns. apply (requests_from (Owns (ev_kind e))); [by apply owned_registered|].
    unfold policy_key. rewrite <-Hns. by apply dispatch_owns.
  - intros items Hl Hin Hcase.
    assert (policy_key ap ∈ EnqueueAuthPoliciesInNamespace w (Namespace m)) as Hq.
    { unfold EnqueueAuthPoliciesInNamespace. rewrite Hl. apply list_elem_of_fmap. eauto. }
    destruct Hcase as [Hk|[[Hk|Hk] Ho]].
    + apply (requests_from (Watches KPod pod_EventHandler)); [unfold SetupWithManager; set_solver|].
      apply dispatch_watches. split; [done|]. by exists m.
    + apply (requests_from (Watches KSecret secret_EventHandler)); [unfold SetupWithManager; set_solver|].
      apply dispatch_watches. split; [done|]. exists m. cbn. by rewrite Ho.
    + apply (requests_from (Watches KConfigMap configmap_EventHandler)); [unfold SetupWithManager; set_solver|].
      apply dispatch_watches. split; [done|]. exists m. cbn. by rewrite Ho.
Qed.

(** Where a request comes from. *)
Lemma requests_cases w e nn :
  nn ∈ requests w e →
  (ev_kind e = KAuthPolicy ∧ ¬ same_generation e) ∨
  (owned_kind (ev_kind e) = true ∧ ∃ m r, concerns e m ∧ controller_of m = Some r ∧ ref_Kind r = authPolicyKind ∧ nn = {| nn_Namespace := Namespace m; nn_Name := ref_Name r |}) ∨
  ∃ m, concerns e m ∧ nn ∈ EnqueueAuthPoliciesInNamespace w (Namespace m) ∧
    (ev_kind e = KPod ∨ (ev_kind e = KSecret ∨ ev_kind e = KConfigMap) ∧ IsOwnedByAuthPolicy m = false).
Proof.
  intros (s & Hin & Hs)%list_elem_of_bind. unfold SetupWithManager in Hs.
  repeat (apply elem_of_cons in Hs as [->|Hs]); [..|by apply not_elem_of_nil in Hs];
    try (apply dispatch_owns_only in Hin as [Hk Hin]; right; left; split; [by rewrite Hk|exact Hin]).
  - apply dispatch_for in Hin as (Hk & Hp & _). left. split; [done|]. by apply Hp; left.
  - apply dispatch_watches in Hin as (Hk & m & Hm & Hin). right; right. exists m. auto 10.
  - apply dispatch_watches in Hin as (Hk & m & Hm & Hin). right; right. exists m. cbn in Hin.
    destruct (IsOwnedByAuthPolicy m); [by apply not_elem_of_nil in Hin|auto 10].
  - apply dispatch_watches in Hin as (Hk & m & Hm & Hin). right; right. exists m. cbn in Hin.
    destruct (IsOwnedByAuthPolicy m); [by apply not_elem_of_nil in Hin|auto 10].
Qed.

(** The update event of a policy. *)
Definition policy_updated (before after : AuthPolicy) : Event :=
  {| ev_kind := KAuthPolicy; ev_old := Some (ap_Meta before); ev_new := Some (ap_Meta after) |}.

(** Claim C19. The controller does not keep itself busy: the two writes of a call of
    [Reconcile] to the policy, the label patch and the status update, lead to no
    request, and an event of an object that an AuthPolicy owns leads to requests
    for the object's controller only. *)
Theorem own_writes_do_not_requeue w ap latest st e nn :
  requests w (policy_updated ap (labelled ap)) = [] ∧
  requests w (policy_updated latest (with_status latest st)) = [] ∧
  (owned_kind (ev_kind e) = true → (∀ m, concerns e m → IsOwnedByAuthPolicy m = true) → nn ∈ requests w e →
   ∃ m r, concerns e m ∧ controller_of m = Some r ∧ ref_Kind r = authPolicyKind ∧
     nn = {| nn_Namespace := Namespace m; nn_Name := ref_Name r |}).
Proof.
  assert (∀ b a, Generation (ap_Meta b) = Generation (ap_Meta a) → requests w (policy_updated b a) = []) as Hsame.
  { intros b a Hg. apply elem_of_nil_inv. intros n [[_ Hn]|[[Hk _]|(m & _ & _ & [Hk|[[Hk|Hk] _]])]]%requests_cases;
      by try discriminate Hk. }
  split; [by apply Hsame|]. split; [by apply Hsame|].
  intros Hk Ho [[Hk' _]|[[_ Hr]|(m & Hm & _ & [Hk'|[_ Hf]])]]%requests_cases; [by rewrite Hk' in Hk|done|by rewrite Hk' in Hk|].
  by rewrite (Ho m Hm) in Hf.
Qed.
End manager.

(** ** An instance *)

Definition event_metas (e : Event) : list ObjectMeta := omap id [ev_old e; ev_new e].

Lemma event_metas_concerns e m : m ∈ event_metas e ↔ concerns e m.
Proof. unfold event_metas, concerns. destruct e as [k [o|] [n|]]; cbn; set_solver. Qed.

#[global] Instance same_generation_dec e : Decision (same_generation e).
Proof. unfold same_generation. destruct (ev_old e), (ev_new e); apply _. Defined.

#[global] Instance OwnerReference_eq_dec : EqDecision OwnerReference.
Proof. solve_decision. Defined.

#[global] Instance Predicate_eq_dec : EqDecision Predicate.
Proof. solve_decision. Defined.

Definition references (m : ObjectMeta) : list NamespacedName :=
  match controller_of m with
  | Some r => if decide (ref_Kind r = authPolicyKind)
              then [{| nn_Namespace := Namespace m; nn_Name := ref_Name r |}] else []
  | None => []
  end.

Definition example_dispatch {W} (s : Source W) (w : W) (e : Event) : list NamespacedName :=
  match s with
  | For k ps =>
      if decide (ev_kind e = k ∧ ¬ (GenerationChangedPredicate ∈ ps ∧ same_generation e))
      then key_of <$> event_metas e else []
  | Owns k => if decide (ev_kind e = k) then event_metas e ≫= references else []
  | Watches k handler => if decide (ev_kind e = k) then event_metas e ≫= λ m, handler w (watched k m) else []
  end.

#[export] Program Instance example_runtime {W} : Runtime W := {| dispatch := example_dispatch |}.
Next Obligation.
  intros W k ps w e nn. cbn. case_decide as Hd.
  - rewrite list_elem_of_fmap. setoid_rewrite event_metas_concerns. naive_solver.
  - split; [by intros ?%elem_of_nil|]. intros (Hk & Hp & _). exfalso. apply Hd. naive_solver.
Qed.
Next Obligation.
  intros W k w e m ap Hk Hm Hr. cbn. rewrite decide_True by done. apply list_elem_of_bind. exists m.
  split; [|by apply event_metas_concerns]. unfold references. rewrite Hr. by left.
Qed.
Next Obligation.
  intros W k w e nn. cbn. case_decide; [|by intros ?%elem_of_nil].
  intros (m & Hin & Hm%event_metas_concerns)%list_elem_of_bind. unfold references in Hin.
  destruct (controller_of m) as [r|] eqn:Hr; [|by apply not_elem_of_nil in Hin].
  case_decide as Hk; [|by apply not_elem_of_nil in Hin]. apply list_elem_of_singleton in Hin as ->.
  split; [done|]. by exists m, r.
Qed.
Next Obligation.
  intros W k handler w e nn. cbn. case_decide.
  - rewrite list_elem_of_bind. setoid_rewrite event_metas_concerns. naive_solver.
  - split; [by intros ?%elem_of_nil|]. tauto.
Qed.

(** The deny policy that a policy created is deleted by hand. *)
Lemma relevant_events_enqueue_witness :
  let ap := stored_policy idp_uri [] in
  let m := azp_Meta (deny_all DENY [policy_reference ap]) in
  policy_key ap ∈ requests (rs_world (cluster_state ap)) {| ev_kind := KAuthorizationPolicy; ev_old := Some m; ev_new := None |}.
Proof.
  cbv zeta.
  refine (proj1 (proj2 (relevant_events_enqueue _ _ _ (azp_Meta (deny_all DENY [policy_reference (stored_policy idp_uri [])])) _)) _ _ _).
  - by left.
  - reflexivity.
  - reflexivity.
  - reflexivity.
Defined.

Lemma own_writes_do_not_requeue_witness :
  let ap := stored_policy idp_uri [] in
  requests (rs_world (cluster_state ap)) (policy_updated ap (failed_status ap "x")) = [] ∧
  ∃ m r, ev_new {| ev_kind := KSecret; ev_old := None; ev_new := Some m |} = Some m ∧ controller_of m = Some r ∧ ref_Name r = "app".
Proof.
  cbv zeta. set (ap := stored_policy idp_uri []).
  set (m := azp_Meta (deny_all DENY [policy_reference ap])).
  set (e := {| ev_kind := KSecret; ev_old := None; ev_new := Some m |}).
  destruct (own_writes_do_not_requeue (rs_world (cluster_state ap)) ap ap (Status (failed_status ap "x")) e (policy_key ap))
    as (_ & Hs & Ho). split; [exact Hs|].
  destruct Ho as (m' & r & Hm & Hr & _ & Hnn); [reflexivity|by intros m' [[=]|[= <-]]|vm_compute; left|].
  exists m', r. destruct Hm as [[=]|[= ->]]. split; [done|]. split; [done|]. by injection Hnn.
Defined.
