(* ===== verification/WebhookFacts.v ===== *)
(** * Which pods are admitted

    The webhook's decision as one condition, and its agreement with what the
    operator generates for the pod's policy. *)

From S2P Require Import Prelude GoStrings GoSlices Api Objects State Examples Kube Resolver LuaScript Generators.
From S2P Require Import GeneratorFacts Reconciliation ReconciliationFacts Resources MemoryServer Metrics Controller Cluster Webhook.

Section facts.
Context {W : Type} `{!ClusterReader W} `{Json} `{Config}.

(** A Skiperator pod with one of the operator's annotations, in a namespace that
    is read and carries the SKIP label. *)
Definition eligible (w : W) (pod : ObjectMeta) : Prop :=
  is_Some (map_or_empty (Labels pod) !! SkiperatorApplicationRefLabel) ∧
  (∃ k v, map_or_empty (Annotations pod) !! k = Some v ∧ HasPrefix k ZtoperatorWebhookAnnotationPrefix = true) ∧
  ∃ labels, get_namespace w (Namespace pod) = Found (Some labels) ∧
            labels !! CreatedBySkipNamespaceLabel = Some CreatedBySkipNamespaceLabelValue.

Definition asks_verification (pod : ObjectMeta) : Prop :=
  map_or_empty (Annotations pod) !! ZtoperatorVerifyAnnotationKey = Some ZtoperatorVerifyAnnotationValue.

(** A volume of the given Secret is mounted where the OAuth2 filter reads. *)
Definition mounts_secret (pod : ObjectMeta) (secretName : string) : Prop :=
  ∃ volumes mounts volume mount,
    unmarshal_volumes (map_get (map_or_empty (Annotations pod)) IstioUserVolumeAnnotation) = Ok volumes ∧
    unmarshal_mounts (map_get (map_or_empty (Annotations pod)) istioUserVolumeMountAnnotation) = Ok mounts ∧
    volume ∈ volumes ∧ mount ∈ mounts ∧ mount_Path mount = IstioCredentialsDirectory ∧
    vol_Name volume = mount_Name mount ∧ vol_SecretName volume = Some secretName.

Lemma IsWebhookEligible_total w pod : ∃ b reason, IsWebhookEligible (Some w) pod = Ok (b, reason).
Proof.
  unfold IsWebhookEligible. cbn [deref mbind go_bind].
  repeat case_match; eauto.
Qed.

Lemma IsWebhookEligible_true w pod reason : IsWebhookEligible (Some w) pod = Ok (true, reason) → eligible w pod.
Proof.
  unfold IsWebhookEligible, eligible. cbn [deref mbind go_bind].
  destruct (Labels pod) as [labels|]; [|discriminate].
  change (map_or_empty (Some labels)) with labels.
  destruct (labels !! SkiperatorApplicationRefLabel) as [app|]; [|discriminate]. cbn [has negb].
  destruct (Annotations pod) as [annotations|]; [|discriminate].
  change (map_or_empty (Some annotations)) with annotations.
  destruct (existsb _ _) eqn:Hex; [|discriminate]. cbn [negb].
  destruct (get_namespace w (Namespace pod)) as [[ns|]| |e]; try discriminate.
  destruct (ns !! CreatedBySkipNamespaceLabel) as [v|] eqn:Hv; [|discriminate].
  destruct (String.eqb_spec v CreatedBySkipNamespaceLabelValue) as [->|]; [|discriminate]. intros _.
  split; [by exists app|]. split; [|by exists ns].
  apply existsb_exists in Hex as ([k v'] & Hin%list_elem_of_In & Hp). apply elem_of_map_to_list in Hin. eauto.
Qed.

Lemma IsWebhookEligible_false w pod reason : IsWebhookEligible (Some w) pod = Ok (false, reason) → ¬ eligible w pod.
Proof.
  unfold IsWebhookEligible, eligible. cbn [deref mbind go_bind]. intros Hf ([app Happ] & (k & v & Hk & Hp) & ns & Hns & Hl).
  destruct (Labels pod) as [labels|]; [|discriminate Happ].
  change (map_or_empty (Some labels)) with labels in Happ. rewrite Happ in Hf. cbn [has negb] in Hf.
  destruct (Annotations pod) as [annotations|]; [|discriminate Hk].
  change (map_or_empty (Some annotations)) with annotations in Hk.
  assert (existsb (λ kv, HasPrefix kv.1 ZtoperatorWebhookAnnotationPrefix) (map_to_list annotations) = true) as Hex.
  { apply existsb_exists. exists (k, v). split; [|done]. by apply list_elem_of_In, elem_of_map_to_list. }
  rewrite Hex, Hns, Hl, String.eqb_refl in Hf. discriminate Hf.
Qed.

Lemma validateSecretVolumeMount_true mounts volumes name :
  validateSecretVolumeMount mounts volumes name = true ↔
  ∃ mount volume, mount ∈ mounts ∧ volume ∈ volumes ∧ vol_Name volume = mount_Name mount ∧
                  vol_SecretName volume = Some name.
Proof.
  unfold validateSecretVolumeMount. rewrite existsb_exists. setoid_rewrite existsb_exists.
  setoid_rewrite andb_true_iff. setoid_rewrite String.eqb_eq. setoid_rewrite bool_decide_eq_true.
  setoid_rewrite <-list_elem_of_In. naive_solver.
Qed.

Lemma replace_err_ok {A} msg (m : go A) a : replace_err msg m = Ok a ↔ m = Ok a.
Proof. by destruct m. Qed.

Lemma ValidatePodAnnotations_ok pod ap :
  ValidatePodAnnotations pod ap = Ok () ↔
  (auto_login_enabled ap = true → mounts_secret pod (EnvoySecret_name (Name (ap_Meta ap)))).
Proof.
  unfold ValidatePodAnnotations, mounts_secret. destruct (auto_login_enabled ap); cbn [negb]; [|done].
  unfold collectIstioVolumesAndMountsFromPod. set (name := EnvoySecret_name _). split.
  - intros ([volumes mounts] & Hc & Hv)%go_bind_ok _.
    apply go_bind_ok in Hc as (vs & Hvs%replace_err_ok & (ms & Hms%replace_err_ok & [= -> ->]%Ok_inj)%go_bind_ok).
    destruct (_ || _) eqn:E in Hv; [discriminate Hv|]. apply orb_false_iff in E as [_ E].
    apply negb_false_iff, validateSecretVolumeMount_true in E
      as (mount & volume & [Hp Hm]%list_elem_of_filter & Hvol & Hn & Hs).
    exists volumes, mounts, volume, mount. done.
  - intros Hm. destruct (Hm eq_refl) as (volumes & mounts & volume & mount & Hvs & Hms & Hvol & Hmount & Hp & Hn & Hs).
    rewrite Hvs, Hms. cbn [replace_err mbind go_bind].
    assert (mount ∈ filter (λ m, mount_Path m = IstioCredentialsDirectory) mounts) as Hin
      by (by apply list_elem_of_filter).
    assert (validateSecretVolumeMount (filter (λ m, mount_Path m = IstioCredentialsDirectory) mounts) volumes name = true)
      as -> by (apply validateSecretVolumeMount_true; eauto 10).
    destruct (filter _ mounts) as [|m0 ms] eqn:E; [by apply not_elem_of_nil in Hin|]. done.
Qed.

Lemma GetAuthPolicyForApplication_ok w key ap :
  GetAuthPolicyForApplication w key = Ok ap ↔
  ∃ items, list_policies_in w (nn_Namespace key) = Ok items ∧
    filter (λ ap, map_get (MatchLabels (Selector (Spec ap))) "app" = nn_Name key) items = [ap] ∧
    Ready (Status ap) = true.
Proof.
  unfold GetAuthPolicyForApplication. rewrite go_bind_ok. setoid_rewrite wrap_err_ok.
  split.
  - intros (items & Hl & Hm). exists items. split; [done|].
    destruct (filter _ _) as [|ap' [|]]; try discriminate Hm.
    destruct (Ready (Status ap')) eqn:Hr; [|discriminate Hm]. apply Ok_inj in Hm as ->. done.
  - intros (items & Hl & Hf & Hr). exists items. split; [done|]. by rewrite Hf, Hr.
Qed.

(** ** Properties *)

(** The one ready policy of the pod's application. *)
Definition policy_of (w : W) (pod : ObjectMeta) (ap : AuthPolicy) : Prop :=
  ∃ app items, map_or_empty (Labels pod) !! SkiperatorApplicationRefLabel = Some app ∧
    list_policies_in w (Namespace pod) = Ok items ∧
    filter (λ ap, map_get (MatchLabels (Selector (Spec ap))) "app" = app) items = [ap] ∧ Ready (Status ap) = true.

Lemma ValidateCreate_ok w pod :
  ValidateCreate w pod = Ok () ↔
  (eligible w pod → asks_verification pod →
   ∃ ap, policy_of w pod ap ∧
         (auto_login_enabled ap = true → mounts_secret pod (EnvoySecret_name (Name (ap_Meta ap))))).
Proof.
  unfold ValidateCreate, validatePod. destruct (IsWebhookEligible_total w pod) as (b & reason & Hel).
  rewrite Hel. cbn [mbind go_bind]. destruct b; cbn [negb]; [|by apply IsWebhookEligible_false in Hel].
  apply IsWebhookEligible_true in Hel. unfold GetPodAuthPolicyConfiguration, policy_of, asks_verification.
  pose proof Hel as ([app Happ] & _). destruct (Labels pod) as [labels|]; [|discriminate Happ].
  change (map_or_empty (Some labels)) with labels in Happ |- *. rewrite Happ.
  case_bool_decide as Hask; [|by cbn; split].
  rewrite go_bind_ok. setoid_rewrite go_bind_ok. split.
  - intros (cfg & (ap & (items & Hl & Hf & Hr)%GetAuthPolicyForApplication_ok & <-%Ok_inj) & Hv) _ _.
    exists ap. split; [by exists app, items|]. by apply ValidatePodAnnotations_ok.
  - intros Hadm. destruct (Hadm Hel Hask) as (ap & (app' & items & [= <-] & Hl & Hf & Hr) & Hm).
    exists {| cfg_AuthPolicy := Some ap; cfg_AppName := app; cfg_CreatedFromSkiperatorApplication := true |}.
    split; [|by apply ValidatePodAnnotations_ok]. exists ap. split; [|reflexivity]. apply GetAuthPolicyForApplication_ok. by exists items.
Qed.

(** Claim C32. A pod is admitted exactly when it is not eligible (which includes a
    namespace that cannot be read), does not ask for verification, or its
    application has exactly one policy, which is ready and whose secret, if
    auto-login is on, the pod mounts where the filter reads. *)
Theorem pod_admitted_iff w oldPod pod :
  (ValidateCreate w pod = Ok () ↔
   (eligible w pod → asks_verification pod →
    ∃ ap, policy_of w pod ap ∧
          (auto_login_enabled ap = true → mounts_secret pod (EnvoySecret_name (Name (ap_Meta ap)))))) ∧
  ValidateUpdate w oldPod pod = ValidateCreate w pod ∧ ValidateDelete pod = Ok ().
Proof. split; [apply ValidateCreate_ok|done]. Qed.

Lemma ResolveAutoLoginConfig_secret ap uris cfg :
  ResolveAutoLoginConfig ap uris = Ok cfg → alc_EnvoySecretName cfg = EnvoySecret_name (Name (ap_Meta ap)).
Proof.
  unfold ResolveAutoLoginConfig. destruct (spec_AutoLogin (Spec ap)) as [al|]; [|by intros <-%Ok_inj].
  destruct (al_Enabled al); cbn [negb]; [|by intros <-%Ok_inj]. by intros (script & _ & <-%Ok_inj)%go_bind_ok.
Qed.

(** Claim C33. What the webhook asks of a pod is what the operator generates: an
    admitted pod that asked for verification under a policy with auto-login mounts
    the Secret the controller reconciles for that policy, in the directory from
    which the OAuth2 filter reads both its secrets. *)
Theorem admitted_pod_mounts_generated `{!Ownership} `{!Client W Secret} `{!Yaml} w pod :
  ValidateCreate w pod = Ok () → eligible w pod → asks_verification pod →
  ∃ ap, policy_of w pod ap ∧
    ∀ uris cfg rand sc rf, auto_login_enabled ap = true → ResolveAutoLoginConfig ap uris = Ok cfg →
      sc_AutoLoginConfig sc = cfg → secretResource (W := W) rand sc = Ok rf →
      mounts_secret pod (cr_Name rf) ∧
      IstioTokenSecretSource = IstioCredentialsDirectory +:+ "/" +:+ TokenSecretFileName ∧
      IstioHmacSecretSource = IstioCredentialsDirectory +:+ "/" +:+ HmacSecretFileName.
Proof.
  intros Hv He Ha. rewrite ValidateCreate_ok in Hv. destruct (Hv He Ha) as (ap & Hp & Hm). exists ap. split; [done|].
  intros uris cfg rand sc rf Hal Hcfg Hsc (d & _ & <-%Ok_inj)%go_bind_ok. cbn [cr_Name adapter].
  rewrite Hsc, (ResolveAutoLoginConfig_secret _ _ _ Hcfg). split; [by apply Hm|done].
Qed.
End facts.

(** *** A pod of the example policy *)

#[local] Existing Instances example_yaml.

Definition example_json : Json := {|
  unmarshal_volumes s :=
    if String.eqb s "" then Err "unexpected end of JSON input"
    else Ok [{| vol_Name := "creds"; vol_SecretName := Some s |}];
  unmarshal_mounts s :=
    if String.eqb s "" then Err "unexpected end of JSON input"
    else Ok [{| mount_Name := "creds"; mount_Path := s; mount_ReadOnly := true |}];
|}.

Definition main_config : Config := {| GitRef := "main" |}.

#[local] Existing Instances example_json main_config.

Definition ready_login_policy : AuthPolicy :=
  with_status login_policy
    {| ObservedGeneration := 1; Conditions := None; status_Phase := PhaseReady; status_Message := "AuthPolicy ready.";
       Ready := true |}.

Definition example_pod (secret : string) : ObjectMeta :=
  {| Name := "app-0"; Namespace := "team"; UID := "uid-2"; Generation := 1;
     Labels := Some {[ SkiperatorApplicationRefLabel := "app" ]};
     Annotations := Some {[ ZtoperatorVerifyAnnotationKey := "true"; IstioUserVolumeAnnotation := secret;
                            istioUserVolumeMountAnnotation := IstioCredentialsDirectory ]};
     OwnerReferences := []; DeletionTimestamp := None |}.

Definition pod_cluster : cluster := rs_world (cluster_state ready_login_policy).

Lemma example_pod_eligible secret : eligible pod_cluster (example_pod secret).
Proof.
  split; [by eexists|]. split.
  - exists ZtoperatorVerifyAnnotationKey, "true". done.
  - eexists. by split.
Qed.

Lemma pod_admitted_iff_witness :
  ValidateCreate pod_cluster (example_pod "app-envoy-secret") = Ok () ∧
  is_ok (ValidateCreate pod_cluster (example_pod "other-secret")) = false ∧
  ∃ ap, policy_of pod_cluster (example_pod "app-envoy-secret") ap.
Proof.
  assert (ValidateCreate pod_cluster (example_pod "app-envoy-secret") = Ok ()) as H by (vm_compute; reflexivity).
  split; [done|]. split; [vm_compute; reflexivity|].
  destruct (proj1 (proj1 (pod_admitted_iff pod_cluster (example_pod "") (example_pod "app-envoy-secret"))) H)
    as (ap & Hp & _); [apply example_pod_eligible|reflexivity|by exists ap].
Defined.

Lemma admitted_pod_mounts_generated_witness :
  ∃ ap, policy_of pod_cluster (example_pod "app-envoy-secret") ap ∧
    ∀ uris cfg rand sc rf, auto_login_enabled ap = true → ResolveAutoLoginConfig ap uris = Ok cfg →
      sc_AutoLoginConfig sc = cfg → secretResource (W := cluster) rand sc = Ok rf →
      mounts_secret (example_pod "app-envoy-secret") (cr_Name rf) ∧
      IstioTokenSecretSource = IstioCredentialsDirectory +:+ "/" +:+ TokenSecretFileName ∧
      IstioHmacSecretSource = IstioCredentialsDirectory +:+ "/" +:+ HmacSecretFileName.
Proof.
  apply (admitted_pod_mounts_generated pod_cluster (example_pod "app-envoy-secret")).
  - vm_compute. reflexivity.
  - apply example_pod_eligible.
  - reflexivity.
Defined.
