(* ===== verification/Startup.v ===== *)
(** * The start of the process (cmd/main.go)

    [main] as a computation that asks its environment (flags, environment
    variables, controller-runtime), records what it does and may exit. *)

From S2P Require Import Prelude GoStrings.

(** ** The options *)

Record Flags := {
  webhookCertPath : string;
  webhookCertName : string;
  webhookCertKey : string;
  metricsAddr : string;
  probeAddr : string;
  enableLeaderElection : bool;
  secureMetrics : bool;
  enableHTTP2 : bool;
  isDeployment : bool;
}.

(** The values without any flag on the command line. *)
Definition default_flags : Flags := {|
  webhookCertPath := ""; webhookCertName := "tls.crt"; webhookCertKey := "tls.key"; metricsAddr := "0";
  probeAddr := ":8081"; enableLeaderElection := false; secureMetrics := true; enableHTTP2 := false;
  isDeployment := false |}.

Record TLSConfig := { NextProtos : list string }.

Definition disableHTTP2 (c : TLSConfig) : TLSConfig := {| NextProtos := ["http/1.1"] |}.

(** The two identical blocks that append to [tlsOpts]. *)
Definition tlsOpts (f : Flags) : list (TLSConfig → TLSConfig) :=
  let opts := if negb (enableHTTP2 f) then [disableHTTP2] else [] in
  if negb (enableHTTP2 f) then opts ++ [disableHTTP2] else opts.

(** A server applies its TLS options in order. *)
Definition tls_config (opts : list (TLSConfig → TLSConfig)) (c : TLSConfig) : TLSConfig := foldl (λ c o, o c) c opts.

Record WebhookOptions := {
  wo_TLSOpts : list (TLSConfig → TLSConfig);
  wo_CertDir : string;
  wo_CertName : string;
  wo_KeyName : string;
}.

Definition webhookServerOptions (f : Flags) : WebhookOptions :=
  if Nat.ltb 0 (String.length (webhookCertPath f))
  then {| wo_TLSOpts := tlsOpts f; wo_CertDir := webhookCertPath f; wo_CertName := webhookCertName f;
          wo_KeyName := webhookCertKey f |}
  else {| wo_TLSOpts := tlsOpts f; wo_CertDir := ""; wo_CertName := ""; wo_KeyName := "" |}.

Record MetricsOptions := {
  mo_BindAddress : string;
  mo_SecureServing : bool;
  mo_TLSOpts : list (TLSConfig → TLSConfig);
  (** [filters.WithAuthenticationAndAuthorization] *)
  mo_Authenticated : bool;
}.

Definition metricsServerOptions (f : Flags) : MetricsOptions :=
  {| mo_BindAddress := metricsAddr f; mo_SecureServing := secureMetrics f; mo_TLSOpts := tlsOpts f;
     mo_Authenticated := secureMetrics f |}.

Record ManagerOptions := {
  mgr_Metrics : MetricsOptions;
  mgr_WebhookServer : WebhookOptions;
  mgr_HealthProbeBindAddress : string;
  mgr_LeaderElection : bool;
  mgr_LeaderElectionID : string;
}.

(** ** What the process does and what it is told *)

Inductive Action :=
  | GetConfigOrDie
  | NewManager (host : string) (options : ManagerOptions)
  | LoadConfig
  | SetupController
  | SetupPodWebhook
  | AddHealthzCheck
  | AddReadyzCheck
  | RegisterMetrics
  | StartCollector
  | StartManager.

(** The host of the n-th kubeconfig (none: the call ends the process), the error of
    each step, and the environment variables. *)
Record Environment := {
  env_config : nat → option string;
  env_error : Action → option string;
  env_Getenv : string → string;
}.

(** A part of [main]: it appends to what has been done, and returns or exits. *)
Definition process (A : Type) : Type := list Action → list Action * (A + nat).

#[global] Instance process_ret : MRet process := λ A a done, (done, inl a).
#[global] Instance process_bind : MBind process := λ A B f m done,
  match m done with
  | (done, inl a) => f a done
  | (done, inr code) => (done, inr code)
  end.

Definition exit {A} (code : nat) : process A := λ done, (done, inr code).
Definition perform (a : Action) : process unit := λ done, (done ++ [a], inl ()).

Definition is_get_config (a : Action) : bool := match a with GetConfigOrDie => true | _ => false end.
Definition is_start_collector (a : Action) : bool := match a with StartCollector => true | _ => false end.

(** ** main *)

Section main.
Context (f : Flags) (env : Environment).

(** A step whose error is logged and ends the process with code 1. *)
Definition or_exit (a : Action) : process unit :=
  perform a;; match env_error env a with Some _ => exit 1 | None => mret () end.

(** [MustRegister] panics on an error, and a panic that nobody recovers ends the
    process with code 2. *)
Definition or_crash (a : Action) : process unit :=
  perform a;; match env_error env a with Some _ => exit 2 | None => mret () end.

(** [ctrl.GetConfigOrDie]: it reads the configuration anew at every call. *)
Definition get_config : process string := λ actions,
  let n := length (filter (λ a, is_get_config a = true) actions) in
  match env_config env n with
  | Some host => (actions ++ [GetConfigOrDie], inl host)
  | None => (actions ++ [GetConfigOrDie], inr 1)
  end.

Definition manager_options : ManagerOptions :=
  {| mgr_Metrics := metricsServerOptions f; mgr_WebhookServer := webhookServerOptions f;
     mgr_HealthProbeBindAddress := probeAddr f; mgr_LeaderElection := enableLeaderElection f;
     mgr_LeaderElectionID := "78810f72.kartverket.no" |}.

(** Up to [mgr.Start]; the collector runs concurrently from [StartCollector] on. *)
Definition main : process unit :=
  host ← get_config;
  (if negb (isDeployment f) && negb (Contains host "https://127.0.0.1") then exit 1 else mret ());;
  host ← get_config;
  or_exit (NewManager host manager_options);;
  or_exit LoadConfig;;
  or_exit SetupController;;
  (if negb (String.eqb (env_Getenv env "ENABLE_WEBHOOKS") "false") then or_exit SetupPodWebhook else mret ());;
  or_exit AddHealthzCheck;;
  or_exit AddReadyzCheck;;
  or_crash RegisterMetrics;;
  perform StartCollector;;
  or_exit StartManager.

(** The codes with which the process may end: the collector's goroutine ends it
    with code 1 if it fails, at any time after it was started. *)
Definition exit_codes : list nat :=
  let '(actions, r) := main [] in
  let code := match r with inl _ => 0 | inr code => code end in
  if existsb is_start_collector actions
  then code :: match env_error env StartCollector with Some _ => [1] | None => [] end
  else [code].
End main.

(** ** The specification: steps until the first error *)

Section spec.
Context (f : Flags) (env : Environment).

(** The steps after the kubeconfig, for its host. *)
Definition steps (host : string) : list Action :=
  [NewManager host (manager_options f); LoadConfig; SetupController] ++
  (if String.eqb (env_Getenv env "ENABLE_WEBHOOKS") "false" then [] else [SetupPodWebhook]) ++
  [AddHealthzCheck; AddReadyzCheck; RegisterMetrics; StartCollector; StartManager].

(** [main] does not wait for the collector's outcome. *)
Definition step_fails (a : Action) : bool :=
  match a with StartCollector => false | a => bool_decide (is_Some (env_error env a)) end.

(** The code with which a failing step ends the process. *)
Definition failure_code (a : Action) : nat := match a with RegisterMetrics => 2 | _ => 1 end.

Fixpoint until_error (l : list Action) : list Action :=
  match l with
  | [] => []
  | a :: l => if step_fails a then [a] else a :: until_error l
  end.

Fixpoint ends_with (l : list Action) : unit + nat :=
  match l with
  | [] => inl ()
  | a :: l => if step_fails a then inr (failure_code a) else ends_with l
  end.

Definition guard (host : string) : bool := isDeployment f || Contains host "https://127.0.0.1".

Definition outcome : list Action * (unit + nat) :=
  match env_config env 0 with
  | None => ([GetConfigOrDie], inr 1)
  | Some checked =>
      if negb (guard checked) then ([GetConfigOrDie], inr 1)
      else
        match env_config env 1 with
        | None => ([GetConfigOrDie; GetConfigOrDie], inr 1)
        | Some host =>
            ([GetConfigOrDie; GetConfigOrDie] ++ until_error (steps host), ends_with (steps host))
        end
  end.

Lemma bind_run {A B} (m : process A) (g : A → process B) acts :
  (m ≫= g) acts = match m acts with (acts, inl a) => g a acts | (acts, inr code) => (acts, inr code) end.
Proof. done. Qed.

(** What [main] does from a list of steps on. *)
Definition runs (k : process unit) (l : list Action) : Prop :=
  ∀ acts, k acts = (acts ++ until_error l, ends_with l).

(** One step of [main] against one step of the list. *)
Definition step_runs (m : process unit) (a : Action) : Prop :=
  ∀ acts, m acts = (acts ++ [a], if step_fails a then inr (failure_code a) else inl ()).

Lemma step_then m a l k : step_runs m a → runs k l → runs (m;; k) (a :: l).
Proof.
  intros Hm Hk acts. rewrite bind_run, Hm. cbn [until_error ends_with].
  destruct (step_fails a); [done|]. by rewrite Hk, <-app_assoc.
Qed.

Lemma step_last m a : step_runs m a → runs m [a].
Proof. intros Hm acts. rewrite Hm. cbn [until_error ends_with]. by destruct (step_fails a). Qed.

Lemma or_exit_step a :
  step_fails a = bool_decide (is_Some (env_error env a)) → failure_code a = 1 → step_runs (or_exit env a) a.
Proof.
  intros Hf Hc acts. unfold or_exit. rewrite bind_run. cbn [perform]. rewrite Hf, Hc.
  by destruct (env_error env a) as [e|].
Qed.

Lemma or_panic_step : step_runs (or_crash env RegisterMetrics) RegisterMetrics.
Proof.
  intros acts. unfold or_crash. rewrite bind_run. cbn [perform step_fails failure_code].
  by destruct (env_error env RegisterMetrics) as [e|].
Qed.

Lemma main_outcome : main f env [] = outcome.
Proof.
  unfold main, outcome, guard. rewrite bind_run. unfold get_config at 1. cbn [filter list_filter length app].
  change (length (filter (λ a, is_get_config a = true) [])) with 0.
  destruct (env_config env 0) as [checked|]; [|done]. rewrite bind_run, negb_orb.
  destruct (negb (isDeployment f) && negb (Contains checked "https://127.0.0.1")); [done|].
  cbn [mret process_ret]. rewrite bind_run. unfold get_config at 1.
  change (length (filter (λ a, is_get_config a = true) [GetConfigOrDie])) with 1.
  destruct (env_config env 1) as [host|]; [|done]. unfold steps.
  cbv beta iota.
  match goal with |- ?k _ = (_, ends_with ?l) =>
    assert (runs k l) as Hruns; [|exact (Hruns [GetConfigOrDie; GetConfigOrDie])] end.
  cbn [app]. do 3 (apply step_then; [by apply or_exit_step|]). destruct (String.eqb _ "false"); cbn [negb app].
  - change (runs (or_exit env AddHealthzCheck;; or_exit env AddReadyzCheck;; or_crash env RegisterMetrics;;
      perform StartCollector;; or_exit env StartManager)
      [AddHealthzCheck; AddReadyzCheck; RegisterMetrics; StartCollector; StartManager]).
    do 2 (apply step_then; [by apply or_exit_step|]). apply step_then; [apply or_panic_step|].
    apply step_then; [done|]. by apply step_last, or_exit_step.
  - do 3 (apply step_then; [by apply or_exit_step|]). apply step_then; [apply or_panic_step|].
    apply step_then; [done|]. by apply step_last, or_exit_step.
Qed.
End spec.

(** ** Properties *)

Lemma until_error_elem env l a :
  a ∈ until_error env l → a ∈ l.
Proof.
  induction l as [|b l IH]; [done|]. cbn [until_error]. destruct (step_fails env b).
  - intros ->%list_elem_of_singleton. left.
  - intros [->|Ha]%elem_of_cons; [left|right; by apply IH].
Qed.

Lemma until_error_last env l a :
  a ∉ l → a ∈ until_error env (l ++ [a]) ↔ existsb (step_fails env) l = false.
Proof.
  induction l as [|b l IH]; intros Hn; cbn [app until_error existsb].
  - split; [done|]. intros _. destruct (step_fails env a); left.
  - apply not_elem_of_cons in Hn as [Hab Hn]. destruct (step_fails env b); cbn [orb].
    + split; [by intros ->%list_elem_of_singleton|done].
    + rewrite elem_of_cons, IH by done. tauto.
Qed.

(** Either no step fails, or the list is cut after the first one that does. *)
Lemma until_error_spec env l :
  existsb (step_fails env) l = false ∧ until_error env l = l ∧ ends_with env l = inl () ∨
  ∃ before a after, l = before ++ a :: after ∧ existsb (step_fails env) before = false ∧ step_fails env a = true ∧
    until_error env l = before ++ [a] ∧ ends_with env l = inr (failure_code a).
Proof.
  induction l as [|b l IH]; [by left|]. cbn [existsb until_error ends_with].
  destruct (step_fails env b) eqn:Hb; [right; by exists [], b, l|]. cbn [orb].
  destruct IH as [(-> & -> & ->)|(before & a & after & -> & Hn & Ha & -> & ->)]; [by left|right].
  exists (b :: before), a, after. cbn. by rewrite Hb, Hn.
Qed.

Section starts.
Context (f : Flags) (env : Environment).

(** The steps before the manager starts. *)
Definition steps_before (host : string) : list Action :=
  [NewManager host (manager_options f); LoadConfig; SetupController] ++
  (if String.eqb (env_Getenv env "ENABLE_WEBHOOKS") "false" then [] else [SetupPodWebhook]) ++
  [AddHealthzCheck; AddReadyzCheck; RegisterMetrics; StartCollector].

Lemma steps_split host : steps f env host = steps_before host ++ [StartManager].
Proof. unfold steps, steps_before. by rewrite <-!app_assoc. Qed.

Lemma starts_iff host :
  StartManager ∈ [GetConfigOrDie; GetConfigOrDie] ++ until_error env (steps f env host) ↔
  existsb (step_fails env) (steps_before host) = false.
Proof.
  rewrite steps_split, elem_of_app, until_error_last; [set_solver|].
  unfold steps_before. destruct (String.eqb _ _); set_solver.
Qed.

(** The steps of which only the error matters. *)
Definition plain_steps : list Action := [LoadConfig; SetupController; AddHealthzCheck; AddReadyzCheck; RegisterMetrics].

Lemma plain_steps_fail :
  existsb (step_fails env) plain_steps = false ↔ ∀ a, a ∈ plain_steps → env_error env a = None.
Proof.
  unfold plain_steps. rewrite <-not_true_iff_false, existsb_exists. setoid_rewrite <-list_elem_of_In. split.
  - intros Hn a Ha. apply eq_None_not_Some. intros He. apply Hn. exists a. split; [done|].
    unfold step_fails. repeat (apply elem_of_cons in Ha as [->|Ha]; [by apply bool_decide_eq_true|]). set_solver.
  - intros Hf (a & Ha & Hs). specialize (Hf a Ha). unfold step_fails in Hs. rewrite Hf in Hs. by destruct a.
Qed.

Lemma no_failure_before host :
  existsb (step_fails env) (steps_before host) = false ↔
  env_error env (NewManager host (manager_options f)) = None ∧
  (∀ a, a ∈ plain_steps → env_error env a = None) ∧
  (env_Getenv env "ENABLE_WEBHOOKS" ≠ "false" → env_error env SetupPodWebhook = None).
Proof.
  rewrite <-plain_steps_fail. unfold steps_before, plain_steps. rewrite !existsb_app. cbn [existsb]. rewrite !orb_false_iff.
  assert (step_fails env (NewManager host (manager_options f)) = false ↔
          env_error env (NewManager host (manager_options f)) = None) as ->.
  { cbn. rewrite bool_decide_eq_false, eq_None_not_Some. done. }
  assert (existsb (step_fails env) (if String.eqb (env_Getenv env "ENABLE_WEBHOOKS") "false" then [] else [SetupPodWebhook]) = false ↔
          (env_Getenv env "ENABLE_WEBHOOKS" ≠ "false" → env_error env SetupPodWebhook = None)) as ->.
  { destruct (String.eqb_spec (env_Getenv env "ENABLE_WEBHOOKS") "false"); [done|].
    cbn. rewrite orb_false_r, bool_decide_eq_false, eq_None_not_Some. tauto. }
  cbn. tauto.
Qed.
End starts.

(** Claim C38. What [main] does up to the start of the manager. Without a kubeconfig, or
    if it is neither deployed nor its host is local, it does nothing but read the
    kubeconfig and ends with code 1. Else it goes through the steps of [steps] in
    order up to the first that fails, where it ends, with code 2 for the registration
    of the metrics, which panics, and 1 for any other; if none fails it goes through
    all of them and returns. So the manager starts exactly if the process may run
    and no earlier step failed: both kubeconfigs, manager, configuration, controller,
    webhook (unless disabled), both checks and the metrics. (The collector, started
    as the last step but one, fails in its own goroutine: [exit_codes].) *)
Theorem manager_starts_iff f env :
  let '(actions, r) := main f env [] in
  match env_config env 0, env_config env 1 with
  | None, _ => actions = [GetConfigOrDie] ∧ r = inr 1
  | Some checked, second =>
      if negb (isDeployment f) && negb (Contains checked "https://127.0.0.1")
      then actions = [GetConfigOrDie] ∧ r = inr 1
      else match second with
      | None => actions = [GetConfigOrDie; GetConfigOrDie] ∧ r = inr 1
      | Some host =>
          ∃ performed, actions = [GetConfigOrDie; GetConfigOrDie] ++ performed ∧
            (performed = steps f env host ∧ r = inl () ∧ existsb (step_fails env) performed = false ∨
             ∃ before a after, steps f env host = before ++ a :: after ∧ performed = before ++ [a] ∧
               existsb (step_fails env) before = false ∧ step_fails env a = true ∧ r = inr (failure_code a))
      end
  end ∧
  (StartManager ∈ actions ↔
     ∃ checked host, env_config env 0 = Some checked ∧ env_config env 1 = Some host ∧
       (isDeployment f = true ∨ Contains checked "https://127.0.0.1" = true) ∧
       env_error env (NewManager host (manager_options f)) = None ∧
       (∀ a, a ∈ plain_steps → env_error env a = None) ∧
       (env_Getenv env "ENABLE_WEBHOOKS" ≠ "false" → env_error env SetupPodWebhook = None)).
Proof.
  rewrite main_outcome. unfold outcome, guard.
  destruct (env_config env 0) as [checked|] eqn:H0; [|split; [done|]; set_solver].
  rewrite <-negb_orb. destruct (isDeployment f || Contains checked "https://127.0.0.1") eqn:Hg; cbn [negb].
  2: { apply orb_false_iff in Hg as [Hd Hl]. split; [done|]. split; [set_solver|].
       intros (c & h & [= <-] & _ & [Hd'|Hl'] & _); congruence. }
  destruct (env_config env 1) as [host|] eqn:H1; [|split; [done|]; set_solver].
  rewrite starts_iff, no_failure_before. split.
  - eexists. split; [reflexivity|].
    destruct (until_error_spec env (steps f env host)) as [(Hn & -> & ->)|(before & a & after & Hl & Hn & Ha & -> & ->)];
      [by left|right]. by exists before, a, after.
  - apply orb_true_iff in Hg. split.
    + intros Hs. by exists checked, host.
    + by intros (c & h & [= <-] & [= <-] & _ & Hs).
Qed.

(** Without the flag [enable-http2] every TLS configuration of the webhook
    and the metrics server offers HTTP/1.1 only, and with it the configuration is
    left alone; that the option is added twice makes no difference. The metrics
    endpoint asks for authentication exactly when it is served securely. *)
Theorem http2_disabled f c :
  tls_config (wo_TLSOpts (webhookServerOptions f)) c =
    (if enableHTTP2 f then c else {| NextProtos := ["http/1.1"] |}) ∧
  tls_config (mo_TLSOpts (metricsServerOptions f)) c = tls_config (wo_TLSOpts (webhookServerOptions f)) c ∧
  mo_Authenticated (metricsServerOptions f) = mo_SecureServing (metricsServerOptions f).
Proof.
  unfold webhookServerOptions, metricsServerOptions, tlsOpts.
  by destruct (Nat.ltb _ _), (enableHTTP2 f).
Qed.

(** An environment in which every step succeeds, for the given kubeconfigs. *)
Definition quiet_environment (hosts : list string) : Environment :=
  {| env_config n := hosts !! n; env_error _ := None; env_Getenv _ := "" |}.

(** The guard against a start outside a local cluster looks for the text
    of a local address anywhere in the host, and in a kubeconfig that is read again
    for the manager: without the flag [-d] the process starts for a host whose name
    begins with the address, and for any host the second read names. *)
Theorem local_guard_passed_by :
  let starts hosts host :=
    let '(actions, r) := main default_flags (quiet_environment hosts) [] in
    NewManager host (manager_options default_flags) ∈ actions ∧ StartManager ∈ actions ∧ r = inl () in
  starts ["https://127.0.0.1.example.com"; "https://127.0.0.1.example.com"] "https://127.0.0.1.example.com" ∧
  starts ["https://127.0.0.1:6443"; "https://prod.example.com"] "https://prod.example.com".
Proof. cbv beta zeta. rewrite !main_outcome. vm_compute. split; (split; [do 2 right; left|split; [|done]]); do 10 right; left. Qed.
