(* ===== verification/CrdDownload.v ===== *)
(** * The CRD download tool (hack/url2crd/main.go)

    For every URL given, the documents of the file are read, the custom resource
    definitions among them get a status subresource for every version and are
    written to a directory, one file each. *)

From S2P Require Import Prelude GoStrings.

(** ** Paths: the functions of [path], [path/filepath] and [strings] that are used *)

(** [path.Base]: the last element; the empty path is [.], a path of slashes is [/]. *)
Definition path_Base (p : string) : string :=
  if String.eqb p "" then "."
  else
    let t := TrimRightChar p "/" in
    if String.eqb t "" then "/" else default "" (last (SplitChar t "/")).

(** [filepath.Ext]: from the last dot on, if no slash follows it. *)
Fixpoint ext_go (p : string) : option string :=
  match p with
  | "" => None
  | String c q =>
      match ext_go q with
      | Some e => Some e
      | None => if Ascii.eqb c "." && negb (ContainsChar q "/") then Some p else None
      end
  end.
Definition filepath_Ext (p : string) : string := default "" (ext_go p).

(** [filepath.Clean]: the elements that are left, last first; [..] removes the
    element before it, if there is one to remove. *)
Fixpoint clean_elements (rooted : bool) (out : list string) (elements : list string) : list string :=
  match elements with
  | [] => out
  | e :: elements =>
      if String.eqb e "" || String.eqb e "." then clean_elements rooted out elements
      else if String.eqb e ".." then
        match out with
        | o :: out' =>
            if String.eqb o ".." then clean_elements rooted (e :: out) elements
            else clean_elements rooted out' elements
        | [] => if rooted then clean_elements rooted out elements else clean_elements rooted [e] elements
        end
      else clean_elements rooted (e :: out) elements
  end.

Definition filepath_Clean (p : string) : string :=
  let rooted := HasPrefix p "/" in
  let joined := join_char "/" (rev (clean_elements rooted [] (SplitChar p "/"))) in
  if rooted then String "/" joined else if String.eqb joined "" then "." else joined.

(** [filepath.Join] of two elements; empty ones are left out. *)
Definition filepath_Join (dir name : string) : string :=
  if String.eqb dir "" then (if String.eqb name "" then "" else filepath_Clean name)
  else if String.eqb name "" then filepath_Clean dir
  else filepath_Clean (dir +:+ "/" +:+ name).

Definition is_space (c : ascii) : bool :=
  let n := nat_of_ascii c in Nat.eqb n 32 || (Nat.leb 9 n && Nat.leb n 13).

Fixpoint trim_left (s : string) : string :=
  match s with "" => "" | String c t => if is_space c then trim_left t else s end.
Fixpoint trim_right (s : string) : string :=
  match s with
  | "" => ""
  | String c t => match trim_right t with "" => if is_space c then "" else String c "" | u => String c u end
  end.

(** [strings.TrimSpace] and [strings.ToLower] on ASCII. *)
Definition TrimSpace (s : string) : string := trim_right (trim_left s).
Definition lower_char (c : ascii) : ascii :=
  let n := nat_of_ascii c in if Nat.leb 65 n && Nat.leb n 90 then ascii_of_nat (n + 32) else c.
Fixpoint ToLower (s : string) : string :=
  match s with "" => "" | String c s => String (lower_char c) (ToLower s) end.

(** ** YAML *)

(** A decoded document: Go's [map[string]any] and what it holds. *)
Inductive Any :=
  | ANull
  | AScalar (text : string)
  | AList (vs : list Any)
  | AMap (fields : list (string * Any)).

Record objectMeta := { om_Kind : string; om_Name : string }.

(** The YAML library: the documents of a stream (a failure ends it), the text of a
    value, and the fields of a text that [objectMeta] names (zero if it fails). *)
Class YamlCodec := {
  decode_documents : string → list (go (list (string * Any)));
  yaml_text : list (string * Any) → go string;
  unmarshal_meta : string → objectMeta;
}.

(** The path of a URL, decoded. *)
Class UrlPath := { url_path : string → go string }.

(** ** The tool *)

Definition CRD : string := "CustomResourceDefinition".

(** [m[k]] and [m[k] = v]. *)
Definition get_field (k : string) (fields : list (string * Any)) : option Any :=
  snd <$> head (filter (λ kv, kv.1 = k) fields).

Fixpoint put_field (k : string) (v : Any) (fields : list (string * Any)) : list (string * Any) :=
  match fields with
  | [] => [(k, v)]
  | (k', v') :: fields => if String.eqb k' k then (k, v) :: fields else (k', v') :: put_field k v fields
  end.

(** One version: [subresources] becomes a map if it is none, with a [status]. *)
Definition ensure_version (v : Any) : Any :=
  match v with
  | AMap ver =>
      let subresources := match get_field "subresources" ver with Some (AMap s) => s | _ => [] end in
      let subresources :=
        match get_field "status" subresources with
        | Some _ => subresources
        | None => put_field "status" (AMap []) subresources
        end in
      AMap (put_field "subresources" (AMap subresources) ver)
  | v => v
  end.

Definition ensureVersionedStatusSubresource (raw : list (string * Any)) : list (string * Any) :=
  match get_field "spec" raw with
  | Some (AMap spec) =>
      match get_field "versions" spec with
      | Some (AList versions) =>
          put_field "spec" (AMap (put_field "versions" (AList (ensure_version <$> versions)) spec)) raw
      | _ => raw
      end
  | _ => raw
  end.

Definition valid_char (c : ascii) : bool :=
  let n := nat_of_ascii c in
  (Nat.leb 97 n && Nat.leb n 122) || (Nat.leb 65 n && Nat.leb n 90) || (Nat.leb 48 n && Nat.leb n 57) ||
  ContainsChar "_.-" c.

(** A run of characters outside [a-zA-Z0-9_.-] becomes one dash. *)
Fixpoint sanitize_go (in_run : bool) (s : string) : string :=
  match s with
  | "" => ""
  | String c s =>
      if valid_char c then String c (sanitize_go false s)
      else if in_run then sanitize_go true s else String "-" (sanitize_go true s)
  end.
Definition sanitize (s : string) : string := sanitize_go false s.

Section tool.
Context `{YamlCodec} `{UrlPath}.

Definition baseFilenameFromURL (raw : string) : string :=
  match url_path raw with
  | Err _ | Panic _ => ""
  | Ok p => let base := path_Base p in if String.eqb base "." || String.eqb base "/" then "" else base
  end.

(** The name of the file for a definition, given how many have been written. *)
Definition file_name (baseFromURL name : string) (written : nat) : string :=
  if negb (String.eqb baseFromURL "") then
    if Nat.ltb 0 written then
      let ext := filepath_Ext baseFromURL in
      let stem := TrimSuffix baseFromURL ext in
      stem +:+ "-" +:+ sanitize name +:+ (if String.eqb ext "" then ".yaml" else ext)
    else baseFromURL
  else sanitize name +:+ ".yaml".

Definition ends_with_newline (b : string) : string :=
  if HasSuffix b (String "010"%char "") then b else b +:+ String "010"%char "".

Abbreviation files := (gmap string string).

(** The failure of [os.WriteFile], given the files, the path and the text: the error,
    and what the path then holds, if the file was opened (cut, or written in part). *)
Context (write_error : files → string → string → option (string * option string)).

Definition WriteFile (path text : string) (fs : files) : files * option string :=
  match write_error fs path text with
  | None => (<[path := text]> fs, None)
  | Some (e, Some part) => (<[path := part]> fs, Some e)
  | Some (e, None) => (fs, Some e)
  end.

(** The files written, and how the tool ended: the number of files or an error. *)
Fixpoint write_documents (label outDir baseFromURL : string) (docs : list (go (list (string * Any))))
    (written : nat) (fs : files) : files * go nat :=
  match docs with
  | [] => (fs, Ok written)
  | Err e :: _ | Panic e :: _ => (fs, Err (label +:+ ": decode yaml: " +:+ e))
  | Ok [] :: docs => write_documents label outDir baseFromURL docs written fs
  | Ok raw :: docs =>
      match yaml_text raw with
      | Err e | Panic e => (fs, Err (label +:+ ": marshal doc: " +:+ e))
      | Ok b =>
          let meta := unmarshal_meta b in
          if negb (String.eqb (om_Kind meta) CRD) then write_documents label outDir baseFromURL docs written fs
          else
            match yaml_text (ensureVersionedStatusSubresource raw) with
            | Err e | Panic e => (fs, Err (label +:+ ": marshal doc: " +:+ e))
            | Ok b =>
                let name := TrimSpace (om_Name meta) in
                let name := if String.eqb name "" then "crd" else name in
                let path := filepath_Join outDir (ToLower (file_name baseFromURL name written)) in
                match WriteFile path (ends_with_newline b) fs with
                | (fs, Some e) => (fs, Err ("write " +:+ path +:+ ": " +:+ e))
                | (fs, None) => write_documents label outDir baseFromURL docs (S written) fs
                end
            end
      end
  end.

Definition writeCRDsFromYAML (src label outDir : string) (fs : files) : files * go nat :=
  let '(fs, r) := write_documents label outDir (baseFilenameFromURL label) (decode_documents src) 0 fs in
  (fs, written ← r; if Nat.eqb written 0
                    then Err (label +:+ ": no CustomResourceDefinition documents found") else Ok written).

(** [http.NewRequestWithContext] and [http.DefaultClient.Do]: status, content type
    and body, or an error. *)
Record Response := { rs_StatusCode : nat; rs_Status : string; rs_ContentType : string; rs_Body : go string }.
Context (new_request : string → go ()) (http_get : string → go Response) (mkdir_error : string → option string).

(** An error here is [fatalf]: the process ends. *)
Definition fetchURLBytes (u : string) : go string :=
  _ ← wrap_err "build request: " (new_request u);
  resp ← wrap_err ("GET " +:+ u +:+ ": ") (http_get u);
  if Nat.ltb (rs_StatusCode resp) 200 || Nat.leb 300 (rs_StatusCode resp)
  then Err ("GET " +:+ u +:+ ": unexpected status " +:+ rs_Status resp)
  else if Contains (rs_ContentType resp) "text/html" then Err ("URL " +:+ u +:+ " returned HTML, not YAML")
  else wrap_err ("read response body from " +:+ u +:+ ": ") (rs_Body resp).

Fixpoint download (urls : list string) (outDir : string) (fs : files) : files * go unit :=
  match urls with
  | [] => (fs, Ok ())
  | u :: urls =>
      match fetchURLBytes u with
      | Err e | Panic e => (fs, Err e)
      | Ok b =>
          match writeCRDsFromYAML b u outDir fs with
          | (fs, Ok _) => download urls outDir fs
          | (fs, Err e) | (fs, Panic e) => (fs, Err e)
          end
      end
  end.

Definition url2crd_main (flagURLs : list string) (flagOutDir : string) (fs : files) : files * go unit :=
  if decide (flagURLs = []) then (fs, Err "no inputs provided; use -url (repeatable)")
  else
    match mkdir_error flagOutDir with
    | Some e => (fs, Err ("creating outdir " +:+ flagOutDir +:+ ": " +:+ e))
    | None => download flagURLs flagOutDir fs
    end.
End tool.
