(* ===== verification/CrdDownloadFacts.v ===== *)
(** * What the CRD download tool writes

    Every version of a written definition has a status subresource and is otherwise
    as downloaded; files stay in the output directory; and files of different
    definitions may have the same name. *)

From S2P Require Import Prelude GoStrings CrdDownload.

(** ** Fields *)

Lemma get_field_cons k k' v fields :
  get_field k ((k', v) :: fields) = if decide (k' = k) then Some v else get_field k fields.
Proof. unfold get_field. rewrite filter_cons. cbn. by case_decide. Qed.

Lemma get_put_field k v fields : get_field k (put_field k v fields) = Some v.
Proof.
  induction fields as [|[k' v'] fields IH]; cbn [put_field].
  - rewrite get_field_cons. by rewrite decide_True.
  - destruct (String.eqb_spec k' k) as [->|Hk]; rewrite get_field_cons; [by rewrite decide_True|].
    by rewrite decide_False.
Qed.

Lemma get_put_field_ne k k' v fields : k' ≠ k → get_field k' (put_field k v fields) = get_field k' fields.
Proof.
  intros Hne. induction fields as [|[l w] fields IH]; cbn [put_field].
  - rewrite get_field_cons. by rewrite decide_False by congruence.
  - destruct (String.eqb_spec l k) as [->|Hl]; rewrite !get_field_cons; [by rewrite !decide_False by congruence|].
    case_decide; [done|]. exact IH.
Qed.

Lemma put_field_same k v fields : get_field k fields = Some v → put_field k v fields = fields.
Proof.
  induction fields as [|[l w] fields IH]; [done|]. rewrite get_field_cons. cbn [put_field].
  destruct (String.eqb_spec l k) as [->|Hl].
  - rewrite decide_True by done. by intros [= ->].
  - rewrite decide_False by done. intros Hg. by rewrite IH.
Qed.

(** ** The status subresource *)

(** What the code makes of the subresources of a version. *)
Definition subresources_of (ver : list (string * Any)) : list (string * Any) :=
  match get_field "subresources" ver with Some (AMap s) => s | _ => [] end.

Lemma ensure_version_fields ver :
  ∃ ver' subs, ensure_version (AMap ver) = AMap ver' ∧ get_field "subresources" ver' = Some (AMap subs) ∧
    get_field "status" subs = Some (default (AMap []) (get_field "status" (subresources_of ver))) ∧
    (∀ k, k ≠ "status" → get_field k subs = get_field k (subresources_of ver)) ∧
    (∀ k, k ≠ "subresources" → get_field k ver' = get_field k ver).
Proof.
  eexists _, _. split; [reflexivity|]. split; [apply get_put_field|].
  fold (subresources_of ver). destruct (get_field "status" (subresources_of ver)) as [st|] eqn:Hst.
  - split_and!; [exact Hst|done|]. intros k Hk. by apply get_put_field_ne.
  - split_and!; [apply get_put_field| |]; intros k Hk; by apply get_put_field_ne.
Qed.

Lemma ensure_version_idempotent v : ensure_version (ensure_version v) = ensure_version v.
Proof.
  destruct v as [| | |ver]; try done.
  destruct (ensure_version_fields ver) as (ver' & subs & -> & Hs & Hst & _). cbn [ensure_version].
  rewrite Hs, Hst. by rewrite put_field_same.
Qed.

Lemma ensure_idempotent raw :
  ensureVersionedStatusSubresource (ensureVersionedStatusSubresource raw) = ensureVersionedStatusSubresource raw.
Proof.
  unfold ensureVersionedStatusSubresource at 2 3.
  destruct (get_field "spec" raw) as [[| | |spec]|] eqn:Hs; try (unfold ensureVersionedStatusSubresource; by rewrite Hs).
  destruct (get_field "versions" spec) as [[| |vs|]|] eqn:Hv; try (unfold ensureVersionedStatusSubresource; by rewrite Hs, Hv).
  unfold ensureVersionedStatusSubresource. rewrite get_put_field, get_put_field.
  assert (ensure_version <$> (ensure_version <$> vs) = ensure_version <$> vs) as ->.
  { rewrite <-list_fmap_compose. apply list_fmap_ext. intros i v _. apply ensure_version_idempotent. }
  rewrite (put_field_same "versions") by apply get_put_field. by rewrite put_field_same by apply get_put_field.
Qed.

(** The tool's repair of a definition: every version that is a map gets
    the subresource [status] (an existing one is kept), its other subresources and
    fields, the other fields of the spec and of the document stay as downloaded,
    and a repaired document is left alone. *)
Theorem status_subresource_ensured raw :
  let raw' := ensureVersionedStatusSubresource raw in
  ensureVersionedStatusSubresource raw' = raw' ∧
  (∀ k, k ≠ "spec" → get_field k raw' = get_field k raw) ∧
  ∀ spec vs, get_field "spec" raw = Some (AMap spec) → get_field "versions" spec = Some (AList vs) →
    ∃ spec' vs', get_field "spec" raw' = Some (AMap spec') ∧ get_field "versions" spec' = Some (AList vs') ∧
      (∀ k, k ≠ "versions" → get_field k spec' = get_field k spec) ∧
      Forall2 (λ v v', match v with
        | AMap ver => ∃ ver' subs, v' = AMap ver' ∧ get_field "subresources" ver' = Some (AMap subs) ∧
            get_field "status" subs = Some (default (AMap []) (get_field "status" (subresources_of ver))) ∧
            (∀ k, k ≠ "status" → get_field k subs = get_field k (subresources_of ver)) ∧
            (∀ k, k ≠ "subresources" → get_field k ver' = get_field k ver)
        | _ => v' = v
        end) vs vs'.
Proof.
  split; [apply ensure_idempotent|]. unfold ensureVersionedStatusSubresource. split.
  - intros k Hk. repeat case_match; try done. by apply get_put_field_ne.
  - intros spec vs Hs Hv. rewrite Hs, Hv. eexists _, _. split_and!; [apply get_put_field|apply get_put_field| |].
    + intros k Hk. by apply get_put_field_ne.
    + apply Forall2_fmap_r, Forall_Forall2_diag, Forall_forall. intros [| | |ver] _; try done. apply ensure_version_fields.
Qed.

(** ** File names *)

Definition no_slash (s : string) : bool := all_chars (λ c, negb (Ascii.eqb c "/")) s.

Lemma sanitize_no_slash s b : no_slash (sanitize_go b s) = true.
Proof.
  unfold no_slash. revert b. induction s as [|c s IH]; intros b; [done|]. cbn [sanitize_go].
  destruct (valid_char c) eqn:Hc; cbn [all_chars].
  - rewrite IH. destruct (ascii_eqb_spec c "/") as [->|]; done.
  - destruct b; [apply IH|]. cbn [all_chars]. by rewrite IH.
Qed.

Lemma lower_no_slash s : no_slash s = true → no_slash (ToLower s) = true.
Proof.
  unfold no_slash. induction s as [|c s IH]; [done|]. cbn [all_chars ToLower].
  intros [Hc Hs]%andb_true_iff. rewrite (IH Hs), andb_true_r. clear - Hc. unfold lower_char.
  destruct c as [[] [] [] [] [] [] [] []]; try reflexivity; discriminate Hc.
Qed.

Lemma split_no_slash s : Forall (λ e, no_slash e = true) (SplitChar s "/").
Proof.
  unfold no_slash. induction s as [|c s IH]; [by repeat constructor|]. cbn [SplitChar].
  destruct (ascii_eqb_spec c "/") as [->|Hc]; [by constructor|].
  destruct (SplitChar s "/") as [|seg segs]; inversion IH; subst; constructor; try done; cbn [all_chars];
    rewrite (proj2 (Ascii.eqb_neq c "/") Hc); done.
Qed.

Lemma no_slash_app s t : no_slash (s +:+ t) = no_slash s && no_slash t.
Proof. apply all_chars_app. Qed.

Lemma split_app_slash s f : no_slash f = true → SplitChar (s +:+ "/" +:+ f) "/" = SplitChar s "/" ++ [f].
Proof.
  intros Hf. assert (SplitChar f "/" = [f]) as Hsf.
  { clear s. induction f as [|c f IH]; [done|]. unfold no_slash in Hf. cbn [all_chars] in Hf. bools. cbn [SplitChar].
    rewrite H, IH by done. done. }
  induction s as [|c s IH]; [cbn; by rewrite Hsf|].
  rewrite str_app_cons. cbn [SplitChar]. rewrite IH. destruct (Ascii.eqb c "/"); [done|].
  pose proof (SplitChar_nonempty "/" s). by destruct (SplitChar s "/").
Qed.

Lemma base_no_slash p : path_Base p ≠ "/" → no_slash (path_Base p) = true.
Proof.
  unfold path_Base. destruct (String.eqb p ""); [done|]. cbv zeta. destruct (String.eqb _ ""); [done|]. intros _.
  pose proof (split_no_slash (TrimRightChar p "/")) as Hs. destruct (last (SplitChar _ "/")) as [e|] eqn:He; [|done].
  apply last_Some in He as [l Hl]. rewrite Hl in Hs. by apply Forall_app in Hs as [_ [? _]%Forall_cons_iff].
Qed.

Lemma ext_suffix p e : ext_go p = Some e → ∃ q, p = q +:+ e.
Proof.
  revert e. induction p as [|c p IH]; intros e; cbn [ext_go]; [done|].
  destruct (ext_go p) as [e'|].
  - intros [= ->]. destruct (IH e eq_refl) as [q ->]. by exists (String c q).
  - destruct (_ && _); [|done]. intros [= <-]. by exists "".
Qed.

Lemma ext_split p : ∃ q, p = q +:+ filepath_Ext p ∧ TrimSuffix p (filepath_Ext p) = q.
Proof.
  unfold filepath_Ext. destruct (ext_go p) as [e|] eqn:He; cbn [default from_option].
  - apply ext_suffix in He as [q ->]. exists q. split; [done|]. apply TrimSuffix_app.
  - exists p. rewrite str_app_nil_r. split; [done|]. rewrite <-(str_app_nil_r p) at 1. apply TrimSuffix_app.
Qed.

(** *** The path of a file *)

Lemma clean_elements_app rooted out xs ys :
  clean_elements rooted out (xs ++ ys) = clean_elements rooted (clean_elements rooted out xs) ys.
Proof.
  revert out. induction xs as [|x xs IH]; intros out; [done|]. cbn [app clean_elements].
  repeat case_match; apply IH.
Qed.

(** A name that stands for a file in a directory. *)
Definition plain_name (f : string) : bool :=
  no_slash f && negb (String.eqb f "") && negb (String.eqb f ".") && negb (String.eqb f "..").

(** The file [f] in the directory: the elements of the directory's path, then [f]. *)
Definition in_directory (dir f : string) : string :=
  let rooted := HasPrefix dir "/" in
  let path := join_char "/" (rev (clean_elements rooted [] (SplitChar dir "/")) ++ [f]) in
  if rooted then String "/" path else path.

Lemma HasPrefix_app_true s p t : HasPrefix s p = true → HasPrefix (s +:+ t) p = true.
Proof. intros (u & ->)%HasPrefix_true. rewrite str_app_assoc. apply HasPrefix_app. Qed.

Lemma join_in_directory dir f : dir ≠ "" → plain_name f = true → filepath_Join dir f = in_directory dir f.
Proof.
  unfold plain_name. intros Hd Hf. bools. unfold filepath_Join.
  rewrite (proj2 (String.eqb_neq _ _) Hd), H2. unfold filepath_Clean, in_directory. cbv zeta.
  rewrite split_app_slash, clean_elements_app by done. cbn [clean_elements]. rewrite H0, H1, H2. cbn [orb rev].
  assert (HasPrefix (dir +:+ "/" +:+ f) "/" = HasPrefix dir "/") as ->.
  { destruct dir as [|c dir]; [done|]. cbn. by destruct dir, f. }
  destruct (HasPrefix dir "/"); [done|].
  destruct (String.eqb_spec (join_char "/" (rev (clean_elements false [] (SplitChar dir "/")) ++ [f])) "") as [He|]; [|done].
  exfalso. destruct (rev _) as [|e es] eqn:Hr; cbn [app] in He.
  - cbn in He. subst f. done.
  - rewrite join_char_cons in He by (by destruct es). by destruct e.
Qed.

Lemma lower_dot c : lower_char c = "."%char → c = "."%char.
Proof. destruct c as [[] [] [] [] [] [] [] []]; intros H; try reflexivity; discriminate H. Qed.

Lemma lower_plain f : plain_name f = true → plain_name (ToLower f) = true.
Proof.
  unfold plain_name. rewrite !andb_true_iff, !negb_true_iff, !String.eqb_neq. intros [[[Hs He] Hd] Hdd].
  split_and!; [by apply lower_no_slash|by destruct f|..]; intros H.
  - destruct f as [|a [|b f]]; try discriminate. injection H as ->%lower_dot. done.
  - destruct f as [|a [|b [|c f]]]; try discriminate. injection H as ->%lower_dot ->%lower_dot. done.
Qed.

Lemma file_name_plain base name written :
  no_slash base = true → base ≠ "." → base ≠ ".." → plain_name (ToLower (file_name base name written)) = true.
Proof.
  intros Hs Hd Hdd. apply lower_plain. unfold plain_name, file_name.
  rewrite !andb_true_iff, !negb_true_iff, !String.eqb_neq.
  destruct (String.eqb_spec base "") as [->|He]; cbn [negb].
  - rewrite no_slash_app. unfold sanitize. rewrite sanitize_no_slash. split; [split; [split; [done|]|]|];
      intros H%(f_equal String.length); rewrite str_length_app in H; cbn in H; lia.
  - destruct (Nat.ltb 0 written); [|done]. cbv zeta. destruct (ext_split base) as (q & Hb & ->).
    assert (no_slash q = true ∧ no_slash (filepath_Ext base) = true) as [Hq Hx].
    { rewrite Hb, no_slash_app in Hs. by apply andb_true_iff in Hs. }
    rewrite !no_slash_app, Hq. unfold sanitize. rewrite sanitize_no_slash.
    split; [split; [split; [by destruct (String.eqb (filepath_Ext base) "")|]|]|];
      destruct q as [|a [|b [|c q]]]; cbn; intros H; discriminate H.
Qed.

Section written.
Context `{YamlCodec} `{UrlPath}.
Context (write_error : gmap string string → string → string → option (string * option string)).

(** A file the tool may have written: its name, its document and its text. *)
Definition written_file (docs : list (go (list (string * Any)))) (outDir p content : string) : Prop :=
  ∃ f raw before after, p = in_directory outDir f ∧ plain_name f = true ∧ Ok raw ∈ docs ∧
    yaml_text raw = Ok before ∧ om_Kind (unmarshal_meta before) = CRD ∧
    yaml_text (ensureVersionedStatusSubresource raw) = Ok after ∧ content = ends_with_newline after.

Lemma written_file_cons d docs outDir p c : written_file docs outDir p c → written_file (d :: docs) outDir p c.
Proof. intros (f & raw & b & a & ? & ? & ? & ?). exists f, raw, b, a. split_and!; try done; [by right|tauto..]. Qed.

(** Where the files [fs'] differ from [fs]: in files of definitions, each with a
    newline at the end, and in the file whose write was the error of the run. *)
Definition adds (docs : list (go (list (string * Any)))) (outDir : string) (fs fs' : gmap string string) (r : go nat) : Prop :=
  dom fs ⊆ dom fs' ∧
  ∀ p c, fs' !! p = Some c →
    fs !! p = Some c ∨ written_file docs outDir p c ∨ ∃ e, r = Err ("write " +:+ p +:+ ": " +:+ e).

Lemma adds_nothing docs outDir fs r : adds docs outDir fs fs r.
Proof. split; [done|]. auto. Qed.

Lemma adds_cons d docs outDir fs fs' r : adds docs outDir fs fs' r → adds (d :: docs) outDir fs fs' r.
Proof.
  intros [Hd Hf]. split; [done|]. intros p c Hp.
  destruct (Hf p c Hp) as [|[|]]; [by left|right; left; by apply written_file_cons|by right; right].
Qed.

Lemma adds_insert docs outDir fs fs' r p c :
  adds docs outDir (<[p := c]> fs) fs' r → written_file docs outDir p c ∨ (∃ e, r = Err ("write " +:+ p +:+ ": " +:+ e)) →
  adds docs outDir fs fs' r.
Proof.
  intros [Hd Hf] Hw. split; [rewrite dom_insert_L in Hd; set_solver|]. intros q x Hq.
  destruct (Hf q x Hq) as [Hi|]; [|by right]. apply lookup_insert_Some in Hi as [[<- <-]|[_ Hi]]; [by right|by left].
Qed.

Lemma write_documents_adds label outDir base docs : ∀ written fs fs' r,
  outDir ≠ "" → no_slash base = true → base ≠ "." → base ≠ ".." →
  write_documents write_error label outDir base docs written fs = (fs', r) → adds docs outDir fs fs' r.
Proof.
  induction docs as [|d docs IH]; intros written fs fs' r Ho Hs Hd Hdd; cbn [write_documents].
  { intros [= <- <-]. apply adds_nothing. }
  assert (∀ e, (fs, Err e) = (fs', r) → adds (d :: docs) outDir fs fs' r) as Herr.
  { intros e [= <- <-]. apply adds_nothing. }
  assert (write_documents write_error label outDir base docs written fs = (fs', r) →
    adds (d :: docs) outDir fs fs' r) as Hskip by (intros Hw; eapply adds_cons, IH; eassumption).
  destruct d as [[|kv raw]|e|e]; [apply Hskip| |apply Herr..].
  destruct (yaml_text (kv :: raw)) as [before|e|e] eqn:Hb; [|apply Herr..]. cbv zeta.
  destruct (String.eqb_spec (om_Kind (unmarshal_meta before)) CRD) as [Hk|]; cbn [negb]; [|apply Hskip].
  destruct (yaml_text (ensureVersionedStatusSubresource _)) as [after|e|e] eqn:Ha; [|apply Herr..].
  set (name := if String.eqb _ "" then "crd" else _).
  pose proof (file_name_plain base name written Hs Hd Hdd) as Hplain.
  rewrite (join_in_directory _ _ Ho Hplain). unfold WriteFile. destruct (write_error _ _ _) as [[e [part|]]|].
  - intros [= <- <-]. eapply adds_insert; [apply adds_nothing|]. right. by exists e.
  - apply Herr.
  - intros Hw. eapply adds_insert; [eapply adds_cons, IH; eassumption|]. left.
    eexists _, (kv :: raw), before, after. split_and!; [done|done|left|done..].
Qed.

(** *** The number of files *)

(** A document that is a custom resource definition. *)
Definition is_definition (d : go (list (string * Any))) : bool :=
  match d with
  | Ok (kv :: raw) => match yaml_text (kv :: raw) with Ok b => String.eqb (om_Kind (unmarshal_meta b)) CRD | _ => false end
  | _ => false
  end.

Definition definitions (docs : list (go (list (string * Any)))) : nat := length (filter (λ d, is_definition d = true) docs).

(** A document that can be read, and printed before and after its repair. *)
Definition readable (d : go (list (string * Any))) : Prop :=
  ∃ raw, d = Ok raw ∧ is_ok (yaml_text raw) = true ∧ is_ok (yaml_text (ensureVersionedStatusSubresource raw)) = true.

Lemma definitions_cons d docs : definitions (d :: docs) = (if is_definition d then 1 else 0) + definitions docs.
Proof. unfold definitions. rewrite filter_cons. by destruct (is_definition d). Qed.

Lemma write_documents_count label outDir base docs : ∀ written fs fs' n,
  write_documents write_error label outDir base docs written fs = (fs', Ok n) → n = written + definitions docs.
Proof.
  induction docs as [|d docs IH]; intros written fs fs' n; cbn [write_documents].
  { intros [= <- <-]. unfold definitions. cbn. lia. }
  rewrite definitions_cons. destruct d as [[|kv raw]|e|e]; [apply IH| |done..]. cbn [is_definition].
  destruct (yaml_text (kv :: raw)) as [before|e|e]; [|done..]. cbv zeta.
  destruct (String.eqb (om_Kind (unmarshal_meta before)) CRD); cbn [negb]; [|apply IH].
  destruct (yaml_text (ensureVersionedStatusSubresource _)) as [after|e|e]; [|done..].
  destruct (WriteFile _ _ _ _) as [fs1 [e|]]; [done|]. intros Hw. rewrite (IH _ _ _ _ Hw). lia.
Qed.

(** Readable documents are all read, unless the write of a definition fails. *)
Lemma write_documents_reads label outDir base docs : ∀ written fs,
  Forall readable docs → (∀ fs p text, write_error fs p text = None) ∨ definitions docs = 0 →
  ∃ fs', write_documents write_error label outDir base docs written fs = (fs', Ok (written + definitions docs)) ∧
    (definitions docs = 0 → fs' = fs).
Proof.
  induction docs as [|d docs IH]; intros written fs Hr Hw; cbn [write_documents].
  { exists fs. by rewrite Nat.add_0_r. }
  apply Forall_cons_iff in Hr as [(raw & -> & Hb & Ha) Hr]. rewrite definitions_cons in *.
  destruct raw as [|kv raw]; [by apply IH|]. cbn [is_definition] in *.
  destruct (yaml_text (kv :: raw)) as [before|e|e]; [|done..]. cbv zeta.
  destruct (String.eqb (om_Kind (unmarshal_meta before)) CRD); cbn [negb]; [|by apply IH].
  destruct Hw as [Hw|]; [|done]. destruct (yaml_text (ensureVersionedStatusSubresource _)) as [after|e|e]; [|done..].
  unfold WriteFile. rewrite Hw. set (fs1 := <[_ := _]> fs).
  destruct (IH (S written) fs1 Hr (or_introl Hw)) as (fs' & -> & _). exists fs'. split; [|done]. do 2 f_equal. lia.
Qed.

(** The base of a URL as a file name. *)
Lemma base_file_name label : no_slash (baseFilenameFromURL label) = true ∧ baseFilenameFromURL label ≠ ".".
Proof.
  unfold baseFilenameFromURL. destruct (url_path label) as [p| |]; [|done..]. cbv zeta.
  destruct (String.eqb_spec (path_Base p) "."), (String.eqb_spec (path_Base p) "/"); try done. cbn [orb].
  split; [by apply base_no_slash|done].
Qed.

(** Claim C40. What the tool adds to the directory for one URL whose path does not end
    in [..]: every new text lies directly in the output directory, is the repaired
    text of a custom resource definition of the stream and ends with a newline,
    except for the file whose write failed, if that ended the run: it may hold
    anything. No file disappears. A success reports the number of definitions of the
    stream, which is positive; where every document can be read and printed and no
    write fails the run succeeds if there is a definition, and without a definition it
    fails with an error of its own and changes nothing. *)
Theorem written_files src label outDir fs fs' r :
  outDir ≠ "" → baseFilenameFromURL label ≠ ".." →
  writeCRDsFromYAML write_error src label outDir fs = (fs', r) →
  let docs := decode_documents src in
  dom fs ⊆ dom fs' ∧
  (∀ p c, fs' !! p = Some c → fs !! p = Some c ∨
     HasSuffix c (String "010"%char "") = true ∧ written_file docs outDir p c ∨
     ∃ e, r = Err ("write " +:+ p +:+ ": " +:+ e)) ∧
  (∀ n, r = Ok n → n = definitions docs ∧ 0 < n) ∧
  (Forall readable docs →
   (definitions docs = 0 → r = Err (label +:+ ": no CustomResourceDefinition documents found") ∧ fs' = fs) ∧
   (0 < definitions docs → (∀ fs p text, write_error fs p text = None) → r = Ok (definitions docs))).
Proof.
  intros Ho Hb. unfold writeCRDsFromYAML. cbv zeta. destruct (base_file_name label) as [Hs Hd].
  destruct (write_documents _ _ _ _ _ 0 fs) as [fs1 r1] eqn:Hw. intros [= <- <-].
  destruct (write_documents_adds _ _ _ _ _ _ _ _ Ho Hs Hd Hb Hw) as [Hdom Hf]. split_and!; [done|..].
  - intros p c Hp. destruct (Hf p c Hp) as [|[Hwf|[e ->]]]; [by left|right; left|right; right; by exists e].
    split; [|done]. destruct Hwf as (f & raw & b & a & _ & _ & _ & _ & _ & _ & ->). unfold ends_with_newline.
    destruct (HasSuffix a _) eqn:Hsuf; [done|apply HasSuffix_app].
  - intros n. destruct r1 as [m| |]; [|done..]. apply write_documents_count in Hw. cbn.
    destruct (Nat.eqb_spec m 0); [done|]. intros [= <-]. lia.
  - intros Hr. split.
    + intros H0'. destruct (write_documents_reads label outDir (baseFilenameFromURL label) _ 0 fs Hr (or_intror H0'))
        as (fs2 & Hw2 & Hsame). rewrite Hw in Hw2. injection Hw2 as -> ->. rewrite H0', (Hsame H0'). done.
    + intros Hpos Hn. destruct (write_documents_reads label outDir (baseFilenameFromURL label) _ 0 fs Hr (or_introl Hn))
        as (fs2 & Hw2 & _). rewrite Hw in Hw2. injection Hw2 as -> ->. cbn. by destruct (definitions _); [lia|].
Qed.
End written.

(** ** A small YAML *)

Definition crd_document (name text : string) : list (string * Any) :=
  [("kind", AScalar CRD); ("metadata", AMap [("name", AScalar name)]); ("text", AScalar text);
   ("spec", AMap [("versions", AList [AMap [("name", AScalar "v1")]])])].

(** A stream is one definition per line; the text of a document is its line. *)
#[local] Instance line_codec : YamlCodec := {|
  decode_documents src := (λ l, Ok (crd_document l l)) <$> SplitChar src "010";
  yaml_text raw := Ok (match get_field "text" raw with Some (AScalar t) => t | _ => "" end);
  unmarshal_meta b := {| om_Kind := CRD; om_Name := b |};
|}.

#[local] Instance example_url_path : UrlPath := {| url_path u := Ok (default "" (SplitChar u "?" !! 0)) |}.

Definition no_write_error : gmap string string → string → string → option (string * option string) := λ _ _ _, None.

(** The second file is cut before its newline. *)
Definition disk_full : gmap string string → string → string → option (string * option string) := λ fs p text,
  if decide (fs = ∅) then None else Some ("no space left on device", Some "b").

(** Two definitions; the write of the second one succeeds, or fails and leaves a part. *)
Lemma written_files_witness :
  let src := "a" +:+ String "010"%char "b" in
  let '(fs, r) := writeCRDsFromYAML no_write_error src "https://x/crd.yaml" "bases" ∅ in
  let '(fs', r') := writeCRDsFromYAML disk_full src "https://x/crd.yaml" "bases" ∅ in
  r = Ok 2 ∧ (∃ c, fs !! "bases/crd-b.yaml" = Some c ∧ written_file (decode_documents src) "bases" "bases/crd-b.yaml" c) ∧
  fs' !! "bases/crd-b.yaml" = Some "b" ∧ ∃ e, r' = Err ("write bases/crd-b.yaml: " +:+ e).
Proof.
  intros src. destruct (writeCRDsFromYAML no_write_error src _ _ _) as [fs r] eqn:Hrun.
  destruct (writeCRDsFromYAML disk_full src _ _ _) as [fs' r'] eqn:Hfull.
  destruct (written_files no_write_error src "https://x/crd.yaml" "bases" ∅ fs r ltac:(done)
    ltac:(vm_compute; discriminate) Hrun) as (_ & Hf & _ & Hr).
  destruct (written_files disk_full src "https://x/crd.yaml" "bases" ∅ fs' r' ltac:(done)
    ltac:(vm_compute; discriminate) Hfull) as (_ & Hf' & _).
  assert (r = Ok 2) as ->.
  { apply Hr; [|vm_compute; lia|done]. repeat constructor; (eexists; split; [reflexivity|by vm_compute]). }
  assert (fs !! "bases/crd-b.yaml" = Some ("b" +:+ String "010"%char "")) as Hb.
  { change fs with (fs, Ok 2).1. rewrite <-Hrun. vm_compute. reflexivity. }
  assert (fs' !! "bases/crd-b.yaml" = Some "b") as Hb'.
  { change fs' with (fs', r').1. rewrite <-Hfull. vm_compute. reflexivity. }
  split_and!; [done| |done|].
  - eexists. split; [exact Hb|]. by destruct (Hf _ _ Hb) as [Hold|[[_ Hw]|[e He]]].
  - by destruct (Hf' _ _ Hb') as [Hold|[[Hn _]|He]].
Defined.

(** The name of a file is the last element of the URL's path, in lower
    case: the definitions of two URLs that differ in a directory only, such as two
    versions of the same file, are written to the same file, and the run succeeds
    with one of them lost. *)
Theorem same_name_overwrites :
  let get u := Ok {| rs_StatusCode := 200; rs_Status := "200 OK"; rs_ContentType := "text/plain";
                     rs_Body := Ok (if String.eqb u "https://x/v1/Crd.yaml" then "one" else "two") |} in
  url2crd_main no_write_error (λ _, Ok ()) get (λ _, None) ["https://x/v1/Crd.yaml"; "https://x/v2/crd.yaml"] "./bases" ∅ =
  ({[ "bases/crd.yaml" := "two" +:+ String "010"%char "" ]}, Ok ()).
Proof. vm_compute. reflexivity. Qed.
