(* ===== verification/Convergence.v ===== *)
(** * A successful run establishes the objects

    The convergence of the engine for one object is lifted to the loop over the
    six resources: the writes of one resource do not disturb another, so after a
    run without errors every resource is settled, and a second run is idle. *)

From S2P Require Import Prelude GoStrings GoSlices Api Objects State Examples Kube Generators GeneratorFacts IstioPolicy.
From S2P Require Import Reconciliation ReconciliationFacts Resources ResourcesFacts MemoryServer Status StatusFacts.
From S2P Require Import StatusStability Metrics Controller ControllerFacts.

(** ** Loops over resources that do not disturb each other *)

(** A resource of a first run, the same resource of a second run, and what the
    first establishes in the cluster. *)
Record Item (W : Type) := {
  it_run : ControllerResource W;
  it_again : ControllerResource W;
  it_done : W → Prop;
}.
Arguments it_run {W}. Arguments it_again {W}. Arguments it_done {W}.

Section loop.
Context {W : Type} (ap : AuthPolicy).

Definition for_policy (st : KState W) : Prop := sc_AuthPolicy (ks_scope st) = ap.

Definition keeps (P : W → Prop) (rf : ControllerResource W) : Prop :=
  ∀ st, for_policy st → P (ks_world st) → P (ks_world (cr_Reconcile rf st).1).

Record good_item (i : Item W) : Prop := {
  good_policy st : for_policy st → for_policy (cr_Reconcile (it_run i) st).1;
  good_done st st' r : for_policy st → cr_Reconcile (it_run i) st = (st', (r, None)) → it_done i (ks_world st');
  good_idle st : for_policy st → it_done i (ks_world st) →
    ∃ st' calls, cr_Reconcile (it_again i) st = (st', (no_result, None)) ∧ ks_calls st' = ks_calls st ++ calls ∧
      Forall idle_call calls ∧ ks_world st' = ks_world st ∧ for_policy st';
}.

Lemma reconcile_all_errors (rfs : list (ControllerResource W)) : ∀ result errs st st' r,
  reconcile_all rfs result errs st = (st', (r, [])) → errs = [].
Proof.
  induction rfs as [|rf rfs IH]; intros result errs st st' r; cbn [reconcile_all]; [by intros [= _ _ ->]|].
  destruct (cr_Reconcile rf st) as [st1 [r1 [e|]]]; intros Herr%IH; [by destruct errs|done].
Qed.

Lemma reconcile_all_done items : ∀ result st st' r,
  Forall good_item items → ForallOrdPairs (λ i j, keeps (it_done i) (it_run j)) items →
  for_policy st → reconcile_all (it_run <$> items) result [] st = (st', (r, [])) →
  Forall (λ i, it_done i (ks_world st')) items ∧
  ∀ P, Forall (λ i, keeps P (it_run i)) items → P (ks_world st) → P (ks_world st').
Proof.
  induction items as [|i items IH]; intros result st st' r Hgood Hpairs Hst; cbn [fmap list_fmap reconcile_all].
  { intros [= <- _]. split; [constructor|done]. }
  apply Forall_cons_iff in Hgood as [Hi Hgood]. inversion_clear Hpairs as [|? ? Hk Hpairs'].
  pose proof (good_policy i Hi st Hst) as Hst1. pose proof (good_done i Hi st) as Hdone.
  destruct (cr_Reconcile (it_run i) st) as [st1 [r1 [e|]]] eqn:Hrun; cbn [fst] in *.
  { intros Hr. apply reconcile_all_errors in Hr. done. }
  intros Hr. destruct (IH _ _ _ _ Hgood Hpairs' Hst1 Hr) as [Hdones Hkeep]. split.
  - apply Forall_cons_iff. split; [|done]. apply Hkeep; [done|]. by eapply Hdone.
  - intros P [HP HPs]%Forall_cons_iff Hw. apply Hkeep; [done|]. specialize (HP st Hst Hw). by rewrite Hrun in HP.
Qed.

Lemma reconcile_all_idle items : ∀ st,
  Forall good_item items → for_policy st → Forall (λ i, it_done i (ks_world st)) items →
  ∃ st' calls, reconcile_all (it_again <$> items) no_result [] st = (st', (no_result, [])) ∧
    ks_calls st' = ks_calls st ++ calls ∧ Forall idle_call calls ∧ ks_world st' = ks_world st.
Proof.
  induction items as [|i items IH]; intros st; [by exists st, []; rewrite app_nil_r|].
  intros [Hi Hgood]%Forall_cons_iff Hst [Hd Hds]%Forall_cons_iff. cbn [fmap list_fmap reconcile_all].
  destruct (good_idle i Hi st Hst Hd) as (st1 & calls & -> & Hc & Hid & Hw & Hst1).
  destruct (IH st1 Hgood Hst1) as (st' & calls' & Hr & Hc' & Hid' & Hw'); [by rewrite Hw|].
  exists st', (calls ++ calls'). rewrite Hc', Hw', Hc, app_assoc. split_and!; [done|done|by apply Forall_app|done].
Qed.
End loop.

(** ** Writes and reads of objects *)

(** One write of an object with the given key, or none. *)
Inductive moves {W T} `{Controlled T} `{!Client W T} (k : NamespacedName) (w : W) : W → Prop :=
  | moves_none : moves k w w
  | moves_create t : key_of (obj_meta t) = k → moves k w (client_create w t).1
  | moves_patch c t : key_of (obj_meta t) = k → moves k w (client_patch w c t).1
  | moves_delete t : key_of (obj_meta t) = k → moves k w (client_delete w t).1.

(** A write does not disturb the objects with other keys, or of another type. *)
Class KeyFrame (W T : Type) `{Controlled T} `{!Client W T} := {
  key_frame k k' w w' : k ≠ k' → moves (T := T) k w w' → client_get (T := T) w' k' = client_get w k';
}.

Class TypeFrame (W T U : Type) `{Controlled T} `{!Client W T} `{!Client W U} := {
  type_frame k k' w w' : moves (T := T) k w w' → client_get (T := U) w' k' = client_get w k';
}.

Section items.
Context {W T : Type} `{OwnershipByReferences} `{!Controlled T} `{!Updatable T} `{!Metadata T}.
Context `{!Client W T} `{!ApiServer W T}.

Definition at_world (ap : AuthPolicy) (w : W) : KState W :=
  {| ks_world := w; ks_calls := []; ks_scope := example_scope ap [] |}.

Definition updating (kind name : string) (desired : option T) : ControllerResource W :=
  adapter kind name desired should_update update_fields.

Definition item (ap : AuthPolicy) (kind name : string) (desired desired' : option T) : Item W := {|
  it_run := updating kind name desired;
  it_again := updating kind name desired';
  it_done w := settled name desired' (at_world ap w);
|}.

(** Two generated objects, or two absences, for the same name. *)
Definition alike (ap : AuthPolicy) (name : string) (desired desired' : option T) : Prop :=
  match desired, desired' with
  | Some d, Some d' =>
      same_desired d d' ∧ desired_ok d ∧
      key_of (obj_meta d) = {| nn_Namespace := Namespace (ap_Meta ap); nn_Name := name |}
  | None, None => True
  | _, _ => False
  end.

Lemma settled_at (ap : AuthPolicy) name (desired : option T) (st : KState W) :
  sc_AuthPolicy (ks_scope st) = ap → settled name desired st ↔ settled name desired (at_world ap (ks_world st)).
Proof. intros <-. done. Qed.

Lemma settled_same_get ap name (desired : option T) w w' :
  client_get (T := T) w' {| nn_Namespace := Namespace (ap_Meta ap); nn_Name := name |} =
    client_get w {| nn_Namespace := Namespace (ap_Meta ap); nn_Name := name |} →
  settled name desired (at_world ap w) → settled name desired (at_world ap w').
Proof. unfold settled, key_in, at_world. cbn [ks_world ks_scope sc_AuthPolicy example_scope]. by intros ->. Qed.

Lemma run_policy kind name (desired : option T) (st : KState W) :
  sc_AuthPolicy (ks_scope (cr_Reconcile (updating kind name desired) st).1) = sc_AuthPolicy (ks_scope st).
Proof. by destruct (adapter_owned kind name desired should_update update_fields st). Qed.

Lemma item_good ap kind name desired desired' :
  alike ap name desired desired' → good_item ap (item ap kind name desired desired').
Proof.
  intros Hal. split.
  - intros st Hst. unfold for_policy. cbn [it_run item]. by rewrite run_policy.
  - intros st st' r Hst Hrun. cbn [it_done item it_run] in *.
    assert (sc_AuthPolicy (ks_scope st') = ap) as Hst'.
    { rewrite <-Hst, <-(run_policy kind name desired st), Hrun. done. }
    apply (settled_at ap name desired' st' Hst'). apply (run_settles kind name desired desired' st st' r Hrun).
    unfold alike, key_in in *. by rewrite Hst.
  - intros st Hst Hd. cbn [it_done item it_again] in *. apply (settled_at ap name desired' st Hst) in Hd.
    pose proof (settled_run kind name desired' st Hd) as Hrun. cbv zeta in Hrun.
    eexists _, _. split; [exact Hrun|]. split_and!; [done|apply idle_calls_idle|done|]. unfold for_policy.
    pose proof (run_policy kind name desired' st) as Hp.
    change (cr_Reconcile (updating kind name desired') st) with (run kind name desired' st) in Hp.
    rewrite Hrun in Hp. by rewrite <-Hst, <-Hp.
Qed.

Lemma run_moves ap kind name (desired : option T) (st : KState W) :
  (∀ d, desired = Some d → key_of (obj_meta d) = {| nn_Namespace := Namespace (ap_Meta ap); nn_Name := name |}) →
  for_policy ap st →
  moves (T := T) {| nn_Namespace := Namespace (ap_Meta ap); nn_Name := name |} (ks_world st)
    (ks_world (cr_Reconcile (updating kind name desired) st).1).
Proof.
  intros Hal Hst. destruct (reconcile_outcome kind name desired should_update update_fields st) as (st' & r & err & Heq & _ & Ho).
  cbn [updating cr_Reconcile adapter]. rewrite Heq. cbn [fst]. unfold for_policy in Hst.
  destruct Ho as [| | |d m w created err Hdes _ Hm Hw|d c w patched err _ Hget _ _ Hw|c w _ Hget _ Hw|c w e msg _ Hget _ Hw];
    cbn [report called ks_world]; try apply moves_none; rewrite ?Hst in *.
  - replace w with (client_create (ks_world st) (set_meta m d)).1 by (by rewrite Hw). apply moves_create.
    rewrite obj_meta_set. destruct (set_controller_controls _ _ _ Hm) as (_ & Hn & Hns & _). rewrite <-(Hal d Hdes).
    unfold key_of. by rewrite Hn, Hns.
  - replace w with (client_patch (ks_world st) c (update_fields c d)).1 by (by rewrite Hw). apply moves_patch.
    destruct (update_meta c d) as (Hn & Hns & _). rewrite <-(get_key _ _ _ Hget). unfold key_of. by rewrite Hn, Hns.
  - replace w with (client_delete (ks_world st) c).1 by (by rewrite Hw). apply moves_delete. by apply get_key in Hget.
  - replace w with (client_delete (ks_world st) c).1 by (by rewrite Hw). apply moves_delete. by apply get_key in Hget.
Qed.

Lemma alike_key ap name desired desired' d :
  alike ap name desired desired' → desired = Some d →
  key_of (obj_meta d) = {| nn_Namespace := Namespace (ap_Meta ap); nn_Name := name |}.
Proof. intros Hal ->. destruct desired'; [|done]. by destruct Hal as (_ & _ & ?). Qed.
End items.

Section pairs.
Context {W : Type} `{OwnershipByReferences}.

Lemma keeps_type {T U} `{!Controlled T} `{!Updatable T} `{!Metadata T} `{!Client W T} `{!ApiServer W T}
    `{!Controlled U} `{!Updatable U} `{!Metadata U} `{!Client W U} `{!ApiServer W U} `{!TypeFrame W U T}
    ap k1 n1 (d1 d1' : option T) k2 n2 (d2 d2' : option U) :
  alike ap n2 d2 d2' → keeps ap (it_done (item (W := W) ap k1 n1 d1 d1')) (it_run (item ap k2 n2 d2 d2')).
Proof.
  intros Hal st Hst. cbn [it_done it_run item]. apply settled_same_get.
  eapply (type_frame (T := U)), run_moves; [|done]. intros d. by apply (alike_key ap n2 d2 d2').
Qed.

Lemma keeps_name {T} `{!Controlled T} `{!Updatable T} `{!Metadata T} `{!Client W T} `{!ApiServer W T} `{!KeyFrame W T}
    ap k1 n1 (d1 d1' : option T) k2 n2 (d2 d2' : option T) :
  n1 ≠ n2 → alike ap n2 d2 d2' →
  keeps ap (it_done (item (W := W) ap k1 n1 d1 d1')) (it_run (item ap k2 n2 d2 d2')).
Proof.
  intros Hne Hal st Hst. cbn [it_done it_run item]. apply settled_same_get.
  eapply key_frame; [|apply run_moves; [|done]]; [|intros d; by apply (alike_key ap n2 d2 d2')]. congruence.
Qed.
End pairs.

(** ** The six resources *)

Lemma names_differ base a b : String.length a ≠ String.length b → base +:+ a ≠ base +:+ b.
Proof.
  intros Hab Heq. apply Hab. apply (f_equal String.length) in Heq. rewrite !str_length_app in Heq. lia.
Qed.

Section resources.
Context {W : Type} `{OwnershipByReferences}.
Context `{!Client W Secret} `{!Client W EnvoyFilter} `{!Client W RequestAuthentication} `{!Client W AuthorizationPolicy}.
Context `{!ApiServer W Secret} `{!ApiServer W EnvoyFilter}.
Context `{!ApiServer W RequestAuthentication} `{!ApiServer W AuthorizationPolicy} `{!KeyFrame W AuthorizationPolicy}.
Context `{!TypeFrame W EnvoyFilter Secret} `{!TypeFrame W RequestAuthentication Secret}.
Context `{!TypeFrame W AuthorizationPolicy Secret} `{!TypeFrame W RequestAuthentication EnvoyFilter}.
Context `{!TypeFrame W AuthorizationPolicy EnvoyFilter} `{!TypeFrame W AuthorizationPolicy RequestAuthentication}.
Context `{UrlParser} `{StructPb} `{Yaml} `{Growth} `{DeepEqual}.

Definition meta_for (sc : Scope) (name : string) : ObjectMeta := buildObjectMeta name (policy_namespace sc).

Definition items (sc : Scope) (s s' : option Secret) (f : option EnvoyFilter) : list (Item W) :=
  let ap := sc_AuthPolicy sc in
  let name := policy_name sc in
  let ra := request_authentication_GetDesired sc (meta_for sc name) in
  let deny := deny_GetDesired sc (meta_for sc (DenyPolicy_name name)) in
  let ignore := ignore_GetDesired sc (meta_for sc (IgnorePolicy_name name)) in
  let require := require_GetDesired sc (meta_for sc (RequirePolicy_name name)) in
  [item ap "Secret" (alc_EnvoySecretName (sc_AutoLoginConfig sc)) s s';
   item ap "EnvoyFilter" (EnvoyFilter_name name) f f;
   item ap "RequestAuthentication" name ra ra;
   item ap "AuthorizationPolicy" (DenyPolicy_name name) deny deny;
   item ap "AuthorizationPolicy" (IgnorePolicy_name name) ignore ignore;
   item ap "AuthorizationPolicy" (RequirePolicy_name name) require require].

Lemma ControllerResources_items rand sc rfs :
  ControllerResources rand sc = Ok rfs →
  ∃ s f, secret_GetDesired rand sc (meta_for sc (alc_EnvoySecretName (sc_AutoLoginConfig sc))) = Ok s ∧
         envoy_filter_GetDesired sc (meta_for sc (EnvoyFilter_name (policy_name sc))) = Ok f ∧
         ∀ s', rfs = it_run <$> items sc s s' f ∧ rfs = it_again <$> items sc s' s f.
Proof.
  intros (s & Hs & (f & Hf & Heq%Ok_inj)%go_bind_ok)%go_bind_ok.
  apply go_bind_ok in Hs as (d & Hd & Hs%Ok_inj), Hf as (d' & Hd' & Hf%Ok_inj). exists d, d'. by subst.
Qed.

(** *** What is generated is named as asked, and generated alike again *)

Lemma alike_same {T} `{!Controlled T} `{!Updatable T} ap name (d : option T) :
  (∀ x, d = Some x → obj_meta x = buildObjectMeta name (Namespace (ap_Meta ap)) ∧ same_desired x x ∧ desired_ok x) →
  alike ap name d d.
Proof. intros Hd. destruct d as [x|]; [|done]. destruct (Hd x eq_refl) as (Hm & ? & ?). split_and!; [done..|]. by rewrite Hm. Qed.

Lemma secret_meta rand sc m s :
  secret_GetDesired rand sc m = Ok (Some s) →
  secret_Meta s = m ∧ ∃ cs t, ClientSecret (sc_OAuthCredentials sc) = Some cs ∧
    getEnvoySecretDataValue "token" cs "inline_string" = Ok t ∧ secret_Data s !! TokenSecretFileName = Some t.
Proof.
  unfold secret_GetDesired. destruct (auto_login_off sc); [discriminate|]. intros (cs & Hcs & Hs)%go_bind_ok.
  destruct (getEnvoySecret rand m cs) as [s'|e|e] eqn:Hg; [|discriminate Hs..]. apply Ok_inj in Hs. injection Hs as ->.
  apply go_bind_ok in Hg as (hm & _ & (ht & _ & (t & Ht & <-%Ok_inj)%go_bind_ok)%go_bind_ok).
  split; [done|]. exists cs, t. destruct (ClientSecret _) as [cs'|]; [|discriminate Hcs]. apply Ok_inj in Hcs as ->.
  split_and!; [done|done|]. cbn [secret_Data]. apply lookup_insert_eq.
Qed.

Lemma secret_none rand sc m :
  (∀ n, is_ok (rand n) = true) → (∀ v, is_ok (yaml_marshal v) = true) →
  secret_GetDesired rand sc m = Ok None → auto_login_off sc = true.
Proof.
  intros Hr Hy. unfold secret_GetDesired. destruct (auto_login_off sc); [done|]. intros (cs & _ & Hs)%go_bind_ok. exfalso.
  assert (∀ n se ty, ∃ t, getEnvoySecretDataValue n se ty = Ok t) as Hv.
  { intros n se ty. unfold getEnvoySecretDataValue.
    match goal with |- ∃ t, wrap_err _ (yaml_marshal ?v) = _ => specialize (Hy v); destruct (yaml_marshal v); try done end.
    by eexists. }
  unfold getEnvoySecret, GenerateHMACSecret in Hs. specialize (Hr 32). destruct (rand 32); try done.
  cbn [wrap_err mbind go_bind] in Hs.
  destruct (Hv "hmac" (base64_encode a) "inline_bytes") as [h Hh]. rewrite Hh in Hs. cbn [mbind go_bind] in Hs.
  destruct (Hv "token" cs "inline_string") as [t Ht]. rewrite Ht in Hs. discriminate Hs.
Qed.

Lemma secret_alike rand rand' sc s s' :
  (∀ n, is_ok (rand n) = true) → (∀ n, is_ok (rand' n) = true) → (∀ v, is_ok (yaml_marshal v) = true) →
  let name := alc_EnvoySecretName (sc_AutoLoginConfig sc) in
  secret_GetDesired rand sc (meta_for sc name) = Ok s → secret_GetDesired rand' sc (meta_for sc name) = Ok s' →
  alike (sc_AuthPolicy sc) name s s'.
Proof.
  intros Hr Hr' Hy name Hs Hs'. destruct s as [d|], s' as [d'|]; try done.
  - apply secret_meta in Hs as (Hm & cs & t & Hcs & Ht & Hd), Hs' as (Hm' & cs' & t' & Hcs' & Ht' & Hd').
    assert (cs' = cs) as -> by congruence. assert (t' = t) as -> by congruence.
    split; [split; [by rewrite Hd, Hd'|by rewrite Hm, Hm']|]. split; [by exists t|]. cbn. by rewrite Hm.
  - apply secret_none in Hs'; [|done..]. unfold secret_GetDesired in Hs. by rewrite Hs' in Hs.
  - apply secret_none in Hs; [|done..]. unfold secret_GetDesired in Hs'. by rewrite Hs in Hs'.
Qed.

Lemma envoy_filter_meta sc m f : envoy_filter_GetDesired sc m = Ok (Some f) → ef_Meta f = m.
Proof.
  unfold envoy_filter_GetDesired. destruct (auto_login_off sc); [discriminate|].
  intros (u & _ & (c & _ & (l & _ & (o & _ & (v & _ & (p & _ & Hf)%go_bind_ok)%go_bind_ok)%go_bind_ok)%go_bind_ok)%go_bind_ok)%go_bind_ok.
  apply Ok_inj in Hf. by injection Hf as <-.
Qed.

Lemma request_authentication_meta sc m r : request_authentication_GetDesired sc m = Some r → ra_Meta r = m.
Proof. unfold request_authentication_GetDesired. repeat case_match; try done; by intros [= <-]. Qed.

Lemma deny_meta sc m p : deny_GetDesired sc m = Some p → azp_Meta p = m.
Proof. unfold deny_GetDesired. repeat case_match; try done; by intros [= <-]. Qed.

Lemma ignore_meta sc m p : ignore_GetDesired sc m = Some p → azp_Meta p = m.
Proof. unfold ignore_GetDesired. repeat case_match; try done; by intros [= <-]. Qed.

Lemma require_meta sc m p : require_GetDesired sc m = Some p → azp_Meta p = m.
Proof. unfold require_GetDesired. repeat case_match; try done; by intros [= <-]. Qed.

Section alike_items.
Context (sc : Scope) (s s' : option Secret) (f : option EnvoyFilter).
Hypothesis Hs : alike (sc_AuthPolicy sc) (alc_EnvoySecretName (sc_AutoLoginConfig sc)) s s'.
Hypothesis Hf : envoy_filter_GetDesired sc (meta_for sc (EnvoyFilter_name (policy_name sc))) = Ok f.

Lemma envoy_filter_alike : alike (sc_AuthPolicy sc) (EnvoyFilter_name (policy_name sc)) f f.
Proof. apply alike_same. intros x ->. by apply envoy_filter_meta in Hf. Qed.

Lemma request_authentication_alike :
  let d := request_authentication_GetDesired sc (meta_for sc (policy_name sc)) in
  alike (sc_AuthPolicy sc) (policy_name sc) d d.
Proof. apply alike_same. by intros x ?%request_authentication_meta. Qed.

Lemma deny_alike :
  let d := deny_GetDesired sc (meta_for sc (DenyPolicy_name (policy_name sc))) in
  alike (sc_AuthPolicy sc) (DenyPolicy_name (policy_name sc)) d d.
Proof. apply alike_same. by intros x ?%deny_meta. Qed.

Lemma ignore_alike :
  let d := ignore_GetDesired sc (meta_for sc (IgnorePolicy_name (policy_name sc))) in
  alike (sc_AuthPolicy sc) (IgnorePolicy_name (policy_name sc)) d d.
Proof. apply alike_same. by intros x ?%ignore_meta. Qed.

Lemma require_alike :
  let d := require_GetDesired sc (meta_for sc (RequirePolicy_name (policy_name sc))) in
  alike (sc_AuthPolicy sc) (RequirePolicy_name (policy_name sc)) d d.
Proof. apply alike_same. by intros x ?%require_meta. Qed.

Lemma items_good : Forall (good_item (sc_AuthPolicy sc)) (items sc s s' f).
Proof.
  repeat apply List.Forall_cons; try apply List.Forall_nil; apply item_good;
    auto using envoy_filter_alike, request_authentication_alike, deny_alike, ignore_alike, require_alike.
Qed.

Lemma items_apart :
  ForallOrdPairs (λ i j, keeps (sc_AuthPolicy sc) (it_done i) (it_run j)) (items sc s s' f).
Proof.
  pose proof envoy_filter_alike. pose proof request_authentication_alike. pose proof deny_alike.
  pose proof ignore_alike. pose proof require_alike.
  repeat (apply FOP_cons; [repeat (apply List.Forall_cons;
    [first [by apply keeps_type|by apply keeps_name; [by apply names_differ|]]|]); apply List.Forall_nil|]).
  apply FOP_nil.
Qed.
End alike_items.

Lemma secret_alike_self rand sc s :
  secret_GetDesired rand sc (meta_for sc (alc_EnvoySecretName (sc_AutoLoginConfig sc))) = Ok s →
  alike (sc_AuthPolicy sc) (alc_EnvoySecretName (sc_AutoLoginConfig sc)) s s.
Proof.
  intros Hs. apply alike_same. intros x ->. apply secret_meta in Hs as (Hm & cs & t & _ & _ & Ht).
  split_and!; [by apply Hm|done|by exists t].
Qed.

Lemma doReconcile_success (rfs : list (ControllerResource W)) st st' r :
  doReconcile rfs st = (st', (r, [])) → reconcile_all rfs no_result [] st = (st', (r, [])).
Proof.
  unfold doReconcile. destruct (reconcile_all rfs no_result [] st) as [st1 [r1 [|e errs]]]; [done|].
  intros [= _ _ ?].
Qed.

Lemma success_done rand (st : KState W) rfs st' r s f s' :
  ControllerResources rand (ks_scope st) = Ok rfs → doReconcile rfs st = (st', (r, [])) →
  rfs = it_run <$> items (ks_scope st) s s' f →
  alike (sc_AuthPolicy (ks_scope st)) (alc_EnvoySecretName (sc_AutoLoginConfig (ks_scope st))) s s' →
  envoy_filter_GetDesired (ks_scope st) (meta_for (ks_scope st) (EnvoyFilter_name (policy_name (ks_scope st)))) = Ok f →
  Forall (λ i, it_done i (ks_world st')) (items (ks_scope st) s s' f).
Proof.
  intros Hrfs Hrun%doReconcile_success -> Hs Hf.
  exact (proj1 (reconcile_all_done (sc_AuthPolicy (ks_scope st)) _ no_result st st' r
                  (items_good _ _ _ _ Hs Hf) (items_apart _ _ _ _ Hf) eq_refl Hrun)).
Qed.

(** ** Properties *)

(** The object is there as desired, or there is none that the policy controls. *)
Definition established {T} `{!Controlled T} `{!Updatable T} `{!Client W T} (sc : Scope) (name : string)
    (desired : option T) (w : W) : Prop :=
  match desired, client_get w {| nn_Namespace := policy_namespace sc; nn_Name := name |} with
  | Some d, Found c => is_controlled_by (obj_meta c) (sc_AuthPolicy sc) = true ∧ as_desired c d
  | None, Found c => is_controlled_by (obj_meta c) (sc_AuthPolicy sc) = false
  | None, NotFound => True
  | _, _ => False
  end.

Lemma settled_established {T} `{!Controlled T} `{!Updatable T} `{!Client W T} sc name (d : option T) (w : W) :
  settled name d (at_world (sc_AuthPolicy sc) w) → established sc name d w.
Proof.
  unfold settled, established, key_in, at_world. cbn [ks_world ks_scope sc_AuthPolicy example_scope].
  unfold policy_namespace. destruct d, (client_get _ _); tauto.
Qed.

(** A run without errors: every object is there as desired. *)
Lemma success_established rand (st : KState W) rfs st' r :
  ControllerResources rand (ks_scope st) = Ok rfs → doReconcile rfs st = (st', (r, [])) →
  let sc := ks_scope st in
  let name := policy_name sc in
  ∃ s f,
    secret_GetDesired rand sc (meta_for sc (alc_EnvoySecretName (sc_AutoLoginConfig sc))) = Ok s ∧
    envoy_filter_GetDesired sc (meta_for sc (EnvoyFilter_name name)) = Ok f ∧
    established sc (alc_EnvoySecretName (sc_AutoLoginConfig sc)) s (ks_world st') ∧
    established sc (EnvoyFilter_name name) f (ks_world st') ∧
    established sc name (request_authentication_GetDesired sc (meta_for sc name)) (ks_world st') ∧
    established sc (DenyPolicy_name name) (deny_GetDesired sc (meta_for sc (DenyPolicy_name name))) (ks_world st') ∧
    established sc (IgnorePolicy_name name) (ignore_GetDesired sc (meta_for sc (IgnorePolicy_name name))) (ks_world st') ∧
    established sc (RequirePolicy_name name) (require_GetDesired sc (meta_for sc (RequirePolicy_name name))) (ks_world st').
Proof.
  intros Hrfs Hrun sc name. destruct (ControllerResources_items _ _ _ Hrfs) as (s & f & Hs & Hf & Hitems).
  exists s, f. split; [done|]. split; [done|].
  pose proof (success_done rand st rfs st' r s f s Hrfs Hrun (proj1 (Hitems s)) (secret_alike_self _ _ _ Hs) Hf) as Hd.
  unfold items in Hd. rewrite !Forall_cons_iff in Hd. cbv zeta in Hd. cbn [it_done item] in Hd.
  destruct Hd as (D1 & D2 & D3 & D4 & D5 & D6 & _). split_and!; by apply settled_established.
Qed.

(** A second run is idle: after a run without errors the next run for
    the same resolved policy, with fresh random bytes, changes nothing in the cluster
    and succeeds; its only calls are patches of an object with itself. *)
Theorem second_run_idle rand rand' (st : KState W) rfs rfs' st' r :
  (∀ n, is_ok (rand n) = true) → (∀ n, is_ok (rand' n) = true) → (∀ v, is_ok (yaml_marshal v) = true) →
  ControllerResources rand (ks_scope st) = Ok rfs → ControllerResources rand' (ks_scope st) = Ok rfs' →
  doReconcile rfs st = (st', (r, [])) →
  ∃ st'' calls, doReconcile rfs' {| ks_world := ks_world st'; ks_calls := ks_calls st'; ks_scope := ks_scope st |} =
            (st'', (no_result, [])) ∧
          ks_calls st'' = ks_calls st' ++ calls ∧ Forall idle_call calls ∧ ks_world st'' = ks_world st'.
Proof.
  intros Hr Hr' Hy Hrfs Hrfs' Hrun.
  destruct (ControllerResources_items _ _ _ Hrfs) as (s & f & Hs & Hf & Hitems).
  destruct (ControllerResources_items _ _ _ Hrfs') as (s' & f' & Hs' & Hf' & Hitems').
  assert (f' = f) as -> by congruence. pose proof (secret_alike _ _ _ _ _ Hr Hr' Hy Hs Hs') as Ha.
  pose proof (success_done rand st rfs st' r s f s' Hrfs Hrun (proj1 (Hitems s')) Ha Hf) as Hd.
  destruct (reconcile_all_idle (sc_AuthPolicy (ks_scope st)) (items (ks_scope st) s s' f)
              {| ks_world := ks_world st'; ks_calls := ks_calls st'; ks_scope := ks_scope st |})
    as (st'' & calls & Hall & Hc & Hid & Hw); [by apply items_good|done|done|].
  exists st'', calls. split; [|done]. unfold doReconcile. by rewrite (proj2 (Hitems' s)), Hall.
Qed.
End resources.

(** ** The server in memory *)

Lemma memory_moves {T} `{Stored T} (k : NamespacedName) (w w' : memory) :
  moves (T := T) k w w' → ∀ key, key ≠ memory_key (T := T) k → w' !! key = w !! key.
Proof.
  assert (∀ w t, key_of (obj_meta t) = k → ∀ key, key ≠ memory_key (T := T) k → memory_put w t !! key = w !! key) as Hput.
  { intros w0 t <- key Hne. unfold memory_put. by rewrite lookup_insert_ne. }
  intros [|t Hk|c t Hk|t Hk] key Hne; cbn; [done| | |].
  - destruct (memory_get _ _); cbn; [done|by apply Hput|done].
  - destruct (memory_get _ _); cbn; [by apply Hput|done|done].
  - rewrite Hk. by rewrite lookup_delete_ne.
Qed.

#[export] Instance memory_key_frame {T} `{Stored T} : KeyFrame memory T.
Proof.
  split. intros k k' w w' Hne Hm. cbn. unfold memory_get. rewrite (memory_moves _ _ _ Hm); [done|].
  unfold memory_key. destruct k, k'. cbn. congruence.
Qed.

Lemma memory_type_frame {T U} `{Stored T} `{Stored U} :
  stored_kind (T := T) ≠ stored_kind (T := U) → TypeFrame memory T U.
Proof.
  intros Hk. split. intros k k' w w' Hm. cbn. unfold memory_get. rewrite (memory_moves _ _ _ Hm); [done|].
  unfold memory_key. congruence.
Qed.

#[export] Hint Extern 1 (TypeFrame memory _ _) => (apply memory_type_frame; cbn; discriminate) : typeclass_instances.

#[local] Existing Instances example_parser example_pb example_yaml content_equal.

(** A policy with an auto-login, whose deny policy has to change. *)
Definition login_state (invalid : bool) : KState memory :=
  {| ks_world := memory_put ∅ (deny_all DENY [owner_reference]); ks_calls := [];
     ks_scope := with_validation (login_scope example_uris) invalid (if invalid then Some "invalid path" else None) |}.

Lemma login_run invalid : ∃ rfs,
  ControllerResources example_rand (ks_scope (login_state invalid)) = Ok rfs ∧
  (doReconcile rfs (login_state invalid)).2.2 = [] ∧
  length (ks_calls (doReconcile rfs (login_state invalid)).1) = if invalid then 0 else 5.
Proof.
  apply (ok_match (λ rfs, (doReconcile rfs (login_state invalid)).2.2 = [] ∧
    length (ks_calls (doReconcile rfs (login_state invalid)).1) = if invalid then 0 else 5)).
  destruct invalid; vm_compute; auto.
Qed.

Lemma second_run_idle_witness :
  ∃ rfs st' r,
    doReconcile rfs (login_state false) = (st', (r, [])) ∧ length (ks_calls st') = 5 ∧
    ∃ st'' calls, doReconcile rfs {| ks_world := ks_world st'; ks_calls := ks_calls st'; ks_scope := ks_scope (login_state false) |} =
              (st'', (no_result, [])) ∧ ks_calls st'' = ks_calls st' ++ calls ∧ Forall idle_call calls ∧
              ks_world st'' = ks_world st'.
Proof.
  destruct (login_run false) as (rfs & Hrfs & H).
  destruct (doReconcile rfs (login_state false)) as [st' [r errs]] eqn:Hrun. destruct H as [H Hc]. cbn in H, Hc. subst errs.
  exists rfs, st', r. split; [exact Hrun|]. split; [exact Hc|].
  apply (second_run_idle example_rand example_rand (login_state false) rfs rfs st' r); done.
Defined.
