(* ===== verification/SecondCall.v ===== *)
(** * The next call of Reconcile has nothing to do

    [second_run_idle] is carried from the loop over the resources to whole calls:
    between two calls lies the status update of the first, which changes the policy
    that the second one reads, and the second resolves everything anew. *)

From S2P Require Import Prelude GoStrings GoSlices Api Objects State Examples PathValidation Kube Resolver ResolverFacts.
From S2P Require Import Generators GeneratorFacts IstioPolicy Reconciliation ReconciliationFacts Resources ResourcesFacts.
From S2P Require Import MemoryServer Status StatusFacts StatusStability Metrics Controller ControllerFacts Cluster.
From S2P Require Import NoPanic Convergence.

(** Control is a matter of the policy's UID. *)
Class OwnershipByUID `{Ownership} := {
  controlled_by_uid m ap ap' :
    UID (ap_Meta ap) = UID (ap_Meta ap') → is_controlled_by m ap = is_controlled_by m ap';
}.

(** A status update of a policy does not touch the objects of a type. *)
Class StatusApart (W T : Type) `{!Client W T} `{!PolicyClient W} := {
  status_apart w ap k : client_get (T := T) (policy_update_status w ap).1 k = client_get w k;
}.

Lemma attempts_keeps {W} (P : W → Prop) again (fn : W → W * UpdateAnswer) w :
  (∀ w, P w → P (fn w).1) → P w → P (attempts again fn w).1.
Proof.
  intros Hfn. revert w. induction again as [|again IH]; intros w Hw; cbn [attempts];
    specialize (Hfn w Hw); destruct (fn w) as [w' [|e|e]]; try done. by apply IH.
Qed.

(** ** Scopes that differ in the status of their policy *)

Definition with_scope_status (sc : Scope) (s : AuthPolicyStatus) : Scope :=
  {| sc_AuthPolicy := with_status (sc_AuthPolicy sc) s; sc_Audiences := sc_Audiences sc;
     sc_AutoLoginConfig := sc_AutoLoginConfig sc; sc_OAuthCredentials := sc_OAuthCredentials sc;
     sc_IdentityProviderUris := sc_IdentityProviderUris sc; sc_Descendants := sc_Descendants sc;
     sc_InvalidConfig := sc_InvalidConfig sc; sc_ValidationErrorMessage := sc_ValidationErrorMessage sc |}.

Section scopes.
Context {W : Type} `{Ownership} `{!Client W Secret} `{!Client W EnvoyFilter}.
Context `{!Client W RequestAuthentication} `{!Client W AuthorizationPolicy} `{!PolicyClient W} `{!ClusterReader W}.
Context `{UrlParser} `{MapOrder} `{StructPb} `{Yaml} `{Growth} `{DeepEqual}.

Lemma resolve_with_status (w : W) ap s resolver sc :
  resolveAuthPolicy w (Some ap) resolver = Ok sc →
  resolveAuthPolicy w (Some (with_status ap s)) resolver = Ok (with_scope_status sc s).
Proof.
  intros (creds & Hc & (uris & Hu & (cfg & Hcfg & (auds & Ha & <-%Ok_inj)%go_bind_ok)%go_bind_ok)%go_bind_ok)%go_bind_ok.
  unfold resolveAuthPolicy.
  change (ResolveOAuthCredentials (with_status ap s)) with (ResolveOAuthCredentials (H := reader_at w) ap).
  change (ResolveDiscoveryDocument (with_status ap s) resolver) with (ResolveDiscoveryDocument ap resolver).
  change (AllowedAudiences (Spec (with_status ap s))) with (AllowedAudiences (Spec ap)).
  change (Namespace (ap_Meta (with_status ap s))) with (Namespace (ap_Meta ap)).
  rewrite Hc. cbn [mbind go_bind]. rewrite Hu. cbn [mbind go_bind].
  change (ResolveAutoLoginConfig (with_status ap s) uris) with (ResolveAutoLoginConfig ap uris).
  rewrite Hcfg. cbn [mbind go_bind]. by rewrite Ha.
Qed.

Lemma validate_with_status sc sc' s :
  validateAuthPolicy sc = Ok sc' → validateAuthPolicy (with_scope_status sc s) = Ok (with_scope_status sc' s).
Proof.
  unfold validateAuthPolicy. change (GetPaths (sc_AuthPolicy (with_scope_status sc s))) with (GetPaths (sc_AuthPolicy sc)).
  by destruct (ValidatePaths _); intros [= <-].
Qed.

Lemma resources_with_status rand sc s :
  ControllerResources (W := W) rand (with_scope_status sc s) = ControllerResources rand sc.
Proof. reflexivity. Qed.

(** Fresh random bytes do not make the generation fail. *)
Lemma resources_again rand rand' sc (rfs : list (ControllerResource W)) :
  (∀ n, is_ok (rand' n) = true) → (∀ v, is_ok (yaml_marshal v) = true) →
  ControllerResources rand sc = Ok rfs → ∃ rfs', ControllerResources (W := W) rand' sc = Ok rfs'.
Proof.
  intros Hr Hy (si & Hs & (fi & Hf & _)%go_bind_ok)%go_bind_ok. unfold ControllerResources. rewrite Hf.
  apply go_bind_ok in Hs as (s & Hs & _). unfold secretResource. cbv zeta.
  assert (∃ s', secret_GetDesired rand' sc (buildObjectMeta (alc_EnvoySecretName (sc_AutoLoginConfig sc)) (policy_namespace sc))
                = Ok s') as [s' ->]; [|by eexists].
  destruct (auto_login_off sc) eqn:Hoff; [unfold secret_GetDesired; rewrite Hoff; by eexists|].
  unfold secret_GetDesired in Hs. rewrite Hoff in Hs. apply go_bind_ok in Hs as (cs & Hcs & _).
  destruct (ClientSecret _) as [cs'|] eqn:Hsec; [|discriminate Hcs].
  destruct (secret_total rand' sc (buildObjectMeta (alc_EnvoySecretName (sc_AutoLoginConfig sc)) (policy_namespace sc)) cs' Hsec)
    as (s' & Hs' & _).
  - intros n. specialize (Hr n). by destruct (rand' n).
  - intros v. specialize (Hy v). by destruct (yaml_marshal v).
  - by exists s'.
Qed.
End scopes.

(** ** What a first call establishes, for the scope of the second *)

Section second.
Context {W : Type} `{OwnershipByReferences} `{!OwnershipByUID}.
Context `{!Client W Secret} `{!Client W EnvoyFilter} `{!Client W RequestAuthentication} `{!Client W AuthorizationPolicy}.
Context `{!ApiServer W Secret} `{!ApiServer W EnvoyFilter}.
Context `{!ApiServer W RequestAuthentication} `{!ApiServer W AuthorizationPolicy} `{!KeyFrame W AuthorizationPolicy}.
Context `{!TypeFrame W EnvoyFilter Secret} `{!TypeFrame W RequestAuthentication Secret}.
Context `{!TypeFrame W AuthorizationPolicy Secret} `{!TypeFrame W RequestAuthentication EnvoyFilter}.
Context `{!TypeFrame W AuthorizationPolicy EnvoyFilter} `{!TypeFrame W AuthorizationPolicy RequestAuthentication}.
Context `{!PolicyClient W} `{!StatusServer W} `{!ClusterReader W}.
Context `{!PolicyFrame W Secret} `{!PolicyFrame W EnvoyFilter}.
Context `{!PolicyFrame W RequestAuthentication} `{!PolicyFrame W AuthorizationPolicy}.
Context `{!StatusApart W Secret} `{!StatusApart W EnvoyFilter}.
Context `{!StatusApart W RequestAuthentication} `{!StatusApart W AuthorizationPolicy}.
Context `{UrlParser} `{MapOrder} `{!StructPb} `{Yaml} `{Growth} `{DeepEqual} `{!Retry W} `{Aggregate}.
Context `{!Quiet W} `{!Utf8Names W}.

Definition same_objects (w w' : W) : Prop :=
  (∀ k, client_get (T := Secret) w' k = client_get w k) ∧
  (∀ k, client_get (T := EnvoyFilter) w' k = client_get w k) ∧
  (∀ k, client_get (T := RequestAuthentication) w' k = client_get w k) ∧
  (∀ k, client_get (T := AuthorizationPolicy) w' k = client_get w k).

#[global] Instance same_objects_preorder : PreOrder same_objects.
Proof.
  split; [by intros w; split|]. intros w1 w2 w3 (A1 & A2 & A3 & A4) (B1 & B2 & B3 & B4).
  split_and!; intros k; by (rewrite B1 || rewrite B2 || rewrite B3 || rewrite B4).
Qed.

(** What every status update of a policy keeps, [UpdateStatus] keeps. *)
Lemma update_keeps (P : W → Prop) ap (st : RState W) :
  (∀ w ap, P w → P (policy_update_status w ap).1) → P (rs_world st) → P (rs_world (UpdateStatus ap st).1).
Proof.
  intros HP Hst. unfold UpdateStatus. destruct (RefreshAuthPolicyInfo _ _ _) as [g [u|e|m]]; [|done..].
  destruct retry_attempts as [again ->].
  pose proof (attempts_keeps P again (λ w,
    match policy_get w (policy_key ap) with
    | Found latest => policy_update_status w (with_status latest (Status ap))
    | NotFound => (w, UpdateFailed "not found")
    | GetError e => (w, UpdateFailed e)
    end) (rs_world st)) as Hk.
  destruct (attempts _ _ _) as [w err]. apply Hk; [|done]. intros w' Hw'. destruct (policy_get _ _); [|done..].
  by apply HP.
Qed.

Lemma update_same_objects ap (st : RState W) : same_objects (rs_world st) (rs_world (UpdateStatus ap st).1).
Proof.
  apply update_keeps; [|done]. intros w ap' Hw. etrans; [exact Hw|].
  unfold same_objects. split_and!; intros k; apply status_apart.
Qed.

Lemma settled_with_status {T} `{!Controlled T} `{!Updatable T} `{!Client W T} (ap : AuthPolicy) s name (d : option T) w w' :
  (∀ k, client_get (T := T) w' k = client_get w k) →
  settled name d (at_world ap w) → settled name d (at_world (with_status ap s) w').
Proof.
  intros Hw. unfold settled, key_in, at_world. cbn [ks_world ks_scope sc_AuthPolicy example_scope]. rewrite Hw.
  assert (∀ m, is_controlled_by m (with_status ap s) = is_controlled_by m ap) as Hc.
  { intros m. by apply controlled_by_uid. }
  by destruct d, (client_get _ _); rewrite ?Hc.
Qed.

Lemma items_with_status sc s (se se' : option Secret) f w w' :
  same_objects w w' → Forall (λ i, it_done i w) (items sc se se' f) →
  Forall (λ i, it_done i w') (items (with_scope_status sc s) se se' f).
Proof.
  intros (A1 & A2 & A3 & A4). unfold items. rewrite !Forall_cons_iff. cbv zeta. cbn [it_done item].
  intros (D1 & D2 & D3 & D4 & D5 & D6 & _).
  split_and!; [by eapply settled_with_status..|constructor].
Qed.

(** The loop over the resources, in the state after the status update. *)
Lemma run_after_status rand rand' (st : KState W) rfs rfs' st' r s w calls :
  (∀ n, is_ok (rand n) = true) → (∀ n, is_ok (rand' n) = true) → (∀ v, is_ok (yaml_marshal v) = true) →
  ControllerResources rand (ks_scope st) = Ok rfs → ControllerResources rand' (ks_scope st) = Ok rfs' →
  doReconcile rfs st = (st', (r, [])) → same_objects (ks_world st') w →
  ∃ st'' calls', doReconcile rfs' {| ks_world := w; ks_calls := calls; ks_scope := with_scope_status (ks_scope st) s |} =
            (st'', (no_result, [])) ∧ ks_calls st'' = calls ++ calls' ∧ Forall idle_call calls' ∧ ks_world st'' = w.
Proof.
  intros Hr Hr' Hy Hrfs Hrfs' Hrun Hw.
  destruct (ControllerResources_items _ _ _ Hrfs) as (se & f & Hs & Hf & Hitems).
  destruct (ControllerResources_items _ _ _ Hrfs') as (se' & f' & Hs' & Hf' & Hitems').
  assert (f' = f) as -> by congruence. pose proof (secret_alike _ _ _ _ _ Hr Hr' Hy Hs Hs') as Ha.
  pose proof (success_done rand st rfs st' r se f se' Hrfs Hrun (proj1 (Hitems se')) Ha Hf) as Hd.
  apply (items_with_status _ s _ _ _ _ w Hw) in Hd.
  destruct (reconcile_all_idle (with_status (sc_AuthPolicy (ks_scope st)) s) (items (with_scope_status (ks_scope st) s) se se' f)
              {| ks_world := w; ks_calls := calls; ks_scope := with_scope_status (ks_scope st) s |})
    as (st'' & calls' & Hall & Hc & Hid & Hw');
    [by apply (items_good (with_scope_status (ks_scope st) s))|done|exact Hd|].
  exists st'', calls'. split; [|done]. pose proof (proj2 (Hitems' se)) as Hi.
  change (rfs' = it_again <$> items (with_scope_status (ks_scope st) s) se se' f) in Hi.
  unfold doReconcile. by rewrite Hi, Hall.
Qed.
(** ** Two calls *)

Lemma reconcile_labelled clock rand resolver (st : RState W) stored :
  policy_get (rs_world st) (policy_key stored) = Found stored → DeletionTimestamp (ap_Meta stored) = None →
  AuthPolicyStandardLabels ⊆ map_or_empty (Labels (ap_Meta stored)) →
  Reconcile clock rand resolver (policy_key stored) st =
    let st := {| rs_world := rs_world st; rs_calls := rs_calls st; rs_gauge := rs_gauge st |} in
    match resolveAuthPolicy (rs_world st) (Some (InitializeStatus stored)) resolver with
    | Panic m => (st, Panic m)
    | Err e =>
        match UpdateStatus (failed_status (InitializeStatus stored) e) st with
        | (st, Panic m) => (st, Panic m)
        | (st, Err e') => (st, Err e')
        | (st, Ok _) => (st, Err e)
        end
    | Ok sc => reconcile_resolved clock rand sc (labelled (InitializeStatus stored)) st
    end.
Proof.
  intros Hget Hdel Hlab. unfold Reconcile. rewrite Hget. cbv zeta.
  change (DeletionTimestamp (ap_Meta (InitializeStatus stored))) with (DeletionTimestamp (ap_Meta stored)).
  rewrite Hdel. cbn [has]. unfold patch_labels. rewrite bool_decide_eq_true_2; [done|].
  cbn. f_equal. by apply map_subseteq_union.
Qed.

(** The parts of a call that ended without an error. *)
Record succeeded (clock : nat → Z) (rand : Random) (resolver : string → go DiscoveryDocument) (st : RState W)
    (stored : AuthPolicy) (sc sc' : Scope) (rfs : list (ControllerResource W)) (ks : KState W)
    (update : option AuthPolicy) (st1 : RState W) : Prop := {
  su_resolved : resolveAuthPolicy (rs_world st) (Some (InitializeStatus stored)) resolver = Ok sc;
  su_validated : validateAuthPolicy sc = Ok sc';
  su_resources : ControllerResources rand sc' = Ok rfs;
  su_run : doReconcile rfs {| ks_world := rs_world st; ks_calls := rs_calls st; ks_scope := sc' |} = (ks, (no_result, []));
  su_status : status_update clock (ks_scope ks) rfs (labelled (InitializeStatus stored)) = Ok update;
  su_result : st1 =
    let st' := {| rs_world := ks_world ks; rs_calls := ks_calls ks; rs_gauge := rs_gauge st |} in
    match update with Some ap => (UpdateStatus ap st').1 | None => st' end;
  su_quiet : ∀ ap, update = Some ap →
    is_panic (UpdateStatus ap {| rs_world := ks_world ks; rs_calls := ks_calls ks; rs_gauge := rs_gauge st |}).2 = false;
}.

Lemma call_succeeded clock rand resolver (st st1 : RState W) stored :
  policy_get (rs_world st) (policy_key stored) = Found stored → DeletionTimestamp (ap_Meta stored) = None →
  AuthPolicyStandardLabels ⊆ map_or_empty (Labels (ap_Meta stored)) →
  Reconcile clock rand resolver (policy_key stored) st = (st1, Ok no_result) →
  ∃ sc sc' rfs ks update, succeeded clock rand resolver st stored sc sc' rfs ks update st1.
Proof.
  intros Hget Hdel Hlab. rewrite reconcile_labelled by done. cbv zeta. cbn [rs_world].
  destruct (resolveAuthPolicy _ _ _) as [sc|e|m] eqn:Hres; [|by destruct (UpdateStatus _ _) as [? [| |]]|done]. intros Hrec.
  pose proof (resolveAuthPolicy_ok _ _ _ _ Hres) as (_ & Hds & _).
  pose proof (reconcile_resolved_run clock rand sc (labelled (InitializeStatus stored))
    {| rs_world := rs_world st; rs_calls := rs_calls st; rs_gauge := rs_gauge st |} Hds) as Hr. rewrite Hrec in Hr.
  destruct Hr as [(m & Hm)|(sc' & rfs & ks & errs & Hv & Hrfs & Hrun & Hend)]; [done|].
  cbn [rs_world rs_calls rs_gauge] in *.
  pose proof (UpdateAuthPolicyStatus_cases clock (ks_scope ks) (labelled (InitializeStatus stored)) rfs
    {| rs_world := ks_world ks; rs_calls := ks_calls ks; rs_gauge := rs_gauge st |}) as Hcases.
  destruct (status_update _ _ _ _) as [update|e|m] eqn:Hup; [|by rewrite Hcases in Hend..].
  destruct (UpdateAuthPolicyStatus _ _ _ _ _) as [st2 [u|e|m]]; cbn [fst snd after_status is_panic] in *; [..|done].
  all: destruct errs as [|e' errs]; [|done]; injection Hend as ->; destruct Hcases as [-> Hp];
    exists sc, sc', rfs, ks, update; split; try done; by intros ap ->.
Qed.

(** After such a call the objects are those of the run, and the policy differs in
    its status only. *)
Lemma succeeded_state clock rand resolver st stored sc sc' rfs ks update st1 url :
  policy_get (rs_world st) (policy_key stored) = Found stored → GetParsedURL (WellKnownURI (Spec stored)) = Ok url →
  succeeded clock rand resolver st stored sc sc' rfs ks update st1 →
  same_objects (ks_world ks) (rs_world st1) ∧ rs_calls st1 = ks_calls ks ∧
  ∃ s, policy_get (rs_world st1) (policy_key stored) = Found (with_status stored s).
Proof.
  intros Hget Hurl [Hres Hv Hrfs Hrun Hup -> Hquiet].
  pose proof (resolveAuthPolicy_ok _ _ _ _ Hres) as (Hap & Hds & _).
  pose proof (validateAuthPolicy_ok _ _ Hv) as (Hap' & Hds' & _). rewrite Hap in Hap'. rewrite Hds in Hds'.
  destruct (run_state _ _ _ _ _ _ _ Hrfs Hds' Hrun) as (Hap'' & _ & _).
  pose proof (doReconcile_frame _ _ _ {| ks_world := rs_world st; ks_calls := rs_calls st; ks_scope := sc' |}
                (policy_key stored) Hrfs) as Hframe.
  rewrite Hrun in Hframe. cbn [fst ks_world] in Hframe. rewrite Hget in Hframe. cbv zeta.
  split; [|split].
  - destruct update; [apply update_same_objects|done].
  - destruct update; [apply UpdateStatus_fields|done].
  - destruct (status_outcome clock (ks_scope ks) rfs stored
      {| rs_world := ks_world ks; rs_calls := ks_calls ks; rs_gauge := rs_gauge st |} url update Hurl) with
      (l := Labels (ap_Meta (labelled (InitializeStatus stored)))) as (s & Hs & _); [congruence|done|exact Hquiet|exact Hup|].
    by exists s.
Qed.
(** A scope that was validated has a message if it is invalid. *)
Lemma validated_message sc sc' :
  validateAuthPolicy sc = Ok sc' → sc_InvalidConfig sc' = true → is_Some (sc_ValidationErrorMessage sc').
Proof. intros Hv. destruct (validate_runs sc) as (invalid & message & Hv' & Hm). rewrite Hv in Hv'. by injection Hv' as ->. Qed.

Lemma status_after_run clock rand sc (rfs : list (ControllerResource W)) w calls ks errs original :
  ControllerResources rand sc = Ok rfs → sc_Descendants sc = [] →
  (sc_InvalidConfig sc = true → is_Some (sc_ValidationErrorMessage sc)) →
  doReconcile rfs {| ks_world := w; ks_calls := calls; ks_scope := sc |} = (ks, (no_result, errs)) →
  ∃ update, status_update clock (ks_scope ks) rfs original = Ok update.
Proof.
  intros Hrfs Hds Hm Hrun.
  destruct (doReconcile_spec rfs {| ks_world := w; ks_calls := calls; ks_scope := sc |}
    (ControllerResources_lawful _ _ _ Hrfs) (ControllerResources_distinct _ _ _ Hrfs) Hds)
    as (ks' & outs & dss & Heq & _ & Hsc). rewrite Hrun in Heq. injection Heq as <- _.
  pose proof (status_quiet clock (ks_scope ks) rfs original) as Hq.
  destruct (status_update _ _ _ _) as [update|e|m]; [by exists update|..]; by (discriminate Hq; rewrite Hsc).
Qed.

(** The policy whose status is written has the texts of the stored one. *)
Lemma updated_policy clock rand sc (rfs : list (ControllerResource W)) w calls ks errs original ap :
  status_update clock (ks_scope ks) rfs original = Ok (Some ap) →
  doReconcile rfs {| ks_world := w; ks_calls := calls; ks_scope := sc |} = (ks, (no_result, errs)) →
  ControllerResources rand sc = Ok rfs → sc_Descendants sc = [] →
  metric_texts_utf8 (sc_AuthPolicy sc) → metric_texts_utf8 ap.
Proof.
  intros (n & _ & Hup%Ok_inj)%go_bind_ok Hrun Hrfs Hds Hmet. destruct (status_equal _ _); [done|]. injection Hup as <-.
  destruct (run_state _ _ _ _ _ _ _ Hrfs Hds Hrun) as (Hap & _ & _). by rewrite Hap.
Qed.

(** The parts of the second call. *)
Lemma succeeded_again clock clock' rand rand' resolver st stored sc sc' rfs ks update st1 s :
  metric_texts_utf8 stored → (∀ n, is_ok (rand n) = true) → (∀ n, is_ok (rand' n) = true) → (∀ v, is_ok (yaml_marshal v) = true) →
  succeeded clock rand resolver st stored sc sc' rfs ks update st1 →
  same_objects (ks_world ks) (rs_world st1) →
  (∀ s, resolveAuthPolicy (rs_world st1) (Some (with_status stored s)) resolver =
        resolveAuthPolicy (rs_world st) (Some (with_status stored s)) resolver) →
  let x := Status (InitializeStatus (with_status stored s)) in
  ∃ rfs' ks' update' st2,
    succeeded clock' rand' resolver st1 (with_status stored s) (with_scope_status sc x) (with_scope_status sc' x)
      rfs' ks' update' st2 ∧
    (∃ calls, ks_calls ks' = rs_calls st1 ++ calls ∧ Forall idle_call calls) ∧ ks_world ks' = rs_world st1.
Proof.
  intros Hmet Hr Hr' Hy [Hres Hv Hrfs Hrun _ _ _] Hw Hsame x.
  destruct (resources_again rand rand' sc' rfs Hr' Hy Hrfs) as [rfs' Hrfs'].
  destruct (run_after_status rand rand' {| ks_world := rs_world st; ks_calls := rs_calls st; ks_scope := sc' |} rfs rfs' ks
    no_result x (rs_world st1) (rs_calls st1) Hr Hr' Hy Hrfs Hrfs' Hrun Hw)
    as (ks' & calls & Hrun' & Hc & Hid & Hw'). cbn [ks_scope] in Hrun'.
  pose proof (resolveAuthPolicy_ok _ _ _ _ Hres) as (_ & Hds & _).
  pose proof (validateAuthPolicy_ok _ _ Hv) as (_ & Hds' & _). rewrite Hds in Hds'.
  destruct (status_after_run clock' rand' (with_scope_status sc' x) rfs' (rs_world st1) (rs_calls st1) ks' []
    (labelled (InitializeStatus (with_status stored s))) Hrfs' Hds' (validated_message sc sc' Hv) Hrun') as [update' Hup].
  exists rfs', ks', update'. eexists. split; [|split; [by exists calls|done]]. split; [..|reflexivity|]; try done.
  3: { intros ap ->. apply update_quiet. eapply (updated_policy _ _ _ _ _ _ _ _ _ _ Hup Hrun' Hrfs' Hds').
    pose proof (validateAuthPolicy_ok _ _ Hv) as (Hap' & _ & _). pose proof (resolveAuthPolicy_ok _ _ _ _ Hres) as (Hap & _ & _).
    cbn. rewrite Hap', Hap. exact Hmet. }
  - change (InitializeStatus (with_status stored s)) with (with_status stored x). rewrite Hsame.
    apply (resolve_with_status _ _ x _ _ Hres).
  - by apply validate_with_status.
Qed.

(** The next call of [Reconcile] has nothing to do: if a call for a
    labelled policy ended without an error and what the policy refers to still
    resolves to the same, then the next call, at any later time and with fresh
    random bytes, ends without an error, makes no call on an object but patches of it
    with itself, leaves every object as it was, and at most writes the policy's status. *)
Theorem second_call_idle clock clock' rand rand' resolver (st st1 : RState W) stored url :
  policy_get (rs_world st) (policy_key stored) = Found stored → DeletionTimestamp (ap_Meta stored) = None →
  AuthPolicyStandardLabels ⊆ map_or_empty (Labels (ap_Meta stored)) →
  GetParsedURL (WellKnownURI (Spec stored)) = Ok url → metric_texts_utf8 stored →
  (∀ n, is_ok (rand n) = true) → (∀ n, is_ok (rand' n) = true) → (∀ v, is_ok (yaml_marshal v) = true) →
  Reconcile clock rand resolver (policy_key stored) st = (st1, Ok no_result) →
  (∀ s, resolveAuthPolicy (rs_world st1) (Some (with_status stored s)) resolver =
        resolveAuthPolicy (rs_world st) (Some (with_status stored s)) resolver) →
  ∃ st2 s, Reconcile clock' rand' resolver (policy_key stored) st1 = (st2, Ok no_result) ∧
    (∃ calls, rs_calls st2 = rs_calls st1 ++ calls ∧ Forall idle_call calls) ∧ same_objects (rs_world st1) (rs_world st2) ∧
    policy_get (rs_world st2) (policy_key stored) = Found (with_status stored s).
Proof.
  intros Hget Hdel Hlab Hurl Hmet Hr Hr' Hy Hcall Hsame.
  destruct (call_succeeded _ _ _ _ _ _ Hget Hdel Hlab Hcall) as (sc & sc' & rfs & ks & update & Hsu).
  destruct (succeeded_state _ _ _ _ _ _ _ _ _ _ _ _ Hget Hurl Hsu) as (Hobj & _ & s1 & Hget1).
  destruct (succeeded_again clock clock' rand rand' resolver st stored sc sc' rfs ks update st1 s1 Hmet Hr Hr' Hy Hsu Hobj Hsame)
    as (rfs' & ks' & update' & st2 & Hsu2 & (calls & Hcalls & Hid) & Hworld).
  destruct (succeeded_state _ _ _ _ (with_status stored s1) _ _ _ _ _ _ url Hget1 Hurl Hsu2) as (Hobj2 & Hcalls2 & s2 & Hget2).
  exists st2, s2. split_and!; [|exists calls; split; [congruence|done]|by rewrite <-Hworld|exact Hget2].
  change (policy_key stored) with (policy_key (with_status stored s1)).
  rewrite reconcile_labelled by done. destruct Hsu2 as [Hres2 Hv2 Hrfs2 Hrun2 Hup2 -> Hq2].
  cbv zeta. cbn [rs_world]. rewrite Hres2. unfold reconcile_resolved. rewrite Hv2. cbn [mbind go_bind].
  rewrite Hrfs2. cbn [mbind go_bind rs_world rs_calls rs_gauge]. rewrite Hrun2.
  unfold UpdateAuthPolicyStatus. rewrite Hup2. destruct update' as [ap|]; [|done].
  specialize (Hq2 ap eq_refl). by destruct (UpdateStatus ap _) as [st3 [| |]].
Qed.
End second.

(** ** In the cluster *)

#[export] Instance memory_by_uid : OwnershipByUID.
Proof. split. intros m ap ap' Huid. cbn. unfold references_control. by rewrite Huid. Qed.

#[export] Instance cluster_apart {T} `{Stored T} : StatusApart cluster T.
Proof. by split. Qed.

#[export] Instance cluster_server {T} `{!Controlled T} `{!Stored T} : ApiServer cluster T.
Proof.
  split.
  - intros w k c. exact (get_key (W := memory) (cl_objects w) k c).
  - intros w o w' o' Hc.
    change (client_create w o) with (let '(m, r) := client_create (cl_objects w) o in (with_objects w m, r)) in Hc.
    destruct (client_create (cl_objects w) o) as [m r] eqn:Hm. injection Hc as <- ->.
    exact (create_stores (W := memory) _ _ _ _ Hm).
  - intros w c u w' u' Hget Hc.
    change (client_patch w c u) with (let '(m, r) := client_patch (cl_objects w) c u in (with_objects w m, r)) in Hc.
    destruct (client_patch (cl_objects w) c u) as [m r] eqn:Hm. injection Hc as <- ->.
    exact (patch_stores (W := memory) _ _ _ _ _ Hget Hm).
  - intros w k c Hget.
    change (client_patch w c c) with (let '(m, r) := client_patch (cl_objects w) c c in (with_objects w m, r)).
    rewrite (empty_patch (W := memory) (cl_objects w) k c Hget). by destruct w.
  - intros w c w' Hc.
    change (client_delete w c) with (let '(m, r) := client_delete (cl_objects w) c in (with_objects w m, r)) in Hc.
    destruct (client_delete (cl_objects w) c) as [m r] eqn:Hm. injection Hc as <- ->.
    exact (delete_removes (W := memory) _ _ _ Hm).
Qed.

Lemma cluster_moves {T} `{Stored T} k (w w' : cluster) :
  moves (T := T) k w w' → moves (T := T) k (cl_objects w) (cl_objects w').
Proof.
  intros [|t Hk|c t Hk|t Hk]; [apply moves_none|..].
  - pose proof (moves_create k (cl_objects w) t Hk) as Hm. cbn in *. by destruct (memory_get _ _).
  - pose proof (moves_patch k (cl_objects w) c t Hk) as Hm. cbn in *. by destruct (memory_get _ _).
  - pose proof (moves_delete k (cl_objects w) t Hk) as Hm. exact Hm.
Qed.

#[export] Instance cluster_key_frame {T} `{Stored T} : KeyFrame cluster T.
Proof. split. intros k k' w w' Hne Hm%cluster_moves. exact (key_frame (W := memory) _ _ _ _ Hne Hm). Qed.

#[export] Instance cluster_type_frame {T U} `{Stored T} `{Stored U} `{!TypeFrame memory T U} : TypeFrame cluster T U.
Proof. split. intros k k' w w' Hm%cluster_moves. exact (type_frame (W := memory) _ _ _ _ Hm). Qed.

#[local] Existing Instances example_parser example_pb example_yaml content_equal.

Definition first_call : RState cluster * go Result :=
  Reconcile example_clock example_rand idp_resolver app_key (login_cluster "client").

Lemma second_call_idle_witness :
  length (rs_calls first_call.1) = 5 ∧
  ∃ st2 s, Reconcile (λ i, 100 + Z.of_nat i)%Z (λ n, Ok (GoStrings.repeat_char n "y")) idp_resolver app_key first_call.1 =
      (st2, Ok no_result) ∧
    (∃ calls, rs_calls st2 = rs_calls first_call.1 ++ calls ∧ Forall idle_call calls) ∧
    policy_get (rs_world st2) app_key = Found (with_status login_stored s).
Proof.
  split; [vm_compute; reflexivity|].
  assert (first_call = (first_call.1, Ok no_result)) as Hcall.
  { rewrite (surjective_pairing first_call) at 1. f_equal. }
  destruct (second_call_idle example_clock (λ i, 100 + Z.of_nat i)%Z example_rand (λ n, Ok (GoStrings.repeat_char n "y"))
    idp_resolver (login_cluster "client") first_call.1 login_stored {| url_Scheme := "https"; url_Host := "idp.example" |})
    as (st2 & s & Hrec & Hc & _ & Hget).
  - reflexivity.
  - reflexivity.
  - done.
  - vm_compute. reflexivity.
  - exact login_texts.
  - done.
  - done.
  - done.
  - exact Hcall.
  - intros s. vm_compute. reflexivity.
  - exists st2, s. split_and!; [exact Hrec|exact Hc|exact Hget].
Defined.
