(* ===== verification/Exposure.v ===== *)
(** * The workload while a run is under way

    A run changes the cluster one object at a time, the DENY policy before the
    ALLOW policies. What Istio lets through is considered in every state between
    two resources, whether or not the writes succeed. *)

From S2P Require Import Prelude GoStrings GoSlices Api Objects State Examples Kube Generators GeneratorFacts.
From S2P Require Import IstioPolicy Istio IstioExample Enforcement.
From S2P Require Import Reconciliation ReconciliationFacts Resources ResourcesFacts MemoryServer Status StatusFacts.
From S2P Require Import StatusStability Metrics Controller ControllerFacts Convergence.

(** ** The states of a run *)

(** The state after the given resources, errors or not. *)
Definition run_all {W} (rfs : list (ControllerResource W)) (st : KState W) : KState W :=
  foldl (λ st rf, (cr_Reconcile rf st).1) st rfs.

Lemma reconcile_all_state {W} (rfs : list (ControllerResource W)) : ∀ result errs st,
  (reconcile_all rfs result errs st).1 = run_all rfs st.
Proof.
  unfold run_all. induction rfs as [|rf rfs IH]; intros result errs st; [done|].
  cbn [reconcile_all foldl]. destruct (cr_Reconcile rf st) as [st' [r err]]. apply IH.
Qed.

Lemma doReconcile_state {W} (rfs : list (ControllerResource W)) st : (doReconcile rfs st).1 = run_all rfs st.
Proof.
  unfold doReconcile. rewrite <-(reconcile_all_state rfs no_result [] st).
  destruct (reconcile_all rfs no_result [] st) as [st' [r [|e errs]]]; done.
Qed.

(** What the server keeps of an AuthorizationPolicy besides what the engine compares. *)
Class ActionServer (W : Type) `{!Client W AuthorizationPolicy} := {
  create_action w p w' p' s :
    client_create w p = (w', (p', None)) → client_get w' (key_of (azp_Meta p)) = Found s → azp_Action s = azp_Action p;
  patch_action w c p w' p' s :
    client_patch w c p = (w', (p', None)) → client_get w' (key_of (azp_Meta p)) = Found s → azp_Action s = azp_Action p;
}.

Section exposure.
Context {W : Type} `{OwnershipByReferences}.
Context `{!Client W Secret} `{!Client W EnvoyFilter} `{!Client W RequestAuthentication} `{!Client W AuthorizationPolicy}.
Context `{!ApiServer W Secret} `{!ApiServer W EnvoyFilter}.
Context `{!ApiServer W RequestAuthentication} `{!ApiServer W AuthorizationPolicy} `{!KeyFrame W AuthorizationPolicy}.
Context `{!TypeFrame W Secret AuthorizationPolicy} `{!TypeFrame W EnvoyFilter AuthorizationPolicy}.
Context `{!TypeFrame W RequestAuthentication AuthorizationPolicy} `{!ActionServer W}.
Context `{UrlParser} `{StructPb} `{Yaml} `{Growth} `{DeepEqual} `{IstioAuthz}.

Definition policy_at (sc : Scope) (w : W) (name : string) : GetResult AuthorizationPolicy :=
  client_get w {| nn_Namespace := policy_namespace sc; nn_Name := name |}.

Definition found {T} (g : GetResult T) : option T := match g with Found t => Some t | _ => None end.

(** The AuthPolicy's AuthorizationPolicies that the cluster holds. *)
Definition policies_at (sc : Scope) (w : W) : list AuthorizationPolicy :=
  let name := policy_name sc in
  omap (λ n, found (policy_at sc w n)) [DenyPolicy_name name; IgnorePolicy_name name; RequirePolicy_name name].

(** ** One step *)

Section step.
Context (ap : AuthPolicy).

(** A resource only moves its own object. *)
Lemma step_policy {T} `{!Controlled T} `{!Updatable T} `{!Metadata T} `{!Client W T} kind name (desired : option T) st :
  for_policy ap st → for_policy ap (cr_Reconcile (updating kind name desired) st).1.
Proof. unfold for_policy. intros <-. apply run_policy. Qed.

Lemma step_other_type {T} `{!Controlled T} `{!Updatable T} `{!Metadata T} `{!Client W T} `{!ApiServer W T}
    `{!TypeFrame W T AuthorizationPolicy} kind name (desired desired' : option T) st k :
  alike ap name desired desired' → for_policy ap st →
  client_get (T := AuthorizationPolicy) (ks_world (cr_Reconcile (updating kind name desired) st).1) k =
  client_get (ks_world st) k.
Proof.
  intros Hal Hst. eapply (type_frame (T := T)), run_moves; [|done]. intros d. by apply (alike_key ap name desired desired').
Qed.

Lemma step_other_name kind name (desired desired' : option AuthorizationPolicy) st k :
  alike ap name desired desired' → for_policy ap st → k ≠ {| nn_Namespace := Namespace (ap_Meta ap); nn_Name := name |} →
  client_get (T := AuthorizationPolicy) (ks_world (cr_Reconcile (updating kind name desired) st).1) k =
  client_get (ks_world st) k.
Proof.
  intros Hal Hst Hne. eapply (key_frame (T := AuthorizationPolicy)); [|apply run_moves; [|done]]; [by apply not_eq_sym|].
  intros d. by apply (alike_key ap name desired desired').
Qed.

(** A successful run for a desired policy leaves its action, if the object it
    controlled had that action or there was none. *)
Lemma step_action kind name (d : AuthorizationPolicy) st st' r p :
  cr_Reconcile (updating kind name (Some d)) st = (st', (r, None)) →
  key_of (azp_Meta d) = key_in st name →
  (∀ c, client_get (ks_world st) (key_in st name) = Found c →
        is_controlled_by (azp_Meta c) (sc_AuthPolicy (ks_scope st)) = true → azp_Action c = azp_Action d) →
  client_get (ks_world st') (key_in st name) = Found p → azp_Action p = azp_Action d.
Proof.
  intros Hrun Hkey Hc Hp.
  destruct (reconcile_outcome kind name (Some d) should_update update_fields st) as (st1 & r1 & err & Heq & _ & Ho).
  cbn [updating cr_Reconcile adapter] in Hrun. rewrite Hrun in Heq. injection Heq as <- <- <-.
  remember (@None string) as err eqn:Herr in Ho. fold (key_in st name) in Ho.
  destruct Ho as [|d' c msg Hdes Hget Hown Hsu|Hdes|d' m w created err Hdes Hget Hm Hcr e s _ _
    |d' c w patched err Hdes Hget Hown Hsu Hpa e s _ _|c w Hdes|]; subst; try done;
    cbn [report called ks_world] in Hp.
  - injection Hdes as <-. fold (key_in st name) in Hget. rewrite Hget in Hp. injection Hp as <-. by apply Hc.
  - injection Hdes as <-. destruct (set_controller_controls _ _ _ Hm) as (_ & Hn & Hns & _).
    assert (key_of (azp_Meta (set_meta m d)) = key_in st name) as Hk.
    { rewrite <-Hkey. unfold key_of. cbn. by rewrite Hn, Hns. }
    rewrite <-Hk in Hp. by rewrite (create_action _ _ _ _ _ Hcr Hp).
  - injection Hdes as <-. pose proof (get_key _ _ _ Hget) as Hck.
    assert (key_of (azp_Meta (update_fields c d)) = key_in st name) as Hk by exact Hck.
    rewrite <-Hk in Hp. rewrite (patch_action _ _ _ _ _ _ Hpa Hp). cbn. by apply (Hc c Hget Hown).
Qed.

(** A successful run that desires nothing removes what the policy controls. *)
Lemma step_removed kind name st st' r :
  cr_Reconcile (updating (T := AuthorizationPolicy) kind name None) st = (st', (r, None)) →
  (∀ c, client_get (T := AuthorizationPolicy) (ks_world st) (key_in st name) = Found c →
        is_controlled_by (azp_Meta c) (sc_AuthPolicy (ks_scope st)) = true) →
  client_get (T := AuthorizationPolicy) (ks_world st') (key_in st name) = NotFound.
Proof.
  intros Hrun Hc.
  destruct (reconcile_outcome (T := AuthorizationPolicy) kind name None should_update update_fields st)
    as (st1 & r1 & err & Heq & _ & Ho).
  cbn [updating cr_Reconcile adapter] in Hrun. rewrite Hrun in Heq. injection Heq as <- <- <-.
  remember (@None string) as err eqn:Herr in Ho. fold (key_in st name) in Ho.
  destruct Ho as [| |Hdes Hleft Hne| | |c w Hdes Hget Hown Hdel|]; subst; try done; cbn [called ks_world].
  - unfold key_in in *. destruct (client_get (ks_world st) _) as [c| |e] eqn:Hg; [|done|by destruct (Hne e)].
    specialize (Hleft c eq_refl). specialize (Hc c eq_refl). cbn in Hleft. congruence.
  - unfold key_in. rewrite <-(get_key _ _ _ Hget). by apply (delete_removes _ _ _ Hdel).
Qed.
End step.

(** ** The states of a run of the controller *)

Section run.
Context (rand : Random) (st : KState W) (rfs : list (ControllerResource W)).
Hypothesis Hrfs : ControllerResources rand (ks_scope st) = Ok rfs.

#[local] Abbreviation sc := (ks_scope st).
#[local] Abbreviation ap := (sc_AuthPolicy (ks_scope st)).
#[local] Abbreviation name := (policy_name (ks_scope st)).

Definition deny_desired := deny_GetDesired sc (meta_for sc (DenyPolicy_name name)).
Definition ignore_desired := ignore_GetDesired sc (meta_for sc (IgnorePolicy_name name)).
Definition require_desired := require_GetDesired sc (meta_for sc (RequirePolicy_name name)).

Definition deny_step : ControllerResource W := updating "AuthorizationPolicy" (DenyPolicy_name name) deny_desired.
Definition ignore_step : ControllerResource W := updating "AuthorizationPolicy" (IgnorePolicy_name name) ignore_desired.
Definition require_step : ControllerResource W := updating "AuthorizationPolicy" (RequirePolicy_name name) require_desired.

(** The first three resources leave the AuthorizationPolicies alone; then come the
    DENY policy and the two ALLOW policies. *)
Lemma run_shape :
  rfs = take 3 rfs ++ [deny_step; ignore_step; require_step] ∧ length rfs = 6 ∧
  for_policy ap (run_all (take 3 rfs) st) ∧
  ∀ k, client_get (T := AuthorizationPolicy) (ks_world (run_all (take 3 rfs) st)) k = client_get (ks_world st) k.
Proof.
  destruct (ControllerResources_items _ _ _ Hrfs) as (s & f & Hs & Hf & Hit).
  destruct (Hit s) as [Hr _]. rewrite Hr. split; [reflexivity|]. split; [reflexivity|].
  cbn [items fmap list_fmap it_run item take run_all foldl].
  pose proof (secret_alike_self _ _ _ Hs) as Has. pose proof (envoy_filter_alike _ _ Hf) as Haf.
  pose proof (request_authentication_alike sc) as Har. cbv zeta in Har.
  set (st1 := (cr_Reconcile (updating "Secret" _ s) st).1).
  assert (for_policy ap st1) as Hp1 by (by apply step_policy).
  set (st2 := (cr_Reconcile (updating "EnvoyFilter" _ f) st1).1).
  assert (for_policy ap st2) as Hp2 by (by apply step_policy).
  split; [by apply step_policy|]. intros k.
  rewrite (step_other_type ap _ _ _ _ st2 k Har Hp2). unfold st2.
  rewrite (step_other_type ap _ _ _ _ st1 k Haf Hp1). unfold st1.
  by apply (step_other_type ap _ _ _ _ st k Has).
Qed.

Lemma names_apart : DenyPolicy_name name ≠ IgnorePolicy_name name ∧ DenyPolicy_name name ≠ RequirePolicy_name name.
Proof. split; by apply names_differ. Qed.

Hypothesis Hok : (cr_Reconcile deny_step (run_all (take 3 rfs) st)).2.2 = None.

Lemma deny_run : ∃ st' r, cr_Reconcile deny_step (run_all (take 3 rfs) st) = (st', (r, None)) ∧
  run_all (take 4 rfs) st = st' ∧ for_policy ap st'.
Proof.
  destruct run_shape as (Hsh & Hlen & Hp & _). pose proof Hok as He.
  pose proof (step_policy ap "AuthorizationPolicy" (DenyPolicy_name name) deny_desired _ Hp) as Hp'.
  unfold deny_step in *. destruct (cr_Reconcile _ (run_all (take 3 rfs) st)) as [st' [r err]] eqn:Hrun. cbn in He. subst err.
  exists st', r. split; [done|]. split; [|exact Hp'].
  assert (take 4 rfs = take 3 rfs ++ [deny_step]) as ->.
  { rewrite Hsh at 1. rewrite take_app, take_take, length_take, Hlen. reflexivity. }
  unfold run_all. rewrite foldl_app. fold (run_all (take 3 rfs) st). cbn [foldl]. unfold deny_step. by rewrite Hrun.
Qed.

(** The later resources leave the DENY policy as it is. *)
Lemma deny_kept n :
  4 ≤ n → policy_at sc (ks_world (run_all (take n rfs) st)) (DenyPolicy_name name) =
          policy_at sc (ks_world (run_all (take 4 rfs) st)) (DenyPolicy_name name).
Proof.
  intros Hn. destruct run_shape as (Hsh & Hlen & _). destruct deny_run as (st4 & r & _ & Hst4 & Hp4).
  destruct names_apart as [Hni Hnr].
  assert (take n rfs = take 4 rfs ++ take (n - 4) [ignore_step; require_step]) as ->.
  { rewrite Hsh at 1 2. rewrite !take_app, !take_take, length_take, Hlen.
    replace (n `min` 3) with 3 by lia. rewrite <-app_assoc. f_equal.
    replace (n - 3 `min` 6) with (S (n - 4)) by (cbn; lia). done. }
  unfold run_all. rewrite foldl_app. fold (run_all (take 4 rfs) st). rewrite Hst4.
  pose proof (step_policy ap "AuthorizationPolicy" (IgnorePolicy_name name) ignore_desired _ Hp4) as Hp5.
  unfold policy_at, policy_namespace. pose proof (ignore_alike sc) as Hai. pose proof (require_alike sc) as Har.
  cbv zeta in Hai, Har.
  destruct (n - 4) as [|[|m]]; cbn [take foldl]; [done| |rewrite take_nil; cbn [foldl]].
  - apply (step_other_name ap _ _ _ _ _ _ Hai Hp4). congruence.
  - unfold require_step. rewrite (step_other_name ap _ _ _ _ _ _ Har Hp5) by congruence.
    apply (step_other_name ap _ _ _ _ _ _ Hai Hp4). congruence.
Qed.

Lemma key_in_for (s : KState W) n : for_policy ap s → key_in s n = {| nn_Namespace := policy_namespace sc; nn_Name := n |}.
Proof. unfold for_policy, key_in. by intros ->. Qed.

(** What the step for the DENY policy leaves, if the object was a DENY policy. *)
Lemma deny_there d :
  deny_desired = Some d →
  (∀ p, policy_at sc (ks_world st) (DenyPolicy_name name) = Found p → azp_Action p = DENY) →
  ∃ p, policy_at sc (ks_world (run_all (take 4 rfs) st)) (DenyPolicy_name name) = Found p ∧
       azp_Action p = DENY ∧ azp_Rules p = azp_Rules d ∧ azp_Selector p = azp_Selector d.
Proof.
  intros Hd Hact. destruct run_shape as (_ & _ & Hp3 & Hsame). destruct deny_run as (st4 & r & Hrun & -> & Hp4).
  assert (azp_Action d = DENY) as Hda by (by eapply deny_action).
  pose proof (deny_alike sc) as Hal. cbv zeta in Hal. fold deny_desired in Hal.
  assert (key_of (azp_Meta d) = key_in (run_all (take 3 rfs) st) (DenyPolicy_name name)) as Hk.
  { rewrite (key_in_for _ _ Hp3). exact (alike_key ap _ _ _ d Hal Hd). }
  pose proof (good_done _ _ (item_good ap "AuthorizationPolicy" _ _ _ Hal) _ _ _ Hp3 Hrun) as Hdone.
  cbn [it_done item] in Hdone. unfold settled in Hdone. rewrite Hd in Hdone.
  unfold deny_step in Hrun. rewrite Hd in Hrun.
  pose proof (step_action "AuthorizationPolicy" (DenyPolicy_name name) d (run_all (take 3 rfs) st) st4 r) as Hsa. rewrite (key_in_for _ _ Hp3) in Hsa, Hk.
  change (key_in (at_world ap (ks_world st4)) (DenyPolicy_name name))
    with {| nn_Namespace := policy_namespace sc; nn_Name := DenyPolicy_name name |} in Hdone.
  change (ks_world (at_world ap (ks_world st4))) with (ks_world st4) in Hdone. unfold policy_at in *.
  destruct (client_get (ks_world st4) _) as [p| |e] eqn:Hg; [|done..]. exists p. split; [done|].
  destruct Hdone as (_ & (Hsel & Hrules & _) & _). split; [|done].
  rewrite <-Hda. apply (Hsa p Hrun Hk); [intros c Hc _; rewrite Hsame in Hc; rewrite Hda; by apply Hact|done].
Qed.

Lemma deny_gone :
  deny_desired = None →
  (∀ p, policy_at sc (ks_world st) (DenyPolicy_name name) = Found p → is_controlled_by (azp_Meta p) ap = true) →
  policy_at sc (ks_world (run_all (take 4 rfs) st)) (DenyPolicy_name name) = NotFound.
Proof.
  intros Hd Hctl. destruct run_shape as (_ & _ & Hp3 & Hsame). destruct deny_run as (st4 & r & Hrun & -> & Hp4).
  unfold deny_step in Hrun. rewrite Hd in Hrun. apply step_removed in Hrun; rewrite (key_in_for _ _ Hp3) in *; [done|].
  intros c. rewrite Hsame, Hp3. apply Hctl.
Qed.

Lemma others_kept nm :
  nm = IgnorePolicy_name name ∨ nm = RequirePolicy_name name →
  policy_at sc (ks_world (run_all (take 4 rfs) st)) nm = policy_at sc (ks_world st) nm.
Proof.
  intros Hnm. destruct run_shape as (_ & _ & Hp3 & Hsame). destruct deny_run as (st4 & r & Hrun & -> & Hp4).
  unfold policy_at. rewrite <-Hsame. pose proof (deny_alike sc) as Hal. cbv zeta in Hal. fold deny_desired in Hal.
  assert ({| nn_Namespace := policy_namespace sc; nn_Name := nm |} ≠
          {| nn_Namespace := Namespace (ap_Meta ap); nn_Name := DenyPolicy_name name |}) as Hne.
  { destruct names_apart. intros [= Hn]. destruct Hnm; congruence. }
  pose proof (step_other_name ap "AuthorizationPolicy" _ _ _ _ _ Hal Hp3 Hne) as Hs. unfold deny_step in Hrun.
  by rewrite Hrun in Hs.
Qed.
End run.

(** ** Properties *)

(** The auth rules reject the request, or nothing is admitted. *)
Definition must_reject (sc : Scope) (r : request) : Prop :=
  sc_InvalidConfig sc = true ∨
  ∃ rule, rule ∈ auth_rules sc ∧ rule_hits r rule = true ∧ base_holds sc r && when_holds r rule = false.

Lemma deny_desired_rejects sc md r :
  Enabled (Spec (sc_AuthPolicy sc)) = true → (sc_InvalidConfig sc = false → conditions_ok sc) → must_reject sc r →
  ∃ d, deny_GetDesired sc md = Some d ∧ policy_matches r d = true.
Proof.
  intros He Hok Hrej. destruct (sc_InvalidConfig sc) eqn:Hi.
  - rewrite deny_shape, He, Hi. cbn [negb]. eexists. split; [done|].
    unfold policy_matches, rule_matches, operation_matches, all_paths_operation. cbn. by rewrite path_match_star.
  - destruct Hrej as [|(rule & Hin & Hhit & Hc)]; [congruence|].
    rewrite deny_shape, He, Hi. cbn [negb]. fold (auth_rules sc).
    pose proof (deny_policy_matches sc md r (Hok eq_refl)) as Hm.
    destruct (auth_rules sc) as [|rule0 rules] eqn:Hrules; [by apply not_elem_of_nil in Hin|].
    eexists. split; [done|]. rewrite Hm. apply negb_true_iff, not_true_iff_false. intros Hall.
    rewrite forallb_true_iff in Hall. specialize (Hall rule Hin). rewrite Hhit, Hc in Hall. done.
Qed.

(** Claim C13. Closing comes first and stays, for an enabled policy whose conditions
    have the admitted form ([conditions_ok], needed if the configuration is valid)
    and where no object that already has the name of the DENY policy has another
    action (the operator does not repair the action, see
    [changed_action_not_restored]): once the step for the DENY policy has
    succeeded, in every later state of the run, whatever fails then and whatever
    other policies select the workload, Istio rejects every request that an auth
    rule rejects, and every request at all if the configuration is invalid. *)
Theorem rejected_throughout rand (st : KState W) rfs n ps r :
  ControllerResources rand (ks_scope st) = Ok rfs →
  let sc := ks_scope st in
  Enabled (Spec (sc_AuthPolicy sc)) = true → (sc_InvalidConfig sc = false → conditions_ok sc) →
  (∀ p, policy_at sc (ks_world st) (DenyPolicy_name (policy_name sc)) = Found p → azp_Action p = DENY) →
  (cr_Reconcile (deny_step st) (run_all (take 3 rfs) st)).2.2 = None →
  4 ≤ n → policies_at sc (ks_world (run_all (take n rfs) st)) ⊆ ps →
  must_reject sc r → allowed ps r = false.
Proof.
  intros Hrfs sc He Hcok Hact Hok Hn Hps Hrej.
  destruct (deny_desired_rejects sc (meta_for sc (DenyPolicy_name (policy_name sc))) r He Hcok Hrej) as (d & Hd & Hm).
  destruct (deny_there rand st rfs Hrfs Hok d Hd Hact) as (p & Hp & Hpa & Hpr & _).
  rewrite <-(deny_kept rand st rfs Hrfs Hok n Hn) in Hp.
  apply not_true_iff_false. rewrite allowed_spec. intros [Hden _].
  assert (p ∈ ps) as Hin.
  { apply Hps. unfold policies_at. fold sc in Hp. apply list_elem_of_omap. eexists. split; [left|]. by rewrite Hp. }
  specialize (Hden p Hin Hpa). unfold policy_matches in *. rewrite Hpr in Hden. congruence.
Qed.

(** Claim C23. Opening is not atomic: when a configuration has become valid again,
    so that the cluster holds no ALLOW policy yet, the state after the DENY
    policy's step lets every request through that no auth rule rejects, with or
    without a token, until the ALLOW policy exists. *)
Theorem opening_window rand (st : KState W) rfs r :
  ControllerResources rand (ks_scope st) = Ok rfs →
  let sc := ks_scope st in
  let name := policy_name sc in
  Enabled (Spec (sc_AuthPolicy sc)) = true → sc_InvalidConfig sc = false → conditions_ok sc →
  (∀ p, policy_at sc (ks_world st) (DenyPolicy_name name) = Found p →
        azp_Action p = DENY ∧ is_controlled_by (azp_Meta p) (sc_AuthPolicy sc) = true) →
  policy_at sc (ks_world st) (IgnorePolicy_name name) = NotFound →
  policy_at sc (ks_world st) (RequirePolicy_name name) = NotFound →
  (cr_Reconcile (deny_step st) (run_all (take 3 rfs) st)).2.2 = None →
  forallb (λ rule, implb (rule_hits r rule) (base_holds sc r && when_holds r rule)) (auth_rules sc) = true →
  allowed (policies_at sc (ks_world (run_all (take 4 rfs) st))) r = true.
Proof.
  intros Hrfs sc name He Hv Hcok Hden Hig Hreq Hok Hadm.
  pose proof (others_kept rand st rfs Hrfs Hok (IgnorePolicy_name name) (or_introl eq_refl)) as Hig'.
  pose proof (others_kept rand st rfs Hrfs Hok (RequirePolicy_name name) (or_intror eq_refl)) as Hreq'.
  fold sc in Hig', Hreq'. rewrite Hig in Hig'. rewrite Hreq in Hreq'.
  unfold policies_at. fold name. cbn [omap list_omap]. rewrite Hig', Hreq'. cbn [found].
  apply allowed_spec. destruct (deny_desired st) as [d|] eqn:Hd.
  - destruct (deny_there rand st rfs Hrfs Hok d Hd) as (p & Hp & Hpa & Hpr & _); [by intros p [? _]%Hden|].
    fold sc in Hp. fold name in Hp. rewrite Hp. cbn [found].
    assert (policy_matches r p = false) as Hm.
    { unfold policy_matches. rewrite Hpr. by apply (denied_iff sc (meta_for sc (DenyPolicy_name name)) r He Hv Hcok). }
    split; [|left]; intros q ->%list_elem_of_singleton; done.
  - pose proof (deny_gone rand st rfs Hrfs Hok Hd) as Hp. fold sc in Hp. fold name in Hp.
    rewrite Hp by (by intros p [_ ?]%Hden). cbn [found]. split; [|left]; intros q Hq%not_elem_of_nil; done.
Qed.
End exposure.

(** ** A run without errors *)

(** The resources before and after one of them, and what it returned. *)
Lemma reconcile_all_at {W} (pre post : list (ControllerResource W)) rf : ∀ result st st' r,
  reconcile_all (pre ++ rf :: post) result [] st = (st', (r, [])) → (cr_Reconcile rf (run_all pre st)).2.2 = None.
Proof.
  induction pre as [|x pre IH]; intros result st st' r; cbn [app reconcile_all run_all foldl].
  - destruct (cr_Reconcile rf st) as [st1 [r1 [e|]]]; [|done]. intros H. by apply reconcile_all_errors in H.
  - destruct (cr_Reconcile x st) as [st1 [r1 [e|]]]; [|apply IH]. intros H. by apply reconcile_all_errors in H.
Qed.

Section success.
Context {W : Type} `{OwnershipByReferences}.
Context `{!Client W Secret} `{!Client W EnvoyFilter} `{!Client W RequestAuthentication} `{!Client W AuthorizationPolicy}.
Context `{!ApiServer W Secret} `{!ApiServer W EnvoyFilter}.
Context `{!ApiServer W RequestAuthentication} `{!ApiServer W AuthorizationPolicy} `{!KeyFrame W AuthorizationPolicy}.
Context `{!TypeFrame W EnvoyFilter Secret} `{!TypeFrame W RequestAuthentication Secret}.
Context `{!TypeFrame W AuthorizationPolicy Secret} `{!TypeFrame W RequestAuthentication EnvoyFilter}.
Context `{!TypeFrame W AuthorizationPolicy EnvoyFilter} `{!TypeFrame W AuthorizationPolicy RequestAuthentication}.
Context `{!TypeFrame W Secret AuthorizationPolicy} `{!TypeFrame W EnvoyFilter AuthorizationPolicy}.
Context `{!TypeFrame W RequestAuthentication AuthorizationPolicy} `{!ActionServer W}.
Context `{UrlParser} `{StructPb} `{Yaml} `{Growth} `{DeepEqual}.

(** Resources that leave one AuthorizationPolicy alone. *)
Definition leaves_policy (ap : AuthPolicy) (k : NamespacedName) (rf : ControllerResource W) : Prop :=
  ∀ st, for_policy ap st →
    for_policy ap (cr_Reconcile rf st).1 ∧
    client_get (T := AuthorizationPolicy) (ks_world (cr_Reconcile rf st).1) k = client_get (ks_world st) k.

Lemma run_leaves_policy ap k rfs : ∀ st,
  Forall (leaves_policy ap k) rfs → for_policy ap st →
  for_policy ap (run_all rfs st) ∧
  client_get (T := AuthorizationPolicy) (ks_world (run_all rfs st)) k = client_get (ks_world st) k.
Proof.
  induction rfs as [|rf rfs IH]; intros st; [done|]. intros [Hrf Hrfs]%Forall_cons_iff Hst. cbn [run_all foldl].
  destruct (Hrf st Hst) as [Hst1 Hg]. destruct (IH _ Hrfs Hst1) as [Hp Hg']. split; [done|]. by rewrite <-Hg.
Qed.

Lemma type_leaves_policy {T} `{!Controlled T} `{!Updatable T} `{!Metadata T} `{!Client W T} `{!ApiServer W T}
    `{!TypeFrame W T AuthorizationPolicy} ap kind name (d : option T) k :
  alike ap name d d → leaves_policy ap k (updating kind name d).
Proof. intros Hal st Hst. split; [by apply step_policy|]. by apply (step_other_type ap kind name d d). Qed.

Lemma name_leaves_policy ap kind name (d : option AuthorizationPolicy) k :
  alike ap name d d → k ≠ {| nn_Namespace := Namespace (ap_Meta ap); nn_Name := name |} →
  leaves_policy ap k (updating kind name d).
Proof. intros Hal Hne st Hst. split; [by apply step_policy|]. by apply (step_other_name ap kind name d d). Qed.

(** What the cluster held under a name decides about the action. *)
Definition action_kept (sc : Scope) (name : string) (desired : option AuthorizationPolicy) (w w' : W) : Prop :=
  ∀ d p, desired = Some d → policy_at sc w' name = Found p →
    (∀ c, policy_at sc w name = Found c → is_controlled_by (azp_Meta c) (sc_AuthPolicy sc) = true →
          azp_Action c = azp_Action d) →
    azp_Action p = azp_Action d.

Lemma step_keeps_action (st st' : KState W) r pre post name d :
  let ap := sc_AuthPolicy (ks_scope st) in
  let k := {| nn_Namespace := Namespace (ap_Meta ap); nn_Name := name |} in
  reconcile_all (pre ++ updating "AuthorizationPolicy" name d :: post) no_result [] st = (st', (r, [])) →
  alike ap name d d → Forall (leaves_policy ap k) pre → Forall (leaves_policy ap k) post →
  action_kept (ks_scope st) name d (ks_world st) (ks_world st').
Proof.
  intros ap k Hrun Hal Hpre Hpost d' p -> Hp Hc. pose proof (reconcile_all_at _ _ _ _ _ _ _ Hrun) as Hok.
  destruct (run_leaves_policy ap k pre st Hpre eq_refl) as [Hst1 Hg1].
  pose proof (reconcile_all_state (pre ++ updating "AuthorizationPolicy" name (Some d') :: post) no_result [] st) as Hst'.
  rewrite Hrun in Hst'. cbn [fst] in Hst'. unfold run_all in Hst'. rewrite foldl_app in Hst'. fold (run_all pre st) in Hst'.
  cbn [foldl] in Hst'. set (rf := updating "AuthorizationPolicy" name (Some d')) in *.
  assert (for_policy ap (cr_Reconcile rf (run_all pre st)).1) as Hst2 by (by apply step_policy).
  destruct (cr_Reconcile rf (run_all pre st)) as [st2 [r2 err]] eqn:Hrf. cbn in Hok. subst err. cbn [fst] in Hst', Hst2.
  fold (run_all post st2) in Hst'. destruct (run_leaves_policy ap k post st2 Hpost Hst2) as [_ Hg2].
  assert (key_in (run_all pre st) name = k) as Hk by (unfold key_in, k; by rewrite Hst1).
  apply (step_action "AuthorizationPolicy" name d' (run_all pre st) st2 r2 p Hrf).
  - rewrite Hk. by destruct Hal as (_ & _ & Hkey).
  - intros c. rewrite Hk, Hg1, Hst1. apply Hc.
  - rewrite Hk, <-Hg2, <-Hst'. exact Hp.
Qed.

Lemma success_actions rand (st : KState W) rfs st' r :
  ControllerResources rand (ks_scope st) = Ok rfs → doReconcile rfs st = (st', (r, [])) →
  let sc := ks_scope st in
  let kept name desired := action_kept sc name desired (ks_world st) (ks_world st') in
  kept (DenyPolicy_name (policy_name sc)) (deny_desired st) ∧
  kept (IgnorePolicy_name (policy_name sc)) (ignore_desired st) ∧
  kept (RequirePolicy_name (policy_name sc)) (require_desired st).
Proof.
  intros (s & f & Hs & Hf & Hitems)%ControllerResources_items Hrun%doReconcile_success. cbv zeta.
  rewrite (proj1 (Hitems s)) in Hrun. cbn [items fmap list_fmap it_run item] in Hrun.
  set (ap := sc_AuthPolicy (ks_scope st)) in *.
  pose proof (secret_alike_self _ _ _ Hs) as As. pose proof (envoy_filter_alike _ _ Hf) as Af.
  pose proof (request_authentication_alike (ks_scope st)) as Ar. pose proof (deny_alike (ks_scope st)) as Ad.
  pose proof (ignore_alike (ks_scope st)) as Ai. pose proof (require_alike (ks_scope st)) as Aq. cbv zeta in Ar, Ad, Ai, Aq.
  fold ap in As, Af, Ar, Ad, Ai, Aq. unfold deny_desired, ignore_desired, require_desired. fold ap.
  assert (∀ a b, String.length a ≠ String.length b →
    {| nn_Namespace := Namespace (ap_Meta ap); nn_Name := policy_name (ks_scope st) +:+ a |} ≠
    {| nn_Namespace := Namespace (ap_Meta ap); nn_Name := policy_name (ks_scope st) +:+ b |}) as Hne.
  { intros a b Hab [= Heq]. by apply (names_differ (policy_name (ks_scope st)) a b) in Hab. }
  match type of Hrun with reconcile_all [?a; ?b; ?c; ?x; ?y; ?z] _ _ _ = _ =>
    split_and!;
    [apply (step_keeps_action st st' r [a; b; c] [y; z] _ _ Hrun Ad)
    |apply (step_keeps_action st st' r [a; b; c; x] [z] _ _ Hrun Ai)
    |apply (step_keeps_action st st' r [a; b; c; x; y] [] _ _ Hrun Aq)]
  end;
  repeat (apply List.Forall_cons; [first [by apply type_leaves_policy|by apply name_leaves_policy; [|apply Hne]]|]);
  apply List.Forall_nil.
Qed.

(** Claim C11. A run without errors establishes what is desired: each of the six
    objects is in the cluster, controlled by the policy and with the desired content,
    or, if it is not desired, the policy controls no object of its name; the later
    writes of a run do not undo the earlier ones. The content is: of the Secret, the
    entry of the client secret; of the EnvoyFilter, the selector and the patches; of
    the RequestAuthentication, the selector and the JWT rules; of an
    AuthorizationPolicy, the selector and the rules; and of each, the desired labels
    among its own. The action of an AuthorizationPolicy is not part of it: it is the
    desired one if the cluster held no policy of that name under this control, or
    one with the desired action, before the run. *)
Theorem successful_run_establishes rand (st : KState W) rfs st' r :
  ControllerResources rand (ks_scope st) = Ok rfs → doReconcile rfs st = (st', (r, [])) →
  let sc := ks_scope st in
  let name := policy_name sc in
  (∃ s f,
    secret_GetDesired rand sc (meta_for sc (alc_EnvoySecretName (sc_AutoLoginConfig sc))) = Ok s ∧
    envoy_filter_GetDesired sc (meta_for sc (EnvoyFilter_name name)) = Ok f ∧
    established sc (alc_EnvoySecretName (sc_AutoLoginConfig sc)) s (ks_world st') ∧
    established sc (EnvoyFilter_name name) f (ks_world st')) ∧
  established sc name (request_authentication_GetDesired sc (meta_for sc name)) (ks_world st') ∧
  Forall (λ '(policy, desired),
      established sc policy desired (ks_world st') ∧ action_kept sc policy desired (ks_world st) (ks_world st'))
    [(DenyPolicy_name name, deny_GetDesired sc (meta_for sc (DenyPolicy_name name)));
     (IgnorePolicy_name name, ignore_GetDesired sc (meta_for sc (IgnorePolicy_name name)));
     (RequirePolicy_name name, require_GetDesired sc (meta_for sc (RequirePolicy_name name)))].
Proof.
  intros Hrfs Hrun sc name. destruct (success_actions _ _ _ _ _ Hrfs Hrun) as (Kd & Ki & Kr).
  destruct (success_established _ _ _ _ _ Hrfs Hrun) as (s & f & Hs & Hf & Es & Ef & Er & Ed & Ei & Eq).
  split; [by exists s, f|]. split; [exact Er|]. repeat apply List.Forall_cons; [..|apply List.Forall_nil]; by split.
Qed.

(** Claim C4. A run without errors for an enabled policy whose configuration is
    invalid closes the workload, if no policy under the AuthPolicy's control had been
    changed to ALLOW under the name of the deny policy before: then the cluster holds,
    under that name and under this control, a DENY policy for the workload with one
    rule for all paths and no condition; and under none of the three names does the
    AuthPolicy control an ALLOW policy. *)
Theorem invalid_run_closes rand (st : KState W) rfs st' r :
  ControllerResources rand (ks_scope st) = Ok rfs → doReconcile rfs st = (st', (r, [])) →
  let sc := ks_scope st in
  let name := policy_name sc in
  let controlled p := is_controlled_by (azp_Meta p) (sc_AuthPolicy sc) = true in
  Enabled (Spec (sc_AuthPolicy sc)) = true → sc_InvalidConfig sc = true →
  (∀ p, policy_at sc (ks_world st) (DenyPolicy_name name) = Found p → controlled p → azp_Action p = DENY) →
  (∃ p, policy_at sc (ks_world st') (DenyPolicy_name name) = Found p ∧ controlled p ∧ azp_Action p = DENY ∧
        azp_Selector p = MatchLabels (Selector (Spec (sc_AuthPolicy sc))) ∧
        azp_Rules p = [{| rule_To := [all_paths_operation]; rule_When := [] |}]) ∧
  ∀ p n, n ∈ [DenyPolicy_name name; IgnorePolicy_name name; RequirePolicy_name name] →
    policy_at sc (ks_world st') n = Found p → controlled p → azp_Action p ≠ ALLOW.
Proof.
  intros Hrfs Hrun sc name controlled He Hi Hact. destruct (success_actions _ _ _ _ _ Hrfs Hrun) as (Kd & _ & _).
  destruct (success_established _ _ _ _ _ Hrfs Hrun) as (s & f & _ & _ & _ & _ & _ & Hdeny & Hig & Hreq).
  fold sc name in Hdeny, Hig, Hreq. unfold action_kept, deny_desired in Kd. fold sc name in Kd.
  unfold established, deny_GetDesired, ignore_GetDesired, require_GetDesired in *.
  rewrite He, Hi in *. cbn [negb] in *. fold (policy_at sc (ks_world st') (DenyPolicy_name name)) in Hdeny.
  fold (policy_at sc (ks_world st') (IgnorePolicy_name name)) in Hig.
  fold (policy_at sc (ks_world st') (RequirePolicy_name name)) in Hreq.
  destruct (policy_at sc (ks_world st') (DenyPolicy_name name)) as [p| |e] eqn:Hg; [|done..].
  destruct Hdeny as (Hc & Hsel & Hrules & _).
  assert (azp_Action p = DENY) as Hp by (apply (Kd _ p eq_refl eq_refl); exact Hact).
  split; [by exists p|]. intros q n Hn Hq Hctl.
  rewrite !elem_of_cons, elem_of_nil in Hn. destruct Hn as [->|[->|[->|[]]]].
  - rewrite Hg in Hq. injection Hq as <-. by rewrite Hp.
  - rewrite Hq in Hig. unfold controlled in Hctl. cbn in Hig. congruence.
  - rewrite Hq in Hreq. unfold controlled in Hctl. cbn in Hreq. congruence.
Qed.
End success.

(** ** The server in memory *)

#[export] Instance memory_actions : ActionServer memory.
Proof.
  split; cbn.
  - intros w p w' p' s. destruct (memory_get w _); try done. intros [= <- <-] Hs.
    pose proof (eq_trans (eq_sym (memory_get_put w p)) Hs) as Heq. by injection Heq as ->.
  - intros w c p w' p' s. destruct (memory_get w _); try done. intros [= <- <-] Hs.
    pose proof (eq_trans (eq_sym (memory_get_put w p)) Hs) as Heq. by injection Heq as ->.
Qed.

#[local] Existing Instances example_parser example_pb example_yaml content_equal.

(** No token, and a path that no rule mentions. *)
Definition anonymous : SimpleRequest := {| sr_path := "/other"; sr_method := "GET"; sr_claims := [] |}.

Lemma login_steps invalid : ∃ rfs,
  ControllerResources example_rand (ks_scope (login_state invalid)) = Ok rfs ∧
  (cr_Reconcile (deny_step (login_state invalid)) (run_all (take 3 rfs) (login_state invalid))).2.2 = None.
Proof.
  apply (ok_match (λ rfs,
    (cr_Reconcile (deny_step (login_state invalid)) (run_all (take 3 rfs) (login_state invalid))).2.2 = None)).
  destruct invalid; vm_compute; reflexivity.
Qed.

Lemma rejected_throughout_witness :
  ∃ rfs, ControllerResources example_rand (ks_scope (login_state true)) = Ok rfs ∧
    @allowed _ simple_authz (policies_at (ks_scope (login_state true)) (ks_world (run_all (take 5 rfs) (login_state true))))
      admin_request = false.
Proof.
  destruct (login_steps true) as (rfs & Hrfs & H).
  exists rfs. split; [done|].
  apply (rejected_throughout example_rand (login_state true) rfs 5); try done.
  - intros p Hp. vm_compute in Hp. by injection Hp as <-.
  - lia.
  - by left.
Defined.

Lemma opening_window_witness :
  ∃ rfs, ControllerResources example_rand (ks_scope (login_state false)) = Ok rfs ∧
    @admits _ (ks_scope (login_state false)) anonymous = false ∧
    @allowed _ simple_authz (policies_at (ks_scope (login_state false)) (ks_world (run_all (take 4 rfs) (login_state false))))
      anonymous = true.
Proof.
  destruct (login_steps false) as (rfs & Hrfs & H).
  exists rfs. split; [done|]. split; [vm_compute; reflexivity|].
  apply (opening_window example_rand (login_state false) rfs (anonymous : @request simple_match) Hrfs); [reflexivity|reflexivity| | | | |exact H|].
  - split; vm_compute; repeat constructor; done.
  - intros p Hp. vm_compute in Hp. injection Hp as <-. split; vm_compute; reflexivity.
  - vm_compute. reflexivity.
  - vm_compute. reflexivity.
  - vm_compute. reflexivity.
Defined.

(** *** Runs without errors *)

Lemma successful_run_establishes_witness :
  ∃ rfs st' r (s : option Secret) (p : AuthorizationPolicy),
    ControllerResources example_rand (ks_scope (login_state false)) = Ok rfs ∧
    doReconcile rfs (login_state false) = (st', (r, [])) ∧ is_Some s ∧
    established (ks_scope (login_state false)) "" s (ks_world st') ∧
    policy_at (ks_scope (login_state false)) (ks_world st') "app-require-auth" = Found p ∧ azp_Action p = ALLOW.
Proof.
  destruct (login_run false) as (rfs & Hrfs & H).
  destruct (doReconcile rfs (login_state false)) as [st' [r errs]] eqn:Hrun. destruct H as [H _]. cbn in H. subst errs.
  destruct (successful_run_establishes example_rand (login_state false) rfs st' r Hrfs Hrun)
    as ((s & f & Hs & Hf & Hes & Hef) & _ & Hps).
  apply Forall_cons_iff in Hps as [_ [_ [[Hest Hkept] _]%Forall_cons_iff]%Forall_cons_iff].
  assert (∃ d, require_GetDesired (ks_scope (login_state false)) (meta_for (ks_scope (login_state false)) "app-require-auth") = Some d
    ∧ azp_Action d = ALLOW) as (d & Hd & Hda) by (eexists; split; [vm_compute; reflexivity|reflexivity]).
  change (RequirePolicy_name (policy_name (ks_scope (login_state false)))) with "app-require-auth" in Hest, Hkept.
  unfold established in Hest. rewrite Hd in Hest.
  change (client_get (ks_world st') {| nn_Namespace := policy_namespace (ks_scope (login_state false)); nn_Name := "app-require-auth" |})
    with (policy_at (ks_scope (login_state false)) (ks_world st') "app-require-auth") in Hest.
  destruct (policy_at (ks_scope (login_state false)) (ks_world st') "app-require-auth") as [p| |e] eqn:Hp; [|done..].
  exists rfs, st', r, s, p. split; [done|]. split; [exact Hrun|]. split_and!; [|exact Hes|done|].
  - assert (is_Some match secret_GetDesired example_rand (ks_scope (login_state false))
                    (meta_for (ks_scope (login_state false)) (alc_EnvoySecretName (sc_AutoLoginConfig (ks_scope (login_state false)))))
                    with Ok s => s | _ => None end) as Hsome by (vm_compute; eauto).
    by rewrite Hs in Hsome.
  - rewrite <-Hda. apply (Hkept d p Hd Hp). intros c Hc _. vm_compute in Hc. discriminate Hc.
Defined.

Lemma invalid_run_closes_witness :
  ∃ rfs st' r,
    ControllerResources example_rand (ks_scope (login_state true)) = Ok rfs ∧
    doReconcile rfs (login_state true) = (st', (r, [])) ∧
    ∃ p, policy_at (ks_scope (login_state true)) (ks_world st') "app-deny-auth-rules" = Found p ∧ azp_Action p = DENY ∧
         azp_Rules p = [{| rule_To := [all_paths_operation]; rule_When := [] |}].
Proof.
  destruct (login_run true) as (rfs & Hrfs & H).
  destruct (doReconcile rfs (login_state true)) as [st' [r errs]] eqn:Hrun. destruct H as [H _]. cbn in H. subst errs.
  destruct (invalid_run_closes example_rand (login_state true) rfs st' r Hrfs Hrun eq_refl eq_refl)
    as [(p & Hp & _ & Ha & _ & Hr) _].
  { intros p Hp _. vm_compute in Hp. by injection Hp as <-. }
  exists rfs, st', r. split; [done|]. split; [exact Hrun|]. exists p. split; [exact Hp|]. split; [exact Ha|exact Hr].
Defined.
