(* ===== verification/SteadyState.v ===== *)
(** * The state that calls of Reconcile settle in

    From the second successful call on, calls change nothing any more: not the
    objects, and not the status either, which every call writes again as it is,
    times of transition included. *)

From S2P Require Import Prelude GoStrings GoSlices Api Objects State Examples PathValidation Kube Resolver ResolverFacts.
From S2P Require Import Generators GeneratorFacts IstioPolicy Reconciliation ReconciliationFacts Resources ResourcesFacts.
From S2P Require Import MemoryServer Status StatusFacts StatusStability Metrics Controller ControllerFacts Cluster.
From S2P Require Import NoPanic Convergence SecondCall.

(** A status update does not change what the resolvers read. *)
Class ReadsApart (W : Type) `{!PolicyClient W} `{!ClusterReader W} := {
  reads_apart w ap : reader_at (policy_update_status w ap).1 = reader_at w;
}.

(** ** What an idle run leaves in the scope *)

Lemma left_by_status `{Updatable T} kind name (desired : option T) got sc x :
  left_by kind name desired got (with_scope_status sc x) = with_scope_status (left_by kind name desired got sc) x.
Proof. by destruct desired, got. Qed.

Lemma left_by_policy `{Updatable T} kind name (desired : option T) got sc :
  sc_AuthPolicy (left_by kind name desired got sc) = sc_AuthPolicy sc.
Proof. by destruct desired, got. Qed.

(** A change of the scope, and calls. *)
Definition Effect : Type := (Scope → Scope) * list ApiCall.

Section loop.
Context {W : Type}.

(** The loop, when no resource changes the cluster: each one has its effect. *)
Lemma reconcile_all_steps ap w (l : list (ControllerResource W * Effect)) :
  Forall (λ p, ∀ sc calls, sc_AuthPolicy sc = ap →
    cr_Reconcile p.1 {| ks_world := w; ks_calls := calls; ks_scope := sc |} =
      ({| ks_world := w; ks_calls := calls ++ p.2.2; ks_scope := p.2.1 sc |}, (no_result, None)) ∧
    sc_AuthPolicy (p.2.1 sc) = ap) l →
  ∀ sc calls, sc_AuthPolicy sc = ap →
    reconcile_all l.*1 no_result [] {| ks_world := w; ks_calls := calls; ks_scope := sc |} =
      ({| ks_world := w; ks_calls := calls ++ concat l.*2.*2; ks_scope := foldl (λ sc g, g sc) sc l.*2.*1 |},
       (no_result, [])).
Proof.
  induction l as [|[rf [g cs]] l IH]; [intros _ sc calls _; cbn; by rewrite app_nil_r|].
  intros [Hp Hl]%Forall_cons_iff sc calls Hsc.
  cbn [fmap list_fmap fst snd reconcile_all foldl concat]. destruct (Hp sc calls Hsc) as [Hrun Hg].
  cbn [fst snd] in Hrun, Hg. rewrite Hrun, app_assoc. by apply IH.
Qed.

Lemma steps_status (gs : list (Scope → Scope)) x :
  Forall (λ g, ∀ sc, g (with_scope_status sc x) = with_scope_status (g sc) x) gs →
  ∀ sc, foldl (λ sc g, g sc) (with_scope_status sc x) gs = with_scope_status (foldl (λ sc g, g sc) sc gs) x.
Proof.
  induction gs as [|g gs IH]; [done|]. intros [Hg Hgs]%Forall_cons_iff sc. cbn [foldl]. rewrite Hg. by apply IH.
Qed.
End loop.

Section item.
Context {W T : Type} `{OwnershipByReferences} `{!Controlled T} `{!Updatable T} `{!Client W T} `{!ApiServer W T}.

(** A settled resource, in any state of the same cluster and policy. *)
Lemma settled_leaves ap kind name (desired : option T) w calls sc :
  settled name desired (at_world ap w) → sc_AuthPolicy sc = ap →
  let got := client_get w {| nn_Namespace := Namespace (ap_Meta ap); nn_Name := name |} in
  cr_Reconcile (updating kind name desired) {| ks_world := w; ks_calls := calls; ks_scope := sc |} =
    ({| ks_world := w; ks_calls := calls ++ idle_calls desired got; ks_scope := left_by kind name desired got sc |},
     (no_result, None)).
Proof.
  intros Hd <-. apply (settled_run kind name desired {| ks_world := w; ks_calls := calls; ks_scope := sc |}). exact Hd.
Qed.
End item.

(** ** What the status depends on *)

(** The kinds and names of the resources, and which are wanted. *)
Definition same_shape {W} (a b : ControllerResource W) : Prop :=
  cr_Kind a = cr_Kind b ∧ cr_Name a = cr_Name b ∧ cr_IsNil a = cr_IsNil b.

Lemma count_shape {W} (rfs rfs' : list (ControllerResource W)) :
  Forall2 same_shape rfs rfs' → CountNonNilResources rfs = CountNonNilResources rfs'.
Proof.
  unfold CountNonNilResources. induction 1 as [|a b rfs rfs' (_ & _ & Hn) _ IH]; [done|].
  rewrite !filter_cons, Hn. case_decide; cbn; by rewrite IH.
Qed.

Lemma missing_shape {W} ds (rfs rfs' : list (ControllerResource W)) :
  Forall2 same_shape rfs rfs' → Forall2 same_shape (missing ds rfs) (missing ds rfs').
Proof.
  unfold missing. induction 1 as [|a b rfs rfs' (Hk & Hn & Hnil) _ IH]; [done|].
  rewrite !filter_cons, Hk, Hn, Hnil. case_decide; [|done]. by constructor.
Qed.

Lemma imap_shape {W} (f : nat → string → string → MetaCondition) (rfs rfs' : list (ControllerResource W)) :
  Forall2 same_shape rfs rfs' →
  imap (λ i rf, f i (cr_Kind rf) (cr_Name rf)) rfs = imap (λ i rf, f i (cr_Kind rf) (cr_Name rf)) rfs'.
Proof.
  intros Hs. revert f. induction Hs as [|a b rfs rfs' (Hk & Hn & _) _ IH]; intros f; [done|].
  cbn. rewrite Hk, Hn. f_equal. apply (IH (λ i, f (S i))).
Qed.

Lemma new_status_shape {W} clock sc (rfs rfs' : list (ControllerResource W)) original :
  Forall2 same_shape rfs rfs' → new_status clock sc rfs original = new_status clock sc rfs' original.
Proof.
  intros Hs. unfold new_status, BuildConditions, BuildMissingResourceConditions, DetermineReconciliationState.
  rewrite (count_shape _ _ Hs).
  pose proof (imap_shape (λ i k n, missing_condition (clock (1 + length (sc_Descendants sc) + i))
    (default [] (Conditions original)) k n) _ _ (missing_shape (sc_Descendants sc) _ _ Hs)) as Hi.
  cbv beta in Hi. by rewrite Hi.
Qed.

(** Of the previous status only the conditions are read. *)
Lemma new_status_original {W} clock sc (rfs : list (ControllerResource W)) o o' :
  default [] (Conditions o) = default [] (Conditions o') → new_status clock sc rfs o = new_status clock sc rfs o'.
Proof. unfold new_status. by intros ->. Qed.

Lemma new_status_scope {W} clock sc x (rfs : list (ControllerResource W)) o :
  new_status clock (with_scope_status sc x) rfs o = new_status clock sc rfs o.
Proof. reflexivity. Qed.

(** ** The scope after an idle run *)

Section settled.
Context {W : Type} `{OwnershipByReferences} `{!OwnershipByUID}.
Context `{!Client W Secret} `{!Client W EnvoyFilter} `{!Client W RequestAuthentication} `{!Client W AuthorizationPolicy}.
Context `{!ApiServer W Secret} `{!ApiServer W EnvoyFilter}.
Context `{!ApiServer W RequestAuthentication} `{!ApiServer W AuthorizationPolicy} `{!KeyFrame W AuthorizationPolicy}.
Context `{!TypeFrame W EnvoyFilter Secret} `{!TypeFrame W RequestAuthentication Secret}.
Context `{!TypeFrame W AuthorizationPolicy Secret} `{!TypeFrame W RequestAuthentication EnvoyFilter}.
Context `{!TypeFrame W AuthorizationPolicy EnvoyFilter} `{!TypeFrame W AuthorizationPolicy RequestAuthentication}.
Context `{!PolicyClient W} `{!StatusServer W} `{!ClusterReader W} `{!ReadsApart W}.
Context `{!PolicyFrame W Secret} `{!PolicyFrame W EnvoyFilter}.
Context `{!PolicyFrame W RequestAuthentication} `{!PolicyFrame W AuthorizationPolicy}.
Context `{!StatusApart W Secret} `{!StatusApart W EnvoyFilter}.
Context `{!StatusApart W RequestAuthentication} `{!StatusApart W AuthorizationPolicy}.
Context `{UrlParser} `{MapOrder} `{!StructPb} `{Yaml} `{Growth} `{DeepEqual} `{!Retry W} `{Aggregate}.
Context `{!Quiet W} `{!Utf8Names W}.

(** The effects of the six resources. *)
Definition effect_in {T} `{!Controlled T} `{!Updatable T} `{!Client W T} (sc : Scope) (w : W) (kind name : string)
    (desired : option T) : Effect :=
  let got := client_get w {| nn_Namespace := policy_namespace sc; nn_Name := name |} in
  (left_by kind name desired got, idle_calls desired got).

Definition idle_effects (sc : Scope) (s : option Secret) (f : option EnvoyFilter) (w : W) : list Effect :=
  let name := policy_name sc in
  let policy := effect_in sc w "AuthorizationPolicy" in
  [effect_in sc w "Secret" (alc_EnvoySecretName (sc_AutoLoginConfig sc)) s;
   effect_in sc w "EnvoyFilter" (EnvoyFilter_name name) f;
   effect_in sc w "RequestAuthentication" name (request_authentication_GetDesired sc (meta_for sc name));
   policy (DenyPolicy_name name) (deny_GetDesired sc (meta_for sc (DenyPolicy_name name)));
   policy (IgnorePolicy_name name) (ignore_GetDesired sc (meta_for sc (IgnorePolicy_name name)));
   policy (RequirePolicy_name name) (require_GetDesired sc (meta_for sc (RequirePolicy_name name)))].

Definition idle_scope (sc : Scope) (s : option Secret) (f : option EnvoyFilter) (w : W) : Scope :=
  foldl (λ sc g, g sc) sc (idle_effects sc s f w).*1.

Definition calls_in (sc : Scope) (s : option Secret) (f : option EnvoyFilter) (w : W) : list ApiCall :=
  concat (idle_effects sc s f w).*2.

Lemma calls_in_idle sc s f w : Forall idle_call (calls_in sc s f w).
Proof.
  unfold calls_in, idle_effects. cbv zeta. cbn [fmap list_fmap snd effect_in concat].
  repeat (apply Forall_app; split); try apply idle_calls_idle. apply List.Forall_nil.
Qed.

(** Two Secrets, generated for the same scope. *)
Definition secrets_like (s s' : option Secret) : Prop :=
  match s, s' with
  | Some d, Some d' => same_desired d d' ∧ secret_Meta d = secret_Meta d'
  | None, None => True
  | _, _ => False
  end.

Lemma secrets_like_none s s' : secrets_like s s' → s = None ↔ s' = None.
Proof. by destruct s, s'. Qed.

Lemma effect_like sc w kind name s s' :
  secrets_like s s' → effect_in sc w kind name s = effect_in sc w kind name s'.
Proof.
  destruct s as [d|], s' as [d'|]; try done. intros [Hsame Hm]. unfold effect_in, left_by, idle_calls. cbv zeta.
  destruct (client_get _ _) as [c| |]; [|done..]. change (obj_meta d) with (secret_Meta d). rewrite Hm.
  by rewrite (same_should_update c d d' Hsame).
Qed.

Lemma idle_scope_status sc s f w x :
  idle_scope (with_scope_status sc x) s f w = with_scope_status (idle_scope sc s f w) x.
Proof.
  unfold idle_scope. change (idle_effects (with_scope_status sc x) s f w) with (idle_effects sc s f w).
  apply steps_status. unfold idle_effects. cbv zeta. cbn [fmap list_fmap fst effect_in].
  repeat apply List.Forall_cons; try apply List.Forall_nil; intros sc'; apply left_by_status.
Qed.

(** Of the Secret only its token and its metadata matter, and what the cluster holds. *)
Lemma idle_effects_same sc s s' f w w' :
  secrets_like s s' → same_objects w w' → idle_effects sc s f w = idle_effects sc s' f w'.
Proof.
  intros Hs (A1 & A2 & A3 & A4). unfold idle_effects. cbv zeta. rewrite (effect_like _ _ _ _ _ _ Hs).
  unfold effect_in. cbv zeta. by rewrite A1, A2, A3, !A4.
Qed.

Lemma idle_run sc s0 s f w calls acc :
  Forall (λ i, it_done i w) (items sc s0 s f) → sc_AuthPolicy acc = sc_AuthPolicy sc →
  doReconcile (it_again <$> items sc s0 s f) {| ks_world := w; ks_calls := calls; ks_scope := acc |} =
    ({| ks_world := w; ks_calls := calls ++ calls_in sc s f w;
        ks_scope := foldl (λ sc g, g sc) acc (idle_effects sc s f w).*1 |}, (no_result, [])).
Proof.
  intros Hd Hacc. unfold doReconcile.
  assert (it_again <$> items sc s0 s f = (zip (it_again <$> items sc s0 s f) (idle_effects sc s f w)).*1) as Hz
    by reflexivity.
  rewrite Hz, (reconcile_all_steps (sc_AuthPolicy sc) w); [done| |exact Hacc].
  unfold items in Hd. cbv zeta in Hd. rewrite !Forall_cons_iff in Hd. cbn [it_done item] in Hd.
  destruct Hd as (D1 & D2 & D3 & D4 & D5 & D6 & _).
  unfold items, idle_effects. cbv zeta. cbn [fmap list_fmap zip zip_with it_again item].
  repeat apply List.Forall_cons; try apply List.Forall_nil; intros sc' calls' Hsc'; cbn [fst snd effect_in];
    (split; [by apply settled_leaves|by rewrite left_by_policy]).
Qed.

(** ** A call in a settled cluster *)

Lemma update_reads ap (st : RState W) : reader_at (rs_world (UpdateStatus ap st).1) = reader_at (rs_world st).
Proof.
  apply (update_keeps (λ w, reader_at w = reader_at (rs_world st))); [|done].
  intros w ap' Hw. by rewrite reads_apart.
Qed.

Lemma resolve_reads (w w' : W) ap resolver :
  reader_at w = reader_at w' → resolveAuthPolicy w ap resolver = resolveAuthPolicy w' ap resolver.
Proof. unfold resolveAuthPolicy. by intros ->. Qed.

(** A policy resolves to [sc], validated as [sc'], and its objects are as desired. *)
Record settled_for (resolver : string → go DiscoveryDocument) (stored : AuthPolicy) (sc sc' : Scope)
    (s : option Secret) (f : option EnvoyFilter) (w1 : W) : Prop := {
  sf_resolved x : resolveAuthPolicy w1 (Some (with_status stored x)) resolver = Ok (with_scope_status sc x);
  sf_validated : validateAuthPolicy sc = Ok sc';
  sf_policy : ∃ x, sc_AuthPolicy sc' = with_status stored x;
  sf_fresh : sc_Descendants sc' = [];
  sf_items rand : (∀ n, is_ok (rand n) = true) →
    ∃ s', ControllerResources rand sc' = Ok (it_again <$> items sc' s s' f) ∧ secrets_like s s' ∧
          Forall (λ i, it_done i w1) (items sc' s s' f);
}.

(** The status that is rebuilt in such a cluster. *)
Definition settled_status (clock : nat → Z) (sc' : Scope) (s : option Secret) (f : option EnvoyFilter) (w1 : W)
    (previous : AuthPolicyStatus) : go AuthPolicyStatus :=
  new_status clock (idle_scope sc' s f w1) (it_again <$> items (W := W) sc' s s f) previous.

Lemma items_shape sc' s s' (f : option EnvoyFilter) :
  secrets_like s s' →
  Forall2 same_shape (it_again <$> items (W := W) sc' s s' f) (it_again <$> items sc' s s f).
Proof.
  intros Hs. unfold items. cbv zeta. repeat apply List.Forall2_cons; try apply List.Forall2_nil;
    split_and!; try reflexivity.
  by destruct s, s'.
Qed.

(** The run of such a call, and its status. *)
Lemma settled_run_status clock rand resolver stored sc sc' s f w1 w calls x o :
  settled_for resolver stored sc sc' s f w1 → (∀ n, is_ok (rand n) = true) → same_objects w1 w →
  ap_Kind stored = "AuthPolicy" →
  ∃ rfs n, ControllerResources rand (with_scope_status sc' x) = Ok rfs ∧
    let ks := {| ks_world := w; ks_calls := calls ++ calls_in sc' s f w1;
                 ks_scope := with_scope_status (idle_scope sc' s f w1) x |} in
    doReconcile rfs {| ks_world := w; ks_calls := calls; ks_scope := with_scope_status sc' x |} = (ks, (no_result, [])) ∧
    new_status clock (ks_scope ks) rfs o = Ok n ∧ settled_status clock sc' s f w1 o = Ok n ∧
    NoDup (cond_Type <$> default [] (Conditions n)) ∧
    DetermineReconciliationState (ks_scope ks) rfs ≠ StatePending.
Proof.
  intros Hsf Hr Hw Hkind. destruct (sf_items _ _ _ _ _ _ _ Hsf rand Hr) as (s' & Hrfs & Hs & Hd).
  destruct (sf_policy _ _ _ _ _ _ _ Hsf) as [x0 Hap]. pose proof (sf_fresh _ _ _ _ _ _ _ Hsf) as Hds.
  pose proof (validated_message sc sc' (sf_validated _ _ _ _ _ _ _ Hsf)) as Hm.
  set (rfs := it_again <$> items sc' s s' f) in Hrfs.
  assert (doReconcile rfs {| ks_world := w; ks_calls := calls; ks_scope := with_scope_status sc' x |} =
    ({| ks_world := w; ks_calls := calls ++ calls_in sc' s f w1;
        ks_scope := with_scope_status (idle_scope sc' s f w1) x |}, (no_result, []))) as Hrun.
  { change rfs with (it_again <$> items (with_scope_status sc' x) s s' f).
    rewrite (idle_run (with_scope_status sc' x) s s' f w calls (with_scope_status sc' x));
      [|by apply (items_with_status sc' x s s' f w1 w Hw)|done].
    assert (idle_effects sc' s' f w = idle_effects sc' s f w1) as Heff by (symmetry; by apply idle_effects_same).
    change (foldl (λ sc g, g sc) (with_scope_status sc' x) (idle_effects (with_scope_status sc' x) s' f w).*1)
      with (idle_scope (with_scope_status sc' x) s' f w).
    rewrite idle_scope_status. unfold calls_in, idle_scope.
    change (idle_effects (with_scope_status sc' x) s' f w) with (idle_effects sc' s' f w). by rewrite Heff. }
  change (ControllerResources rand (with_scope_status sc' x) = Ok rfs) in Hrfs.
  destruct (status_after_run clock rand (with_scope_status sc' x) rfs w calls _ [] (with_status stored o) Hrfs Hds Hm Hrun)
    as [update Hup].
  apply go_bind_ok in Hup as (n & Hn & _). cbn [Status with_status ks_scope] in Hn.
  exists rfs, n. split; [exact Hrfs|]. cbv zeta. split_and!.
  - exact Hrun.
  - exact Hn.
  - unfold settled_status. rewrite <- Hn, <- (new_status_shape _ _ _ _ _ (items_shape sc' s s' f Hs)). done.
  - refine (run_conditions_distinct clock rand
      {| ks_world := w; ks_calls := calls; ks_scope := with_scope_status sc' x |} rfs _ no_result [] o n _ Hds Hrfs Hrun Hn).
    cbn. by rewrite Hap.
  - pose proof (run_state rand (with_scope_status sc' x) rfs w calls _ [] Hrfs Hds Hrun) as (_ & _ & Hst).
    destruct (sc_InvalidConfig _) in Hst; [by rewrite Hst|]. by rewrite (proj2 Hst eq_refl).
Qed.
(** A run that is not pending writes its status: the one it is compared with is pending. *)
Lemma status_always_written clock sc (rfs : list (ControllerResource W)) ap n :
  status_Phase (Status ap) = PhasePending → new_status clock sc rfs (Status ap) = Ok n →
  DetermineReconciliationState sc rfs ≠ StatePending →
  status_update clock sc rfs ap = Ok (Some (with_status (sc_AuthPolicy sc) n)).
Proof.
  intros Hp Hn Hs. unfold status_update. rewrite Hn. cbn [mbind go_bind].
  destruct (status_equal (Status ap) n) eqn:E; [|done].
  apply status_equal_true in E as (_ & _ & Hph & _). apply new_status_fields in Hn as (_ & Hph' & _).
  rewrite Hph', Hp in Hph. by destruct (DetermineReconciliationState sc rfs).
Qed.

(** A state in which the policy's objects are as desired. *)
Definition settled_state (stored : AuthPolicy) (w1 : W) (x : AuthPolicyStatus) (st : RState W) : Prop :=
  policy_get (rs_world st) (policy_key stored) = Found (with_status stored x) ∧
  same_objects w1 (rs_world st) ∧ reader_at (rs_world st) = reader_at w1.

Context (resolver : string → go DiscoveryDocument) (stored : AuthPolicy) (url : URL).
Hypothesis Hdel : DeletionTimestamp (ap_Meta stored) = None.
Hypothesis Hlab : AuthPolicyStandardLabels ⊆ map_or_empty (Labels (ap_Meta stored)).
Hypothesis Hurl : GetParsedURL (WellKnownURI (Spec stored)) = Ok url.
Hypothesis Hkind : ap_Kind stored = "AuthPolicy".
Hypothesis Hmet : metric_texts_utf8 stored.

Lemma settled_call clock rand sc sc' s f w1 x (st : RState W) :
  settled_for resolver stored sc sc' s f w1 → settled_state stored w1 x st → (∀ n, is_ok (rand n) = true) →
  ∃ st' n, Reconcile clock rand resolver (policy_key stored) st = (st', Ok no_result) ∧
    (∃ calls, rs_calls st' = rs_calls st ++ calls ∧ Forall idle_call calls) ∧ settled_state stored w1 n st' ∧
    settled_status clock sc' s f w1 (Status (InitializeStatus (with_status stored x))) = Ok n ∧
    NoDup (cond_Type <$> default [] (Conditions n)).
Proof.
  intros Hsf (Hget & Hw & Hreads) Hr. set (y := Status (InitializeStatus (with_status stored x))).
  destruct (settled_run_status clock rand resolver stored sc sc' s f w1 (rs_world st) (rs_calls st) y y Hsf Hr Hw Hkind)
    as (rfs & n & Hrfs & Hrun & Hn & Hset & Hnd & Hstate).
  cbv zeta in Hrun. cbn [ks_scope] in Hn, Hstate.
  destruct (sf_policy _ _ _ _ _ _ _ Hsf) as [x0 Hap].
  assert (sc_AuthPolicy (with_scope_status (idle_scope sc' s f w1) y) = with_status stored y) as Hap'.
  { pose proof (run_state rand (with_scope_status sc' y) rfs _ _ _ [] Hrfs (sf_fresh _ _ _ _ _ _ _ Hsf) Hrun) as (Hp & _).
    cbn [ks_scope] in Hp. rewrite Hp. cbn. by rewrite Hap. }
  pose proof (status_always_written clock _ rfs (labelled (InitializeStatus (with_status stored x))) n eq_refl Hn Hstate) as Hup.
  rewrite Hap' in Hup. change (with_status (with_status stored y) n) with (with_status stored n) in Hup.
  set (st1 := {| rs_world := rs_world st; rs_calls := rs_calls st; rs_gauge := rs_gauge st |}).
  set (st2 := {| rs_world := rs_world st; rs_calls := rs_calls st ++ calls_in sc' s f w1; rs_gauge := rs_gauge st |}).
  destruct (UpdateStatus_stores (with_status stored n) st2 (with_status stored x) url Hurl Hget)
    as [[Hp _]|(st' & Hst' & Hget')]; [by rewrite (update_quiet (with_status stored n) st2 Hmet) in Hp|].
  exists st', n. split_and!; [| | |exact Hset|exact Hnd].
  - change (policy_key stored) with (policy_key (with_status stored x)).
    rewrite reconcile_labelled by done. cbv zeta. fold st1.
    change (InitializeStatus (with_status stored x)) with (with_status stored y) at 1.
    rewrite (resolve_reads _ w1) by done. rewrite (sf_resolved _ _ _ _ _ _ _ Hsf y).
    unfold reconcile_resolved. rewrite (validate_with_status sc sc' y (sf_validated _ _ _ _ _ _ _ Hsf)).
    cbn [mbind go_bind]. rewrite Hrfs. cbn [mbind go_bind].
    cbn [st1 rs_world rs_calls rs_gauge]. rewrite Hrun. cbn [ks_world ks_calls ks_scope].
    unfold UpdateAuthPolicyStatus. rewrite Hup. fold st2. by rewrite Hst'.
  - pose proof (UpdateStatus_fields (with_status stored n) st2) as Hc. rewrite Hst' in Hc.
    exists (calls_in sc' s f w1). split; [exact Hc|apply calls_in_idle].
  - pose proof (update_same_objects (with_status stored n) st2) as Ho. rewrite Hst' in Ho. cbn [fst] in Ho.
    pose proof (update_reads (with_status stored n) st2) as Hre. rewrite Hst' in Hre. cbn [fst] in Hre.
    split_and!; [exact Hget'|by etrans|by rewrite Hre].
Qed.
(** A status that the settled cluster rebuilds from itself stays. *)
Lemma steady_call clock rand sc sc' s f w1 n (st : RState W) :
  settled_for resolver stored sc sc' s f w1 → settled_state stored w1 n st → (∀ k, is_ok (rand k) = true) →
  (∀ clock, settled_status clock sc' s f w1 n = Ok n) →
  ∃ st', Reconcile clock rand resolver (policy_key stored) st = (st', Ok no_result) ∧
    (∃ calls, rs_calls st' = rs_calls st ++ calls ∧ Forall idle_call calls) ∧ settled_state stored w1 n st'.
Proof.
  intros Hsf Hst Hr Hn. destruct (settled_call clock rand sc sc' s f w1 n st Hsf Hst Hr) as (st' & n' & Hrec & Hc & Hst' & Hs & _).
  exists st'. split_and!; [exact Hrec|exact Hc|]. assert (n' = n) as ->; [|exact Hst'].
  specialize (Hn clock). unfold settled_status in Hs, Hn.
  rewrite (new_status_original _ _ _ _ n) in Hs; [congruence|]. cbn. by destruct (Conditions n).
Qed.

Lemma steady_calls sc sc' s f w1 n later : ∀ st : RState W,
  settled_for resolver stored sc sc' s f w1 → settled_state stored w1 n st →
  (∀ clock, settled_status clock sc' s f w1 n = Ok n) →
  Forall (λ c : (nat → Z) * Random, ∀ k, is_ok (c.2 k) = true) later →
  let st' := foldl (λ st c, (Reconcile c.1 c.2 resolver (policy_key stored) st).1) st later in
  (∃ calls, rs_calls st' = rs_calls st ++ calls ∧ Forall idle_call calls) ∧ settled_state stored w1 n st'.
Proof.
  induction later as [|[clock rand] later IH]; intros st Hsf Hst Hn.
  { intros _. split; [|done]. exists []. by rewrite app_nil_r. }
  intros [Hr Hl]%Forall_cons_iff.
  destruct (steady_call clock rand sc sc' s f w1 n st Hsf Hst Hr Hn) as (st' & Hrec & (calls & Hc & Hid) & Hst').
  cbn [foldl fst snd]. rewrite Hrec. cbn [fst]. destruct (IH st' Hsf Hst' Hn Hl) as [(calls' & Hc' & Hid') Hst''].
  split; [|done]. exists (calls ++ calls'). rewrite Hc', Hc, app_assoc. split; [done|by apply Forall_app].
Qed.

Lemma scope_status_eta sc : with_scope_status sc (Status (sc_AuthPolicy sc)) = sc.
Proof. by destruct sc as [[] ]. Qed.

(** The first successful call settles the cluster. *)
Lemma succeeded_settles clock rand (st st1 : RState W) sc sc' rfs ks update :
  (∀ n, is_ok (rand n) = true) → (∀ v, is_ok (yaml_marshal v) = true) →
  succeeded clock rand resolver st stored sc sc' rfs ks update st1 → same_objects (ks_world ks) (rs_world st1) →
  (∀ x, resolveAuthPolicy (rs_world st1) (Some (with_status stored x)) resolver =
        resolveAuthPolicy (rs_world st) (Some (with_status stored x)) resolver) →
  ∃ s f, settled_for resolver stored sc sc' s f (rs_world st1).
Proof.
  intros Hr Hy [Hres Hv Hrfs Hrun _ _ _] Hw Hsame.
  destruct (ControllerResources_items _ _ _ Hrfs) as (s & f & Hs & Hf & Hitems). exists s, f.
  pose proof (resolveAuthPolicy_ok _ _ _ _ Hres) as (Hap & Hds & _).
  pose proof (validateAuthPolicy_ok _ _ Hv) as (Hap' & Hds' & _). split.
  - intros x. rewrite Hsame. exact (resolve_with_status _ _ x _ _ Hres).
  - exact Hv.
  - rewrite Hap', Hap. by exists (Status (InitializeStatus stored)).
  - by rewrite Hds', Hds.
  - intros rand' Hr'. destruct (resources_again rand rand' sc' rfs Hr' Hy Hrfs) as [rfs' Hrfs'].
    destruct (ControllerResources_items _ _ _ Hrfs') as (s' & f' & Hs' & Hf' & Hitems').
    assert (f' = f) as -> by congruence. pose proof (secret_alike _ _ _ _ _ Hr Hr' Hy Hs Hs') as Ha.
    exists s'. split_and!.
    + rewrite Hrfs'. f_equal. exact (proj2 (Hitems' s)).
    + destruct s as [d|], s' as [d'|]; try done. split; [by destruct Ha|].
      apply secret_meta in Hs as [-> _], Hs' as [-> _]. done.
    + pose proof (success_done rand {| ks_world := rs_world st; ks_calls := rs_calls st; ks_scope := sc' |} rfs ks no_result
                    s f s' Hrfs Hrun (proj1 (Hitems s')) Ha Hf) as Hd.
      apply (items_with_status sc' (Status (sc_AuthPolicy sc')) _ _ _ _ _ Hw) in Hd. by rewrite scope_status_eta in Hd.
Qed.

(** Claim C12. Calls of [Reconcile] settle after the second. Let a call have ended
    without an error for a policy that carries the operator's labels, is not being
    deleted, has a well-known URI that parses and metric labels in UTF-8; let what the
    policy refers to resolve to the same from then on, let the random source and the
    YAML encoder not fail, and let the server accept status updates and empty patches.
    Then the next call ends without an error and leaves a status that no later call
    changes. However many calls follow, at whatever times and with whatever random
    bytes: none of them fails, the only calls on objects are patches of an object with
    itself (which [reflect.DeepEqual] may ask for in every call), and the objects and
    the stored status, the times of its conditions included, stay what they are. *)
Theorem steady_state clock clock' rand rand' (st st1 : RState W) :
  policy_get (rs_world st) (policy_key stored) = Found stored →
  (∀ n, is_ok (rand n) = true) → (∀ n, is_ok (rand' n) = true) → (∀ v, is_ok (yaml_marshal v) = true) →
  Reconcile clock rand resolver (policy_key stored) st = (st1, Ok no_result) →
  (∀ x, resolveAuthPolicy (rs_world st1) (Some (with_status stored x)) resolver =
        resolveAuthPolicy (rs_world st) (Some (with_status stored x)) resolver) →
  ∃ st2 n, Reconcile clock' rand' resolver (policy_key stored) st1 = (st2, Ok no_result) ∧
    policy_get (rs_world st2) (policy_key stored) = Found (with_status stored n) ∧
    ∀ later, Forall (λ c : (nat → Z) * Random, ∀ k, is_ok (c.2 k) = true) later →
      let st' := foldl (λ st c, (Reconcile c.1 c.2 resolver (policy_key stored) st).1) st2 later in
      policy_get (rs_world st') (policy_key stored) = Found (with_status stored n) ∧
      (∃ calls, rs_calls st' = rs_calls st1 ++ calls ∧ Forall idle_call calls) ∧
      same_objects (rs_world st1) (rs_world st') ∧
      ∀ clock rand, (∀ k, is_ok (rand k) = true) →
        (Reconcile clock rand resolver (policy_key stored) st').2 = Ok no_result.
Proof.
  intros Hget Hr Hr' Hy Hcall Hsame.
  destruct (call_succeeded _ _ _ _ _ _ Hget Hdel Hlab Hcall) as (sc & sc' & rfs & ks & update & Hsu).
  destruct (succeeded_state _ _ _ _ _ _ _ _ _ _ _ _ Hget Hurl Hsu) as (Hobj & _ & x1 & Hget1).
  destruct (succeeded_settles _ _ _ _ _ _ _ _ _ Hr Hy Hsu Hobj Hsame) as (s & f & Hsf).
  destruct (settled_call clock' rand' sc sc' s f (rs_world st1) x1 st1 Hsf)
    as (st2 & n & Hrec & (calls & Hc & Hid) & Hst2 & Hn & Hnd); [done|done|].
  assert (∀ clock, settled_status clock sc' s f (rs_world st1) n = Ok n) as Hfix
    by (intros clock0; by apply (new_status_again clock' clock0 _ _ _ _ Hn)).
  exists st2, n. split_and!; [exact Hrec|apply Hst2|]. intros later Hl.
  destruct (steady_calls sc sc' s f (rs_world st1) n later st2 Hsf Hst2 Hfix Hl) as ((calls' & Hc' & Hid') & Hst').
  cbv zeta. split_and!; [apply Hst'| |apply Hst'|].
  { exists (calls ++ calls'). rewrite Hc', Hc, app_assoc. split; [done|by apply Forall_app]. } intros clock0 rand0 Hr0.
  by destruct (steady_call clock0 rand0 sc sc' s f (rs_world st1) n _ Hsf Hst' Hr0 Hfix) as (st'' & -> & _).
Qed.
End settled.

(** ** In the cluster *)

#[local] Instance cluster_reads : ReadsApart cluster.
Proof. by split. Qed.

#[local] Existing Instances example_parser example_pb example_yaml never_equal.

Definition later_clock (k : Z) (i : nat) : Z := (k + Z.of_nat i)%Z.
Definition other_rand : Random := λ n, Ok (GoStrings.repeat_char n "y").

(** The first call, where no two messages count as equal: every later call patches the
    objects of Istio with themselves. *)
Definition patching_call : RState cluster * go Result :=
  Reconcile example_clock example_rand idp_resolver app_key (login_cluster "client").

(** Two more calls after the second, at other times. *)
Lemma steady_state_witness :
  ∃ st2 n, Reconcile (later_clock 100) other_rand idp_resolver app_key patching_call.1 = (st2, Ok no_result) ∧
    policy_get (rs_world st2) app_key = Found (with_status login_stored n) ∧
    let st4 := (Reconcile (later_clock 300) other_rand idp_resolver app_key
                  (Reconcile (later_clock 200) example_rand idp_resolver app_key st2).1).1 in
    policy_get (rs_world st4) app_key = Found (with_status login_stored n) ∧
    (∃ calls, rs_calls st4 = rs_calls patching_call.1 ++ calls ∧ Forall idle_call calls) ∧
    length (rs_calls patching_call.1) = 5 ∧ length (rs_calls st2) = 9.
Proof.
  assert (patching_call = (patching_call.1, Ok no_result)) as Hcall.
  { rewrite (surjective_pairing patching_call) at 1. f_equal. }
  assert (AuthPolicyStandardLabels ⊆ map_or_empty (Labels (ap_Meta login_stored))) as Hlab by done.
  assert (GetParsedURL (WellKnownURI (Spec login_stored)) = Ok {| url_Scheme := "https"; url_Host := "idp.example" |})
    as Hurl by (vm_compute; reflexivity).
  assert (policy_get (rs_world (login_cluster "client")) (policy_key login_stored) = Found login_stored) as Hget0
    by reflexivity.
  assert (∀ n, is_ok (example_rand n) = true) as Hr by done.
  assert (∀ n, is_ok (other_rand n) = true) as Hr' by done.
  assert (∀ v, is_ok (yaml_marshal v) = true) as Hy by done.
  assert (length (rs_calls (Reconcile (later_clock 100) other_rand idp_resolver app_key patching_call.1).1) = 9) as Hnine
    by (vm_compute; reflexivity).
  destruct (steady_state idp_resolver login_stored {| url_Scheme := "https"; url_Host := "idp.example" |}
    eq_refl Hlab Hurl eq_refl login_texts example_clock (later_clock 100) example_rand other_rand
    (login_cluster "client") patching_call.1 Hget0 Hr Hr' Hy Hcall)
    as (st2 & n & Hrec & Hget & Hlater).
  - intros x. vm_compute. reflexivity.
  - exists st2, n. split; [exact Hrec|]. split; [exact Hget|].
    destruct (Hlater [(later_clock 200, example_rand); (later_clock 300, other_rand)]) as (Hg & Hc & _).
    + repeat constructor.
    + split; [exact Hg|]. split; [exact Hc|]. split; [vm_compute; reflexivity|].
      change (policy_key login_stored) with app_key in Hrec. by rewrite Hrec in Hnine.
Defined.
