(* ===== verification/Aliasing.v ===== *)
(** * The two policies of a call of Reconcile, in memory
    (internal/controller/authpolicy_controller.go, from the read to the patch)

    [Controller] has a policy as a value; the code has a variable, and a deep copy
    of it that is changed while the variable must stay as it is: the labels are
    compared, and the patch is computed, between the two. Here the statements act
    on memory, and the theorem is that they compute what [Controller] says. *)

From S2P Require Import Prelude Api State Kube Reconciliation Resources Controller Memory MemoryFacts DeepCopy DeepCopyFacts.

(** ** The policy that a tree is

    [Api] has a nil and an empty slice as one list. *)

Definition api_OwnerReference (r : OwnerReferenceOf tree) : OwnerReference :=
  {| ref_APIVersion := or_APIVersion r; ref_Kind := or_Kind r; ref_Name := or_Name r; ref_UID := or_UID r;
     ref_Controller := or_Controller r |}.

Definition api_ObjectMeta (m : ObjectMetaOf tree) : ObjectMeta :=
  {| Name := om_Name m; Namespace := om_Namespace m; UID := om_UID m; Generation := om_Generation m;
     Labels := om_Labels m; Annotations := om_Annotations m;
     OwnerReferences := api_OwnerReference <$> default [] (om_OwnerReferences m);
     DeletionTimestamp := om_DeletionTimestamp m |}.

Definition api_ValueFrom (v : ValueFromOf tree) : ValueFrom :=
  {| ConfigMapKeyRef := vf_ConfigMapKeyRef v; SecretKeyRef := vf_SecretKeyRef v |}.

Definition api_AllowedAudience (a : AllowedAudienceOf tree) : AllowedAudience :=
  {| aud_Value := aa_Value a; aud_ValueFrom := api_ValueFrom <$> (aa_ValueFrom a : option (ValueFromOf tree)) |}.

Definition api_AutoLogin (a : AutoLoginOf tree) : AutoLogin :=
  {| al_Enabled := lo_Enabled a; al_LoginPath := lo_LoginPath a; al_RedirectPath := lo_RedirectPath a;
     al_LogoutPath := lo_LogoutPath a; al_PostLogoutRedirectURI := lo_PostLogoutRedirectURI a;
     al_Scopes := default [] (lo_Scopes a); al_LoginParams := map_or_empty (lo_LoginParams a) |}.

Definition api_Condition (c : ConditionOf tree) : Condition :=
  {| Claim := co_Claim c; Values := default [] (co_Values c) |}.

Definition api_RequestMatcher (m : RequestMatcherOf tree) : RequestMatcher :=
  {| Paths := default [] (rm_Paths m); Methods := default [] (rm_Methods m) |}.

Definition api_slice {A B} (f : A → B) (p : option (option (list A))) : option (list B) :=
  (λ s, f <$> default [] s) <$> p.

Definition api_RequestAuthRule (r : RequestAuthRuleOf tree) : RequestAuthRule :=
  {| rule_RequestMatcher := api_RequestMatcher (rr_RequestMatcher r); When := api_slice api_Condition (rr_When r);
     DenyRedirect := rr_DenyRedirect r |}.

Definition api_Spec (s : AuthPolicySpecOf tree) : AuthPolicySpec :=
  {| Enabled := sp_Enabled s; spec_AutoLogin := api_AutoLogin <$> (sp_AutoLogin s : option (AutoLoginOf tree));
     spec_OAuthCredentials := sp_OAuthCredentials s; WellKnownURI := sp_WellKnownURI s;
     AllowedAudiences := api_AllowedAudience <$> default [] (sp_AllowedAudiences s);
     ForwardJwt := sp_ForwardJwt s; OutputClaimToHeaders := api_slice id (sp_OutputClaimToHeaders s);
     AcceptedResources := api_slice id (sp_AcceptedResources s);
     spec_BaselineAuth := (λ b : BaselineAuthOf tree, {| Claims := api_Condition <$> default [] (ba_Claims b) |}) <$>
                            (sp_BaselineAuth s : option (BaselineAuthOf tree));
     AuthRules := api_slice api_RequestAuthRule (sp_AuthRules s);
     IgnoreAuthRules := api_slice api_RequestMatcher (sp_IgnoreAuthRules s);
     Selector := {| MatchLabels := map_or_empty (ws_MatchLabels (sp_Selector s)) |} |}.

Definition api_Status (s : AuthPolicyStatusOf tree) : AuthPolicyStatus :=
  {| ObservedGeneration := st_ObservedGeneration s; Conditions := st_Conditions s; status_Phase := st_Phase s;
     status_Message := st_Message s; Ready := st_Ready s |}.

Definition api_AuthPolicy (t : AuthPolicyOf tree) : AuthPolicy :=
  {| ap_Kind := tm_Kind (po_TypeMeta t); ap_Meta := api_ObjectMeta (po_ObjectMeta t); Spec := api_Spec (po_Spec t);
     Status := api_Status (po_Status t) |}.

(** The variable [p] holds the policy [ap]. *)
Definition policy_at (h : list cell) (p : ptr (AuthPolicyOf in_memory)) (ap : AuthPolicy) : Prop :=
  ∃ t, denote h (Some p) = Some (Some t) ∧ api_AuthPolicy t = ap.

(** ** The statements *)

Definition with_conditions {K} (c : option (kslice K MetaCondition)) (generation : Z) (s : AuthPolicyStatusOf K)
    : AuthPolicyStatusOf K :=
  {| st_ObservedGeneration := generation; st_Conditions := c; st_Phase := PhasePending;
     st_Message := st_Message s; st_Ready := false |}.

Definition with_po_status {K} (s : AuthPolicyStatusOf K) (ap : AuthPolicyOf K) : AuthPolicyOf K :=
  {| po_TypeMeta := po_TypeMeta ap; po_ObjectMeta := po_ObjectMeta ap; po_Spec := po_Spec ap; po_Status := s |}.

Definition with_po_labels {K} (l : option (kmap K)) (ap : AuthPolicyOf K) : AuthPolicyOf K :=
  {| po_TypeMeta := po_TypeMeta ap;
     po_ObjectMeta :=
       {| om_Name := om_Name (po_ObjectMeta ap); om_Namespace := om_Namespace (po_ObjectMeta ap);
          om_UID := om_UID (po_ObjectMeta ap); om_Generation := om_Generation (po_ObjectMeta ap); om_Labels := l;
          om_Annotations := om_Annotations (po_ObjectMeta ap);
          om_OwnerReferences := om_OwnerReferences (po_ObjectMeta ap);
          om_DeletionTimestamp := om_DeletionTimestamp (po_ObjectMeta ap) |};
     po_Spec := po_Spec ap; po_Status := po_Status ap |}.

(** [authPolicy.InitializeStatus()]. *)
Definition AuthPolicy_InitializeStatus (ap : ptr (AuthPolicyOf in_memory)) : mem cell () :=
  v ← load ap;
  conditions ← match st_Conditions (po_Status v) with
               | None => c ← make 0; mret (Some c)
               | Some c => mret (Some c)
               end;
  store ap (with_po_status (with_conditions (K := in_memory) conditions (om_Generation (po_ObjectMeta v)) (po_Status v)) v).

(** Reading a nil map reads an empty one, writing to it panics. *)
Definition entries (m : option gomap) : mem cell (gmap string string) :=
  match m with None => mret ∅ | Some m => load m end.

Definition maps_Equal (m1 m2 : option gomap) : mem cell bool :=
  e1 ← entries m1; e2 ← entries m2; mret (bool_decide (e1 = e2)).

Definition labels_of (v : AuthPolicyOf in_memory) : option gomap := om_Labels (po_ObjectMeta v).

Section reconcile.
Context `{MapOrder} `{MetaCopy}.

Definition maps_Copy (dst : option gomap) (src : gmap string string) : mem cell () :=
  match dst, map_order src with
  | Some dst, src => set_keys dst src
  | None, [] => mret ()
  | None, _ => λ h, Panic "assignment to entry in nil map"
  end.

Definition set_standard_labels (original : ptr (AuthPolicyOf in_memory)) : mem cell () :=
  v ← load original;
  match labels_of v with
  | None => labels ← new ∅; store original (with_po_labels (K := in_memory) (Some labels) v)
  | Some _ => mret ()
  end;;
  v ← load original;
  maps_Copy (labels_of v) AuthPolicyStandardLabels.

(** From [InitializeStatus] to the test that guards the patch: nothing for a policy
    that is being deleted, else the copy and whether it is sent. *)
Definition Reconcile_labels (authPolicy : ptr (AuthPolicyOf in_memory))
    : mem cell (option (ptr (AuthPolicyOf in_memory) * bool)) :=
  AuthPolicy_InitializeStatus authPolicy;;
  originalAuthPolicy ← AuthPolicy_DeepCopy (Some authPolicy);
  a ← load authPolicy;
  if has (om_DeletionTimestamp (K := in_memory) (po_ObjectMeta a)) then mret None
  else
    match originalAuthPolicy with
    | None => nil_dereference
    | Some original =>
        set_standard_labels original;;
        o ← load original;
        a ← load authPolicy;
        equal ← maps_Equal (labels_of o) (labels_of a);
        mret (Some (original, negb equal))
    end.
End reconcile.

(** ** Fields of a policy, one at a time *)

Implicit Types (h : list cell) (p q : ptr (AuthPolicyOf in_memory)) (t : AuthPolicyOf tree).

Lemma denote_policy h (v : AuthPolicyOf in_memory) (t : AuthPolicyOf tree) :
  denote h v = Some t ↔
  po_TypeMeta v = po_TypeMeta t ∧ denote h (po_ObjectMeta v) = Some (po_ObjectMeta t) ∧
  denote h (po_Spec v) = Some (po_Spec t) ∧ denote h (po_Status v) = Some (po_Status t).
Proof.
  destruct v as [tm om sp st], t as [tm' om' sp' st']. cbn [po_TypeMeta po_ObjectMeta po_Spec po_Status].
  change (denote h {| po_TypeMeta := tm; po_ObjectMeta := om; po_Spec := sp; po_Status := st |})
    with (AuthPolicy_struct (K := tree) <$>
            (r ← (om ← denote h om; r ← (sp ← denote h sp; st ← denote h st; Some (sp, st)); Some (om, r)); Some (tm, r))).
  destruct (denote h om), (denote h sp), (denote h st); cbn; naive_solver.
Qed.

Lemma denote_meta h (v : ObjectMetaOf in_memory) (t : ObjectMetaOf tree) :
  denote h v = Some t ↔
  (om_Name v = om_Name t ∧ om_Namespace v = om_Namespace t ∧ om_UID v = om_UID t ∧
   om_Generation v = om_Generation t) ∧
  denote h (om_Labels v : option gomap) = Some (om_Labels t) ∧
  denote h (om_Annotations v : option gomap) = Some (om_Annotations t) ∧
  denote h (om_OwnerReferences v : option (slice (OwnerReferenceOf in_memory))) = Some (om_OwnerReferences t) ∧
  denote h (om_DeletionTimestamp v : option (ptr Z)) = Some (om_DeletionTimestamp t).
Proof.
  destruct v as [n ns u g l a o d], t as [n' ns' u' g' l' a' o' d'].
  cbn [om_Name om_Namespace om_UID om_Generation om_Labels om_Annotations om_OwnerReferences om_DeletionTimestamp].
  change (denote h {| om_Name := n; om_Namespace := ns; om_UID := u; om_Generation := g; om_Labels := l;
                      om_Annotations := a; om_OwnerReferences := o; om_DeletionTimestamp := d |})
    with (ObjectMeta_struct (K := tree) <$>
      (r ← (r ← (r ← (r ← (l ← denote h (l : option gomap);
         r ← (a ← denote h (a : option gomap);
              r ← (o ← denote h (o : option (slice (OwnerReferenceOf in_memory)));
                   d ← denote h (d : option (ptr Z)); Some (o, d)); Some (a, r)); Some (l, r));
       Some (g, r)); Some (u, r)); Some (ns, r)); Some (n, r))).
  destruct (denote h (l : option gomap)), (denote h (a : option gomap)),
    (denote h (o : option (slice (OwnerReferenceOf in_memory)))), (denote h (d : option (ptr Z))); cbn;
    (split; [intros Ht; first [discriminate Ht|injection Ht as <- <- <- <- <- <- <- <-; done]
            |intros ((-> & -> & -> & ->) & Hl & Ha & Ho & Hd); congruence]).
Qed.

Lemma labels_denote h v (t : AuthPolicyOf tree) :
  denote h v = Some t → denote h (labels_of v) = Some (om_Labels (po_ObjectMeta t)).
Proof. intros (_ & Hm & _)%denote_policy. by apply denote_meta in Hm as (_ & Hl & _). Qed.

Lemma with_labels_denote h v (t : AuthPolicyOf tree) (l : option gomap) l' :
  denote h v = Some t → denote h l = Some l' →
  denote h (with_po_labels (K := in_memory) l v) = Some (with_po_labels (K := tree) l' t).
Proof.
  intros (Htm & Hm & Hs & Hst)%denote_policy Hl. apply denote_meta in Hm as (Hf & _ & Hr).
  apply denote_policy. split_and!; [done| |done|done]. apply denote_meta. split_and!; naive_solver.
Qed.

(** What a policy refers to, apart from its labels. *)
Definition reach_rest h (v : AuthPolicyOf in_memory) : list nat :=
  reach h (om_Annotations (po_ObjectMeta v) : option gomap) ++
  reach h (om_OwnerReferences (po_ObjectMeta v) : option (slice (OwnerReferenceOf in_memory))) ++
  reach h (om_DeletionTimestamp (po_ObjectMeta v) : option (ptr Z)) ++
  reach h (po_Spec v) ++ reach h (po_Status v).

Lemma reach_policy h (v : AuthPolicyOf in_memory) : reach h v = reach h (labels_of v) ++ reach_rest h v.
Proof.
  unfold reach_rest. rewrite !app_assoc.
  change (reach h v) with (reach h (po_ObjectMeta v) ++ reach h (po_Spec v) ++ reach h (po_Status v)).
  rewrite !app_assoc. do 2 f_equal. rewrite <- !app_assoc. done.
Qed.

(** Another change of an allocation the rest does not refer to. *)
Lemma reach_rest_local h h' v :
  (∀ l, l ∈ reach_rest h v → h' !! l = h !! l) → reach_rest h' v = reach_rest h v.
Proof.
  intros Hl. set (u := with_po_labels (K := in_memory) None v).
  change (reach_rest h' v) with (reach_rest h' u). change (reach_rest h v) with (reach_rest h u).
  change (∀ l, l ∈ reach_rest h u → h' !! l = h !! l) in Hl.
  assert (∀ k, reach k u = reach_rest k u) as Hu by (intros k; by rewrite reach_policy).
  rewrite <- !Hu in *. by apply denote_local.
Qed.

(** ** InitializeStatus *)

Definition initialized (t : AuthPolicyOf tree) : AuthPolicyOf tree :=
  with_po_status (with_conditions (K := tree) (Some (default [] (st_Conditions (po_Status t))))
                    (om_Generation (po_ObjectMeta t)) (po_Status t)) t.

Lemma api_initialized t : api_AuthPolicy (initialized t) = InitializeStatus (api_AuthPolicy t).
Proof. destruct t as [tm om sp [g [c|] ph m r]]; done. Qed.

Lemma denote_status h (v : AuthPolicyStatusOf in_memory) (t : AuthPolicyStatusOf tree) :
  denote h v = Some t ↔
  denote h (st_Conditions v : option (slice MetaCondition)) = Some (st_Conditions t) ∧
  (st_ObservedGeneration v = st_ObservedGeneration t ∧ st_Phase v = st_Phase t ∧ st_Message v = st_Message t ∧
   st_Ready v = st_Ready t).
Proof.
  destruct v as [g c ph m r], t as [g' c' ph' m' r'].
  cbn [st_ObservedGeneration st_Conditions st_Phase st_Message st_Ready].
  change (denote h {| st_ObservedGeneration := g; st_Conditions := c; st_Phase := ph; st_Message := m; st_Ready := r |})
    with (AuthPolicyStatus_struct (K := tree) <$>
            (x ← (c ← denote h (c : option (slice MetaCondition)); Some (c, (ph, (m, r)))); Some (g, x))).
  destruct (denote h (c : option (slice MetaCondition))); cbn; naive_solver.
Qed.

Lemma reach_status h (v : AuthPolicyStatusOf in_memory) :
  reach h v = reach h (st_Conditions v : option (slice MetaCondition)).
Proof.
  change (reach h v) with (reach h (st_Conditions v : option (slice MetaCondition)) ++ []). apply app_nil_r.
Qed.

(** The conditions with which the status is stored: what a nil slice is replaced by is new. *)
Lemma conditions_ok h (v : AuthPolicyStatusOf in_memory) (t : AuthPolicyStatusOf tree) :
  denote h v = Some t →
  ∃ c h1, match st_Conditions v with
          | None => c ← make (T := MetaCondition) 0; mret (Some c)
          | Some c => mret (Some c)
          end h = Ok (c, h1) ∧
          h `prefix_of` h1 ∧ denote h1 (c : option (slice MetaCondition)) = Some (Some (default [] (st_Conditions t))) ∧
          ∀ l, l ∈ reach h1 c → l ∈ reach h v ∨ length h ≤ l.
Proof.
  intros (Hc & _)%denote_status. destruct (st_Conditions v) as [s|] eqn:Hs.
  - exists (Some s), h. split_and!; [done|done| |].
    + etrans; [exact Hc|]. destruct (st_Conditions t); [done|]. by apply fmap_Some in Hc as (? & _ & [=]).
    + intros l Hl. left. rewrite reach_status, Hs. exact Hl.
  - injection Hc as Hc. rewrite <- Hc. cbn [default].
    exists (Some (Slice (length h) 0 0)), (h ++ [to_cell ([] : list MetaCondition)]). split; [reflexivity|].
    assert (window (h ++ [to_cell ([] : list MetaCondition)]) (length h) 0 0 = Some ([] : list MetaCondition)) as Hw.
    { apply (window_whole _ _ []). by apply list_lookup_middle. }
    destruct (slice_denotes _ (Slice (length h) 0 0) _ [] Hw eq_refl) as [Hd Hr].
    split_and!; [by eexists|exact Hd|]. intros l Hl. right.
    by apply (eq_ind _ (λ ls, l ∈ ls) Hl _), list_elem_of_singleton in Hr as ->.
Qed.

Lemma InitializeStatus_ok h p t :
  denote h (Some p) = Some (Some t) → NoDup (reach h (Some p)) →
  ∃ h', AuthPolicy_InitializeStatus p h = Ok ((), h') ∧ denote h' (Some p) = Some (Some (initialized t)).
Proof.
  intros Hp Hn. destruct (denote_pointer _ _ _ Hp) as (v & rest & Hcell & Hv & Hr).
  rewrite Hr in Hn. apply NoDup_cons in Hn as [Hn _].
  pose proof Hv as (Htm & Hm & Hs & Hst)%denote_policy.
  destruct (conditions_ok h _ _ Hst) as (c & h1 & Hc & Hpre & Hdc & Hrc).
  unfold AuthPolicy_InitializeStatus, mbind, mem_bind. rewrite (load_variable _ _ _ _ Hcell).
  unfold mbind, mem_bind in Hc. rewrite Hc. clear Hc.
  set (v' := with_po_status _ v).
  assert (is_Some (h !! p_loc p)) as [x Hx] by (destruct (h !! p_loc p); [by eexists|done]).
  assert (h1 !! p_loc p ≫= of_cell = Some (v :: rest)) as Hcell1
    by (rewrite (prefix_lookup_Some _ _ _ _ Hx Hpre), <- Hx; done).
  destruct (denote_prefix _ _ _ _ Hpre Hm) as [Hm1 Hrm]. destruct (denote_prefix _ _ _ _ Hpre Hs) as [Hs1 Hrs].
  destruct (store_ok h1 p v rest v' (initialized t) Hcell1) as (-> & Hden & _).
  - apply denote_policy. split_and!; [done|done|done|]. apply denote_status. split; [done|].
    apply denote_meta in Hm as ((_ & _ & _ & Hg) & _). apply denote_status in Hst as (_ & _ & _ & Hmsg & _). done.
  - change (reach h1 v') with (reach h1 (po_ObjectMeta v) ++ reach h1 (po_Spec v) ++ reach h1 (po_Status v')).
    change (reach h v) with (reach h (po_ObjectMeta v) ++ reach h (po_Spec v) ++ reach h (po_Status v)) in Hn.
    rewrite reach_status, Hrm, Hrs. rewrite !not_elem_of_app in Hn |- *. destruct Hn as (Hn1 & Hn2 & Hn3).
    split_and!; [done|done|]. intros [Hl|Hl]%Hrc; [done|]. apply lookup_lt_Some in Hx. lia.
  - eexists. split; [done|exact Hden].
Qed.

(** ** The labels of the copy *)

Lemma with_labels_eta (v : AuthPolicyOf in_memory) (l : option gomap) :
  labels_of v = l → v = with_po_labels (K := in_memory) l v.
Proof. destruct v as [tm [n ns u g l' a o d] sp st]. cbn. by intros ->. Qed.

(** A change of memory that leaves all but the labels' entries alone. *)
Lemma denote_relabelled h h' v t m l' :
  labels_of v = Some m → denote h v = Some t → (∀ l, l ≠ p_loc m → h' !! l = h !! l) →
  p_loc m ∉ reach_rest h v → denote h' (Some m) = Some (Some l') →
  denote h' v = Some (with_po_labels (K := tree) (Some l') t).
Proof.
  intros Hm Hv Heq Hn Hl'. set (u := with_po_labels (K := in_memory) None v).
  assert (denote h u = Some (with_po_labels (K := tree) None t)) as Hu by (by apply with_labels_denote).
  assert (reach h u = reach_rest h v) as Hru by (by rewrite reach_policy).
  assert (denote h' u = Some (with_po_labels (K := tree) None t)) as Hu'.
  { rewrite <- Hu. apply denote_local. rewrite Hru. intros l Hl. apply Heq. congruence. }
  rewrite (with_labels_eta v (Some m) Hm). exact (with_labels_denote h' u _ (Some m) (Some l') Hu' Hl').
Qed.

Section labels.
Context `{MapOrder} `{MetaCopy}.

Lemma maps_Copy_ok h q (t : AuthPolicyOf tree) (l0 src : gmap string string) :
  denote h (Some q) = Some (Some t) → om_Labels (po_ObjectMeta t) = Some l0 → NoDup (reach h (Some q)) →
  ∃ h', (v ← load q; maps_Copy (labels_of v) src) h = Ok ((), h') ∧
        denote h' (Some q) = Some (Some (with_po_labels (K := tree) (Some (src ∪ l0)) t)) ∧
        ∀ l, l ∉ reach h (Some q) → h' !! l = h !! l.
Proof.
  intros Hq Hl0 Hn. destruct (denote_pointer _ _ _ Hq) as (v & rest & Hcell & Hv & Hr).
  pose proof (labels_denote _ _ _ Hv) as Hlab. rewrite Hl0 in Hlab.
  destruct (labels_of v) as [m|] eqn:Hm; [|done].
  destruct (denote_pointer h m l0 Hlab) as (l1 & rest' & Hmcell & [= ->] & Hrm).
  destruct (set_keys_ok m (map_order src) h _ _ Hmcell) as (h' & Hset & Hm' & _ & Hother).
  rewrite range_entries in Hm'.
  rewrite Hr, reach_policy, Hm in Hn.
  assert (reach h (Some m) = [p_loc m]) as Hrm1 by exact Hrm. rewrite Hrm1 in Hn.
  apply NoDup_cons in Hn as [Hqn [Hmn _]%NoDup_cons].
  exists h'. split_and!.
  - unfold mbind, mem_bind. rewrite (load_variable _ _ _ _ Hcell), Hm. exact Hset.
  - apply (pointer_denotes h' q v rest).
    + rewrite Hother; [done|]. intros Heq. apply Hqn. rewrite Heq. by left.
    + apply (denote_relabelled h h' v t m); [done..|]. by apply (pointer_denotes h' m (src ∪ l0) rest').
  - intros l Hl. apply Hother. intros ->. apply Hl. rewrite Hr, reach_policy, Hm. right.
    apply elem_of_app. left. rewrite Hrm1. by left.
Qed.

Definition relabelled (t : AuthPolicyOf tree) : AuthPolicyOf tree :=
  with_po_labels (K := tree) (Some (AuthPolicyStandardLabels ∪ map_or_empty (om_Labels (po_ObjectMeta t)))) t.

(** The map made for a policy without labels. *)
Lemma make_labels_ok h q t v rest :
  h !! p_loc q ≫= of_cell = Some (v :: rest) → denote h v = Some t → NoDup (p_loc q :: reach h v) →
  labels_of v = None →
  let h' := <[p_loc q := to_cell (with_po_labels (K := in_memory) (Some (Ptr (length h))) v :: rest)]>
              (h ++ [to_cell [∅ : gmap string string]]) in
  (labels ← new (∅ : gmap string string); store q (with_po_labels (K := in_memory) (Some labels) v)) h = Ok ((), h') ∧
  denote h' (Some q) = Some (Some (with_po_labels (K := tree) (Some ∅) t)) ∧
  reach h' (Some q) = p_loc q :: length h :: reach h v.
Proof.
  intros Hcell Hv [Hq Hn]%NoDup_cons Hl h'. set (h1 := h ++ [to_cell [∅ : gmap string string]]) in h'.
  assert (h `prefix_of` h1) as Hpre by (by eexists).
  destruct (denote_prefix _ _ _ _ Hpre Hv) as [Hv1 Hr1].
  assert (reach h v = reach_rest h v) as Hrest by (by rewrite reach_policy, Hl).
  assert (reach h1 v = reach_rest h1 v) as Hrest1 by (by rewrite reach_policy, Hl).
  assert (is_Some (h !! p_loc q)) as [x Hx] by (destruct (h !! p_loc q); [by eexists|done]).
  assert (h1 !! length h ≫= of_cell = Some [∅ : gmap string string]) as Hm.
  { unfold h1. rewrite list_lookup_middle by done. apply of_to_cell. }
  destruct (pointer_denotes h1 (Ptr (length h)) (∅ : gmap string string) [] (∅ : gmap string string)) as [Hdm Hrm];
    [done|done|].
  set (v' := with_po_labels (K := in_memory) (Some (Ptr (length h))) v).
  assert (reach h1 v' = length h :: reach h v) as Hrv'.
  { rewrite reach_policy. change (reach_rest h1 v') with (reach_rest h1 v). rewrite <- Hrest1, Hr1.
    change (labels_of v') with (Some (Ptr (T := gmap string string) (length h))). by rewrite Hrm. }
  destruct (store_ok h1 q v rest v' (with_po_labels (K := tree) (Some ∅) t)) as (Hst & Hden & Hreach).
  - unfold h1. rewrite lookup_app_l by (by eapply lookup_lt_Some). done.
  - by apply with_labels_denote.
  - rewrite Hrv'. intros [Heq|Hin]%elem_of_cons; [|done]. apply lookup_lt_Some in Hx. lia.
  - split_and!; [exact Hst|exact Hden|]. etrans; [exact Hreach|]. by rewrite Hrv'.
Qed.
Lemma set_standard_labels_ok h q t :
  denote h (Some q) = Some (Some t) → NoDup (reach h (Some q)) →
  ∃ h', set_standard_labels q h = Ok ((), h') ∧ denote h' (Some q) = Some (Some (relabelled t)) ∧
        ∀ l, l < length h → l ∉ reach h (Some q) → h' !! l = h !! l.
Proof.
  intros Hq Hn. destruct (denote_pointer _ _ _ Hq) as (v & rest & Hcell & Hv & Hr).
  pose proof (labels_denote _ _ _ Hv) as Hlab. unfold set_standard_labels, relabelled.
  unfold mbind at 1, mem_bind at 1. rewrite (load_variable _ _ _ _ Hcell).
  destruct (labels_of v) as [m|] eqn:Hm.
  - destruct (om_Labels (po_ObjectMeta t)) as [l0|] eqn:Hl0;
      [|by apply bind_Some in Hlab as (? & _ & (? & _ & [=])%fmap_Some)].
    destruct (maps_Copy_ok h q t l0 AuthPolicyStandardLabels Hq Hl0 Hn) as (h' & Hrun & Hden & Ho).
    exists h'. split_and!; [exact Hrun|exact Hden|]. intros l _. apply Ho.
  - injection Hlab as Hl0. rewrite <- Hl0. rewrite Hr in Hn.
    destruct (make_labels_ok h q t v rest Hcell Hv Hn Hm) as (Hmake & Hden & Hreach).
    unfold mbind at 1, mem_bind at 1. rewrite Hmake. clear Hmake. revert Hden Hreach.
    set (h1 := <[_ := _]> _). intros Hden Hreach.
    destruct (maps_Copy_ok h1 q (with_po_labels (K := tree) (Some ∅) t) ∅ AuthPolicyStandardLabels Hden eq_refl)
      as (h' & Hrun & Hden' & Ho).
    { rewrite Hreach. apply NoDup_cons in Hn as [Hqn Hn]. pose proof (reach_allocated _ _ _ (p_loc q) Hq) as Hlt.
      rewrite Hr in Hlt. specialize (Hlt ltac:(by left)). apply NoDup_cons. split.
      - intros [Heq|Hin]%elem_of_cons; [lia|done].
      - apply NoDup_cons. split; [|done]. intros Hin%(reach_allocated _ _ _ _ Hv). lia. }
    exists h'. split_and!; [exact Hrun|exact Hden'|]. intros l Hlt Hl. rewrite Ho.
    + unfold h1. rewrite list_lookup_insert_ne; [by apply lookup_app_l|]. intros <-. apply Hl. rewrite Hr. by left.
    + rewrite Hreach. intros [->|[->|Hin]%elem_of_cons]%elem_of_cons; [|lia|]; apply Hl; rewrite Hr; [by left|by right].
Qed.

(** ** The statements compute what the model of the controller says *)

Lemma entries_ok h (m : option gomap) l :
  denote h m = Some l → entries m h = Ok (map_or_empty l, h).
Proof.
  destruct m as [m|]; [|by intros [= <-]]. intros Hm.
  destruct l as [l|]; [|by apply bind_Some in Hm as (? & _ & (? & _ & [=])%fmap_Some)].
  destruct (load_ok _ _ _ Hm) as (v & Hl & [= ->] & _). exact Hl.
Qed.

Lemma union_absorbs (m1 m2 : gmap string string) : m1 ∪ m2 = m2 ↔ m1 ⊆ m2.
Proof. split; [intros <-; apply map_union_subseteq_l|apply map_subseteq_union]. Qed.

Lemma api_relabelled t : api_AuthPolicy (relabelled (initialized t)) = labelled (InitializeStatus (api_AuthPolicy t)).
Proof. by rewrite <- api_initialized. Qed.

Context `{!MetaCopyLaws}.

(** A pointer in memory is nil exactly if it is in the tree. *)
Lemma has_pointer {T D} `{!Cell cell T, !Deep cell T D} h (o : option (ptr T)) (d : option D) :
  denote h o = Some d → has o = has d.
Proof.
  destruct o as [o|]; [|by intros [= <-]]. destruct d; [done|].
  by intros (? & _ & (? & _ & [=])%fmap_Some)%bind_Some.
Qed.

Definition needs_labels t : bool :=
  negb (bool_decide (map_or_empty (om_Labels (po_ObjectMeta (relabelled (initialized t)))) =
                     map_or_empty (om_Labels (po_ObjectMeta t)))).

(** The copy of a policy that is not deleted, once the labels are set. *)
Lemma copy_labels_ok h1 h2 p q t :
  denote h1 (Some p) = Some (Some t) → copied h1 (Some t) (Ok (Some q, h2)) →
  ∃ h3, set_standard_labels q h2 = Ok ((), h3) ∧ denote h2 (Some p) = Some (Some t) ∧
        denote h3 (Some p) = Some (Some t) ∧ denote h3 (Some q) = Some (Some (relabelled t)).
Proof.
  intros Hp1 Hc. destruct (copied_separate h1 (Some p) _ (Some q) h2 Hp1 Hc) as (Hp2 & Hsep & Hnq & _).
  destruct Hc as (_ & Hq2 & _).
  destruct (set_standard_labels_ok h2 q t Hq2 Hnq) as (h3 & Hset & Hq3 & Hother).
  exists h3. split_and!; [done|done| |done].
  rewrite <- Hp2. apply denote_local. intros l Hl. apply Hother; [by eapply reach_allocated|by apply Hsep].
Qed.

Lemma Reconcile_labels_ok h p t :
  denote h (Some p) = Some (Some t) → NoDup (reach h (Some p)) →
  ∃ r h', Reconcile_labels p h = Ok (r, h') ∧ denote h' (Some p) = Some (Some (initialized t)) ∧
          match r with
          | None => has (om_DeletionTimestamp (po_ObjectMeta t)) = true
          | Some (q, patch) =>
              has (om_DeletionTimestamp (po_ObjectMeta t)) = false ∧ patch = needs_labels t ∧
              denote h' (Some q) = Some (Some (relabelled (initialized t)))
          end.
Proof.
  intros Hp Hn. destruct (InitializeStatus_ok h p t Hp Hn) as (h1 & Hinit & Hp1).
  unfold Reconcile_labels. unfold mbind at 1, mem_bind at 1. rewrite Hinit.
  pose proof (copies (f := AuthPolicy_DeepCopy) h1 (Some p) (Some (initialized t)) Hp1) as Hc.
  unfold mbind at 1, mem_bind at 1. destruct (AuthPolicy_DeepCopy (Some p) h1) as [[c h2]| |] eqn:Hcopy; [|done..].
  destruct (copy_not_nil _ _ _ _ _ Hcopy) as [q ->].
  destruct (copy_labels_ok h1 h2 p q _ Hp1 Hc) as (h3 & Hset & Hp2 & Hp3 & Hq3).
  destruct (load_ok _ _ _ Hp2) as (a2 & Ha2 & Hda2 & _).
  unfold mbind at 1, mem_bind at 1. rewrite Ha2.
  apply denote_policy in Hda2 as (_ & (_ & _ & _ & _ & Hdel)%denote_meta & _).
  lazymatch goal with |- context [if ?b then _ else _] =>
    replace b with (has (om_DeletionTimestamp (po_ObjectMeta t))) by (symmetry; exact (has_pointer _ _ _ Hdel)) end.
  destruct (has _) eqn:Hhas; [by exists None, h2|].
  unfold mbind at 1, mem_bind at 1. rewrite Hset.
  destruct (load_ok _ _ _ Hq3) as (o & Ho & Hdo & _). destruct (load_ok _ _ _ Hp3) as (a & Ha & Hda & _).
  unfold mbind at 1, mem_bind at 1. rewrite Ho. unfold mbind at 1, mem_bind at 1. rewrite Ha.
  unfold maps_Equal, mbind, mem_bind, mret, mem_ret.
  rewrite (entries_ok _ _ _ (labels_denote _ _ _ Hdo)), (entries_ok _ _ _ (labels_denote _ _ _ Hda)).
  exists (Some (q, needs_labels t)), h3. done.
Qed.

Lemma if_negb {A} (b : bool) (x y : A) : (if b then x else y) = if negb b then y else x.
Proof. by destruct b. Qed.

Lemma Some_labels ap :
  Labels (ap_Meta (labelled (InitializeStatus ap))) = Some (map_or_empty (Labels (ap_Meta (InitializeStatus ap)))) ↔
  AuthPolicyStandardLabels ∪ map_or_empty (Labels (ap_Meta ap)) = map_or_empty (Labels (ap_Meta ap)).
Proof. split; [by intros [= H']|intros Heq; cbn; by f_equal]. Qed.

(** Claim C14. From the read to the patch, the code computes in memory what the model
    of the controller says of values: the status of the variable is initialized, and
    unless the policy is being deleted the copy has the standard labels as well, the
    variable does not get them, and the patch is sent exactly when the policy that
    was read lacks one of them or has another value for it. *)
Theorem reconcile_labels_refine {W} `{!PolicyClient W} (w : W) h p ap :
  policy_at h p ap → NoDup (reach h (Some p)) →
  ∃ r h', Reconcile_labels p h = Ok (r, h') ∧ policy_at h' p (InitializeStatus ap) ∧
    match r with
    | None => has (DeletionTimestamp (ap_Meta ap)) = true
    | Some (original, patch) =>
        has (DeletionTimestamp (ap_Meta ap)) = false ∧
        policy_at h' original (labelled (InitializeStatus ap)) ∧
        patch = negb (bool_decide (AuthPolicyStandardLabels ⊆ map_or_empty (Labels (ap_Meta ap)))) ∧
        patch_labels (InitializeStatus ap) w =
          if patch then policy_patch w (InitializeStatus ap) (labelled (InitializeStatus ap))
          else (w, (labelled (InitializeStatus ap), None))
    end.
Proof.
  intros (t & Hp & <-) Hn. destruct (Reconcile_labels_ok h p t Hp Hn) as (r & h' & Hrun & Hp' & Hr).
  exists r, h'. split; [exact Hrun|]. split; [exists (initialized t); by rewrite api_initialized|].
  destruct r as [[q patch]|]; [|exact Hr]. destruct Hr as (Hdel & -> & Hq). split_and!.
  - exact Hdel.
  - exists (relabelled (initialized t)). by rewrite api_relabelled.
  - unfold needs_labels. f_equal. apply bool_decide_ext, union_absorbs.
  - unfold patch_labels. rewrite (bool_decide_ext _ _ (Some_labels _)). exact (if_negb _ _ _).
Qed.
End labels.

(** At the memory of [DeepCopyFacts]: the policy has one label of its own. *)
Definition no_server : PolicyClient () := {|
  policy_get _ _ := NotFound;
  policy_patch w _ ap := (w, (ap, None));
  policy_update_status w _ := (w, Updated);
|}.

Lemma reconcile_labels_refine_witness :
  let ap := api_AuthPolicy example_policy_tree in
  ∃ original h', @Reconcile_labels _ example_copy (Ptr 0) example_memory = Ok (Some (original, true), h') ∧
    policy_at h' (Ptr 0) (InitializeStatus ap) ∧ policy_at h' original (labelled (InitializeStatus ap)) ∧
    Labels (ap_Meta ap) = Some {[ "team" := "maps" ]}.
Proof.
  intros ap.
  assert (denote example_memory (Some (Ptr 0 : ptr (AuthPolicyOf in_memory))) = Some (Some example_policy_tree))
    as Hd by (vm_compute; reflexivity).
  destruct (@reconcile_labels_refine _ example_copy example_copy_laws () no_server () example_memory (Ptr 0) ap)
    as (r & h' & Hrun & Hp & Hr).
  - exists example_policy_tree. split; [exact Hd|reflexivity].
  - assert (bool_decide (NoDup (reach example_memory (Some (Ptr 0 : ptr (AuthPolicyOf in_memory))))) = true) as Hn
      by (vm_compute; reflexivity).
    exact (bool_decide_eq_true_1 _ Hn).
  - destruct r as [[original patch]|]; [|discriminate Hr]. destruct Hr as (_ & Ho & Hpatch & _).
    assert (patch = true) as -> by (rewrite Hpatch; vm_compute; reflexivity).
    exists original, h'. split_and!; [exact Hrun|exact Hp|exact Ho|reflexivity].
Defined.
