(* ===== verification/Setup.v ===== *)
(** * Settings, log levels and the scheme (pkg/config, pkg/log, api/v1alpha1/groupversion_info.go)

    What the process sets up once: the configuration read from the environment, the
    logger's levels, and the scheme with the types the client can handle. *)

From S2P Require Import Prelude GoStrings Api Objects State Kube EventHandlers Webhook Startup.

(** ** pkg/config/config.go *)

(** A field of a settings struct with its tags. *)
Record Setting := { set_Name : string; set_split_words : bool; set_default : string }.

(** The only field of [Config]. *)
Definition GitRef_setting : Setting := {| set_Name := "GitRef"; set_split_words := true; set_default := "main" |}.

Definition upper_char (c : ascii) : ascii :=
  let n := nat_of_ascii c in if Nat.leb 97 n && Nat.leb n 122 then ascii_of_nat (n - 32) else c.

Definition is_upper (c : ascii) : bool := let n := nat_of_ascii c in Nat.leb 65 n && Nat.leb n 90.

Fixpoint ToUpper (s : string) : string :=
  match s with "" => "" | String c s => String (upper_char c) (ToUpper s) end.

(** An underscore before every upper-case letter that follows a lower-case one. *)
Fixpoint split_words (after_lower : bool) (s : string) : string :=
  match s with
  | "" => ""
  | String c s =>
      (if after_lower && is_upper c then "_" else "") +:+ String c (split_words (negb (is_upper c)) s)
  end.

(** The variable of a field, as the documentation of envconfig has it. *)
Definition env_key (prefix : string) (f : Setting) : string :=
  ToUpper (prefix +:+ "_" +:+ (if set_split_words f then split_words false (set_Name f) else set_Name f)).

(** [envconfig.Process] on a struct of strings: the variables that are set. *)
Class EnvConfig := {
  Process : string → list Setting → (string → option string) → go (list string);
  process_strings prefix fields env :
    Process prefix fields env = Ok ((λ f, default (set_default f) (env (env_key prefix f))) <$> fields);
}.

Section config.
Context `{EnvConfig}.

(** The variable [cfg], before and after [Load]. *)
Definition cfg_zero : Webhook.Config := {| GitRef := "" |}.

Definition Load (env : string → option string) (cfg : Webhook.Config) : Webhook.Config * option string :=
  match Process "ztoperator" [GitRef_setting] env with
  | Ok [ref] => ({| GitRef := ref |}, None)
  | Ok _ => (cfg, None)
  | Err e | Panic e => (cfg, Some e)
  end.

Definition Get (cfg : Webhook.Config) : Webhook.Config := cfg.

(** [Load] does not fail; the messages about annotations point to the
    revision named by ZTOPERATOR_GIT_REF, to main if the variable is not set, and to
    none at all if it is set to the empty string. *)
Theorem load_git_ref env cfg :
  let '(cfg, err) := Load env cfg in
  err = None ∧ @GitRef (Get cfg) = default "main" (env "ZTOPERATOR_GIT_REF") ∧
  @PodAnnotationErrorMessageSuffix (Get cfg) =
    "see https://github.com/kartverket/ztoperator/blob/" +:+ default "main" (env "ZTOPERATOR_GIT_REF") +:+
    "/README.md#-mounting-oauth-credentials-in-the-istio-sidecar on how to do it correctly".
Proof. unfold Load. by rewrite process_strings. Qed.
End config.

(** ** pkg/log/log.go *)

(** A line at a verbosity ([V(n).Info]), or an error. *)
Inductive Line := InfoLine (verbosity : nat) (msg : string) | ErrorLine (err msg : string).

Inductive LogCall :=
  | Error (err msg : string)
  | Warning (msg : string)
  | Info (msg : string)
  | Debug (msg : string).

(** The four methods of [Logger], on the logger it wraps. *)
Definition Logger_line (c : LogCall) : Line :=
  match c with
  | Error err msg => ErrorLine err msg
  | Warning msg => InfoLine 2 msg
  | Info msg => InfoLine 0 msg
  | Debug msg => InfoLine 1 msg
  end.

(** zap writes a line of verbosity n if the level of its options is at most -n. *)
Definition enabled (level : Z) (l : Line) : bool :=
  match l with InfoLine n _ => Z.leb level (- Z.of_nat n) | ErrorLine _ _ => true end.

(** The level that [main] sets: [zapcore.Level(-1)]. *)
Definition opts_Level : Z := -1.

(** A warning is quieter than a debug message: at every level that writes
    warnings the debug messages are written too, and at the level [main] sets the
    debug messages are written and the warnings are not. *)
Theorem warnings_below_debug level warning debug :
  (enabled level (Logger_line (Warning warning)) = true → enabled level (Logger_line (Debug debug)) = true) ∧
  enabled opts_Level (Logger_line (Debug debug)) = true ∧ enabled opts_Level (Logger_line (Warning warning)) = false.
Proof. cbn. split; [|done]. rewrite !Z.leb_le. lia. Qed.

(** ** The scheme (groupversion_info.go, init in cmd/main.go) *)

Record GroupVersion := { gv_Group : string; gv_Version : string }.

(** The group and version of the operator's own types. *)
Definition ztoperator_GroupVersion : GroupVersion := {| gv_Group := "ztoperator.kartverket.no"; gv_Version := "v1alpha1" |}.

(** A [runtime.Scheme]: the kinds that are registered. *)
Class Scheme (S : Type) := {
  NewScheme : S;
  recognizes : S → GroupVersion → string → bool;
  AddKnownTypes : GroupVersion → list string → S → S;
  AddToGroupVersion : GroupVersion → S → S;
  known_types gv kinds s gv' kind :
    recognizes (AddKnownTypes gv kinds s) gv' kind = true ↔ (gv' = gv ∧ kind ∈ kinds) ∨ recognizes s gv' kind = true;
  group_version_keeps gv s gv' kind : recognizes s gv' kind = true → recognizes (AddToGroupVersion gv s) gv' kind = true;
}.

(** The registration functions of the libraries; they only add kinds. *)
Class Libraries (S : Type) `{Scheme S} := {
  clientgo_AddToScheme : S → go S;
  istio_networking_AddToScheme : S → go S;
  istio_security_AddToScheme : S → go S;
  istio_v1alpha3_AddToScheme : S → go S;
}.

Definition core_v1 : GroupVersion := {| gv_Group := ""; gv_Version := "v1" |}.
Definition security_v1 : GroupVersion := {| gv_Group := "security.istio.io"; gv_Version := "v1" |}.
Definition networking_v1alpha3 : GroupVersion := {| gv_Group := "networking.istio.io"; gv_Version := "v1alpha3" |}.

(** A registration adds the given kinds and drops none. *)
Definition registers {S} `{Scheme S} (add : S → go S) (kinds : list (GroupVersion * string)) : Prop :=
  ∀ s, ∃ s', add s = Ok s' ∧ (∀ gv k, recognizes s gv k = true → recognizes s' gv k = true) ∧
    ∀ gv k, (gv, k) ∈ kinds → recognizes s' gv k = true.

(** Membership in a list that is written out. *)
Ltac here := solve [repeat first [left|right]].

Section scheme.
Context {S : Type} `{!Scheme S}.

Definition addKnownTypes (s : S) : go S :=
  Ok (AddToGroupVersion ztoperator_GroupVersion
        (AddKnownTypes ztoperator_GroupVersion ["AuthPolicy"; "AuthPolicyList"] s)).

(** A [runtime.SchemeBuilder] runs its functions in order, up to the first error. *)
Fixpoint run_builder (builder : list (S → go S)) (s : S) : go S :=
  match builder with [] => Ok s | f :: builder => s ← f s; run_builder builder s end.

Definition SchemeBuilder : list (S → go S) := [addKnownTypes].

Definition AddToScheme : S → go S := run_builder SchemeBuilder.

(** [utilruntime.Must]. *)
Definition Must {A} (m : go A) : go A := match m with Err e => Panic e | m => m end.

Definition init `{!Libraries S} : go S :=
  s ← Must (clientgo_AddToScheme NewScheme);
  s ← Must (istio_networking_AddToScheme s);
  s ← Must (istio_security_AddToScheme s);
  s ← Must (istio_v1alpha3_AddToScheme s);
  Must (AddToScheme s).

Lemma addKnownTypes_registers :
  registers AddToScheme [(ztoperator_GroupVersion, "AuthPolicy"); (ztoperator_GroupVersion, "AuthPolicyList")].
Proof.
  intros s. eexists. split; [reflexivity|]. split.
  - intros gv k Hk. apply group_version_keeps, known_types. by right.
  - intros gv k Hk. apply group_version_keeps, known_types. left. rewrite !elem_of_cons, elem_of_nil in Hk.
    destruct_or? Hk; injection Hk as -> ->; split; set_solver.
Qed.

(** If the libraries register what they document, the initialization does not panic
    and the scheme has every kind that the operator reads or writes, the list type
    included. *)
Theorem scheme_complete `{!Libraries S} networking :
  registers clientgo_AddToScheme [(core_v1, "Secret"); (core_v1, "ConfigMap"); (core_v1, "Pod"); (core_v1, "Namespace")] →
  registers istio_networking_AddToScheme networking →
  registers istio_security_AddToScheme [(security_v1, "RequestAuthentication"); (security_v1, "AuthorizationPolicy")] →
  registers istio_v1alpha3_AddToScheme [(networking_v1alpha3, "EnvoyFilter")] →
  ∃ s, init = Ok s ∧
    Forall (λ gk, recognizes s gk.1 gk.2 = true)
      [(core_v1, "Secret"); (core_v1, "ConfigMap"); (core_v1, "Pod"); (core_v1, "Namespace");
       (security_v1, "RequestAuthentication"); (security_v1, "AuthorizationPolicy"); (networking_v1alpha3, "EnvoyFilter");
       (ztoperator_GroupVersion, authPolicyKind); (ztoperator_GroupVersion, authPolicyKind +:+ "List")].
Proof.
  intros H1 H2 H3 H4. unfold init.
  destruct (H1 NewScheme) as (s1 & -> & _ & Hs1), (H2 s1) as (s2 & Hr2 & Hk2 & _), (H3 s2) as (s3 & Hr3 & Hk3 & Hs3).
  destruct (H4 s3) as (s4 & Hr4 & Hk4 & Hs4), (addKnownTypes_registers s4) as (s5 & Hr5 & Hk5 & Hs5).
  exists s5. cbn. rewrite Hr2. cbn. rewrite Hr3. cbn. rewrite Hr4. split; [exact Hr5|].
  assert (∀ gv k, recognizes s1 gv k = true → recognizes s5 gv k = true) as Hk15 by (intros; apply Hk5, Hk4, Hk3, Hk2; done).
  assert (∀ gv k, recognizes s3 gv k = true → recognizes s5 gv k = true) as Hk35 by (intros; apply Hk5, Hk4; done).
  rewrite !Forall_cons, Forall_nil. cbn [fst snd].
  split_and!; [..|done]; first [apply Hs5; here|apply Hk15, Hs1; here|apply Hk35, Hs3; here|apply Hk5, Hs4; here].
Qed.
End scheme.

(** A scheme that is the list of its kinds, and libraries that register theirs. *)
#[local] Program Instance kind_list : Scheme (list (GroupVersion * string)) := {|
  NewScheme := [];
  recognizes s gv k :=
    existsb (λ gk, String.eqb (gv_Group gk.1) (gv_Group gv) && String.eqb (gv_Version gk.1) (gv_Version gv) &&
                   String.eqb gk.2 k) s;
  AddKnownTypes gv kinds s := ((λ k, (gv, k)) <$> kinds) ++ s;
  AddToGroupVersion gv s := (gv, "WatchEvent") :: s;
|}.
Next Obligation.
  intros [g v] kinds s [g' v'] k. cbn. rewrite existsb_app, orb_true_iff. apply or_iff_compat_r. rewrite existsb_exists. split.
  - intros ((gv & k') & Hin & [[Hg%String.eqb_eq Hv%String.eqb_eq]%andb_true_iff Hk%String.eqb_eq]%andb_true_iff).
    apply list_elem_of_In, list_elem_of_fmap in Hin as (k0 & [= -> ->] & Hin). cbn in *. by subst.
  - intros [[= -> ->] Hin]. exists ({| gv_Group := g; gv_Version := v |}, k). cbn. rewrite !String.eqb_refl. split; [|done].
    apply list_elem_of_In, list_elem_of_fmap. eauto.
Qed.
Next Obligation. intros gv s gv' k Hk. cbn in *. rewrite Hk. apply orb_true_r. Qed.

#[local] Instance example_libraries : Libraries (list (GroupVersion * string)) := {|
  clientgo_AddToScheme := λ s,
    Ok ([(core_v1, "Secret"); (core_v1, "ConfigMap"); (core_v1, "Pod"); (core_v1, "Namespace")] ++ s);
  istio_networking_AddToScheme := λ s, Ok s;
  istio_security_AddToScheme := λ s, Ok ([(security_v1, "RequestAuthentication"); (security_v1, "AuthorizationPolicy")] ++ s);
  istio_v1alpha3_AddToScheme := λ s, Ok ([(networking_v1alpha3, "EnvoyFilter")] ++ s);
|}.

Lemma registers_app kinds :
  registers (λ s : list (GroupVersion * string), Ok (kinds ++ s)) kinds.
Proof.
  intros s. eexists. split; [reflexivity|]. split.
  - intros gv k Hk. cbn in *. by rewrite existsb_app, Hk, orb_true_r.
  - intros gv k Hk. cbn. apply existsb_exists. exists (gv, k). cbn. rewrite !String.eqb_refl. split; [|done].
    apply list_elem_of_In, elem_of_app. by left.
Qed.

Lemma scheme_complete_witness :
  ∃ s : list (GroupVersion * string), init = Ok s ∧
    recognizes s networking_v1alpha3 "EnvoyFilter" = true ∧ recognizes s ztoperator_GroupVersion "AuthPolicyList" = true.
Proof.
  destruct (scheme_complete []) as (s & Hs & Hk); [apply registers_app|apply (registers_app [])|apply registers_app..|].
  exists s. split; [exact Hs|]. rewrite !Forall_cons in Hk. tauto.
Defined.
