(* ===== verification/Permissions.v ===== *)
(** * The operator's permissions (the kubebuilder markers of the controller)

    The markers above [Reconcile] are the rules of the cluster role the operator
    runs under. An API server that answers only what a role permits is a wrapper
    around any other one; under the role of the markers it makes no difference. *)

From S2P Require Import Prelude GoStrings GoSlices Api Objects State PathValidation Kube Resolver Generators IstioPolicy.
From S2P Require Import Reconciliation ReconciliationFacts Resources Status Metrics Controller EventHandlers Manager.
From S2P Require Import Webhook Collector.

(** ** The role *)

Record Rule := { rule_group : string; rule_resources : list string; rule_verbs : list string }.

Definition reading : list string := ["get"; "list"; "watch"].
Definition everything : list string := reading ++ ["create"; "update"; "patch"; "delete"].

(** The markers, in their order; in the role the group [core] has the empty name. *)
Definition markers : list Rule := [
  {| rule_group := "ztoperator.kartverket.no"; rule_resources := ["authpolicies"]; rule_verbs := everything |};
  {| rule_group := "ztoperator.kartverket.no"; rule_resources := ["authpolicies/status"];
     rule_verbs := ["get"; "update"; "patch"] |};
  {| rule_group := "ztoperator.kartverket.no"; rule_resources := ["authpolicies/finalizers"]; rule_verbs := ["update"] |};
  {| rule_group := "events.k8s.io"; rule_resources := ["events"]; rule_verbs := ["create"; "patch"] |};
  {| rule_group := "core"; rule_resources := ["namespaces"; "pods"]; rule_verbs := reading |};
  {| rule_group := "security.istio.io"; rule_resources := ["authorizationpolicies"; "requestauthentications"];
     rule_verbs := everything |};
  {| rule_group := "networking.istio.io"; rule_resources := ["envoyfilters"]; rule_verbs := everything |};
  {| rule_group := "core"; rule_resources := ["secrets"]; rule_verbs := everything |};
  {| rule_group := "core"; rule_resources := ["configmaps"]; rule_verbs := reading |}].

Definition listed (s : string) (l : list string) : bool := existsb (String.eqb s) l.

(** Kubernetes permits a request exactly if one of the rules does. *)
Definition permits (rules : list Rule) (verb group resource : string) : bool :=
  existsb (λ r, String.eqb group (rule_group r) && listed resource (rule_resources r) && listed verb (rule_verbs r)) rules.

(** ** Requests and what they need *)

(** The group and the resource name of the objects of a type. *)
Class ApiResource (T : Type) := { api_group : string; api_resource : string }.

#[export] Instance secret_resource : ApiResource Secret := {| api_group := "core"; api_resource := "secrets" |}.
#[export] Instance envoy_filter_resource : ApiResource EnvoyFilter :=
  {| api_group := "networking.istio.io"; api_resource := "envoyfilters" |}.
#[export] Instance request_authentication_resource : ApiResource RequestAuthentication :=
  {| api_group := "security.istio.io"; api_resource := "requestauthentications" |}.
#[export] Instance authorization_policy_resource : ApiResource AuthorizationPolicy :=
  {| api_group := "security.istio.io"; api_resource := "authorizationpolicies" |}.

Section role.
Context (rules : list Rule).

(** The manager's client reads from a cache that lists and watches the kind. *)
Definition may_read (group resource : string) : bool :=
  permits rules "get" group resource && permits rules "list" group resource && permits rules "watch" group resource.

(** An object with an owner reference that blocks the deletion of the owner, as
    [SetControllerReference] makes it, needs the permission for the owner's finalizers. *)
Definition may_own : bool := permits rules "update" "ztoperator.kartverket.no" "authpolicies/finalizers".

Definition forbidden : string := "forbidden".

Definition if_permitted {A} (allowed : bool) (granted denied : A) : A := if allowed then granted else denied.

(** A client whose requests the role must permit. *)
Definition role_client {W T} `{!ApiResource T} (c : Client W T) : Client W T := {|
  client_get w k := if_permitted (may_read (api_group (T := T)) api_resource) (client_get w k) (GetError forbidden);
  client_create w o :=
    if_permitted (permits rules "create" (api_group (T := T)) api_resource && may_own) (client_create w o)
      (w, (o, Some forbidden));
  client_patch w o o' :=
    if_permitted (permits rules "patch" (api_group (T := T)) api_resource && may_own) (client_patch w o o')
      (w, (o', Some forbidden));
  client_delete w o :=
    if_permitted (permits rules "delete" (api_group (T := T)) api_resource) (client_delete w o) (w, Some forbidden);
|}.

Definition policies_group : string := "ztoperator.kartverket.no".

Definition role_policies {W} (c : PolicyClient W) : PolicyClient W := {|
  policy_get w k := if_permitted (may_read policies_group "authpolicies") (policy_get w k) (GetError forbidden);
  policy_patch w ap ap' :=
    if_permitted (permits rules "patch" policies_group "authpolicies") (policy_patch w ap ap') (w, (ap', Some forbidden));
  policy_update_status w ap :=
    if_permitted (permits rules "update" policies_group "authpolicies/status") (policy_update_status w ap)
      (w, UpdateFailed forbidden);
|}.

(** A reader without its Secrets, and one without its ConfigMaps. *)
Definition no_secrets (r : Reader) : Reader :=
  {| get_secret nn := Err forbidden; get_configmap nn := get_configmap nn |}.
Definition no_configmaps (r : Reader) : Reader :=
  {| get_secret nn := get_secret nn; get_configmap nn := Err forbidden |}.

Definition role_reader (r : Reader) : Reader :=
  let r := if_permitted (may_read "core" "secrets") r (no_secrets r) in
  if_permitted (may_read "core" "configmaps") r (no_configmaps r).

Definition role_cluster {W} (r : ClusterReader W) : ClusterReader W := {|
  reader_at w := role_reader (reader_at w);
  get_namespace w ns := if_permitted (may_read "core" "namespaces") (get_namespace w ns) (GetError forbidden);
  list_pods w ns ls := if_permitted (may_read "core" "pods") (list_pods w ns ls) (Err forbidden);
  list_policies w := if_permitted (may_read policies_group "authpolicies") (list_policies w) (Err forbidden);
  list_policies_in w ns := if_permitted (may_read policies_group "authpolicies") (list_policies_in w ns) (Err forbidden);
|}.

(** What the controller watches. *)
Definition kind_resource (k : Kind) : string * string :=
  match k with
  | KAuthPolicy => (policies_group, "authpolicies")
  | KRequestAuthentication => (api_group (T := RequestAuthentication), api_resource (T := RequestAuthentication))
  | KAuthorizationPolicy => (api_group (T := AuthorizationPolicy), api_resource (T := AuthorizationPolicy))
  | KEnvoyFilter => (api_group (T := EnvoyFilter), api_resource (T := EnvoyFilter))
  | KSecret => (api_group (T := Secret), api_resource (T := Secret))
  | KPod => ("core", "pods")
  | KConfigMap => ("core", "configmaps")
  end.

Definition source_kind {W} (s : Source W) : Kind :=
  match s with For k _ | Owns k | Watches k _ => k end.

Definition may_watch (k : Kind) : bool :=
  permits rules "list" (kind_resource k).1 (kind_resource k).2 && permits rules "watch" (kind_resource k).1 (kind_resource k).2.
End role.

(** ** The role of the markers *)

Lemma role_client_secret {W} (c : Client W Secret) : role_client markers c = c.
Proof. by destruct c. Qed.
Lemma role_client_filter {W} (c : Client W EnvoyFilter) : role_client markers c = c.
Proof. by destruct c. Qed.
Lemma role_client_authentication {W} (c : Client W RequestAuthentication) : role_client markers c = c.
Proof. by destruct c. Qed.
Lemma role_client_authorization {W} (c : Client W AuthorizationPolicy) : role_client markers c = c.
Proof. by destruct c. Qed.
Lemma role_policies_same {W} (c : PolicyClient W) : role_policies markers c = c.
Proof. by destruct c. Qed.
Lemma role_cluster_same {W} (r : ClusterReader W) : role_cluster markers r = r.
Proof. by destruct r. Qed.

Section transparent.
Context {W : Type} `{Ownership} (cs : Client W Secret) (cf : Client W EnvoyFilter) (ca : Client W RequestAuthentication).
Context (cz : Client W AuthorizationPolicy) (cp : PolicyClient W) (cr : ClusterReader W).
Context `{UrlParser} `{MapOrder} `{StructPb} `{Yaml} `{Growth} `{DeepEqual} `{!Retry W}.
Context `{Aggregate} `{Json} `{Webhook.Config}.

(** The entry points of the operator, over given clients. *)
Definition operator (cs : Client W Secret) (cf : Client W EnvoyFilter) (ca : Client W RequestAuthentication)
    (cz : Client W AuthorizationPolicy) (cp : PolicyClient W) (cr : ClusterReader W) :=
  (Reconcile (W := W), SetupWithManager (W := W), ValidateCreate (W := W), collector_step (W := W)).

(** Claim C37. The permissions that the markers ask for are enough: behind an API
    server that refuses what the role of the markers does not permit (reads need
    get, list and watch, as they go through the manager's cache; an object with a
    reference to its policy needs the policy's finalizers), a call of [Reconcile],
    the event handlers, the webhook and the metrics collector do exactly what they
    do without the role, every kind the controller watches may be watched, and events
    may be recorded. They are not a licence for more: pods, namespaces and ConfigMaps may only be
    read. *)
Theorem role_suffices :
  operator (role_client markers cs) (role_client markers cf) (role_client markers ca) (role_client markers cz)
    (role_policies markers cp) (role_cluster markers cr) = operator cs cf ca cz cp cr ∧
  (∀ s, s ∈ SetupWithManager (W := W) → may_watch markers (source_kind s) = true) ∧
  permits markers "create" "events.k8s.io" "events" = true ∧ permits markers "patch" "events.k8s.io" "events" = true ∧
  (∀ verb resource, resource ∈ ["pods"; "namespaces"; "configmaps"] → verb ∉ reading →
     permits markers verb "core" resource = false).
Proof.
  split_and!.
  - by rewrite role_client_secret, role_client_filter, role_client_authentication, role_client_authorization,
      role_policies_same, role_cluster_same.
  - intros s. unfold SetupWithManager. rewrite !elem_of_cons, elem_of_nil. intros Hs. by destruct_or? Hs; subst s.
  - done.
  - done.
  - intros verb resource Hr Hv. assert (listed verb reading = false) as Hl.
    { destruct (listed verb reading) eqn:Hl; [|done]. destruct Hv.
      apply existsb_exists in Hl as (v & Hin & ->%String.eqb_eq). by apply list_elem_of_In. }
    rewrite !elem_of_cons, elem_of_nil in Hr.
    destruct_or? Hr; subst resource; unfold permits; cbn -[listed reading]; by rewrite Hl, !andb_false_r.
Qed.
End transparent.

(** The filter that protects a secure metrics endpoint asks the API server to review
    the caller's token and access, which needs permissions the markers do not ask for:
    served securely, the metrics are refused to everybody. *)
Theorem secure_metrics_refused :
  permits markers "create" "authentication.k8s.io" "tokenreviews" = false ∧
  permits markers "create" "authorization.k8s.io" "subjectaccessreviews" = false.
Proof. done. Qed.
