(* ===== verification/Events.v ===== *)
(** * The events of a call of Reconcile (the recorder of the controller)

    The controller and the status manager report what they do as Kubernetes events.
    Nothing reads the events back, so a call is the one of [Controller] together with
    the list of its events; what the list tells is compared with what the call did. *)

From S2P Require Import Prelude GoStrings GoSlices Api Objects State PathValidation Kube Resolver Generators IstioPolicy.
From S2P Require Import Examples GeneratorFacts Reconciliation ReconciliationFacts Resources ResourcesFacts Status StatusFacts StatusStability Metrics.
From S2P Require Import MemoryServer Controller ControllerFacts Cluster.

(** ** Recorded events *)

(** [Eventf]: the object it is about, the type, the reason and the note. *)
Record RecordedEvent := {
  re_about : NamespacedName;
  re_type : string;
  re_reason : string;
  re_note : string;
}.

#[global] Instance RecordedEvent_eq_dec : EqDecision RecordedEvent.
Proof. solve_decision. Defined.

(** A computation that records events. *)
Definition recording (A : Type) : Type := list RecordedEvent * A.

#[global] Instance recording_ret : MRet recording := λ A a, ([], a).
#[global] Instance recording_bind : MBind recording := λ A B f m, (m.1 ++ (f m.2).1, (f m.2).2).

Definition Eventf (ap : AuthPolicy) (type reason note : string) : recording () :=
  ([{| re_about := policy_key ap; re_type := type; re_reason := reason; re_note := note |}], ()).

(** [req.String()]. *)
Definition NamespacedName_String (nn : NamespacedName) : string := nn_Namespace nn +:+ "/" +:+ nn_Name nn.

Section events.
Context {W : Type} `{Ownership} `{!Client W Secret} `{!Client W EnvoyFilter}.
Context `{!Client W RequestAuthentication} `{!Client W AuthorizationPolicy} `{!PolicyClient W} `{!ClusterReader W}.
Context `{UrlParser} `{MapOrder} `{StructPb} `{Yaml} `{Growth} `{DeepEqual} `{!Retry W} `{Aggregate}.

(** ** doReconcile *)

Definition resource_event (ap : AuthPolicy) (rf : ControllerResource W) (err : option string) : recording () :=
  match err with
  | Some _ => Eventf ap "Warning" (cr_Kind rf +:+ "ReconcileFailed")
                (cr_Kind rf +:+ " with name " +:+ cr_Name rf +:+ " failed during reconciliation.")
  | None => Eventf ap "Normal" (cr_Kind rf +:+ "ReconciledSuccessfully")
              (cr_Kind rf +:+ " with name " +:+ cr_Name rf +:+ " reconciled successfully.")
  end.

Fixpoint reconcile_all_recording (rfs : list (ControllerResource W)) (result : Result) (errs : list string)
    (st : KState W) : recording (KState W * (Result * list string)) :=
  match rfs with
  | [] => mret (st, (result, errs))
  | rf :: rfs =>
      let '(st, (r, err)) := cr_Reconcile rf st in
      resource_event (sc_AuthPolicy (ks_scope st)) rf err;;
      let errs := match err with Some e => errs ++ [e] | None => errs end in
      let result := match errs with [] => LowestNonZeroResult result r | _ => result end in
      reconcile_all_recording rfs result errs st
  end.

Definition doReconcile_recording (rfs : list (ControllerResource W)) (st : KState W)
    : recording (KState W * (Result * list string)) :=
  '(st, (result, errs)) ← reconcile_all_recording rfs no_result [] st;
  let ap := sc_AuthPolicy (ks_scope st) in
  match errs with
  | [] => Eventf ap "Normal" "ReconcileSuccess" "AuthPolicy reconciled successfully";; mret (st, (result, []))
  | _ => Eventf ap "Warning" "ReconcileFailed" "AuthPolicy failed during reconciliation";; mret (st, (no_result, errs))
  end.

(** ** UpdateAuthPolicyStatus *)

Definition UpdateAuthPolicyStatus_recording (clock : nat → Z) (sc : Scope) (original : AuthPolicy)
    (rfs : list (ControllerResource W)) (st : RState W) : recording (RState W * go ()) :=
  let ap := sc_AuthPolicy sc in
  Eventf ap "Normal" "StatusUpdateStarted" "Status update of AuthPolicy started.";;
  match status_update clock sc rfs original with
  | Err m | Panic m => mret (st, Panic m)
  | Ok None => mret (st, Ok ())
  | Ok (Some ap') =>
      match UpdateStatus ap' st with
      | (st, Panic m) => mret (st, Panic m)
      | (st, Err _) =>
          Eventf ap "Warning" "StatusUpdateFailed" "Status update of AuthPolicy failed.";; mret (st, Ok ())
      | (st, Ok _) =>
          Eventf ap "Normal" "StatusUpdateSuccess" "Status update of AuthPolicy updated successfully.";;
          mret (st, Ok ())
      end
  end.

(** ** Reconcile *)

Definition reconcile_resolved_recording (clock : nat → Z) (rand : Random) (sc : Scope) (original : AuthPolicy)
    (st : RState W) : recording (RState W * go Result) :=
  match sc ← validateAuthPolicy sc; rfs ← ControllerResources (W := W) rand sc; Ok (sc, rfs) with
  | Err m | Panic m => mret (st, Panic m)
  | Ok (sc, rfs) =>
      '(ks, (result, errs)) ←
        doReconcile_recording rfs {| ks_world := rs_world st; ks_calls := rs_calls st; ks_scope := sc |};
      let st := {| rs_world := ks_world ks; rs_calls := ks_calls ks; rs_gauge := rs_gauge st |} in
      '(st, updated) ← UpdateAuthPolicyStatus_recording clock (ks_scope ks) original rfs st;
      match updated with
      | Panic m => mret (st, Panic m)
      | _ => mret (st, match errs with [] => Ok result | _ => Err (NewAggregate errs) end)
      end
  end.

Definition Reconcile_recording (clock : nat → Z) (rand : Random) (resolver : string → go DiscoveryDocument)
    (req : NamespacedName) (st : RState W) : recording (RState W * go Result) :=
  match policy_get (rs_world st) req with
  | NotFound => mret (forget req st, Ok no_result)
  | GetError e => mret (st, Err e)
  | Found stored =>
      Eventf stored "Normal" "ReconcileStarted" ("AuthPolicy with name " +:+ NamespacedName_String req +:+ " started.");;
      let authPolicy := InitializeStatus stored in
      if has (DeletionTimestamp (ap_Meta authPolicy)) then mret (forget req st, Ok no_result)
      else
        let '(w, (original, patchErr)) := patch_labels authPolicy (rs_world st) in
        let st := {| rs_world := w; rs_calls := rs_calls st; rs_gauge := rs_gauge st |} in
        match patchErr with
        | Some e => mret (st, Err e)
        | None =>
            match resolveAuthPolicy (rs_world st) (Some authPolicy) resolver with
            | Panic m => mret (st, Panic m)
            | Err e =>
                match UpdateStatus (failed_status authPolicy e) st with
                | (st, Panic m) => mret (st, Panic m)
                | (st, Err e') => mret (st, Err e')
                | (st, Ok _) => mret (st, Err e)
                end
            | Ok sc => reconcile_resolved_recording clock rand sc original st
            end
        end
  end.
End events.

(** ** Recording changes nothing *)

Lemma recording_bind_value {A B} (f : A → recording B) m : (m ≫= f).2 = (f m.2).2.
Proof. done. Qed.

Lemma recording_bind_events {A B} (f : A → recording B) m : (m ≫= f).1 = m.1 ++ (f m.2).1.
Proof. done. Qed.

Section facts.
Context {W : Type} `{Ownership} `{!Client W Secret} `{!Client W EnvoyFilter}.
Context `{!Client W RequestAuthentication} `{!Client W AuthorizationPolicy} `{!PolicyClient W} `{!ClusterReader W}.
Context `{UrlParser} `{MapOrder} `{StructPb} `{Yaml} `{Growth} `{DeepEqual} `{!Retry W} `{Aggregate}.

Lemma reconcile_all_recorded (rfs : list (ControllerResource W)) : ∀ result errs st,
  (reconcile_all_recording rfs result errs st).2 = reconcile_all rfs result errs st.
Proof.
  induction rfs as [|rf rfs IH]; intros result errs st; [done|]. cbn [reconcile_all_recording reconcile_all].
  destruct (cr_Reconcile rf st) as [st' [r err]]. rewrite recording_bind_value. apply IH.
Qed.

Lemma doReconcile_recorded (rfs : list (ControllerResource W)) st :
  (doReconcile_recording rfs st).2 = doReconcile rfs st.
Proof.
  unfold doReconcile_recording, doReconcile. rewrite recording_bind_value, reconcile_all_recorded.
  destruct (reconcile_all rfs no_result [] st) as [st' [result errs]]. by destruct errs.
Qed.

Lemma UpdateAuthPolicyStatus_recorded clock sc original (rfs : list (ControllerResource W)) st :
  (UpdateAuthPolicyStatus_recording clock sc original rfs st).2 = UpdateAuthPolicyStatus clock sc original rfs st.
Proof.
  unfold UpdateAuthPolicyStatus_recording, UpdateAuthPolicyStatus. rewrite recording_bind_value.
  destruct (status_update _ _ _ _) as [[ap|]| |]; [|done..].
  by destruct (UpdateStatus ap st) as [st' [| |]].
Qed.

Lemma reconcile_resolved_recorded clock rand sc original (st : RState W) :
  (reconcile_resolved_recording clock rand sc original st).2 = reconcile_resolved clock rand sc original st.
Proof.
  unfold reconcile_resolved_recording, reconcile_resolved. destruct (_ ≫= _) as [[sc' rfs]| |]; [|done..].
  rewrite recording_bind_value, doReconcile_recorded. destruct (doReconcile _ _) as [ks [result errs]].
  rewrite recording_bind_value, UpdateAuthPolicyStatus_recorded.
  by destruct (UpdateAuthPolicyStatus _ _ _ _ _) as [st' [| |]].
Qed.

Lemma Reconcile_recorded clock rand resolver req (st : RState W) :
  (Reconcile_recording clock rand resolver req st).2 = Reconcile clock rand resolver req st.
Proof.
  unfold Reconcile_recording, Reconcile. destruct (policy_get (rs_world st) req) as [stored| |]; [|done..].
  rewrite recording_bind_value. destruct (has _); [done|]. destruct (patch_labels _ _) as [w [original [e|]]]; [done|].
  destruct (resolveAuthPolicy _ _ _) as [sc|e|m]; [apply reconcile_resolved_recorded| |done].
  by destruct (UpdateStatus _ _) as [st' [| |]].
Qed.

(** ** What the events tell *)

(** The event about the step of one resource: a warning for an error, else a normal one. *)
Definition step_event (ap : AuthPolicy) (kind name : string) (failed : bool) : RecordedEvent :=
  {| re_about := policy_key ap; re_type := if failed then "Warning" else "Normal";
     re_reason := kind +:+ (if failed then "ReconcileFailed" else "ReconciledSuccessfully");
     re_note := kind +:+ " with name " +:+ name +:+
       (if failed then " failed during reconciliation." else " reconciled successfully.") |}.

(** One event for each resource, for the error or the success of its step. *)
Definition resource_events (ap : AuthPolicy) (rfs : list (ControllerResource W)) (outcomes : list (option string))
    : list RecordedEvent :=
  zip_with (λ rf err, step_event ap (cr_Kind rf) (cr_Name rf) (has err)) rfs outcomes.

Lemma resource_event_step ap (rf : ControllerResource W) err :
  resource_event ap rf err = ([step_event ap (cr_Kind rf) (cr_Name rf) (has err)], ()).
Proof. by destruct err. Qed.

Lemma reconcile_all_events ap (rfs : list (ControllerResource W)) :
  Forall (respects makes_owned_calls) rfs → ∀ result errs st, sc_AuthPolicy (ks_scope st) = ap →
  ∃ outcomes, length outcomes = length rfs ∧
    (reconcile_all_recording rfs result errs st).1 = resource_events ap rfs outcomes ∧
    (reconcile_all rfs result errs st).2.2 = errs ++ omap id outcomes ∧
    sc_AuthPolicy (ks_scope (reconcile_all rfs result errs st).1) = ap.
Proof.
  induction 1 as [|rf rfs Hrf _ IH]; intros result errs st Hap.
  - exists []. cbn. by rewrite app_nil_r.
  - specialize (Hrf st) as [Hap' _]. cbn [reconcile_all_recording reconcile_all].
    destruct (cr_Reconcile rf st) as [st' [r err]]. cbn [fst] in Hap'. rewrite Hap in Hap'.
    set (errs' := match err with Some e => errs ++ [e] | None => errs end).
    set (result' := match errs' with [] => _ | _ => _ end).
    destruct (IH result' errs' st' Hap') as (outcomes & Hlen & Hev & Herr & Hend). exists (err :: outcomes).
    split_and!; [cbn; by rewrite Hlen| |rewrite Herr; subst errs'|exact Hend].
    + rewrite recording_bind_events, Hev, Hap', resource_event_step. done.
    + destruct err; cbn; [by rewrite <-app_assoc|done].
Qed.

(** The event at the end of [doReconcile]. *)
Definition verdict (ap : AuthPolicy) (success : bool) : RecordedEvent :=
  {| re_about := policy_key ap; re_type := if success then "Normal" else "Warning";
     re_reason := if success then "ReconcileSuccess" else "ReconcileFailed";
     re_note := if success then "AuthPolicy reconciled successfully" else "AuthPolicy failed during reconciliation" |}.

Lemma doReconcile_events ap (rfs : list (ControllerResource W)) st :
  Forall (respects makes_owned_calls) rfs → sc_AuthPolicy (ks_scope st) = ap →
  ∃ outcomes, length outcomes = length rfs ∧ (doReconcile rfs st).2.2 = omap id outcomes ∧
    (doReconcile_recording rfs st).1 =
      resource_events ap rfs outcomes ++ [verdict ap (bool_decide (omap id outcomes = []))] ∧
    sc_AuthPolicy (ks_scope (doReconcile rfs st).1) = ap.
Proof.
  intros Hrfs Hap. destruct (reconcile_all_events ap rfs Hrfs no_result [] st Hap) as (outcomes & Hlen & Hev & Herr & Hend).
  exists outcomes. split; [done|]. unfold doReconcile_recording, doReconcile.
  rewrite recording_bind_events, Hev, reconcile_all_recorded.
  destruct (reconcile_all rfs no_result [] st) as [st' [result errs]]. cbn [fst snd app] in Herr, Hend. subst errs.
  by destruct (omap id outcomes); cbn -[bool_decide]; rewrite Hend.
Qed.

(** The first event of a call. *)
Definition started (ap : AuthPolicy) (req : NamespacedName) : RecordedEvent :=
  {| re_about := policy_key ap; re_type := "Normal"; re_reason := "ReconcileStarted";
     re_note := "AuthPolicy with name " +:+ NamespacedName_String req +:+ " started." |}.

Definition status_event (ap : AuthPolicy) (type reason note : string) : RecordedEvent :=
  {| re_about := policy_key ap; re_type := type; re_reason := reason; re_note := note |}.

(** What is recorded about the status: that the update has started, and how its
    write, if there was one, ended. *)
Definition status_events (ap : AuthPolicy) (write : option (option string)) : list RecordedEvent :=
  status_event ap "Normal" "StatusUpdateStarted" "Status update of AuthPolicy started." ::
  match write with
  | None => []
  | Some None => [status_event ap "Normal" "StatusUpdateSuccess" "Status update of AuthPolicy updated successfully."]
  | Some (Some _) => [status_event ap "Warning" "StatusUpdateFailed" "Status update of AuthPolicy failed."]
  end.

Lemma update_events clock sc original (rfs : list (ControllerResource W)) st st' :
  UpdateAuthPolicyStatus clock sc original rfs st = (st', Ok ()) →
  ∃ write,
    (UpdateAuthPolicyStatus_recording clock sc original rfs st).1 = status_events (sc_AuthPolicy sc) write ∧
    match write with
    | None => st' = st
    | Some err => ∃ ap, UpdateStatus ap st = (st', match err with Some e => Err e | None => Ok () end)
    end.
Proof.
  unfold UpdateAuthPolicyStatus_recording, UpdateAuthPolicyStatus. rewrite recording_bind_events.
  destruct (status_update _ _ _ _) as [[ap|]| |]; [|intros [= <-]; by exists None|done..].
  destruct (UpdateStatus ap st) as [st1 [[]|e|m]] eqn:Hu; intros [= <-].
  - exists (Some None). eauto.
  - exists (Some (Some e)). eauto.
Qed.

Lemma UpdateAuthPolicyStatus_no_error clock sc original (rfs : list (ControllerResource W)) st st' e :
  UpdateAuthPolicyStatus clock sc original rfs st ≠ (st', Err e).
Proof.
  unfold UpdateAuthPolicyStatus. destruct (status_update _ _ _ _) as [[ap|]| |]; [|done..].
  by destruct (UpdateStatus ap st) as [st1 [| |]].
Qed.

(** The events of the part after the resolution: the resources in their order, the
    verdict, and the status. *)
Definition tells (ap : AuthPolicy) (rfs : list (ControllerResource W)) (res : go Result) (st' : RState W)
    (events : list RecordedEvent) : Prop :=
  ∃ outcomes write, length outcomes = length rfs ∧
    events = resource_events ap rfs outcomes ++ [verdict ap (is_ok res)] ++ status_events ap write ∧
    match omap id outcomes with [] => is_ok res = true | errs => res = Err (NewAggregate errs) end ∧
    match write with
    | None => True
    | Some err => ∃ ap' st1, UpdateStatus ap' st1 = (st', match err with Some e => Err e | None => Ok () end)
    end.

Lemma resolved_events clock rand sc original (st : RState W) :
  let '(st', res) := reconcile_resolved clock rand sc original st in
  is_panic res = false →
  ∃ sc' rfs, validateAuthPolicy sc = Ok sc' ∧ ControllerResources (W := W) rand sc' = Ok rfs ∧
    tells (sc_AuthPolicy sc) rfs res st' (reconcile_resolved_recording clock rand sc original st).1.
Proof.
  unfold reconcile_resolved, reconcile_resolved_recording.
  destruct (validateAuthPolicy sc) as [sc'| |] eqn:Hv; cbn [mbind go_bind]; [|discriminate..].
  destruct (ControllerResources rand sc') as [rfs| |] eqn:Hrfs; cbn [mbind go_bind]; [|discriminate..].
  destruct (validateAuthPolicy_ok _ _ Hv) as (Hap & _ & _). set (ks0 := {| ks_world := _ |}).
  destruct (doReconcile_events (sc_AuthPolicy sc) rfs ks0 (ControllerResources_owned _ _ _ Hrfs) Hap)
    as (outcomes & Hlen & Herr & Hev & Hend).
  rewrite recording_bind_events, Hev, doReconcile_recorded.
  destruct (doReconcile rfs ks0) as [ks [result errs]]. cbn [fst snd] in Herr, Hend. subst errs.
  set (st1 := {| rs_world := ks_world ks |}).
  rewrite recording_bind_events, UpdateAuthPolicyStatus_recorded.
  destruct (UpdateAuthPolicyStatus clock (ks_scope ks) original rfs st1) as [st' [[]|e|m]] eqn:Hu; [| |done];
    [|by destruct (UpdateAuthPolicyStatus_no_error _ _ _ _ _ _ _ Hu)].
  destruct (update_events _ _ _ _ _ _ Hu) as (write & -> & Hw). rewrite Hend. intros _.
  exists sc', rfs. split_and!; [done..|]. exists outcomes, write. split; [done|].
  cbn [fst mret recording_ret]. rewrite app_nil_r, <-app_assoc. split_and!.
  - by destruct (omap id outcomes).
  - by destruct (omap id outcomes).
  - destruct write as [err|]; [|done]. destruct Hw as [ap Hw]. eauto.
Qed.

End facts.

(** ** In the cluster *)

#[local] Existing Instances example_parser example_pb example_yaml content_equal.

Definition example_events : recording (RState cluster * go Result) :=
  Reconcile_recording example_clock example_rand idp_resolver app_key
    (cluster_state (stored_policy idp_uri [role_rule "/admin" "admin"])).

