(* ===== verification/Isolation.v ===== *)
(** * Calls for different policies do not meet

    The objects of a policy have names made from its own: no name made for one policy
    is made for another of the same namespace. So a call of [Reconcile] for one
    policy leaves the objects of all others alone, whatever its outcome. *)

From S2P Require Import Prelude GoStrings GoSlices Api Objects State Examples PathValidation PathLang Kube Resolver ResolverFacts.
From S2P Require Import Generators GeneratorFacts IstioPolicy Reconciliation ReconciliationFacts Resources ResourcesFacts.
From S2P Require Import MemoryServer Status StatusFacts StatusStability Metrics Controller ControllerFacts Cluster.
From S2P Require Import NoPanic Webhook WebhookFacts Convergence SecondCall.

(** ** Names *)

Lemma str_length_drop n : ∀ s, String.length (str_drop n s) = String.length s - n.
Proof. induction n as [|n IH]; intros [|c s]; cbn; [done..|apply IH]. Qed.

Lemma suffixes_apart a b s t :
  String.length t ≤ String.length s → str_drop (String.length s - String.length t) s ≠ t → a +:+ s ≠ b +:+ t.
Proof.
  intros Hl Hd Heq. apply Hd. set (n := String.length s - String.length t) in *.
  rewrite <-(str_take_drop n s), <-str_app_assoc in Heq.
  apply str_app_inj_2 in Heq as [_ Heq]; [done|]. rewrite str_length_drop. lia.
Qed.

Lemma same_suffix a b s : a +:+ s = b +:+ s → a = b.
Proof. by intros [-> _]%str_app_inj_2. Qed.

(** The names of the AuthorizationPolicies of a policy. *)
Definition policy_names (base : string) : list string := [DenyPolicy_name base; IgnorePolicy_name base; RequirePolicy_name base].

Lemma policy_names_apart a b n : a ≠ b → n ∈ policy_names a → n ∉ policy_names b.
Proof.
  intros Hab Ha Hb. unfold policy_names in *. rewrite !elem_of_cons, elem_of_nil in *.
  destruct_or? Ha; destruct_or? Hb; subst n;
    first [apply Hab; by eapply same_suffix
          |revert Hb; by apply suffixes_apart; [cbn; lia|]
          |symmetry in Hb; revert Hb; by apply suffixes_apart; [cbn; lia|]].
Qed.

(** ** What belongs to a policy *)

Definition key_for (nn : NamespacedName) (name : string) : NamespacedName :=
  {| nn_Namespace := nn_Namespace nn; nn_Name := name |}.

(** A patch or a status update of a policy does not touch the objects of a type. *)
Class PatchApart (W T : Type) `{!Client W T} `{!PolicyClient W} := {
  patch_apart w ap ap' k : client_get (T := T) (policy_patch w ap ap').1 k = client_get w k;
}.

Section isolation.
Context {W : Type} `{OwnershipByReferences}.
Context `{!Client W Secret} `{!Client W EnvoyFilter} `{!Client W RequestAuthentication} `{!Client W AuthorizationPolicy}.

(** The six objects of a policy are read as before. *)
Definition same_for (nn : NamespacedName) (w w' : W) : Prop :=
  client_get (T := Secret) w' (key_for nn (EnvoySecret_name (nn_Name nn))) =
    client_get w (key_for nn (EnvoySecret_name (nn_Name nn))) ∧
  client_get (T := EnvoyFilter) w' (key_for nn (EnvoyFilter_name (nn_Name nn))) =
    client_get w (key_for nn (EnvoyFilter_name (nn_Name nn))) ∧
  client_get (T := RequestAuthentication) w' nn = client_get w nn ∧
  ∀ name, name ∈ policy_names (nn_Name nn) →
    client_get (T := AuthorizationPolicy) w' (key_for nn name) = client_get w (key_for nn name).

#[global] Instance same_for_preorder nn : PreOrder (same_for nn).
Proof.
  split; [by intros w; split|]. intros w1 w2 w3 (A1 & A2 & A3 & A4) (B1 & B2 & B3 & B4).
  split_and!; [by rewrite B1|by rewrite B2|by rewrite B3|]. intros name Hn. by rewrite B4, A4.
Qed.

(** One write of an object of another policy. *)
Section writes.
Context (mine other : NamespacedName) (Hne : mine ≠ other).

Lemma keys_differ name name' :
  (nn_Name mine ≠ nn_Name other → name ≠ name') → key_for mine name ≠ key_for other name'.
Proof.
  intros Hn Heq. injection Heq as Hns Hname. destruct (decide (nn_Name mine = nn_Name other)) as [He|He].
  - apply Hne. destruct mine, other. cbn in *. by subst.
  - by apply Hn.
Qed.

Lemma secret_writes_apart
    `{!KeyFrame W Secret} `{!TypeFrame W Secret EnvoyFilter} `{!TypeFrame W Secret RequestAuthentication}
    `{!TypeFrame W Secret AuthorizationPolicy} (w w' : W) :
  moves (T := Secret) (key_for mine (EnvoySecret_name (nn_Name mine))) w w' → same_for other w w'.
Proof.
  intros Hm. split_and!; [|by eapply (type_frame (T := Secret))..|intros name _; by eapply (type_frame (T := Secret))].
  eapply key_frame; [|exact Hm]. apply keys_differ. intros Hn Heq. by apply same_suffix in Heq.
Qed.

Lemma filter_writes_apart
    `{!KeyFrame W EnvoyFilter} `{!TypeFrame W EnvoyFilter Secret} `{!TypeFrame W EnvoyFilter RequestAuthentication}
    `{!TypeFrame W EnvoyFilter AuthorizationPolicy} (w w' : W) :
  moves (T := EnvoyFilter) (key_for mine (EnvoyFilter_name (nn_Name mine))) w w' → same_for other w w'.
Proof.
  intros Hm. split_and!; [by eapply (type_frame (T := EnvoyFilter))| |by eapply (type_frame (T := EnvoyFilter))|
    intros name _; by eapply (type_frame (T := EnvoyFilter))].
  eapply key_frame; [|exact Hm]. apply keys_differ. intros Hn Heq. by apply same_suffix in Heq.
Qed.

Lemma authentication_writes_apart
    `{!KeyFrame W RequestAuthentication} `{!TypeFrame W RequestAuthentication Secret}
    `{!TypeFrame W RequestAuthentication EnvoyFilter} `{!TypeFrame W RequestAuthentication AuthorizationPolicy} (w w' : W) :
  moves (T := RequestAuthentication) mine w w' → same_for other w w'.
Proof.
  intros Hm. split_and!; [by eapply (type_frame (T := RequestAuthentication))..| |
    intros name _; by eapply (type_frame (T := RequestAuthentication))].
  by eapply key_frame; [|exact Hm].
Qed.

Lemma authorization_writes_apart
    `{!KeyFrame W AuthorizationPolicy} `{!TypeFrame W AuthorizationPolicy Secret}
    `{!TypeFrame W AuthorizationPolicy EnvoyFilter} `{!TypeFrame W AuthorizationPolicy RequestAuthentication} name (w w' : W) :
  name ∈ policy_names (nn_Name mine) → moves (T := AuthorizationPolicy) (key_for mine name) w w' → same_for other w w'.
Proof.
  intros Hin Hm. split_and!; [by eapply (type_frame (T := AuthorizationPolicy))..|]. intros name' Hin'.
  eapply key_frame; [|exact Hm]. apply keys_differ. intros Hn ->. by eapply policy_names_apart.
Qed.
End writes.

(** ** A run *)

Section runs.
Context (ap : AuthPolicy) (other : NamespacedName).

(** The policy of the scope stays, and for a run for [ap] the other's objects do. *)
Definition apart (st st' : KState W) : Prop :=
  sc_AuthPolicy (ks_scope st') = sc_AuthPolicy (ks_scope st) ∧
  (sc_AuthPolicy (ks_scope st) = ap → same_for other (ks_world st) (ks_world st')).

#[global] Instance apart_preorder : PreOrder apart.
Proof.
  split; [by intros st; split|]. intros st1 st2 st3 [A1 A2] [B1 B2]. split; [congruence|].
  intros Hap. etrans; [by apply A2|]. apply B2. congruence.
Qed.

Lemma run_apart {T} `{!Controlled T} `{!Updatable T} `{!Metadata T} `{!Client W T} `{!ApiServer W T}
    kind name (d d' : option T) :
  alike ap name d d' → (∀ w w', moves (T := T) (key_for (policy_key ap) name) w w' → same_for other w w') →
  respects apart (it_run (item ap kind name d d')).
Proof.
  intros Hal Hm st. cbn [it_run item]. split; [apply run_policy|]. intros Hap. apply Hm.
  apply run_moves; [|done]. intros x. by apply (alike_key ap name d d').
Qed.
End runs.

Context `{!ApiServer W Secret} `{!ApiServer W EnvoyFilter} `{!ApiServer W RequestAuthentication}.
Context `{!ApiServer W AuthorizationPolicy}.
Context `{!KeyFrame W Secret} `{!KeyFrame W EnvoyFilter} `{!KeyFrame W RequestAuthentication} `{!KeyFrame W AuthorizationPolicy}.
Context `{!TypeFrame W Secret EnvoyFilter} `{!TypeFrame W Secret RequestAuthentication} `{!TypeFrame W Secret AuthorizationPolicy}.
Context `{!TypeFrame W EnvoyFilter Secret} `{!TypeFrame W EnvoyFilter RequestAuthentication}.
Context `{!TypeFrame W EnvoyFilter AuthorizationPolicy} `{!TypeFrame W RequestAuthentication Secret}.
Context `{!TypeFrame W RequestAuthentication EnvoyFilter} `{!TypeFrame W RequestAuthentication AuthorizationPolicy}.
Context `{!TypeFrame W AuthorizationPolicy Secret} `{!TypeFrame W AuthorizationPolicy EnvoyFilter}.
Context `{!TypeFrame W AuthorizationPolicy RequestAuthentication}.
Context `{UrlParser} `{StructPb} `{Yaml} `{Growth} `{DeepEqual}.

Lemma resources_apart rand sc (rfs : list (ControllerResource W)) other :
  ControllerResources rand sc = Ok rfs →
  alc_EnvoySecretName (sc_AutoLoginConfig sc) = EnvoySecret_name (policy_name sc) →
  policy_key (sc_AuthPolicy sc) ≠ other → Forall (respects (apart (sc_AuthPolicy sc) other)) rfs.
Proof.
  intros (s & f & Hs & Hf & Hitems)%ControllerResources_items Hname Hne. rewrite (proj1 (Hitems s)).
  pose proof (secret_alike_self _ _ _ Hs) as Has. unfold items. rewrite Hname in *.
  pose proof (envoy_filter_alike sc f Hf). pose proof (request_authentication_alike sc). pose proof (deny_alike sc).
  pose proof (ignore_alike sc). pose proof (require_alike sc). cbn [fmap list_fmap].
  repeat (apply List.Forall_cons; [|]); [..|apply List.Forall_nil]; (apply run_apart; [exact _|exact _|assumption|]).
  - by apply secret_writes_apart.
  - by apply filter_writes_apart.
  - intros w w' Hm. apply (authentication_writes_apart (policy_key (sc_AuthPolicy sc)) other Hne). exact Hm.
  - intros w w'. apply (authorization_writes_apart (policy_key (sc_AuthPolicy sc)) other Hne).
    change (DenyPolicy_name (nn_Name (policy_key (sc_AuthPolicy sc))) ∈ policy_names (nn_Name (policy_key (sc_AuthPolicy sc)))).
    unfold policy_names. set_solver.
  - intros w w'. apply (authorization_writes_apart (policy_key (sc_AuthPolicy sc)) other Hne).
    change (IgnorePolicy_name (nn_Name (policy_key (sc_AuthPolicy sc))) ∈ policy_names (nn_Name (policy_key (sc_AuthPolicy sc)))).
    unfold policy_names. set_solver.
  - intros w w'. apply (authorization_writes_apart (policy_key (sc_AuthPolicy sc)) other Hne).
    change (RequirePolicy_name (nn_Name (policy_key (sc_AuthPolicy sc))) ∈ policy_names (nn_Name (policy_key (sc_AuthPolicy sc)))).
    unfold policy_names. set_solver.
Qed.

Lemma doReconcile_apart rand (st : KState W) rfs other :
  ControllerResources rand (ks_scope st) = Ok rfs →
  alc_EnvoySecretName (sc_AutoLoginConfig (ks_scope st)) = EnvoySecret_name (policy_name (ks_scope st)) →
  policy_key (sc_AuthPolicy (ks_scope st)) ≠ other → same_for other (ks_world st) (ks_world (doReconcile rfs st).1).
Proof.
  intros Hrfs Hname Hne.
  destruct (doReconcile_respects (apart (sc_AuthPolicy (ks_scope st)) other) rfs st) as [_ Ha]; [by eapply resources_apart|].
  by apply Ha.
Qed.

(** ** A call *)

Context `{!PolicyClient W} `{!StatusServer W} `{!ClusterReader W} `{MapOrder} `{!Retry W} `{Aggregate}.
Context `{!StatusApart W Secret} `{!StatusApart W EnvoyFilter} `{!StatusApart W RequestAuthentication}.
Context `{!StatusApart W AuthorizationPolicy}.
Context `{!PatchApart W Secret} `{!PatchApart W EnvoyFilter} `{!PatchApart W RequestAuthentication}.
Context `{!PatchApart W AuthorizationPolicy}.

Lemma update_same_for other ap (st : RState W) : same_for other (rs_world st) (rs_world (UpdateStatus ap st).1).
Proof.
  apply update_keeps; [|done]. intros w ap' Hw. etrans; [exact Hw|].
  split_and!; [apply status_apart..|]. intros name _. apply status_apart.
Qed.

Lemma patch_same_for other ap (w : W) : same_for other w (patch_labels ap w).1.
Proof.
  unfold patch_labels. case_bool_decide; [done|]. split_and!; [apply patch_apart..|]. intros name _. apply patch_apart.
Qed.

(** The name of the Secret, as it is resolved. *)
Lemma resolved_secret_name (w : W) ap resolver sc sc' :
  resolveAuthPolicy w (Some ap) resolver = Ok sc → validateAuthPolicy sc = Ok sc' →
  alc_EnvoySecretName (sc_AutoLoginConfig sc') = EnvoySecret_name (Name (ap_Meta ap)).
Proof.
  intros (creds & _ & (uris & _ & (cfg & Hcfg & (auds & _ & <-%Ok_inj)%go_bind_ok)%go_bind_ok)%go_bind_ok)%go_bind_ok.
  intros Hv. apply ResolveAutoLoginConfig_secret in Hcfg. rewrite <-Hcfg.
  unfold validateAuthPolicy in Hv. destruct (ValidatePaths _); by simplify_eq.
Qed.

Lemma resolved_run_same_for clock rand resolver ap original (w : W) sc (st : RState W) other :
  resolveAuthPolicy w (Some ap) resolver = Ok sc → policy_key ap ≠ other →
  same_for other (rs_world st) (rs_world (reconcile_resolved clock rand sc original st).1).
Proof.
  intros Hres Hne. destruct (resolveAuthPolicy_ok _ _ _ _ Hres) as (Hap & Hds & _).
  destruct (reconcile_resolved_run clock rand sc original st Hds) as [(m & ->)|(sc' & rfs & ks & errs & Hv & Hrfs & Hrun & Hend)];
    [done|].
  destruct (validateAuthPolicy_ok _ _ Hv) as (Hap' & _ & _). pose proof (resolved_secret_name _ _ _ _ _ Hres Hv) as Hname.
  pose proof (doReconcile_apart rand {| ks_world := rs_world st; ks_calls := rs_calls st; ks_scope := sc' |} rfs other Hrfs) as Ha.
  rewrite Hrun in Ha. cbn [ks_world ks_scope fst] in Ha. unfold policy_name in Ha. rewrite Hap', Hap in Ha.
  rewrite Hend. etrans; [by apply Ha|]. set (st1 := {| rs_world := ks_world ks |}).
  apply (after_status_state (λ st2, same_for other (rs_world st1) (rs_world st2))); [done|].
  intros ap' _. apply (update_same_for other ap' st1).
Qed.

Lemma call_same_for clock rand resolver req other (st : RState W) :
  req ≠ other → same_for other (rs_world st) (rs_world (Reconcile clock rand resolver req st).1).
Proof.
  intros Hne. unfold Reconcile. destruct (policy_get (rs_world st) req) as [stored| |] eqn:Hget; [|done..].
  destruct (has _); [done|]. pose proof (patch_same_for other (InitializeStatus stored) (rs_world st)) as Hp.
  destruct (patch_labels _ _) as [w [original [e|]]]; cbn [fst] in Hp; [exact Hp|]. etrans; [exact Hp|].
  destruct (resolveAuthPolicy _ _ _) as [sc|e|m] eqn:Hres; [| |done].
  - apply policy_get_key in Hget. rewrite <-Hget in Hne.
    exact (resolved_run_same_for _ _ _ _ original _ _ {| rs_world := w; rs_calls := rs_calls st; rs_gauge := rs_gauge st |} _ Hres Hne).
  - pose proof (update_same_for other (failed_status (InitializeStatus stored) e)
      {| rs_world := w; rs_calls := rs_calls st; rs_gauge := rs_gauge st |}) as Hu.
    by destruct (UpdateStatus _ _) as [st1 [| |]].
Qed.

(** A call: its times, its random bytes, the answers of the identity providers, and
    the policy it is for. *)
Record Call := {
  call_clock : nat → Z;
  call_rand : Random;
  call_resolver : string → go DiscoveryDocument;
  call_req : NamespacedName;
}.

Definition run_call (st : RState W) (c : Call) : RState W :=
  (Reconcile (call_clock c) (call_rand c) (call_resolver c) (call_req c) st).1.

(** What a run without errors establishes for its scope ([successful_run_establishes]). *)
Definition all_established (sc : Scope) (s : option Secret) (f : option EnvoyFilter) (w : W) : Prop :=
  let name := policy_name sc in
  established sc (EnvoySecret_name name) s w ∧
  established sc (EnvoyFilter_name name) f w ∧
  established sc name (request_authentication_GetDesired sc (meta_for sc name)) w ∧
  established sc (DenyPolicy_name name) (deny_GetDesired sc (meta_for sc (DenyPolicy_name name))) w ∧
  established sc (IgnorePolicy_name name) (ignore_GetDesired sc (meta_for sc (IgnorePolicy_name name))) w ∧
  established sc (RequirePolicy_name name) (require_GetDesired sc (meta_for sc (RequirePolicy_name name))) w.

Lemma established_same {T} `{!Controlled T} `{!Updatable T} `{!Client W T} sc name (d : option T) (w w' : W) :
  client_get (T := T) w' (key_for (policy_key (sc_AuthPolicy sc)) name) =
    client_get w (key_for (policy_key (sc_AuthPolicy sc)) name) →
  established sc name d w → established sc name d w'.
Proof.
  unfold established. change (key_for (policy_key (sc_AuthPolicy sc)) name)
    with {| nn_Namespace := policy_namespace sc; nn_Name := name |}. by intros ->.
Qed.

Lemma established_apart sc s f (w w' : W) :
  same_for (policy_key (sc_AuthPolicy sc)) w w' → all_established sc s f w → all_established sc s f w'.
Proof.
  intros (Hs & Hf & Ha & Hp) (H1' & H2' & H3' & H4' & H5' & H6').
  split_and!; eapply established_same; try eassumption; apply Hp; unfold policy_names; set_solver.
Qed.

(** Claim C10. Policies do not disturb each other. However many calls of [Reconcile]
    there are for other policies, in whatever order, with whatever content and
    outcome: each of the six objects of a policy is read as before, as no name made
    for one policy is one made for another; and what a run without errors for the
    policy has established stays established. *)
Theorem policies_isolated other calls (st : RState W) :
  Forall (λ c, call_req c ≠ other) calls →
  let st' := foldl run_call st calls in
  same_for other (rs_world st) (rs_world st') ∧
  ∀ sc s f, policy_key (sc_AuthPolicy sc) = other →
    all_established sc s f (rs_world st) → all_established sc s f (rs_world st').
Proof.
  intros Hc. cbv zeta. assert (same_for other (rs_world st) (rs_world (foldl run_call st calls))) as Hs.
  { revert st. induction Hc as [|c calls Hne _ IH]; intros st; cbn [foldl]; [done|].
    etrans; [|apply IH]. by apply call_same_for. }
  split; [exact Hs|]. intros sc s f <-. by apply established_apart.
Qed.
End isolation.

(** ** In the cluster *)

#[export] Instance cluster_patch_apart {T} `{Stored T} : PatchApart cluster T.
Proof. by split. Qed.

#[local] Existing Instances example_parser example_pb example_yaml content_equal.

(** A second policy of the namespace, whose name begins with that of the first. *)
Definition second_policy : AuthPolicy :=
  let ap := stored_policy idp_uri [role_rule "/admin" "admin"] in
  {| ap_Kind := ap_Kind ap; Spec := Spec ap; Status := Status ap;
     ap_Meta := buildObjectMeta "app-login" "team" |}.

Definition second_key : NamespacedName := {| nn_Namespace := "team"; nn_Name := "app-login" |}.

Definition second_call : Call := {|
  call_clock := example_clock; call_rand := example_rand; call_resolver := idp_resolver; call_req := second_key |}.

(** The state after a call for the first policy, with the second one added. *)
Definition two_policies : RState cluster :=
  let st := (Reconcile example_clock example_rand idp_resolver app_key (login_cluster "client")).1 in
  {| rs_world := put_policy (rs_world st) second_policy; rs_calls := rs_calls st; rs_gauge := rs_gauge st |}.

(** The call for the second policy creates its objects, and leaves those of the first. *)
Lemma policies_isolated_witness :
  let st' := foldl run_call two_policies [second_call; second_call] in
  length (rs_calls st') = 3 + length (rs_calls two_policies) ∧ same_for app_key (rs_world two_policies) (rs_world st').
Proof.
  cbv zeta. split; [vm_compute; reflexivity|].
  apply (policies_isolated app_key [second_call; second_call] two_policies). by repeat constructor.
Defined.
